(** * The synchronisation engine of mbsync (src/sync.c), embedded in Rocq

    The engine is a callback-driven state machine over one [sync_vars_t].
    It is embedded here by explicit state passing: every C function that
    mutates [*svars] is a function [sync_vars -> sync_vars], and every
    effect on the outside world (journal and state-file writes, file
    operations, driver requests, diagnostics, the completion callback) is
    appended to the [trace] carried in the state.  Driver requests complete
    asynchronously: a completion is a separate call of the callback
    function of the request ([box_loaded], [msg_copied], ...).

    Linked lists ([svars->srecs], [ctx->msgs]) are lists, and a pointer
    into one of them is an index ([None] is the null pointer). *)

From Stdlib Require Import ZArith List Ascii Lia Bool.
From stdpp Require Import base list.
Import ListNotations.
Local Open Scope Z_scope.

(* ================================================================== *)
(** ** C scalars *)

Definition INT_MAX : Z := 2147483647.
Definition INT_MIN : Z := -2147483648.

(** The values of a 32-bit [int]. *)
Definition is_int (z : Z) : Prop := INT_MIN <= z <= INT_MAX.

(** Conversion of a mathematical value to [int] (two's complement). *)
Definition wrap_int (z : Z) : Z := (z + 2 ^ 31) mod 2 ^ 32 - 2 ^ 31.

(** [z + 1] where [z] is an [int]: [INT_MAX + 1] wraps around to [INT_MIN]. *)
Definition int_succ (z : Z) : Z := if z =? INT_MAX then INT_MIN else z + 1.

(** Conversion to [unsigned char]. *)
Definition to_uchar (z : Z) : Z := z mod 256.

(** [x & bit] used as a condition. *)
Definition has (x bit : Z) : bool := negb (Z.land x bit =? 0).

(** [x & ~bit]. *)
Definition clear (x bit : Z) : Z := Z.land x (Z.lnot bit).

(* ================================================================== *)
(** ** The two sides of a channel: [M] is 0 and [S] is 1 (isync.h) *)

Module Side.
Inductive t : Set := M | S.
End Side.
Abbreviation side := Side.t.

Definition side_idx (t : side) : Z :=
  match t with Side.M => 0 | Side.S => 1 end.

(** [1-t] *)
Definition other (t : side) : side :=
  match t with Side.M => Side.S | Side.S => Side.M end.

Definition side_eqb (a b : side) : bool :=
  match a, b with
  | Side.M, Side.M | Side.S, Side.S => true
  | _, _ => false
  end.

(** A two-element array indexed by a side, such as [int uid[2]]. *)
Definition arr2 (A : Type) : Type := (A * A)%type.

Definition sel {A} (t : side) (a : arr2 A) : A :=
  match t with Side.M => fst a | Side.S => snd a end.

Definition upd {A} (t : side) (v : A) (a : arr2 A) : arr2 A :=
  match t with Side.M => (v, snd a) | Side.S => (fst a, v) end.

(* ================================================================== *)
(** ** Constants of isync.h and sync.c *)

Definition OP_NEW : Z := 1.
Definition OP_RENEW : Z := 2.
Definition OP_DELETE : Z := 4.
Definition OP_FLAGS : Z := 8.
Definition OP_EXPUNGE : Z := 16.
Definition OP_CREATE : Z := 32.

Definition F_DRAFT : Z := 1.
Definition F_FLAGGED : Z := 2.
Definition F_ANSWERED : Z := 4.
Definition F_SEEN : Z := 8.
Definition F_DELETED : Z := 16.

Definition M_RECENT : Z := 1.
Definition M_DEAD : Z := 2.
Definition M_FLAGS : Z := 4.
Definition M_TIME : Z := 8.

Definition TUIDL : nat := 12.

Definition OPEN_OLD : Z := 1.
Definition OPEN_NEW : Z := 2.
Definition OPEN_FLAGS : Z := 4.
Definition OPEN_SIZE : Z := 8.
Definition OPEN_EXPUNGE : Z := 32.
Definition OPEN_SETFLAGS : Z := 64.
Definition OPEN_APPEND : Z := 128.
Definition OPEN_FIND : Z := 256.
Definition OPEN_TIME : Z := 512.

Definition DRV_OK : Z := 0.
Definition DRV_MSG_BAD : Z := 1.
Definition DRV_BOX_BAD : Z := 2.
Definition DRV_CANCELED : Z := 3.

Definition SYNC_OK : Z := 0.
Definition SYNC_FAIL : Z := 1.
Definition SYNC_FAIL_ALL : Z := 2.
Definition SYNC_BAD (ms : side) : Z := Z.shiftl 4 (side_idx ms).
Definition SYNC_NOGOOD : Z := 16.
Definition SYNC_CANCELED : Z := 32.

Definition S_DEAD : Z := 1.
Definition S_DONE : Z := 2.
Definition S_DEL (ms : side) : Z := Z.shiftl 1 (2 + side_idx ms).
Definition S_EXPIRED : Z := 16.
Definition S_EXPIRE : Z := 32.
Definition S_NEXPIRE : Z := 64.
Definition S_EXP_S : Z := 128.
Definition S_FIND : Z := 256.

Definition ST_LOADED : Z := 1.
Definition ST_SENT_NEW : Z := 2.
Definition ST_FOUND_NEW : Z := 4.
Definition ST_SENT_FLAGS : Z := 8.
Definition ST_SENT_TRASH : Z := 16.
Definition ST_CLOSED : Z := 32.
Definition ST_SENT_CANCEL : Z := 64.
Definition ST_CANCELED : Z := 128.
Definition ST_SELECTED : Z := 256.
Definition ST_DID_EXPUNGE : Z := 65536.

Definition KEEPJOURNAL : Z := 32.

(** [mvBit(in,ib,ob)]: [(unsigned char)(in * ob / ib)]. *)
Definition mvBit (i ib ob : Z) : Z := to_uchar (i * ob / ib).

(* ================================================================== *)
(** ** Characters and C strings *)

Definition NUL : ascii := "000"%char.
Definition NL : ascii := "010"%char.
Definition SP : ascii := " "%char.

Definition code (c : ascii) : Z := Z.of_N (N_of_ascii c).

(** [isspace] in the C locale. *)
Definition isspace (c : ascii) : bool :=
  (code c =? 32) || ((9 <=? code c) && (code c <=? 13)).

Definition isdigit (c : ascii) : bool :=
  (48 <=? code c) && (code c <=? 57).

Definition digit_char (d : Z) : ascii := ascii_of_N (Z.to_N (48 + d)).

(** The C string held in a buffer: the bytes before the first NUL. *)
Fixpoint c_str (buf : list ascii) : list ascii :=
  match buf with
  | [] => []
  | c :: buf' => if Ascii.eqb c NUL then [] else c :: c_str buf'
  end.

(** [buf[i]] of a NUL-terminated buffer. *)
Definition char_at (buf : list ascii) (i : nat) : ascii := nth i buf NUL.

(* ------------------------------------------------------------------ *)
(** *** printf conversions *)

(** The decimal digits of [n], most significant first; [fuel] digits at
    most.  An [int] has at most 10. *)
Fixpoint dec_digits (fuel : nat) (n : Z) : list ascii :=
  match fuel with
  | O => []
  | Datatypes.S f =>
      (if n <? 10 then [] else dec_digits f (n / 10)) ++ [digit_char (n mod 10)]
  end.

(** [%d] applied to an [int]. *)
Definition fmt_d (z : Z) : list ascii :=
  if z <? 0 then "-"%char :: dec_digits 10 (- z) else dec_digits 10 z.

(** [%u] applied to an [unsigned]. *)
Definition fmt_u (z : Z) : list ascii := dec_digits 10 z.

(* ------------------------------------------------------------------ *)
(** *** scanf conversions

    A conversion returns the converted value and the rest of the input,
    or [None] when it fails.  The callers only compare the number of
    successful conversions with the number they need, so an input failure
    (EOF) and a matching failure are not distinguished. *)

Fixpoint skip_space (s : list ascii) : list ascii :=
  match s with
  | c :: s' => if isspace c then skip_space s' else s
  | [] => []
  end.

Fixpoint scan_digits (acc : Z) (s : list ascii) : Z * list ascii :=
  match s with
  | c :: s' =>
      if isdigit c then scan_digits (10 * acc + (code c - 48)) s' else (acc, s)
  | [] => (acc, [])
  end.

(** The value that [strtol] makes of a digit string: a [long], which
    saturates at [LONG_MIN] and [LONG_MAX]. *)
Definition LONG_MAX : Z := 9223372036854775807.
Definition LONG_MIN : Z := -9223372036854775808.

Definition sat_long (z : Z) : Z := Z.max LONG_MIN (Z.min LONG_MAX z).

(** [%d]: white space, an optional sign, decimal digits.  The digits are
    converted as by [strtol], and the [long] is stored in an [int]. *)
Definition scan_d (s : list ascii) : option (Z * list ascii) :=
  let s0 := skip_space s in
  let '(neg, s1) :=
    match s0 with
    | c :: r =>
        if Ascii.eqb c "-"%char then (true, r)
        else if Ascii.eqb c "+"%char then (false, r)
        else (false, s0)
    | [] => (false, s0)
    end in
  match s1 with
  | c :: _ =>
      if isdigit c then
        let '(v, r) := scan_digits 0 s1 in
        Some (wrap_int (sat_long (if neg : bool then - v else v)), r)
      else None
  | [] => None
  end.

Fixpoint take_nonspace (w : nat) (s : list ascii) : list ascii * list ascii :=
  match w, s with
  | Datatypes.S w', c :: s' =>
      if isspace c then ([], s)
      else let '(tok, r) := take_nonspace w' s' in (c :: tok, r)
  | _, _ => ([], s)
  end.

(** [%ws] with field width [w]: white space, then at most [w] characters
    that are not white space; fails when there is none. *)
Definition scan_s (w : nat) (s : list ascii) : option (list ascii * list ascii) :=
  match take_nonspace w (skip_space s) with
  | ([], _) => None
  | (tok, r) => Some (tok, r)
  end.

(** A literal character of the format. *)
Definition scan_lit (c : ascii) (s : list ascii) : option (list ascii) :=
  match s with
  | c' :: r => if Ascii.eqb c c' then Some r else None
  | [] => None
  end.

(* ------------------------------------------------------------------ *)
(** *** Reading a file line by line

    [fgets_lines room cur s] is the sequence of buffers that successive
    calls of [fgets( buf, sizeof(buf), f )] return on a stream holding [s];
    [room] characters still fit into the current buffer and [cur] holds
    those already read, last one first.  [sizeof(buf)] is 128 throughout. *)

Definition BUFSZ : nat := 128.

Fixpoint fgets_lines (room : nat) (cur : list ascii) (s : list ascii)
  : list (list ascii) :=
  match s with
  | [] => match cur with [] => [] | _ => [rev cur] end
  | c :: s' =>
      if Ascii.eqb c NL || (room =? 1)%nat
      then rev (c :: cur) :: fgets_lines (BUFSZ - 1) [] s'
      else fgets_lines (room - 1) (c :: cur) s'
  end.

Definition file_lines (s : list ascii) : list (list ascii) :=
  fgets_lines (BUFSZ - 1) [] s.

(** [!(t = strlen( buf )) || buf[t - 1] != '\n'] *)
Definition incomplete (buf : list ascii) : bool :=
  match rev (c_str buf) with
  | c :: _ => negb (Ascii.eqb c NL)
  | [] => true
  end.

(* ================================================================== *)
(** ** Message flags in the state file *)

Definition Flags : list ascii :=
  ["D"%char; "F"%char; "R"%char; "S"%char; "T"%char].

(** [parse_flags]: the loop state is [(flags, d)], [i] runs over
    [0 .. as(Flags)-1]. *)
Definition parse_flags (buf : list ascii) : Z :=
  fst (fold_left
         (fun (st : Z * nat) (i : nat) =>
            let '(flags, d) := st in
            if Ascii.eqb (char_at buf d) (char_at Flags i)
            then (Z.lor flags (Z.shiftl 1 (Z.of_nat i)), Datatypes.S d)
            else (flags, d))
         (seq 0 (length Flags)) (0, O)).

(** [make_flags]: the characters stored into [buf] (before the
    terminating NUL); the return value [d] is their number. *)
Definition make_flags (flags : Z) : list ascii :=
  fold_left
    (fun (buf : list ascii) (i : nat) =>
       if has flags (Z.shiftl 1 (Z.of_nat i))
       then buf ++ [char_at Flags i] else buf)
    (seq 0 (length Flags)) [].

(* ================================================================== *)
(** ** Data model *)

(** [sync_rec_t].  [msg[t]] points into [ctx[t]->msgs]. *)
Record sync_rec := mk_srec {
  uid : arr2 Z;
  msg : arr2 (option nat);
  status : Z;                 (* unsigned char *)
  flags : Z;                  (* unsigned char *)
  aflags : arr2 Z;
  dflags : arr2 Z;
  tuid : list ascii           (* char tuid[TUIDL] *)
}.

Definition set_uid (v : arr2 Z) (r : sync_rec) : sync_rec :=
  mk_srec v (msg r) (status r) (flags r) (aflags r) (dflags r) (tuid r).
Definition set_msg (v : arr2 (option nat)) (r : sync_rec) : sync_rec :=
  mk_srec (uid r) v (status r) (flags r) (aflags r) (dflags r) (tuid r).
Definition set_status (v : Z) (r : sync_rec) : sync_rec :=
  mk_srec (uid r) (msg r) v (flags r) (aflags r) (dflags r) (tuid r).
Definition set_flags_ (v : Z) (r : sync_rec) : sync_rec :=
  mk_srec (uid r) (msg r) (status r) v (aflags r) (dflags r) (tuid r).
Definition set_aflags (v : arr2 Z) (r : sync_rec) : sync_rec :=
  mk_srec (uid r) (msg r) (status r) (flags r) v (dflags r) (tuid r).
Definition set_dflags (v : arr2 Z) (r : sync_rec) : sync_rec :=
  mk_srec (uid r) (msg r) (status r) (flags r) (aflags r) v (tuid r).
Definition set_tuid (v : list ascii) (r : sync_rec) : sync_rec :=
  mk_srec (uid r) (msg r) (status r) (flags r) (aflags r) (dflags r) v.

(** [tuid[0] = 0] *)
Definition tuid_clear (tu : list ascii) : list ascii :=
  match tu with
  | [] => []
  | _ :: r => NUL :: r
  end.

(** [tuid[0]] as a condition. *)
Definition tuid_set (tu : list ascii) : bool :=
  negb (Ascii.eqb (char_at tu 0) NUL).

(** [!memcmp( a, b, n )] *)
Definition memcmp_eq (a b : list ascii) (n : nat) : bool :=
  forallb (fun i => Ascii.eqb (char_at a i) (char_at b i)) (seq 0 n).

(** [message_t] (the fields the engine reads).  [m_srec] points into
    [svars->srecs]. *)
Record message := mk_msg {
  m_srec : option nat;
  m_size : Z;                 (* size_t *)
  m_uid : Z;
  m_flags : Z;                (* unsigned char *)
  m_status : Z;               (* unsigned char *)
  m_tuid : list ascii
}.

Definition set_m_srec (v : option nat) (m : message) : message :=
  mk_msg v (m_size m) (m_uid m) (m_flags m) (m_status m) (m_tuid m).

(** [store_conf_t]; [trash] is whether the pointer is set. *)
Record store_conf := mk_store_conf {
  trash : bool;
  max_size : Z;               (* unsigned *)
  trash_remote_new : bool;
  trash_only_new : bool
}.

Record channel_conf := mk_channel_conf {
  stores : arr2 store_conf;
  ops : arr2 Z;
  max_messages : Z            (* unsigned *)
}.

(** [store_t]: the currently open mailbox of one side. *)
Record store := mk_store {
  conf : store_conf;
  msgs : list message;
  uidvalidity : Z;
  uidnext : Z;
  opts : Z;
  count : Z;
  recent : Z
}.

Definition set_msgs (v : list message) (c : store) : store :=
  mk_store (conf c) v (uidvalidity c) (uidnext c) (opts c) (count c) (recent c).
Definition set_opts (v : Z) (c : store) : store :=
  mk_store (conf c) (msgs c) (uidvalidity c) (uidnext c) v (count c) (recent c).

(** What travels with a copy request: [copy_vars_t]. *)
Inductive copy_cb := Cb_msg_copied | Cb_msg_rtrashed.

Record copy_vars := mk_copy_vars {
  cv_cb : copy_cb;
  cv_aux : side;
  cv_srec : option nat;
  cv_msg : nat
}.

(** What travels with a flag request: [flag_vars_t] and its callback. *)
Inductive flag_cb :=
| Cb_flags_set_del (srec : nat)
| Cb_flags_set_sync (srec : nat) (aflags dflags : Z).

(** Requests to the driver of one side. *)
Inductive drv_call :=
| prepare_opts (opts : Z)
| load (minuid maxuid newuid : Z) (excs : list Z)
| fetch_msg (vars : copy_vars)
| store_msg (vars : copy_vars) (to_trash : bool)
| find_new_msgs
| set_flags (msg : option nat) (uid add del : Z) (cb : flag_cb)
| trash_msg (msg : nat)
| commit
| close
| cancel
| cancel_store.

(** Operations that change the files of the channel. *)
Inductive file_op :=
| Open_lock            (* open( lname, O_WRONLY|O_CREAT ) *)
| Open_new_w           (* fopen( nname, "w" ) *)
| Open_journal_a       (* fopen( jname, "a" ) *)
| Close_new            (* Fclose( nfp ) *)
| Close_journal        (* Fclose( jfp ) *)
| Rename_new_state     (* rename( nname, dname ) *)
| Unlink_journal       (* unlink( jname ) *)
| Unlink_lock          (* unlink( lname ) *)
| Close_lock.          (* close( lfd ) *)

(** Diagnostics of [error], [warn] and [info] that matter below. *)
Inductive diag :=
| Err_lock_create
| Err_locked
| Err_state_header_incomplete
| Err_state_header_invalid
| Err_state_entry_incomplete (line : nat)
| Err_state_entry_invalid (line : nat)
| Err_state_read
| Err_journal_header_incomplete
| Err_journal_version
| Err_journal_entry_incomplete (line : nat)
| Err_journal_entry_malformed (line : nat)
| Err_journal_entry_dangling (line : nat)
| Err_journal_entry_unrecognized (line : nat)
| Err_journal_read
| Err_uidvalidity (t : side) (got expected : Z)
| Err_new_write
| Err_journal_write
| Warn_lost (t : side) (num_lost : Z)
| Warn_cannot_find (t : side)
| Warn_incomplete_header (t : side) (uid : Z)
| Warn_refused (t : side) (uid : Z)
| Info_conflict (uidM uidS : Z).

Inductive event :=
| EJournal (line : list ascii)   (* Fprintf( svars->jfp, ... ) *)
| ENewState (line : list ascii)  (* Fprintf( svars->nfp, ... ) *)
| EDrv (t : side) (c : drv_call) (* svars->drv[t]->... *)
| EFile (f : file_op)
| EDiag (d : diag)
| ECallback (ret : Z).           (* svars->cb( ret, aux ) *)

(** [sync_vars_t], with the stores it points to, the global [DFlags] and
    the trace. *)
Record sync_vars := mk_svars {
  srecs : list sync_rec;
  chan : channel_conf;
  ctx : arr2 store;
  state : arr2 Z;
  ref_count : Z;
  ret : Z;
  lfd : Z;
  new_total : arr2 Z;
  new_done : arr2 Z;
  flags_total : arr2 Z;
  flags_done : arr2 Z;
  trash_total : arr2 Z;
  trash_done : arr2 Z;
  maxuid : arr2 Z;
  uidval : arr2 Z;
  newuid : arr2 Z;
  smaxxuid : Z;
  DFlags : Z;
  trace : list event
}.

Definition set_srecs (v : list sync_rec) (s : sync_vars) : sync_vars :=
  mk_svars v (chan s) (ctx s) (state s) (ref_count s) (ret s) (lfd s)
    (new_total s) (new_done s) (flags_total s) (flags_done s)
    (trash_total s) (trash_done s) (maxuid s) (uidval s) (newuid s)
    (smaxxuid s) (DFlags s) (trace s).
Definition set_ctx (v : arr2 store) (s : sync_vars) : sync_vars :=
  mk_svars (srecs s) (chan s) v (state s) (ref_count s) (ret s) (lfd s)
    (new_total s) (new_done s) (flags_total s) (flags_done s)
    (trash_total s) (trash_done s) (maxuid s) (uidval s) (newuid s)
    (smaxxuid s) (DFlags s) (trace s).
Definition set_state (v : arr2 Z) (s : sync_vars) : sync_vars :=
  mk_svars (srecs s) (chan s) (ctx s) v (ref_count s) (ret s) (lfd s)
    (new_total s) (new_done s) (flags_total s) (flags_done s)
    (trash_total s) (trash_done s) (maxuid s) (uidval s) (newuid s)
    (smaxxuid s) (DFlags s) (trace s).
Definition set_ref_count (v : Z) (s : sync_vars) : sync_vars :=
  mk_svars (srecs s) (chan s) (ctx s) (state s) v (ret s) (lfd s)
    (new_total s) (new_done s) (flags_total s) (flags_done s)
    (trash_total s) (trash_done s) (maxuid s) (uidval s) (newuid s)
    (smaxxuid s) (DFlags s) (trace s).
Definition set_ret (v : Z) (s : sync_vars) : sync_vars :=
  mk_svars (srecs s) (chan s) (ctx s) (state s) (ref_count s) v (lfd s)
    (new_total s) (new_done s) (flags_total s) (flags_done s)
    (trash_total s) (trash_done s) (maxuid s) (uidval s) (newuid s)
    (smaxxuid s) (DFlags s) (trace s).
Definition set_lfd (v : Z) (s : sync_vars) : sync_vars :=
  mk_svars (srecs s) (chan s) (ctx s) (state s) (ref_count s) (ret s) v
    (new_total s) (new_done s) (flags_total s) (flags_done s)
    (trash_total s) (trash_done s) (maxuid s) (uidval s) (newuid s)
    (smaxxuid s) (DFlags s) (trace s).
Definition set_new_total (v : arr2 Z) (s : sync_vars) : sync_vars :=
  mk_svars (srecs s) (chan s) (ctx s) (state s) (ref_count s) (ret s)
    (lfd s) v (new_done s) (flags_total s) (flags_done s) (trash_total s)
    (trash_done s) (maxuid s) (uidval s) (newuid s) (smaxxuid s) (DFlags s)
    (trace s).
Definition set_new_done (v : arr2 Z) (s : sync_vars) : sync_vars :=
  mk_svars (srecs s) (chan s) (ctx s) (state s) (ref_count s) (ret s)
    (lfd s) (new_total s) v (flags_total s) (flags_done s) (trash_total s)
    (trash_done s) (maxuid s) (uidval s) (newuid s) (smaxxuid s) (DFlags s)
    (trace s).
Definition set_flags_total (v : arr2 Z) (s : sync_vars) : sync_vars :=
  mk_svars (srecs s) (chan s) (ctx s) (state s) (ref_count s) (ret s)
    (lfd s) (new_total s) (new_done s) v (flags_done s) (trash_total s)
    (trash_done s) (maxuid s) (uidval s) (newuid s) (smaxxuid s) (DFlags s)
    (trace s).
Definition set_flags_done (v : arr2 Z) (s : sync_vars) : sync_vars :=
  mk_svars (srecs s) (chan s) (ctx s) (state s) (ref_count s) (ret s)
    (lfd s) (new_total s) (new_done s) (flags_total s) v (trash_total s)
    (trash_done s) (maxuid s) (uidval s) (newuid s) (smaxxuid s) (DFlags s)
    (trace s).
Definition set_trash_total (v : arr2 Z) (s : sync_vars) : sync_vars :=
  mk_svars (srecs s) (chan s) (ctx s) (state s) (ref_count s) (ret s)
    (lfd s) (new_total s) (new_done s) (flags_total s) (flags_done s) v
    (trash_done s) (maxuid s) (uidval s) (newuid s) (smaxxuid s) (DFlags s)
    (trace s).
Definition set_trash_done (v : arr2 Z) (s : sync_vars) : sync_vars :=
  mk_svars (srecs s) (chan s) (ctx s) (state s) (ref_count s) (ret s)
    (lfd s) (new_total s) (new_done s) (flags_total s) (flags_done s)
    (trash_total s) v (maxuid s) (uidval s) (newuid s) (smaxxuid s)
    (DFlags s) (trace s).
Definition set_maxuid (v : arr2 Z) (s : sync_vars) : sync_vars :=
  mk_svars (srecs s) (chan s) (ctx s) (state s) (ref_count s) (ret s)
    (lfd s) (new_total s) (new_done s) (flags_total s) (flags_done s)
    (trash_total s) (trash_done s) v (uidval s) (newuid s) (smaxxuid s)
    (DFlags s) (trace s).
Definition set_uidval (v : arr2 Z) (s : sync_vars) : sync_vars :=
  mk_svars (srecs s) (chan s) (ctx s) (state s) (ref_count s) (ret s)
    (lfd s) (new_total s) (new_done s) (flags_total s) (flags_done s)
    (trash_total s) (trash_done s) (maxuid s) v (newuid s) (smaxxuid s)
    (DFlags s) (trace s).
Definition set_newuid (v : arr2 Z) (s : sync_vars) : sync_vars :=
  mk_svars (srecs s) (chan s) (ctx s) (state s) (ref_count s) (ret s)
    (lfd s) (new_total s) (new_done s) (flags_total s) (flags_done s)
    (trash_total s) (trash_done s) (maxuid s) (uidval s) v (smaxxuid s)
    (DFlags s) (trace s).
Definition set_smaxxuid (v : Z) (s : sync_vars) : sync_vars :=
  mk_svars (srecs s) (chan s) (ctx s) (state s) (ref_count s) (ret s)
    (lfd s) (new_total s) (new_done s) (flags_total s) (flags_done s)
    (trash_total s) (trash_done s) (maxuid s) (uidval s) (newuid s) v
    (DFlags s) (trace s).

(** Appending an effect to the trace. *)
Definition emit (e : event) (s : sync_vars) : sync_vars :=
  mk_svars (srecs s) (chan s) (ctx s) (state s) (ref_count s) (ret s)
    (lfd s) (new_total s) (new_done s) (flags_total s) (flags_done s)
    (trash_total s) (trash_done s) (maxuid s) (uidval s) (newuid s)
    (smaxxuid s) (DFlags s) (trace s ++ [e]).

(** [srec->field = ...] through a pointer into [svars->srecs]. *)
Definition upd_srec (i : nat) (f : sync_rec -> sync_rec) (s : sync_vars)
  : sync_vars :=
  set_srecs (alter f i (srecs s)) s.

(** [tmsg->field = ...] through a pointer into [ctx[t]->msgs]. *)
Definition upd_msg (t : side) (k : nat) (f : message -> message)
  (s : sync_vars) : sync_vars :=
  let c := sel t (ctx s) in
  set_ctx (upd t (set_msgs (alter f k (msgs c)) c) (ctx s)) s.

(** [svars->state[t] |= bit] *)
Definition state_or (t : side) (bit : Z) (s : sync_vars) : sync_vars :=
  set_state (upd t (Z.lor (sel t (state s)) bit) (state s)) s.

(** The state [sync_boxes] starts from ([nfcalloc], then the explicit
    initialisations). *)
Definition sync_boxes_init (ch : channel_conf) (cx : arr2 store) (dflags : Z)
  : sync_vars :=
  mk_svars [] ch cx (0, 0) 1 0 0 (0, 0) (0, 0) (0, 0) (0, 0) (0, 0) (0, 0)
    (0, 0) (-1, -1) (0, 0) 0 dflags [].

(* ================================================================== *)
(** ** The sync state file (box_closed_p2 writes it, box_selected reads it) *)

(** ["%d:%d %d:%d:%d\n"] of [uidval[M]], [maxuid[M]], [uidval[S]],
    [smaxxuid], [maxuid[S]]. *)
Definition state_header_line (s : sync_vars) : list ascii :=
  fmt_d (sel Side.M (uidval s)) ++ ":"%char ::
  fmt_d (sel Side.M (maxuid s)) ++ SP ::
  fmt_d (sel Side.S (uidval s)) ++ ":"%char ::
  fmt_d (smaxxuid s) ++ ":"%char ::
  fmt_d (sel Side.S (maxuid s)) ++ [NL].

(** ["%d %d %s%s\n"] of [uid[M]], [uid[S]], ["X"] or [""], and the
    buffer filled by [make_flags]. *)
Definition state_entry_line (r : sync_rec) : list ascii :=
  fmt_d (sel Side.M (uid r)) ++ SP ::
  fmt_d (sel Side.S (uid r)) ++ SP ::
  (if has (status r) S_EXPIRED then ["X"%char] else []) ++
  make_flags (flags r) ++ [NL].

(** The writes to [svars->nfp] at the end of [box_closed_p2]. *)
Definition write_new_state (s : sync_vars) : sync_vars :=
  fold_left
    (fun (s' : sync_vars) (srec : sync_rec) =>
       if has (status srec) S_DEAD then s'
       else emit (ENewState (state_entry_line srec)) s')
    (srecs s)
    (emit (ENewState (state_header_line s)) s).

(** What a trace has written to [state.new] (opened with ["w"]). *)
Fixpoint nfp_content (tr : list event) : list ascii :=
  match tr with
  | [] => []
  | ENewState line :: tr' => line ++ nfp_content tr'
  | _ :: tr' => nfp_content tr'
  end.

(** What a trace has appended to the journal. *)
Fixpoint jfp_content (tr : list event) : list ascii :=
  match tr with
  | [] => []
  | EJournal line :: tr' => line ++ jfp_content tr'
  | _ :: tr' => jfp_content tr'
  end.

(** The result of [fopen( name, "r" )]. *)
Inductive fopen_r :=
| Opened (content : list ascii)
| ENOENT
| EOTHER.

(** [sscanf( buf, "%63s %63s", buf1, buf2 )] with both conversions done. *)
Definition sscanf_s_s (buf : list ascii) : option (list ascii * list ascii) :=
  '(buf1, r) ← scan_s 63 buf;
  '(buf2, _) ← scan_s 63 r;
  Some (buf1, buf2).

(** [sscanf( buf, "%d:%d", &a, &b )] with both conversions done. *)
Definition sscanf_d_d (buf : list ascii) : option (Z * Z) :=
  '(a, r1) ← scan_d buf;
  r2 ← scan_lit ":"%char r1;
  '(b, _) ← scan_d r2;
  Some (a, b).

(** [sscanf( buf, "%d:%d:%d", &a, &b, &c )] with all conversions done. *)
Definition sscanf_d_d_d (buf : list ascii) : option (Z * Z * Z) :=
  '(a, r1) ← scan_d buf;
  r2 ← scan_lit ":"%char r1;
  '(b, r3) ← scan_d r2;
  r4 ← scan_lit ":"%char r3;
  '(c, _) ← scan_d r4;
  Some (a, b, c).

(** The header of the state file:
    [sscanf( buf, "%63s %63s", buf1, buf2 ) != 2 ||
     sscanf( buf1, "%d:%d", &svars->uidval[M], &svars->maxuid[M] ) < 2 ||
     sscanf( buf2, "%d:%d:%d", &svars->uidval[S], &svars->smaxxuid,
             &svars->maxuid[S] ) < 3] is the failure. *)
Definition parse_header (buf : list ascii) : option (Z * Z * Z * Z * Z) :=
  '(buf1, buf2) ← sscanf_s_s buf;
  '(uvM, muM) ← sscanf_d_d buf1;
  '(uvS, sx, muS) ← sscanf_d_d_d buf2;
  Some (uvM, muM, uvS, sx, muS).

(** An entry of the state file:
    [fbuf[0] = 0; sscanf( buf, "%d %d %15s", &t1, &t2, fbuf ) < 2] is the
    failure; the result is [t1], [t2] and the string in [fbuf]. *)
Definition parse_entry (buf : list ascii) : option (Z * Z * list ascii) :=
  '(t1, r1) ← scan_d buf;
  '(t2, r2) ← scan_d r1;
  Some (t1, t2, match scan_s 15 r2 with Some (fbuf, _) => fbuf | None => [] end).

(** The record built from an entry.  [new] is the memory that [nfmalloc]
    returned: the fields the code does not assign keep its contents. *)
Definition entry_srec (new : sync_rec) (t1 t2 : Z) (fbuf : list ascii)
  : sync_rec :=
  let '(st, s) :=
    if Ascii.eqb (char_at fbuf 0) "X"%char
    then (Z.lor S_EXPIRE S_EXPIRED, skipn 1 fbuf)
    else (0, fbuf) in
  mk_srec (t1, t2) (None, None) st (to_uchar (parse_flags s))
    (aflags new) (dflags new) (tuid_clear (tuid new)).

(** [*svars->srecadd = srec; svars->srecadd = &srec->next] *)
Definition srec_add (srec : sync_rec) (s : sync_vars) : sync_vars :=
  set_srecs (srecs s ++ [srec]) s.

(** The [while (fgets( ... ))] loop over the entries; [line] is the number
    of the line before [lines]. *)
Fixpoint load_entries (nfmalloc : nat -> sync_rec) (lines : list (list ascii))
  (line : nat) (s : sync_vars) : diag + sync_vars :=
  match lines with
  | [] => inr s
  | buf :: lines' =>
      let line := Datatypes.S line in
      if incomplete buf then inl (Err_state_entry_incomplete line)
      else match parse_entry (c_str buf) with
           | None => inl (Err_state_entry_invalid line)
           | Some (t1, t2, fbuf) =>
               load_entries nfmalloc lines' line
                 (srec_add
                    (entry_srec (nfmalloc (length (srecs s))) t1 t2 fbuf) s)
           end
  end.

(** Reading the state file (box_selected, [fopen( svars->dname, "r" )] to
    the matching [fclose]). *)
Definition load_state (nfmalloc : nat -> sync_rec) (f : fopen_r)
  (s : sync_vars) : diag + sync_vars :=
  match f with
  | Opened content =>
      match file_lines content with
      | [] => inl Err_state_header_incomplete
      | buf :: lines =>
          if incomplete buf then inl Err_state_header_incomplete
          else match parse_header (c_str buf) with
               | None => inl Err_state_header_invalid
               | Some (uvM, muM, uvS, sx, muS) =>
                   load_entries nfmalloc lines 1
                     (set_smaxxuid sx
                        (set_maxuid (muM, muS)
                           (set_uidval (uvM, uvS) s)))
               end
      end
  | ENOENT => inr s
  | EOTHER => inl Err_state_read
  end.

(** What the state file keeps of a record. *)
Definition persisted (r : sync_rec) : arr2 Z * Z * bool :=
  (uid r, flags r, has (status r) S_EXPIRED).

Definition live (r : sync_rec) : bool := negb (has (status r) S_DEAD).

(* ================================================================== *)
(** ** The journal *)

(** A journal line written with [Fprintf( svars->jfp, ... )]: the opcode
    and the arguments, each after a space. *)
Definition jfmt (op : ascii) (args : list (list ascii)) : list ascii :=
  op :: concat (map (fun a => SP :: a) args) ++ [NL].

(** ["%.12s"] of a TUID. *)
Definition fmt_tuid (tu : list ascii) : list ascii := firstn TUIDL (c_str tu).

(** ["<>"[t]], [")("[t]], ["{}"[t]], ["><"[t]]. *)
Definition pick (t : side) (c0 c1 : ascii) : ascii :=
  match t with Side.M => c0 | Side.S => c1 end.

Definition journal (op : ascii) (args : list (list ascii)) (s : sync_vars)
  : sync_vars :=
  emit (EJournal (jfmt op args)) s.

(** The UID pair of a record, as the arguments [srec->uid[M], srec->uid[S]]. *)
Definition fmt_uids (srec : sync_rec) : list (list ascii) :=
  [fmt_d (sel Side.M (uid srec)); fmt_d (sel Side.S (uid srec))].

Definition JOURNAL_VERSION : list ascii := ["2"%char].

(** A journal entry as the replay loop holds it after the [sscanf] calls:
    [buf[0]], [t1], [t2], [t3] and, for [#], the bytes at [buf + t3 + 2]. *)
Record jline := mk_jline {
  j_op : ascii;
  j_t1 : Z;
  j_t2 : Z;
  j_t3 : Z;
  j_tuid : list ascii
}.

(** [sscanf( buf, "%d", &t1 )] *)
Definition sscanf_1 (buf : list ascii) : option Z :=
  '(a, _) ← scan_d buf; Some a.

(** [sscanf( buf, "%d %d", &t1, &t2 )] *)
Definition sscanf_2 (buf : list ascii) : option (Z * Z) :=
  '(a, r) ← scan_d buf; '(b, _) ← scan_d r; Some (a, b).

(** [sscanf( buf, "%d %d %d", &t1, &t2, &t3 )] *)
Definition sscanf_3 (buf : list ascii) : option (Z * Z * Z) :=
  '(a, r1) ← scan_d buf; '(b, r2) ← scan_d r1; '(c, _) ← scan_d r2;
  Some (a, b, c).

(** [sscanf( buf, "%d %d %n", &t1, &t2, &t3 )]: [%n] stores the number of
    characters consumed so far, after the white space. *)
Definition sscanf_2n (buf : list ascii) : option (Z * Z * nat) :=
  '(a, r1) ← scan_d buf; '(b, r2) ← scan_d r1;
  Some (a, b, (length buf - length (skip_space r2))%nat).

Definition one_of (c : ascii) (l : list ascii) : bool :=
  existsb (Ascii.eqb c) l.

(** The well-formedness test of the replay loop on the string [buf].
    [None] is "malformed journal entry".  [buf + 2] is [skipn 2 buf]: for
    a string of one character (a line that is only a line feed) the C
    code scans what an earlier line left in the buffer, and stops the
    replay in this test, in the search for the entry or in the [switch]
    below, with the diagnostic of that place; here it stops in the test. *)
Definition parse_jline (buf : list ascii) : option jline :=
  let op := char_at buf 0 in
  let args := skipn 2 buf in
  if Ascii.eqb op "#"%char then
    '(t1, t2, t3) ← sscanf_2n args;
    if (t3 =? 0)%nat || negb (length buf - t3 =? TUIDL + 3)%nat then None
    else Some (mk_jline op t1 t2 (Z.of_nat t3)
                 (firstn TUIDL (skipn (t3 + 2) buf)))
  else if one_of op ["("%char; ")"%char; "{"%char; "}"%char] then
    t1 ← sscanf_1 args; Some (mk_jline op t1 0 0 [])
  else if one_of op ["+"%char; "&"%char; "-"%char; "|"%char; "/"%char;
                     "\"%char] then
    '(t1, t2) ← sscanf_2 args; Some (mk_jline op t1 t2 0 [])
  else
    '(t1, t2, t3) ← sscanf_3 args; Some (mk_jline op t1 t2 t3 []).

(** [srec->uid[M] == t1 && srec->uid[S] == t2] *)
Definition uid_is (t1 t2 : Z) (srec : sync_rec) : bool :=
  (sel Side.M (uid srec) =? t1) && (sel Side.S (uid srec) =? t2).

(** The first record of [l] with the UID pair; [l] starts at index [i]. *)
Fixpoint find_uid (l : list sync_rec) (i : nat) (t1 t2 : Z)
  : option (nat * sync_rec) :=
  match l with
  | [] => None
  | srec :: l' =>
      if uid_is t1 t2 srec then Some (i, srec)
      else find_uid l' (Datatypes.S i) t1 t2
  end.

(** The two search loops before [syncfnd]: from the last record used
    ([srec], possibly null) to the end, then from the head up to it. *)
Definition syncfnd (l : list sync_rec) (srec : option nat) (t1 t2 : Z)
  : option (nat * sync_rec) :=
  match srec with
  | Some c =>
      match find_uid (drop c l) c t1 t2 with
      | Some f => Some f
      | None => find_uid (take c l) 0 t1 t2
      end
  | None => find_uid l 0 t1 t2
  end.

(** [memcpy( srec->tuid, src, TUIDL )] *)
Definition tuid_copy (src : list ascii) (tu : list ascii) : list ascii :=
  firstn TUIDL src ++ skipn TUIDL tu.

(** The [switch (buf[0])] on a found record [srec], at index [i]. *)
Definition replay_srec (line : nat) (e : jline) (i : nat) (srec : sync_rec)
  (s : sync_vars) : diag + sync_vars :=
  let op := j_op e in
  if Ascii.eqb op "-"%char then
    inr (upd_srec i (set_status S_DEAD) s)
  else if Ascii.eqb op "#"%char then
    inr (upd_srec i (fun r => set_tuid (tuid_copy (j_tuid e) (tuid r)) r) s)
  else if Ascii.eqb op "&"%char then
    inr (upd_srec i (fun r => set_tuid (tuid_clear (tuid r)) (set_flags_ 0 r)) s)
  else if Ascii.eqb op "<"%char then
    inr (upd_srec i
           (fun r => set_tuid (tuid_clear (tuid r))
                       (set_uid (upd Side.M (j_t3 e) (uid r)) r)) s)
  else if Ascii.eqb op ">"%char then
    inr (upd_srec i
           (fun r => set_tuid (tuid_clear (tuid r))
                       (set_uid (upd Side.S (j_t3 e) (uid r)) r)) s)
  else if Ascii.eqb op "*"%char then
    inr (upd_srec i (set_flags_ (to_uchar (j_t3 e))) s)
  else if Ascii.eqb op "~"%char then
    inr (upd_srec i
           (fun r => set_status
                       (if j_t3 e =? 0 then clear (status r) S_EXPIRE
                        else Z.lor (status r) S_EXPIRE) r) s)
  else if Ascii.eqb op "\"%char then
    inr (upd_srec i
           (fun r => set_status
                       (if has (status r) S_EXPIRED
                        then Z.lor (status r) S_EXPIRE
                        else clear (status r) S_EXPIRE) r) s)
  else if Ascii.eqb op "/"%char then
    if has (status srec) S_EXPIRE then
      let s1 :=
        if smaxxuid s <? sel Side.S (uid srec)
        then set_smaxxuid (sel Side.S (uid srec)) s else s in
      inr (upd_srec i (fun r => set_status (Z.lor (status r) S_EXPIRED) r) s1)
    else
      inr (upd_srec i (fun r => set_status (clear (status r) S_EXPIRED) r) s)
  else inl (Err_journal_entry_unrecognized line).

(** The record that a [+] entry creates in the memory [new]. *)
Definition plus_srec (new : sync_rec) (t1 t2 : Z) : sync_rec :=
  mk_srec (t1, t2) (None, None) 0 0 (aflags new) (dflags new)
    (tuid_clear (tuid new)).

(** One well-formed entry of the journal.  The state of the loop is
    [svars] and the pointer [srec]. *)
Definition replay_entry (nfmalloc : nat -> sync_rec) (line : nat) (e : jline)
  (st : sync_vars * option nat) : diag + (sync_vars * option nat) :=
  let '(s, srec) := st in
  let op := j_op e in
  if Ascii.eqb op "("%char then
    inr (set_maxuid (upd Side.M (j_t1 e) (maxuid s)) s, srec)
  else if Ascii.eqb op ")"%char then
    inr (set_maxuid (upd Side.S (j_t1 e) (maxuid s)) s, srec)
  else if Ascii.eqb op "{"%char then
    inr (set_newuid (upd Side.M (j_t1 e) (newuid s)) s, srec)
  else if Ascii.eqb op "}"%char then
    inr (set_newuid (upd Side.S (j_t1 e) (newuid s)) s, srec)
  else if Ascii.eqb op "|"%char then
    inr (set_uidval (j_t1 e, j_t2 e) s, srec)
  else if Ascii.eqb op "+"%char then
    let n := length (srecs s) in
    inr (srec_add (plus_srec (nfmalloc n) (j_t1 e) (j_t2 e)) s, Some n)
  else
    match syncfnd (srecs s) srec (j_t1 e) (j_t2 e) with
    | None => inl (Err_journal_entry_dangling line)
    | Some (i, r) =>
        match replay_srec line e i r s with
        | inl d => inl d
        | inr s' => inr (s', Some i)
        end
    end.

(** The [while (fgets( ... ))] loop over the journal entries. *)
Fixpoint replay_lines (nfmalloc : nat -> sync_rec) (lines : list (list ascii))
  (line : nat) (st : sync_vars * option nat)
  : diag + (sync_vars * option nat) :=
  match lines with
  | [] => inr st
  | buf :: lines' =>
      let line := Datatypes.S line in
      if incomplete buf then inl (Err_journal_entry_incomplete line)
      else match parse_jline (c_str buf) with
           | None => inl (Err_journal_entry_malformed line)
           | Some e =>
               match replay_entry nfmalloc line e st with
               | inl d => inl d
               | inr st' => replay_lines nfmalloc lines' line st'
               end
           end
  end.

(** Replaying a journal file: the header line, then the entries.  The
    result carries [line], which is not 0 exactly when a journal was
    replayed. *)
Definition replay_journal (nfmalloc : nat -> sync_rec) (content : list ascii)
  (s : sync_vars) : diag + (sync_vars * nat) :=
  match file_lines content with
  | [] => inr (s, O)
  | buf :: lines =>
      if incomplete buf then inl Err_journal_header_incomplete
      else if negb (memcmp_eq buf (JOURNAL_VERSION ++ [NL])
                      (length JOURNAL_VERSION + 1))
      then inl Err_journal_version
      else match replay_lines nfmalloc lines 1 (s, None) with
           | inl d => inl d
           | inr (s', _) => inr (s', Datatypes.S (length lines))
           end
  end.

(** Reading the journal (box_selected, [fopen( svars->jname, "r" )] to the
    matching [fclose]): it is replayed if [stat( svars->nname )] succeeds,
    which [new_exists] tells. *)
Definition load_journal (nfmalloc : nat -> sync_rec) (f : fopen_r)
  (new_exists : bool) (s : sync_vars) : diag + (sync_vars * nat) :=
  match f with
  | Opened content =>
      if new_exists then replay_journal nfmalloc content s else inr (s, O)
  | ENOENT => inr (s, O)
  | EOTHER => inl Err_journal_read
  end.

(* ================================================================== *)
(** ** Reference counting, cancellation and teardown *)

Definition sync_ref (s : sync_vars) : sync_vars :=
  set_ref_count (ref_count s + 1) s.

(** [sync_deref]: the result is whether [svars] was freed and the
    completion callback invoked (the C function then returns -1). *)
Definition sync_deref (s : sync_vars) : sync_vars * bool :=
  let s1 := set_ref_count (ref_count s - 1) s in
  if ref_count s1 =? 0 then (emit (ECallback (ret s1)) s1, true)
  else (s1, false).

Definition sync_bail3 (s : sync_vars) : sync_vars := fst (sync_deref s).

Definition sync_bail2 (s : sync_vars) : sync_vars := sync_bail3 s.

Definition sync_bail1 (s : sync_vars) : sync_vars :=
  sync_bail2 (emit (EFile Close_lock) s).

(** [sync_bail] frees the records (the list is not read any more) and
    removes the lock file. *)
Definition sync_bail (s : sync_vars) : sync_vars :=
  sync_bail1 (emit (EFile Unlink_lock) s).

Definition check_cancel (s : sync_vars) : bool :=
  has (Z.lor (sel Side.M (state s)) (sel Side.S (state s)))
    (Z.lor ST_SENT_CANCEL ST_CANCELED).

Definition deref_check_cancel (s : sync_vars) : sync_vars * bool :=
  let '(s1, freed) := sync_deref s in
  if freed then (s1, true) else (s1, check_cancel s1).

(** [DRIVER_CALL] and [DRIVER_CALL_RET]: the request, between [sync_ref]
    and [deref_check_cancel]; the result is whether the caller returns. *)
Definition DRIVER_CALL (t : side) (c : drv_call) (s : sync_vars)
  : sync_vars * bool :=
  deref_check_cancel (emit (EDrv t c) (sync_ref s)).

Definition cancel_done (t : side) (s : sync_vars) : sync_vars :=
  let s1 := state_or t ST_CANCELED s in
  if has (sel (other t) (state s1)) ST_CANCELED then
    if negb (lfd s1 =? 0) then
      sync_bail (emit (EFile Close_journal) (emit (EFile Close_new) s1))
    else sync_bail2 s1
  else s1.

(** One iteration of the loop of [cancel_sync]. *)
Definition cancel_side (t : side) (s : sync_vars) : sync_vars :=
  if has (ret s) (SYNC_BAD t) then cancel_done t s
  else if negb (has (sel t (state s)) ST_SENT_CANCEL) then
    emit (EDrv t cancel) (state_or t ST_SENT_CANCEL s)
  else s.

Definition cancel_sync (s : sync_vars) : sync_vars :=
  let other_state := sel Side.S (state s) in
  let s1 := cancel_side Side.M s in
  if has other_state ST_CANCELED then s1 else cancel_side Side.S s1.

Definition store_bad (t : side) (s : sync_vars) : sync_vars :=
  cancel_sync
    (set_ret (Z.lor (ret s) (SYNC_BAD t)) (emit (EDrv t cancel_store) s)).

(** [check_ret]: the result is whether the caller returns. *)
Definition check_ret (sts : Z) (s : sync_vars) : sync_vars * bool :=
  if sts =? DRV_CANCELED then (s, true)
  else if sts =? DRV_BOX_BAD then
    (cancel_sync (set_ret (Z.lor (ret s) SYNC_FAIL) s), true)
  else (s, check_cancel s).

(* ================================================================== *)
(** ** Closing: the final purge and the commit (box_closed_p2) *)

(** [(srec->status & S_DEL(t)) && (svars->state[t] & ST_DID_EXPUNGE)] *)
Definition expunged (t : side) (srec : sync_rec) (s : sync_vars) : bool :=
  has (status srec) (S_DEL t) && has (sel t (state s)) ST_DID_EXPUNGE.

(** The first loop of the purge: the minimal master UID of the records
    that stay paired. *)
Definition purge_minwuid (s : sync_vars) : Z :=
  if smaxxuid s =? 0 then INT_MAX
  else
    fold_left
      (fun (minwuid : Z) (srec : sync_rec) =>
         if has (status srec) S_DEAD then minwuid
         else if negb (((sel Side.S (uid srec) <=? 0) ||
                         expunged Side.S srec s) &&
                       ((sel Side.M (uid srec) <=? 0) ||
                         expunged Side.M srec s ||
                         has (status srec) S_EXPIRED)) &&
                 (smaxxuid s <? sel Side.S (uid srec)) &&
                 (sel Side.M (uid srec) <? minwuid)
         then sel Side.M (uid srec) else minwuid)
      (srecs s) INT_MAX.

(** The body of the second loop for the record at index [i]. *)
Definition purge_srec (minwuid : Z) (i : nat) (srec : sync_rec)
  (s : sync_vars) : sync_vars :=
  if has (status srec) S_DEAD then s
  else if (sel Side.S (uid srec) <=? 0) || expunged Side.S srec s then
    if (sel Side.M (uid srec) <=? 0) || expunged Side.M srec s ||
       (has (status srec) S_EXPIRED &&
        (sel Side.M (uid srec) <=? sel Side.M (maxuid s)) &&
        (sel Side.M (uid srec) <? minwuid))
    then
      journal "-"%char (fmt_uids srec) (upd_srec i (set_status S_DEAD) s)
    else if 0 <? sel Side.S (uid srec) then
      upd_srec i (fun r => set_uid (upd Side.S 0 (uid r)) r)
        (journal ">"%char (fmt_uids srec ++ [fmt_d 0]) s)
    else s
  else if (0 <? sel Side.M (uid srec)) && expunged Side.M srec s then
    upd_srec i (fun r => set_uid (upd Side.M 0 (uid r)) r)
      (journal "<"%char (fmt_uids srec ++ [fmt_d 0]) s)
  else s.

(** A loop [for (srec = svars->srecs; srec; srec = srec->next)] whose
    body changes the record it is at: [i] is the index of the head of
    [rs]. *)
Fixpoint for_srecs (body : nat -> sync_rec -> sync_vars -> sync_vars)
  (i : nat) (rs : list sync_rec) (s : sync_vars) : sync_vars :=
  match rs with
  | [] => s
  | srec :: rs' => for_srecs body (Datatypes.S i) rs' (body i srec s)
  end.

(** The cleanup after an expunge. *)
Definition purge (s : sync_vars) : sync_vars :=
  if has (Z.lor (sel Side.M (state s)) (sel Side.S (state s))) ST_DID_EXPUNGE
  then for_srecs (purge_srec (purge_minwuid s)) 0 (srecs s) s
  else s.

(** Closing the files, and the commit:
    [rename( svars->nname, svars->dname ); unlink( svars->jname )]. *)
Definition commit_files (s : sync_vars) : sync_vars :=
  let s1 := emit (EFile Close_journal) (emit (EFile Close_new) s) in
  if negb (has (DFlags s1) KEEPJOURNAL)
  then emit (EFile Unlink_journal) (emit (EFile Rename_new_state) s1)
  else s1.

Definition box_closed_p2 (t : side) (s : sync_vars) : sync_vars :=
  let s1 := state_or t ST_CLOSED s in
  if negb (has (sel (other t) (state s1)) ST_CLOSED) then s1
  else sync_bail (commit_files (write_new_state (purge s1))).

Definition box_closed (sts : Z) (t : side) (s : sync_vars) : sync_vars :=
  let '(s1, stop) := check_ret sts s in
  if stop then s1
  else box_closed_p2 t (state_or t ST_DID_EXPUNGE s1).

Definition sync_close (t : side) (s : sync_vars) : sync_vars :=
  if negb (Z.land (Z.lnot (sel t (state s)))
             (Z.lor ST_FOUND_NEW ST_SENT_TRASH) =? 0) ||
     (sel t (trash_done s) <? sel t (trash_total s))
  then s
  else if has (sel t (ops (chan s))) OP_EXPUNGE
  then emit (EDrv t close) s
  else box_closed_p2 t s.

(* ================================================================== *)
(** ** Pairing just-copied messages by TUID (match_tuids) *)

(** The test of the two search loops on a message. *)
Definition tuid_match (srec : sync_rec) (tmsg : message) : bool :=
  negb (has (m_status tmsg) M_DEAD) && tuid_set (m_tuid tmsg) &&
  memcmp_eq (m_tuid tmsg) (tuid srec) TUIDL.

(** The first matching message of [ms]; [ms] starts at index [i]. *)
Fixpoint find_tuid (srec : sync_rec) (ms : list message) (i : nat)
  : option (nat * message) :=
  match ms with
  | [] => None
  | tmsg :: ms' =>
      if tuid_match srec tmsg then Some (i, tmsg)
      else find_tuid srec ms' (Datatypes.S i)
  end.

(** The two search loops: from [ntmsg] (possibly null) to the end, then
    from the head up to [ntmsg]. *)
Definition lookup_tuid (srec : sync_rec) (ms : list message)
  (ntmsg : option nat) : option (nat * message) :=
  match ntmsg with
  | Some c =>
      match find_tuid srec (drop c ms) c with
      | Some f => Some f
      | None => find_tuid srec (take c ms) 0
      end
  | None => find_tuid srec ms 0
  end.

(** [tmsg->next] of the message at index [i] of [ms]. *)
Definition next_msg (ms : list message) (i : nat) : option nat :=
  if (Datatypes.S i <? length ms)%nat then Some (Datatypes.S i) else None.

(** The loop of [match_tuids] from the record at index [i] on.  The loop
    state is [ntmsg], [num_lost] and [svars]; the result also has the
    records as the loop leaves them. *)
Fixpoint match_tuids_loop (t : side) (i : nat) (rs : list sync_rec)
  (ntmsg : option nat) (num_lost : Z) (s : sync_vars)
  : list sync_rec * Z * sync_vars :=
  match rs with
  | [] => ([], num_lost, s)
  | srec :: rs' =>
      if has (status srec) S_DEAD then
        let '(out, n, s') :=
          match_tuids_loop t (Datatypes.S i) rs' ntmsg num_lost s in
        (srec :: out, n, s')
      else if (sel t (uid srec) =? -2) && tuid_set (tuid srec) then
        match lookup_tuid srec (msgs (sel t (ctx s))) ntmsg with
        | None =>
            let s1 := journal "&"%char (fmt_uids srec) s in
            let srec1 := set_tuid (tuid_clear (tuid srec)) (set_flags_ 0 srec) in
            let '(out, n, s') :=
              match_tuids_loop t (Datatypes.S i) rs' ntmsg (num_lost + 1) s1 in
            (srec1 :: out, n, s')
        | Some (k, tmsg) =>
            let s1 :=
              journal (pick t "<"%char ">"%char)
                (fmt_uids srec ++ [fmt_d (m_uid tmsg)]) s in
            let s2 := upd_msg t k (set_m_srec (Some i)) s1 in
            let srec1 :=
              set_tuid (tuid_clear (tuid srec))
                (set_uid (upd t (m_uid tmsg) (uid srec)) srec) in
            let '(out, n, s') :=
              match_tuids_loop t (Datatypes.S i) rs'
                (next_msg (msgs (sel t (ctx s))) k) num_lost s2 in
            (srec1 :: out, n, s')
        end
      else
        let '(out, n, s') :=
          match_tuids_loop t (Datatypes.S i) rs' ntmsg num_lost s in
        (srec :: out, n, s')
  end.

Definition match_tuids (t : side) (s : sync_vars) : sync_vars :=
  let '(rs, num_lost, s1) := match_tuids_loop t 0 (srecs s) None 0 s in
  let s2 := set_srecs rs s1 in
  if negb (num_lost =? 0) then emit (EDiag (Warn_lost t num_lost)) s2 else s2.

(* ================================================================== *)
(** ** Completion of copies *)

Definition msg_copied_p2 (i : nat) (t : side) (k : nat) (uid' : Z)
  (s : sync_vars) : sync_vars :=
  match srecs s !! i, msgs (sel (other t) (ctx s)) !! k with
  | Some srec, Some tmsg =>
      let s1 :=
        if negb (sel t (uid srec) =? uid') then
          upd_srec i
            (fun r => set_tuid (tuid_clear (tuid r))
                        (set_uid (upd t uid' (uid r)) r))
            (journal (pick t "<"%char ">"%char)
               (fmt_uids srec ++ [fmt_d uid']) s)
        else s in
      match m_srec tmsg with
      | Some _ => s1
      | None =>
          let s2 := upd_msg (other t) k (set_m_srec (Some i)) s1 in
          if sel (other t) (maxuid s2) <? m_uid tmsg then
            journal (pick t ")"%char "("%char) [fmt_d (m_uid tmsg)]
              (set_maxuid (upd (other t) (m_uid tmsg) (maxuid s2)) s2)
          else s2
      end
  | _, _ => s
  end.

Definition msgs_new_done (t : side) (s : sync_vars) : sync_vars :=
  sync_close t (state_or t ST_FOUND_NEW s).

Definition msgs_copied (t : side) (s : sync_vars) : sync_vars :=
  if negb (has (sel t (state s)) ST_SENT_NEW) ||
     (sel t (new_done s) <? sel t (new_total s))
  then s
  else if has (sel t (state s)) S_FIND
  then emit (EDrv t find_new_msgs) s
  else msgs_new_done t s.

Definition msgs_found_new (sts : Z) (t : side) (s : sync_vars) : sync_vars :=
  let '(s1, stop) := check_ret sts s in
  if stop then s1
  else
    let s2 := if sts =? DRV_OK then s1
              else emit (EDiag (Warn_cannot_find t)) s1 in
    msgs_new_done t (match_tuids t s2).

(** [msg_copied]; [t] is the side copied to, [vars->aux]. *)
Definition msg_copied (sts : Z) (uid' : Z) (vars : copy_vars) (s : sync_vars)
  : sync_vars :=
  let t := cv_aux vars in
  if sts =? SYNC_CANCELED then s
  else
    match cv_srec vars with
    | None => s
    | Some i =>
        let done (s1 : sync_vars) :=
          msgs_copied t
            (set_new_done (upd t (sel t (new_done s1) + 1) (new_done s1)) s1) in
        if sts =? SYNC_OK then
          let s1 := if uid' <? 0 then state_or t S_FIND s else s in
          done (msg_copied_p2 i t (cv_msg vars) uid' s1)
        else if sts =? SYNC_NOGOOD then
          match srecs s !! i with
          | Some srec =>
              done (journal "-"%char (fmt_uids srec)
                      (upd_srec i (set_status S_DEAD) s))
          | None => s
          end
        else cancel_sync s
    end.

(** [msg_rtrashed]; [vars->aux] is the side copied to, the messages are
    trashed on the other one. *)
Definition msg_rtrashed (sts : Z) (vars : copy_vars) (s : sync_vars)
  : sync_vars :=
  if sts =? SYNC_CANCELED then s
  else if (sts =? SYNC_OK) || (sts =? SYNC_NOGOOD) then
    let t := other (cv_aux vars) in
    sync_close t
      (set_trash_done (upd t (sel t (trash_done s) + 1) (trash_done s)) s)
  else cancel_sync s.

(** [vars->cb( sts, uid, vars )] *)
Definition copy_cb_call (sts uid' : Z) (vars : copy_vars) (s : sync_vars)
  : sync_vars :=
  match cv_cb vars with
  | Cb_msg_copied => msg_copied sts uid' vars s
  | Cb_msg_rtrashed => msg_rtrashed sts vars s
  end.

(** [copy_msg]: the fetch request goes to the side copied from. *)
Definition copy_msg (vars : copy_vars) (s : sync_vars) : sync_vars * bool :=
  DRIVER_CALL (other (cv_aux vars)) (fetch_msg vars) s.

(** The UID of the message that a copy is about, [vars->msg->uid]. *)
Definition cv_uid (vars : copy_vars) (s : sync_vars) : Z :=
  match msgs (sel (other (cv_aux vars)) (ctx s)) !! cv_msg vars with
  | Some m => m_uid m
  | None => 0
  end.

(** [msg_fetched].  The rewriting of the message text is not part of the
    model; [header_ok] tells whether the header scan, which is made only
    for a copy with a sync record, finds the end of the header.  The flags
    and the time that come back with the data are those that [copy_msg]
    put there. *)
Definition msg_fetched (sts : Z) (header_ok : bool) (vars : copy_vars)
  (s : sync_vars) : sync_vars :=
  let t := cv_aux vars in
  if sts =? DRV_OK then
    if check_cancel s then copy_cb_call SYNC_CANCELED 0 vars s
    else
      match cv_srec vars, header_ok with
      | Some _, false =>
          copy_cb_call SYNC_NOGOOD 0 vars
            (emit (EDiag (Warn_incomplete_header (other t) (cv_uid vars s))) s)
      | _, _ =>
          emit (EDrv t (store_msg vars
                          (match cv_srec vars with
                           | None => true
                           | Some _ => false
                           end))) s
      end
  else if sts =? DRV_CANCELED then copy_cb_call SYNC_CANCELED 0 vars s
  else if sts =? DRV_MSG_BAD then copy_cb_call SYNC_NOGOOD 0 vars s
  else copy_cb_call SYNC_FAIL 0 vars s.

Definition msg_stored (sts : Z) (uid' : Z) (vars : copy_vars) (s : sync_vars)
  : sync_vars :=
  if sts =? DRV_OK then copy_cb_call SYNC_OK uid' vars s
  else if sts =? DRV_CANCELED then copy_cb_call SYNC_CANCELED 0 vars s
  else if sts =? DRV_MSG_BAD then
    let t := cv_aux vars in
    copy_cb_call SYNC_NOGOOD 0 vars
      (emit (EDiag (Warn_refused t (cv_uid vars s))) s)
  else copy_cb_call SYNC_FAIL 0 vars s.

(** [msg_trashed]; [t] is the side of the request. *)
Definition msg_trashed (sts : Z) (t : side) (s : sync_vars) : sync_vars :=
  let sts1 := if sts =? DRV_MSG_BAD then DRV_BOX_BAD else sts in
  let '(s1, stop) := check_ret sts1 s in
  if stop then s1
  else
    sync_close t
      (set_trash_done (upd t (sel t (trash_done s1) + 1) (trash_done s1)) s1).

(* ================================================================== *)
(** ** Completion of flag changes *)

Definition flags_set_sync_p2 (i : nat) (t : side) (s : sync_vars)
  : sync_vars :=
  match srecs s !! i with
  | None => s
  | Some srec =>
      let nflags :=
        Z.land (Z.lor (flags srec) (sel t (aflags srec)))
          (Z.lnot (sel t (dflags srec))) in
      let s1 :=
        if negb (flags srec =? nflags) then
          journal "*"%char (fmt_uids srec ++ [fmt_u nflags])
            (upd_srec i (set_flags_ nflags) s)
        else s in
      match t with
      | Side.M => s1
      | Side.S =>
          let nex := Z.land (status srec / S_NEXPIRE) 1 in
          if negb (nex =? Z.land (status srec / S_EXPIRED) 1) then
            let s2 :=
              if negb (nex =? 0) && (smaxxuid s1 <? sel Side.S (uid srec))
              then set_smaxxuid (sel Side.S (uid srec)) s1 else s1 in
            upd_srec i
              (fun r => set_status
                          (Z.lor (clear (status r) S_EXPIRED)
                             (nex * S_EXPIRED)) r)
              (journal "/"%char (fmt_uids srec) s2)
          else if negb (nex =? Z.land (status srec / S_EXPIRE) 1) then
            upd_srec i
              (fun r => set_status
                          (Z.lor (clear (status r) S_EXPIRE)
                             (nex * S_EXPIRE)) r)
              (journal "\"%char (fmt_uids srec) s1)
          else s1
      end
  end.

(* ================================================================== *)
(** ** Selecting the mailboxes and loading the state (box_selected) *)

(** What the file system answers to [box_selected]. *)
Record fs_view := mk_fs_view {
  fs_dir_ok : bool;        (* the location of the sync state is usable *)
  fs_lock_fd : Z;          (* open( svars->lname, O_WRONLY|O_CREAT, 0666 ) *)
  fs_lock_ok : bool;       (* fcntl( svars->lfd, F_SETLK, &lck ) == 0 *)
  fs_state : fopen_r;      (* fopen( svars->dname, "r" ) *)
  fs_journal : fopen_r;    (* fopen( svars->jname, "r" ) *)
  fs_new_exists : bool;    (* stat( svars->nname, &st ) == 0 *)
  fs_new_w : bool;         (* fopen( svars->nname, "w" ) succeeds *)
  fs_journal_a : bool      (* fopen( svars->jname, "a" ) succeeds *)
}.

(** [opts[t] |= bits] *)
Definition opts_or (t : side) (bits : Z) (o : arr2 Z) : arr2 Z :=
  upd t (Z.lor (sel t o) bits) o.

(** One iteration of the loop that derives [opts] from the channel. *)
Definition open_opts_side (ch : channel_conf) (t : side) (o : arr2 Z)
  : arr2 Z :=
  let op := sel t (ops ch) in
  let o1 :=
    if has op (Z.lor OP_DELETE OP_FLAGS) then
      let o' := opts_or (other t) OPEN_OLD (opts_or t OPEN_SETFLAGS o) in
      if has op OP_FLAGS then opts_or (other t) OPEN_FLAGS o' else o'
    else o in
  let o2 :=
    if has op (Z.lor OP_NEW OP_RENEW) then
      let a := opts_or t OPEN_APPEND o1 in
      let b := if has op OP_RENEW then opts_or (other t) OPEN_OLD a else a in
      let c := if has op OP_NEW then opts_or (other t) OPEN_NEW b else b in
      let d := if has op OP_EXPUNGE then opts_or (other t) OPEN_FLAGS c else c in
      if negb (max_size (sel t (stores ch)) =? INT_MAX)
      then opts_or (other t) OPEN_SIZE d else d
    else o1 in
  if has op OP_EXPUNGE then
    let a := opts_or t OPEN_EXPUNGE o2 in
    if trash (sel t (stores ch)) then
      let b := if negb (trash_only_new (sel t (stores ch)))
               then opts_or t OPEN_OLD a else a in
      opts_or t (Z.lor OPEN_NEW OPEN_FLAGS) b
    else if trash (sel (other t) (stores ch)) &&
            trash_remote_new (sel (other t) (stores ch))
    then opts_or t (Z.lor OPEN_NEW OPEN_FLAGS) a
    else a
  else o2.

Definition open_opts (ch : channel_conf) : arr2 Z :=
  let o := open_opts_side ch Side.S (open_opts_side ch Side.M (0, 0)) in
  if has (sel Side.S (ops ch)) (Z.lor OP_NEW OP_RENEW) &&
     negb (max_messages ch =? 0)
  then opts_or Side.S
         (Z.lor (Z.lor OPEN_OLD OPEN_NEW) (Z.lor OPEN_FLAGS OPEN_TIME)) o
  else o.

(** The loop over the records after a journal was replayed: pending
    expirations and pending TUID lookups.  The state is [opts] and
    [svars->state]. *)
Definition recover_opts_srec (st : arr2 Z * arr2 Z) (srec : sync_rec)
  : arr2 Z * arr2 Z :=
  let '(o, sta) := st in
  if has (status srec) S_DEAD then st
  else
    let o1 :=
      if has (Z.lxor (mvBit (status srec) S_EXPIRE S_EXPIRED) (status srec))
           S_EXPIRED
      then opts_or Side.S (Z.lor OPEN_OLD OPEN_FLAGS) o else o in
    if tuid_set (tuid srec) then
      if sel Side.M (uid srec) =? -2 then
        (opts_or Side.M (Z.lor OPEN_NEW OPEN_FIND) o1,
         opts_or Side.M S_FIND sta)
      else if sel Side.S (uid srec) =? -2 then
        (opts_or Side.S (Z.lor OPEN_NEW OPEN_FIND) o1,
         opts_or Side.S S_FIND sta)
      else (o1, sta)
    else (o1, sta).

(** [load_box]; the result is whether the request was cancelled.
    [svars->maxuid[t] + 1] is an [int]: at [INT_MAX] it wraps around. *)
Definition load_box (t : side) (minwuid : Z) (mexcs : list Z)
  (s : sync_vars) : sync_vars * bool :=
  let o := opts (sel t (ctx s)) in
  let range :=
    if has o OPEN_NEW then
      (if int_succ (sel t (maxuid s)) <? minwuid
       then int_succ (sel t (maxuid s))
       else minwuid, INT_MAX)
    else if has o OPEN_OLD then
      (minwuid,
       fold_left
         (fun (maxwuid : Z) (srec : sync_rec) =>
            if negb (has (status srec) S_DEAD) &&
               (maxwuid <? sel t (uid srec))
            then sel t (uid srec) else maxwuid)
         (srecs s) 0)
    else (minwuid, 0) in
  DRIVER_CALL t (load (fst range) (snd range) (sel t (newuid s)) mexcs) s.

(** [svars->ret = SYNC_FAIL; sync_bail( svars )] after a diagnostic. *)
Definition bail (d : diag) (s : sync_vars) : sync_vars :=
  sync_bail (set_ret SYNC_FAIL (emit (EDiag d) s)).

(** The UIDVALIDITY test of one side. *)
Definition uidval_changed (t : side) (s : sync_vars) : bool :=
  (0 <=? sel t (uidval s)) &&
  negb (sel t (uidval s) =? uidvalidity (sel t (ctx s))).

Definition uidval_diag (t : side) (s : sync_vars) : sync_vars :=
  if uidval_changed t s
  then emit (EDiag (Err_uidvalidity t (uidvalidity (sel t (ctx s)))
                      (sel t (uidval s)))) s
  else s.

(** [box_selected] from the point where both mailboxes are selected and
    the names of the state files are known.  [nfmalloc] is the memory of
    the records it allocates, [drv_opts t opts] is [ctx[t]->opts] after
    [prepare_opts( ctx[t], opts )]. *)
Definition box_selected_load (nfmalloc : nat -> sync_rec)
  (drv_opts : side -> Z -> Z) (fs : fs_view) (s : sync_vars) : sync_vars :=
  if negb (fs_dir_ok fs) then sync_bail2 (set_ret SYNC_FAIL s)
  else
    let s := set_lfd (fs_lock_fd fs) s in
    if lfd s <? 0 then
      sync_bail2 (set_ret SYNC_FAIL (emit (EDiag Err_lock_create) s))
    else
    let s := emit (EFile Open_lock) s in
    if negb (fs_lock_ok fs) then
      sync_bail1 (set_ret SYNC_FAIL (emit (EDiag Err_locked) s))
    else
      match load_state nfmalloc (fs_state fs) s with
      | inl d => bail d s
      | inr s1 =>
          match load_journal nfmalloc (fs_journal fs) (fs_new_exists fs) s1
          with
          | inl d => bail d s1
          | inr (s2, line) =>
              if uidval_changed Side.M s2 || uidval_changed Side.S s2 then
                sync_bail
                  (set_ret SYNC_FAIL
                     (uidval_diag Side.S (uidval_diag Side.M s2)))
              else if negb (fs_new_w fs) then bail Err_new_write s2
              else
                let s3 := emit (EFile Open_new_w) s2 in
                if negb (fs_journal_a fs) then
                  sync_bail
                    (set_ret SYNC_FAIL
                       (emit (EFile Close_new)
                          (emit (EDiag Err_journal_write) s3)))
                else
                  let s4 := emit (EFile Open_journal_a) s3 in
                  let s5 :=
                    if (line =? 0)%nat
                    then emit (EJournal (JOURNAL_VERSION ++ [NL])) s4
                    else s4 in
                  let '(o, sta) :=
                    if (line =? 0)%nat then (open_opts (chan s5), state s5)
                    else fold_left recover_opts_srec (srecs s5)
                           (open_opts (chan s5), state s5) in
                  let s6 := set_state sta s5 in
                  let s7 :=
                    set_ctx
                      (set_opts (drv_opts Side.M (sel Side.M o))
                         (sel Side.M (ctx s6)),
                       set_opts (drv_opts Side.S (sel Side.S o))
                         (sel Side.S (ctx s6)))
                      (emit (EDrv Side.S (prepare_opts (sel Side.S o)))
                         (emit (EDrv Side.M (prepare_opts (sel Side.M o)))
                            s6)) in
                  let minw (t : side) :=
                    if has (opts (sel t (ctx s7))) OPEN_OLD then 1
                    else INT_MAX in
                  if smaxxuid s7 =? 0 then
                    let '(s8, stop) := load_box Side.M (minw Side.M) [] s7 in
                    if stop then s8
                    else fst (load_box Side.S (minw Side.S) [] s8)
                  else fst (load_box Side.S (minw Side.S) [] s7)
          end
      end.

(** [box_selected]: the completion of [select] on side [t]. *)
Definition box_selected (nfmalloc : nat -> sync_rec)
  (drv_opts : side -> Z -> Z) (fs : fs_view) (sts : Z) (t : side)
  (s : sync_vars) : sync_vars :=
  let '(s1, stop) := check_ret sts s in
  if stop then s1
  else
    let s2 := state_or t ST_SELECTED s1 in
    if negb (has (sel (other t) (state s2)) ST_SELECTED) then s2
    else box_selected_load nfmalloc drv_opts fs s2.

(* ================================================================== *)
(** ** Propagation (box_loaded) *)

(** [svars->counter[t]++] *)
Definition incr (t : side) (a : arr2 Z) : arr2 Z := upd t (sel t a + 1) a.

(** The message that [srec->msg[t]] points to. *)
Definition msg_of (t : side) (srec : sync_rec) (s : sync_vars)
  : option message :=
  k ← sel t (msg srec); msgs (sel t (ctx s)) !! k.

(** A [for] loop over the indices [k], [k+1], ... ([n] of them) whose
    body may return from the enclosing function. *)
Fixpoint for_range (body : nat -> sync_vars -> sync_vars * bool)
  (k n : nat) (s : sync_vars) : sync_vars * bool :=
  match n with
  | O => (s, false)
  | Datatypes.S n' =>
      let '(s1, stop) := body k s in
      if stop then (s1, true) else for_range body (Datatypes.S k) n' s1
  end.

(** *** New messages *)

(** The character of a TUID made from a random byte. *)
Definition tuid_char (b : Z) : ascii :=
  let t2 := Z.land b 63 in
  ascii_of_N (Z.to_N
    (if t2 <? 26 then t2 + 65
     else if t2 <? 52 then t2 + 97 - 26
     else if t2 <? 62 then t2 + 48 - 52
     else if t2 =? 62 then 43 else 47)).

(** The condition under which a message of side [1-t] is considered for
    propagation to [t]. *)
Definition new_msg_cond (t : side) (tmsg : message) (s : sync_vars) : bool :=
  match m_srec tmsg with
  | Some i =>
      match srecs s !! i with
      | Some srec =>
          (sel t (uid srec) <? 0) &&
          (if sel t (uid srec) =? -1 then has (sel t (ops (chan s))) OP_RENEW
           else has (sel t (ops (chan s))) OP_NEW)
      | None => false
      end
  | None => has (sel t (ops (chan s))) OP_NEW
  end.

(** The record that is created for an unpaired message, in the memory
    [new]. *)
Definition new_srec (new : sync_rec) (t : side) (tmsg : message) : sync_rec :=
  mk_srec (upd t (-2) (upd (other t) (m_uid tmsg) (uid new))) (msg new)
    S_DONE 0 (aflags new) (dflags new) (tuid_clear (tuid new)).

(** The body of the loop over the messages of side [1-t], for the message
    at index [k].  [rnd j] is the [j]th byte that [arc4_getbyte] returns
    here. *)
Definition sync_new_msg (nfmalloc : nat -> sync_rec) (rnd : nat -> Z)
  (t : side) (k : nat) (s : sync_vars) : sync_vars * bool :=
  match msgs (sel (other t) (ctx s)) !! k with
  | None => (s, false)
  | Some tmsg =>
      if negb (new_msg_cond t tmsg s) then (s, false)
      else if has (sel t (ops (chan s))) OP_EXPUNGE &&
              has (m_flags tmsg) F_DELETED
      then (s, false)
      else
        let '(i, s1) :=
          match m_srec tmsg with
          | Some i =>
              (i, upd_srec i
                    (fun r => set_status (Z.lor (status r) S_DONE) r) s)
          | None =>
              let i := length (srecs s) in
              let srec := new_srec (nfmalloc i) t tmsg in
              (i, journal "+"%char (fmt_uids srec) (srec_add srec s))
          end in
        match srecs s1 !! i with
        | None => (s1, false)
        | Some srec =>
            if has (m_flags tmsg) F_FLAGGED ||
               (m_size tmsg <=? max_size (sel t (stores (chan s1))))
            then
              let s2 :=
                if negb (m_flags tmsg =? 0) then
                  journal "*"%char (fmt_uids srec ++ [fmt_u (m_flags tmsg)])
                    (upd_srec i (set_flags_ (m_flags tmsg)) s1)
                else s1 in
              let tu := map (fun j => tuid_char (rnd j)) (seq 0 TUIDL) in
              let s3 := upd_srec i (set_tuid tu) s2 in
              let s4 := set_new_total (incr t (new_total s3)) s3 in
              let s5 := journal "#"%char (fmt_uids srec ++ [fmt_tuid tu]) s4 in
              copy_msg (mk_copy_vars Cb_msg_copied t (Some i) k) s5
            else
              match m_srec tmsg with
              | Some _ => (s1, false)
              | None => (msg_copied_p2 i t k (-1) s1, false)
              end
        end
  end.

(** One iteration of the loop over the sides. *)
Definition sync_new_side (nfmalloc : nat -> sync_rec)
  (rnd : side -> nat -> nat -> Z) (t : side) (s : sync_vars)
  : sync_vars * bool :=
  let s0 :=
    journal (pick t "{"%char "}"%char) [fmt_d (uidnext (sel t (ctx s)))] s in
  let '(s1, stop) :=
    for_range (fun k => sync_new_msg nfmalloc (rnd t k) t k) 0
      (length (msgs (sel (other t) (ctx s0)))) s0 in
  if stop then (s1, true)
  else (msgs_copied t (state_or t ST_SENT_NEW s1), false).

(** "synchronizing new entries" *)
Definition sync_new (nfmalloc : nat -> sync_rec)
  (rnd : side -> nat -> nat -> Z) (s : sync_vars) : sync_vars * bool :=
  let '(s1, stop) := sync_new_side nfmalloc rnd Side.M s in
  if stop then (s1, true) else sync_new_side nfmalloc rnd Side.S s1.

(** *** Existing pairs *)

(** The flag changes to apply on side [t] for the flags [sflags] of the
    message on the other side. *)
Definition flag_changes (t : side) (srec : sync_rec) (sflags : Z)
  : Z * Z :=
  let sflags1 :=
    if has (status srec) (Z.lor S_EXPIRE S_EXPIRED) &&
       side_eqb t Side.M
    then clear sflags F_DELETED else sflags in
  (to_uchar (Z.land sflags1 (Z.lnot (flags srec))),
   to_uchar (Z.land (Z.lnot sflags1) (flags srec))).

(** The body of the loop over the sides for the record at index [i];
    [del] holds [del[M]] and [del[S]]. *)
Definition sync_old_side (i : nat) (del : arr2 bool) (t : side)
  (s : sync_vars) : sync_vars * bool :=
  let s1 :=
    upd_srec i
      (fun r => set_dflags (upd t 0 (dflags r))
                  (set_aflags (upd t 0 (aflags r)) r)) s in
  let s2 :=
    upd_srec i
      (fun r =>
         match msg_of t r s1 with
         | Some m =>
             if has (m_flags m) F_DELETED
             then set_status (Z.lor (status r) (S_DEL t)) r else r
         | None => r
         end) s1 in
  match srecs s2 !! i with
  | None => (s2, false)
  | Some srec =>
      if sel t (uid srec) =? 0 then (s2, false)
      else if sel (other t) del then
        let s3 :=
          match msg_of t srec s2 with
          | Some m =>
              if has (m_status m) M_FLAGS && negb (m_flags m =? flags srec)
              then emit (EDiag (Info_conflict (sel Side.M (uid srec))
                                  (sel Side.S (uid srec)))) s2
              else s2
          | None => s2
          end in
        if has (sel t (ops (chan s3))) OP_DELETE then
          DRIVER_CALL t
            (set_flags (sel t (msg srec)) (sel t (uid srec)) F_DELETED 0
               (Cb_flags_set_del i))
            (set_flags_total (incr t (flags_total s3)) s3)
        else (s3, false)
      else
        match msg_of (other t) srec s2 with
        | None => (s2, false)
        | Some m =>
            if sel t (uid srec) <? 0 then (s2, false)
            else if negb (sel t del) then
              if has (sel t (ops (chan s2))) OP_FLAGS then
                let '(a, d) := flag_changes t srec (m_flags m) in
                (upd_srec i
                   (fun r => set_dflags (upd t d (dflags r))
                               (set_aflags (upd t a (aflags r)) r)) s2,
                 false)
              else (s2, false)
            else (s2, false)
        end
  end.

(** The body of the loop over the records that existed before the new
    ones, for the record at index [i]. *)
Definition sync_old_entry (i : nat) (s : sync_vars) : sync_vars * bool :=
  match srecs s !! i with
  | None => (s, false)
  | Some srec =>
      if has (status srec) (Z.lor S_DEAD S_DONE) then (s, false)
      else
        let no (t : side) :=
          match sel t (msg srec) with
          | None => has (opts (sel t (ctx s))) OPEN_OLD
          | Some _ => false
          end in
        if no Side.M && no Side.S then
          (journal "-"%char (fmt_uids srec) (upd_srec i (set_status S_DEAD) s),
           false)
        else
          let del :=
            (no Side.M && (0 <? sel Side.M (uid srec)),
             no Side.S && (0 <? sel Side.S (uid srec))) in
          let '(s1, stop) := sync_old_side i del Side.M s in
          if stop then (s1, true) else sync_old_side i del Side.S s1
  end.

(** "synchronizing old entries": the records before [*svars->osrecadd],
    [n] of them. *)
Definition sync_old (n : nat) (s : sync_vars) : sync_vars * bool :=
  for_range sync_old_entry 0 n s.

(* ================================================================== *)
(** ** Rewriting a fetched message (msg_fetched, case DRV_OK)

    Before a fetched message is stored, [msg_fetched] inserts the TUID of
    the sync record as an [X-TUID] header line (replacing one that is
    there) and converts the line ends if the two drivers disagree on
    them.  [scr] and [tcr] are [(svars->drv[1-t]->flags / DRV_CRLF) & 1]
    and [(svars->drv[t]->flags / DRV_CRLF) & 1]. *)

Definition CR : ascii := "013"%char.

Definition X_TUID : list ascii :=
  ["X"; "-"; "T"; "U"; "I"; "D"; ":"; " "]%char.

(** What the scan of the header leaves in [sbreak], [ebreak], [lines],
    [hcrs], [i] and [extra] when it reaches [oke]. *)
Record hscan := mk_hscan {
  sbreak : nat;
  ebreak : nat;
  h_lines : Z;
  h_hcrs : Z;
  h_i : nat;
  h_extra : Z
}.

(** The loop from [nloop] on; [rest] is what lies at [fmap + i].  [None]
    is the fall out of the loop: "incomplete header". *)
Fixpoint header_scan (fmap rest : list ascii) (i start : nat)
  (lcrs lines hcrs : Z) : option hscan :=
  match rest with
  | [] => None
  | c :: rest' =>
      let i := Datatypes.S i in
      if Ascii.eqb c CR then
        header_scan fmap rest' i start (lcrs + 1) lines hcrs
      else if Ascii.eqb c NL then
        if memcmp_eq (skipn start fmap) X_TUID 8 then
          Some (mk_hscan start i lines hcrs i (Z.of_nat start - Z.of_nat i))
        else
          let lines := lines + 1 in
          let hcrs := hcrs + lcrs in
          if Z.of_nat i - lcrs - 1 =? Z.of_nat start then
            Some (mk_hscan start start lines hcrs i 0)
          else header_scan fmap rest' i i 0 lines hcrs
      else header_scan fmap rest' i start lcrs lines hcrs
  end.

(** [for (; i < len; i++)] counting into [bcrs] and [lines]. *)
Fixpoint count_rest (rest : list ascii) (bcrs lines : Z) : Z * Z :=
  match rest with
  | [] => (bcrs, lines)
  | c :: rest' =>
      if Ascii.eqb c CR then count_rest rest' (bcrs + 1) lines
      else if Ascii.eqb c NL then count_rest rest' bcrs (lines + 1)
      else count_rest rest' bcrs lines
  end.

(** The copy loop towards a driver with CRLF line ends: the bytes it
    stores for [src]. *)
Fixpoint copy_crlf (src : list ascii) : list ascii :=
  match src with
  | [] => []
  | c :: src' =>
      if Ascii.eqb c CR then copy_crlf src'
      else if Ascii.eqb c NL then CR :: c :: copy_crlf src'
      else c :: copy_crlf src'
  end.

(** The copy loop towards a driver with LF line ends. *)
Fixpoint copy_lf (src : list ascii) : list ascii :=
  match src with
  | [] => []
  | c :: src' =>
      if Ascii.eqb c CR then copy_lf src' else c :: copy_lf src'
  end.

(** One of the two copies of a stretch of the message: the loops if
    [tcr != scr], [memcpy] if not. *)
Definition copy_part (scr tcr : bool) (src : list ascii) : list ascii :=
  if xorb tcr scr then (if tcr then copy_crlf src else copy_lf src)
  else src.

(** [tcr && (!scr || hcrs)] *)
Definition tuid_cr (scr tcr : bool) (hcrs : Z) : bool :=
  tcr && (negb scr || negb (hcrs =? 0)).

(** The rewriting of the data [fmap] of a message; [srec_tuid] is
    [vars->srec->tuid] if [vars->srec] is set.  The result is the new
    [vars->data.len], for which the buffer is allocated, and the bytes
    that are stored into the buffer, in order; [None] is the "incomplete
    header" exit with SYNC_NOGOOD. *)
Definition msg_rewrite (srec_tuid : option (list ascii)) (scr tcr : bool)
  (fmap : list ascii) : option (Z * list ascii) :=
  let len := Z.of_nat (length fmap) in
  match srec_tuid with
  | None =>
      if xorb scr tcr then
        let '(bcrs, lines) := count_rest fmap 0 0 in
        let extra := 0 - (0 + bcrs) in
        let extra := if tcr then extra + lines else extra in
        Some (len + extra, copy_part scr tcr fmap)
      else Some (len, fmap)
  | Some tu =>
      match header_scan fmap fmap 0 0 0 0 0 with
      | None => None
      | Some h =>
          let extra :=
            h_extra h + 8 + Z.of_nat TUIDL + 1 +
            (if tuid_cr scr tcr (h_hcrs h) then 1 else 0) in
          let extra :=
            if xorb tcr scr then
              let '(bcrs, lines) :=
                count_rest (skipn (h_i h) fmap) 0 (h_lines h) in
              let extra := extra - (h_hcrs h + bcrs) in
              if tcr then extra + lines else extra
            else extra in
          Some (len + extra,
                copy_part scr tcr (firstn (sbreak h) fmap) ++
                X_TUID ++ map (char_at tu) (seq 0 TUIDL) ++
                (if tuid_cr scr tcr (h_hcrs h) then [CR] else []) ++ [NL] ++
                copy_part scr tcr (skipn (ebreak h) fmap))
      end
  end.

(* ================================================================== *)
(** ** The name of the sync state file (box_selected) *)

(** [clean_strdup]: the copy of the string, with every ['/'] replaced by
    ['!']. *)
Definition clean_strdup (s : list ascii) : list ascii :=
  map (fun c => if Ascii.eqb c "/"%char then "!"%char else c) (c_str s).

(** [strrchr( s, c )] on the string [s], as the index of the character
    found; [found] is the last place seen so far. *)
Fixpoint strrchr_from (c : ascii) (s : list ascii) (i : nat)
  (found : option nat) : option nat :=
  match s with
  | [] => found
  | c' :: s' =>
      strrchr_from c s' (Datatypes.S i)
        (if Ascii.eqb c' c then Some i else found)
  end.

Definition strrchr (s : list ascii) (c : ascii) : option nat :=
  strrchr_from c (c_str s) 0 None.

(** [!strcmp( a, b )] *)
Fixpoint str_eqb (a b : list ascii) : bool :=
  match a, b with
  | [], [] => true
  | x :: a', y :: b' => Ascii.eqb x y && str_eqb a' b'
  | _, _ => false
  end.

Definition strcmp_eq (a b : list ascii) : bool :=
  str_eqb (c_str a) (c_str b).

Definition EXE : list ascii := ["m"; "b"; "s"; "y"; "n"; "c"]%char.

(** What the computation of [svars->dname] ends with. *)
Inductive state_name :=
| No_in_box_state
    (* "store '%s' does not support in-box sync state" *)
| Invalid_location (dname : list ascii)
    (* "invalid SyncState location '%s'" *)
| State_name (dir : option (list ascii)) (dname : list ascii).
    (* [dir] is what [mkdir] is called with, if it is called *)

(** [chan->sync_state] (possibly null), [global_sync_state],
    [ctx[S]->path] (possibly null), [chan->stores[t]->name] and
    [ctx[t]->name]. *)
Definition state_dname (sync_state : option (list ascii))
  (global_sync_state : list ascii) (path : option (list ascii))
  (store_name box_name : arr2 (list ascii)) : state_name :=
  let ss := match sync_state with
            | Some x => x
            | None => global_sync_state
            end in
  if strcmp_eq ss ["*"%char] then
    match path with
    | None => No_in_box_state
    | Some p =>
        State_name None
          (c_str p ++ ["/"; "."]%char ++ EXE ++ ["s"; "t"; "a"; "t"; "e"]%char)
    end
  else
    let csname := clean_strdup (sel Side.S box_name) in
    let dname :=
      match sync_state with
      | Some x => c_str x ++ csname
      | None =>
          c_str global_sync_state ++ [":"%char] ++
          c_str (sel Side.M store_name) ++ [":"%char] ++
          clean_strdup (sel Side.M box_name) ++ ["_"; ":"]%char ++
          c_str (sel Side.S store_name) ++ [":"%char] ++ csname
      end in
    match strrchr dname "/"%char with
    | None => Invalid_location dname
    | Some k => State_name (Some (firstn k dname)) dname
    end.

(* ================================================================== *)
(** ** Trashing and the completion of flag requests *)

(** [!tmsg->srec || tmsg->srec->uid[1-t] < 0] *)
Definition not_propagated (t : side) (tmsg : message) (s : sync_vars) : bool :=
  match m_srec tmsg with
  | None => true
  | Some i =>
      match srecs s !! i with
      | Some srec => sel (other t) (uid srec) <? 0
      | None => false
      end
  end.

(** The body of the loop of [msgs_flags_set] for the message at index
    [k] of side [t]; the result tells whether the function returns -1. *)
Definition trash_one (t : side) (k : nat) (s : sync_vars) : sync_vars * bool :=
  match msgs (sel t (ctx s)) !! k with
  | None => (s, false)
  | Some tmsg =>
      if negb (has (m_flags tmsg) F_DELETED) then (s, false)
      else if trash (conf (sel t (ctx s))) then
        if negb (trash_only_new (conf (sel t (ctx s)))) ||
           not_propagated t tmsg s
        then DRIVER_CALL t (trash_msg k)
               (set_trash_total (incr t (trash_total s)) s)
        else (s, false)
      else if not_propagated t tmsg s then
        if m_size tmsg <=? max_size (conf (sel (other t) (ctx s))) then
          copy_msg (mk_copy_vars Cb_msg_rtrashed (other t) None k)
            (set_trash_total (incr t (trash_total s)) s)
        else (s, false)
      else (s, false)
  end.

(** [msgs_flags_set]; the result tells whether it returns -1. *)
Definition msgs_flags_set (t : side) (s : sync_vars) : sync_vars * bool :=
  if negb (has (sel t (state s)) ST_SENT_FLAGS) ||
     (sel t (flags_done s) <? sel t (flags_total s))
  then (s, false)
  else
    let '(s1, stop) :=
      if has (sel t (ops (chan s))) OP_EXPUNGE &&
         (trash (conf (sel t (ctx s))) ||
          (trash (conf (sel (other t) (ctx s))) &&
           trash_remote_new (conf (sel (other t) (ctx s)))))
      then for_range (trash_one t) 0 (length (msgs (sel t (ctx s)))) s
      else (s, false) in
    if stop then (s1, true)
    else (sync_close t (state_or t ST_SENT_TRASH s1), false).

(** [flags_set_del]: the completion of the request that propagates a
    deletion to side [t] for the record at [i]. *)
Definition flags_set_del (sts : Z) (i : nat) (t : side) (s : sync_vars)
  : sync_vars :=
  let '(s1, stop) := check_ret sts s in
  if stop then s1
  else
    let s2 :=
      if sts =? DRV_OK then
        match srecs s1 !! i with
        | Some srec =>
            upd_srec i (fun r => set_uid (upd (other t) 0 (uid r)) r)
              (journal (pick t ">"%char "<"%char) (fmt_uids srec ++ [fmt_d 0])
                 (upd_srec i
                    (fun r => set_status (Z.lor (status r) (S_DEL t)) r) s1))
        | None => s1
        end
      else s1 in
    fst (msgs_flags_set t (set_flags_done (incr t (flags_done s2)) s2)).

(** [flags_set_sync]: the completion of a request that changes flags on
    side [t] for the record at [i]. *)
Definition flags_set_sync (sts : Z) (i : nat) (aflags dflags : Z) (t : side)
  (s : sync_vars) : sync_vars :=
  let '(s1, stop) := check_ret sts s in
  if stop then s1
  else
    let s2 :=
      if sts =? DRV_OK then
        flags_set_sync_p2 i t
          (if has aflags F_DELETED then
             upd_srec i (fun r => set_status (Z.lor (status r) (S_DEL t)) r) s1
           else if has dflags F_DELETED then
             upd_srec i (fun r => set_status (clear (status r) (S_DEL t)) r) s1
           else s1)
      else s1 in
    fst (msgs_flags_set t (set_flags_done (incr t (flags_done s2)) s2)).

(** The callback of a [set_flags] request. *)
Definition flag_cb_call (sts : Z) (cb : flag_cb) (t : side) (s : sync_vars)
  : sync_vars :=
  match cb with
  | Cb_flags_set_del i => flags_set_del sts i t s
  | Cb_flags_set_sync i aflags dflags => flags_set_sync sts i aflags dflags t s
  end.

(* ================================================================== *)
(** ** The rest of box_loaded *)

(** *** Pairing messages with records

    The records are entered into an open-addressing hash table keyed by
    [uid[t]], an empty slot being one whose [uid] is 0, and each message
    that has no record yet is looked up in it.  The table is a list of
    [hashsz] slots; [hashsz] is the value of [bucketsForSize], which is
    not part of this file.  The probing loops end only at an empty slot
    (or at the UID looked for): [fuel] bounds their steps, and [None] is
    a loop that does not end. *)

Definition srecmap : Type := list (Z * option nat).

(** [(unsigned)((unsigned)uid * 1103515245U) % hashsz] *)
Definition hash_uid (hashsz : nat) (uid : Z) : nat :=
  Z.to_nat ((uid mod 2 ^ 32 * 1103515245) mod 2 ^ 32 mod Z.of_nat hashsz).

(** [if (++idx == hashsz) idx = 0] *)
Definition next_slot (hashsz idx : nat) : nat :=
  if (Datatypes.S idx =? hashsz)%nat then O else Datatypes.S idx.

(** [while (srecmap[idx].uid) ...]: the slot at which the loop ends. *)
Fixpoint free_slot (fuel : nat) (m : srecmap) (idx : nat) : option nat :=
  match fuel with
  | O => None
  | Datatypes.S fuel' =>
      match m !! idx with
      | Some (u, _) =>
          if u =? 0 then Some idx
          else free_slot fuel' m (next_slot (length m) idx)
      | None => None
      end
  end.

(** Entering the record at index [i], with its [uid[t]]. *)
Definition srecmap_add (m : srecmap) (uid : Z) (i : nat) : option srecmap :=
  match free_slot (length m) m (hash_uid (length m) uid) with
  | Some idx => Some (<[idx := (uid, Some i)]> m)
  | None => None
  end.

(** The loop over the records; [i] is the index of the head of [rs]. *)
Fixpoint srecmap_fill (t : side) (rs : list sync_rec) (i : nat) (m : srecmap)
  : option srecmap :=
  match rs with
  | [] => Some m
  | srec :: rs' =>
      if has (status srec) S_DEAD then srecmap_fill t rs' (Datatypes.S i) m
      else
        match srecmap_add m (sel t (uid srec)) i with
        | Some m' => srecmap_fill t rs' (Datatypes.S i) m'
        | None => None
        end
  end.

(** The lookup of a UID: [Some (Some i)] is [found] with the record at
    [i], [Some None] is the end of the loop at an empty slot. *)
Fixpoint srecmap_find (fuel : nat) (m : srecmap) (uid : Z) (idx : nat)
  : option (option nat) :=
  match fuel with
  | O => None
  | Datatypes.S fuel' =>
      match m !! idx with
      | Some (u, srec) =>
          if u =? 0 then Some None
          else if u =? uid then Some srec
          else srecmap_find fuel' m uid (next_slot (length m) idx)
      | None => None
      end
  end.

(** The loop over the messages of side [t], from index [k] on. *)
Fixpoint pair_msgs (t : side) (m : srecmap) (n k : nat) (s : sync_vars)
  : option sync_vars :=
  match n with
  | O => Some s
  | Datatypes.S n' =>
      match msgs (sel t (ctx s)) !! k with
      | None => Some s
      | Some tmsg =>
          match m_srec tmsg with
          | Some _ => pair_msgs t m n' (Datatypes.S k) s
          | None =>
              match srecmap_find (length m) m (m_uid tmsg)
                      (hash_uid (length m) (m_uid tmsg)) with
              | None => None
              | Some None => pair_msgs t m n' (Datatypes.S k) s
              | Some (Some i) =>
                  pair_msgs t m n' (Datatypes.S k)
                    (upd_srec i (fun r => set_msg (upd t (Some k) (msg r)) r)
                       (upd_msg t k (set_m_srec (Some i)) s))
              end
          end
      end
  end.

(** "matching messages on %s against sync records" *)
Definition match_uids (hashsz : nat) (t : side) (s : sync_vars)
  : option sync_vars :=
  match srecmap_fill t (srecs s) 0 (repeat (0, None) hashsz) with
  | Some m => pair_msgs t m (length (msgs (sel t (ctx s)))) 0 s
  | None => None
  end.

(** *** The selection of the master messages, when some slave messages
    have expired ([t == S] and [svars->smaxxuid] set) *)

(** The first loop: [S_EXP_S] for the expired records whose slave message
    is gone, and the minimal master UID of the others that matter. *)
Definition sel_min_srec (i : nat) (srec : sync_rec)
  (st : sync_vars * Z) : sync_vars * Z :=
  let '(s, minwuid) := st in
  if has (status srec) S_DEAD then st
  else
    let lower :=
      (s, if sel Side.M (uid srec) <? minwuid then sel Side.M (uid srec)
          else minwuid) in
    if has (status srec) S_EXPIRED then
      if (sel Side.S (uid srec) =? 0) ||
         (has (opts (sel Side.S (ctx s))) OPEN_OLD &&
          match sel Side.S (msg srec) with None => true | Some _ => false end)
      then
        (upd_srec i (fun r => set_status (Z.lor (status r) S_EXP_S) r) s,
         minwuid)
      else lower
    else if sel Side.S (uid srec) <=? smaxxuid s then st
    else lower.

(** A loop over the records with a second variable. *)
Fixpoint for_srecs_acc {A} (body : nat -> sync_rec -> sync_vars * A ->
                                   sync_vars * A)
  (i : nat) (rs : list sync_rec) (st : sync_vars * A) : sync_vars * A :=
  match rs with
  | [] => st
  | srec :: rs' => for_srecs_acc body (Datatypes.S i) rs' (body i srec st)
  end.

(** The second loop: records that are killed or orphaned, and the
    exception list [mexcs]. *)
Definition sel_excs_srec (minwuid : Z) (i : nat) (srec : sync_rec)
  (st : sync_vars * list Z) : sync_vars * list Z :=
  let '(s, mexcs) := st in
  let kill :=
    journal "-"%char (fmt_uids srec) (upd_srec i (set_status S_DEAD) s) in
  if has (status srec) S_DEAD then st
  else if has (status srec) S_EXP_S then
    if (sel Side.M (uid srec) <? minwuid) &&
       (sel Side.M (uid srec) <=? sel Side.M (maxuid s))
    then (kill, mexcs)
    else if negb (sel Side.S (uid srec) =? 0) then
      (upd_srec i (fun r => set_uid (upd Side.S 0 (uid r)) r)
         (journal ">"%char (fmt_uids srec ++ [fmt_d 0]) s), mexcs)
    else st
  else if sel Side.M (uid srec) <? minwuid then
    if sel Side.S (uid srec) <? 0 then
      if sel Side.M (uid srec) <=? sel Side.M (maxuid s)
      then (kill, mexcs) else st
    else if (0 <? sel Side.M (uid srec)) &&
            negb (sel Side.S (uid srec) =? 0) &&
            has (opts (sel Side.M (ctx s))) OPEN_OLD &&
            (negb (has (opts (sel Side.M (ctx s))) OPEN_NEW) ||
             (sel Side.M (uid srec) <=? sel Side.M (maxuid s)))
    then (s, mexcs ++ [sel Side.M (uid srec)])
    else st
  else st.

(** The whole selection, up to the call of [load_box] for the master. *)
Definition select_master (s : sync_vars) : sync_vars * bool :=
  let '(s1, minwuid) :=
    for_srecs_acc sel_min_srec 0 (srecs s) (s, INT_MAX) in
  let '(s2, mexcs) :=
    for_srecs_acc (sel_excs_srec minwuid) 0 (srecs s1) (s1, []) in
  load_box Side.M minwuid mexcs s2.

(** *** Expiration of excess messages of the slave *)

(** [(tmsg->flags | srec->aflags[S]) & ~srec->dflags[S]] *)
Definition nflags_S (tmsg : message) (srec : sync_rec) : Z :=
  Z.land (Z.lor (m_flags tmsg) (sel Side.S (aflags srec)))
    (Z.lnot (sel Side.S (dflags srec))).

(** The record that [tmsg->srec] points to. *)
Definition srec_of (tmsg : message) (s : sync_vars) : option (nat * sync_rec) :=
  match m_srec tmsg with
  | Some i =>
      match srecs s !! i with
      | Some srec => Some (i, srec)
      | None => None
      end
  | None => None
  end.

(** The first loop: messages that are being deleted anyway do not count.
    It runs while [todel > 0]. *)
Fixpoint expire_discount (ms : list message) (s : sync_vars) (todel : Z) : Z :=
  match ms with
  | [] => todel
  | tmsg :: ms' =>
      if 0 <? todel then
        expire_discount ms' s
          (if negb (has (m_status tmsg) M_DEAD) &&
              match srec_of tmsg s with
              | Some (_, srec) =>
                  has (nflags_S tmsg srec) F_DELETED &&
                  negb (has (status srec) (Z.lor S_EXPIRE S_EXPIRED))
              | None => false
              end
           then todel - 1 else todel)
      else todel
  end.

(** The second loop, for the message at index [k] of the slave: the
    messages that are to be expired get [S_NEXPIRE]. *)
Definition expire_mark (k : nat) (st : sync_vars * Z) : sync_vars * Z :=
  let '(s, todel) := st in
  match msgs (sel Side.S (ctx s)) !! k with
  | None => st
  | Some tmsg =>
      if has (m_status tmsg) M_DEAD then st
      else
        match srec_of tmsg s with
        | None => (s, todel - 1)
        | Some (i, srec) =>
            if sel Side.M (uid srec) <=? 0 then (s, todel - 1)
            else
              let nflags := nflags_S tmsg srec in
              let xx := Z.lor S_EXPIRE S_EXPIRED in
              if negb (has nflags F_DELETED) || has (status srec) xx then
                if has nflags F_FLAGGED then (s, todel - 1)
                else if (negb (has (m_status tmsg) M_RECENT) ||
                         has (m_flags tmsg) F_SEEN) &&
                        ((0 <? todel) ||
                         (Z.land (status srec) xx =? xx) ||
                         (has (status srec) xx &&
                          has (m_flags tmsg) F_DELETED))
                then
                  (upd_srec i
                     (fun r => set_status (Z.lor (status r) S_NEXPIRE) r) s,
                   todel - 1)
                else st
              else st
        end
  end.

Fixpoint expire_marks (n k : nat) (st : sync_vars * Z) : sync_vars * Z :=
  match n with
  | O => st
  | Datatypes.S n' => expire_marks n' (Datatypes.S k) (expire_mark k st)
  end.

(** The third loop: the expiration that becomes pending is journaled. *)
Definition expire_pre (i : nat) (srec : sync_rec) (s : sync_vars) : sync_vars :=
  if has (status srec) (Z.lor S_DEAD S_DONE) ||
     match sel Side.S (msg srec) with None => true | Some _ => false end
  then s
  else
    let nex := Z.land (status srec / S_NEXPIRE) 1 in
    if negb (nex =? Z.land (status srec / S_EXPIRED) 1) &&
       negb (nex =? Z.land (status srec / S_EXPIRE) 1)
    then
      upd_srec i
        (fun r => set_status
                    (Z.lor (clear (status r) S_EXPIRE) (nex * S_EXPIRE)) r)
        (journal "~"%char (fmt_uids srec ++ [fmt_d nex]) s)
    else s.

(** "scheduling %d excess messages for expiration" *)
Definition expire (s : sync_vars) : sync_vars :=
  if has (sel Side.S (ops (chan s)))
       (Z.lor OP_NEW (Z.lor OP_RENEW OP_FLAGS)) &&
     negb (max_messages (chan s) =? 0)
  then
    let todel :=
      wrap_int (count (sel Side.S (ctx s)) + sel Side.S (new_total s) -
                max_messages (chan s)) in
    let todel := expire_discount (msgs (sel Side.S (ctx s))) s todel in
    let '(s1, _) :=
      expire_marks (length (msgs (sel Side.S (ctx s)))) 0 (s, todel) in
    for_srecs expire_pre 0 (srecs s1) s1
  else s.

(** *** Synchronizing flags *)

(** The body of the loop over the sides for the record at index [i]. *)
Definition sync_flags_side (i : nat) (t : side) (s : sync_vars)
  : sync_vars * bool :=
  match srecs s !! i with
  | None => (s, false)
  | Some srec =>
      let a0 := sel t (aflags srec) in
      let d0 := sel t (dflags srec) in
      let '(a1, d1) :=
        if side_eqb t Side.S &&
           has (Z.lxor (mvBit (status srec) S_EXPIRE S_EXPIRED) (status srec))
             S_EXPIRED
        then
          if has (status srec) S_NEXPIRE then (Z.lor a0 F_DELETED, d0)
          else (a0, Z.lor d0 F_DELETED)
        else (a0, d0) in
      let mflags :=
        match msg_of t srec s with
        | Some m => m_flags m
        | None => 0
        end in
      let expunge :=
        has (sel t (ops (chan s))) OP_EXPUNGE &&
        has (Z.land (Z.lor mflags a1) (Z.lnot d1)) F_DELETED &&
        (negb (trash (conf (sel t (ctx s)))) ||
         trash_only_new (conf (sel t (ctx s)))) in
      let s1 :=
        if expunge then
          upd_srec i
            (fun r => set_dflags (upd t 0 (dflags r))
                        (set_aflags
                           (upd t (Z.land (sel t (aflags r)) F_DELETED)
                              (aflags r)) r)) s
        else s in
      let '(a2, d2) := if expunge then (Z.land a1 F_DELETED, 0) else (a1, d1) in
      let '(a3, d3) :=
        match msg_of t srec s with
        | Some m =>
            if has (m_status m) M_FLAGS
            then (Z.land a2 (Z.lnot (m_flags m)), Z.land d2 (m_flags m))
            else (a2, d2)
        | None => (a2, d2)
        end in
      if negb (Z.lor a3 d3 =? 0) then
        DRIVER_CALL t
          (set_flags (sel t (msg srec)) (sel t (uid srec)) a3 d3
             (Cb_flags_set_sync i a3 d3))
          (set_flags_total (incr t (flags_total s1)) s1)
      else (flags_set_sync_p2 i t s1, false)
  end.

Definition sync_flags_entry (i : nat) (s : sync_vars) : sync_vars * bool :=
  match srecs s !! i with
  | None => (s, false)
  | Some srec =>
      if has (status srec) (Z.lor S_DEAD S_DONE) then (s, false)
      else
        let '(s1, stop) := sync_flags_side i Side.M s in
        if stop then (s1, true) else sync_flags_side i Side.S s1
  end.

(** "synchronizing flags": the records before [*svars->osrecadd]. *)
Definition sync_flags (n : nat) (s : sync_vars) : sync_vars * bool :=
  for_range sync_flags_entry 0 n s.

(** The last loop: [commit], then the trash pass. *)
Definition flags_sent_side (t : side) (s : sync_vars) : sync_vars * bool :=
  msgs_flags_set t (state_or t ST_SENT_FLAGS (emit (EDrv t commit) s)).

(** *** [box_loaded]

    [None] is a pairing loop that does not end. *)
Definition box_loaded (nfmalloc : nat -> sync_rec)
  (rnd : side -> nat -> nat -> Z) (hashsz : nat) (sts : Z) (t : side)
  (s : sync_vars) : option sync_vars :=
  let '(s0, stop) := check_ret sts s in
  if stop then Some s0
  else
    let s1 := state_or t ST_LOADED s0 in
    let s2 :=
      if has (sel t (state s1)) S_FIND
      then match_tuids t
             (set_state (upd t (clear (sel t (state s1)) S_FIND) (state s1)) s1)
      else s1 in
    match match_uids hashsz t s2 with
    | None => None
    | Some s3 =>
        if side_eqb t Side.S && negb (smaxxuid s3 =? 0)
        then Some (fst (select_master s3))
        else if negb (has (sel (other t) (state s3)) ST_LOADED) then Some s3
        else
          let s4 :=
            if (sel Side.M (uidval s3) <? 0) || (sel Side.S (uidval s3) <? 0)
            then
              let uv := (uidvalidity (sel Side.M (ctx s3)),
                         uidvalidity (sel Side.S (ctx s3))) in
              journal "|"%char [fmt_d (fst uv); fmt_d (snd uv)]
                (set_uidval uv s3)
            else s3 in
          let n := length (srecs s4) in
          let '(s5, stop) := sync_new nfmalloc rnd s4 in
          if stop then Some s5
          else
            let '(s6, stop) := sync_old n s5 in
            if stop then Some s6
            else
              let '(s7, stop) := sync_flags n (expire s6) in
              if stop then Some s7
              else
                let '(s8, stop) := flags_sent_side Side.M s7 in
                if stop then Some s8
                else Some (fst (flags_sent_side Side.S s8))
    end.

(* ================================================================== *)
(** ** Auxiliary definitions of the proofs *)

(** The character class of a decimal digit, as a check over all
    characters. *)
Definition digit_class_b (c : ascii) : bool :=
  implb (isdigit c)
    (negb (isspace c) && negb (Ascii.eqb c NUL) && negb (Ascii.eqb c NL) &&
     negb (Ascii.eqb c "-"%char) && negb (Ascii.eqb c "+"%char)).

(** Characters of a token ([%s] stops at white space, a C string at NUL)
    and of the body of a line. *)
Definition plainb (c : ascii) : bool :=
  negb (isspace c) && negb (Ascii.eqb c NUL).

Definition lineb (c : ascii) : bool :=
  negb (Ascii.eqb c NUL) && negb (Ascii.eqb c NL).

Definition plain_class_b (c : ascii) : bool :=
  implb (isdigit c) (plainb c) && implb (plainb c) (lineb c).

(** The weight of the first digit that [dec_digits] prints. *)
Fixpoint dec_scale (fuel : nat) (n : Z) : Z :=
  match fuel with
  | O => 1
  | Datatypes.S f => 10 * (if n <? 10 then 1 else dec_scale f (n / 10))
  end.

Definition no_digit_head (r : list ascii) : Prop :=
  match r with
  | c :: _ => isdigit c = false
  | [] => True
  end.

Definition space_head (r : list ascii) : Prop :=
  match r with
  | c :: _ => isspace c = true
  | [] => True
  end.

(** What the state file needs of a flag set: [make_flags] yields a token
    of at most five characters that does not start with [X] and that
    [parse_flags] maps back. *)
Definition flags_ok_b (f : Z) : bool :=
  let fb := make_flags f in
  forallb plainb fb && (length fb <=? 5)%nat && (parse_flags fb =? f) &&
  negb (Ascii.eqb (char_at fb 0) "X"%char).

(** A complete line that fits into the read buffer. *)
Definition wf_line (l : list ascii) : Prop :=
  exists body, l = body ++ [NL] /\ Forall (fun c => lineb c = true) body /\
               (length body < BUFSZ - 1)%nat.

(** The records that reading back [rs] appends at position [k]. *)
Fixpoint reload (nfmalloc : nat -> sync_rec) (k : nat) (rs : list sync_rec)
  : list sync_rec :=
  match rs with
  | [] => []
  | r :: rs' =>
      entry_srec (nfmalloc k) (sel Side.M (uid r)) (sel Side.S (uid r))
        ((if has (status r) S_EXPIRED then ["X"%char] else []) ++
         make_flags (flags r))
      :: reload nfmalloc (Datatypes.S k) rs'
  end.

(** The values that the state file holds are [int]s and flag sets. *)
Definition entry_ok (r : sync_rec) : Prop :=
  is_int (sel Side.M (uid r)) /\ is_int (sel Side.S (uid r)) /\
  0 <= flags r < 32.

Definition header_ok (s : sync_vars) : Prop :=
  is_int (sel Side.M (uidval s)) /\ is_int (sel Side.M (maxuid s)) /\
  is_int (sel Side.S (uidval s)) /\ is_int (smaxxuid s) /\
  is_int (sel Side.S (maxuid s)).

(** A view of the file system that differs from [fs] in having no journal. *)
Definition without_journal (fs : fs_view) : fs_view :=
  mk_fs_view (fs_dir_ok fs) (fs_lock_fd fs) (fs_lock_ok fs) (fs_state fs)
    ENOENT (fs_new_exists fs) (fs_new_w fs) (fs_journal_a fs).

(** The trace of [s'] after that of [s]. *)
Definition events_since (s s' : sync_vars) : list event :=
  drop (length (trace s)) (trace s').

(** The operations that assign [svars->smaxxuid] after the state file is
    read: the commit of an expiration in [flags_set_sync_p2] and the replay
    of a journal entry. *)
Inductive smaxx_update : sync_vars -> sync_vars -> Prop :=
| smaxx_commit i t s : smaxx_update s (flags_set_sync_p2 i t s)
| smaxx_replay nfmalloc line e s srec s' srec' :
    replay_entry nfmalloc line e (s, srec) = inr (s', srec') ->
    smaxx_update s s'.

(** A call of a function of the engine on the state of a channel whose
    state file has been read: the completions of the requests made to the
    drivers ([box_loaded], [msg_fetched], [msg_stored], [msgs_found_new],
    the two completions of [set_flags], [msg_trashed], [box_closed],
    [cancel_done] and [store_bad]), and the functions that they call. *)
Inductive engine_call : sync_vars -> sync_vars -> Prop :=
| call_box_loaded nfmalloc rnd hashsz sts t s s' :
    box_loaded nfmalloc rnd hashsz sts t s = Some s' -> engine_call s s'
| call_msg_fetched sts header_ok vars s :
    engine_call s (msg_fetched sts header_ok vars s)
| call_msg_stored sts uid' vars s :
    engine_call s (msg_stored sts uid' vars s)
| call_msgs_found_new sts t s : engine_call s (msgs_found_new sts t s)
| call_flag_cb sts cb t s : engine_call s (flag_cb_call sts cb t s)
| call_msg_trashed sts t s : engine_call s (msg_trashed sts t s)
| call_box_closed sts t s : engine_call s (box_closed sts t s)
| call_cancel_done t s : engine_call s (cancel_done t s)
| call_store_bad t s : engine_call s (store_bad t s)
| call_load_box t minwuid mexcs s :
    engine_call s (fst (load_box t minwuid mexcs s))
| call_match_tuids t s : engine_call s (match_tuids t s)
| call_match_uids hashsz t s s' :
    match_uids hashsz t s = Some s' -> engine_call s s'
| call_select_master s : engine_call s (fst (select_master s))
| call_sync_new nfmalloc rnd s :
    engine_call s (fst (sync_new nfmalloc rnd s))
| call_sync_old n s : engine_call s (fst (sync_old n s))
| call_expire s : engine_call s (expire s)
| call_sync_flags n s : engine_call s (fst (sync_flags n s))
| call_flags_sent_side t s : engine_call s (fst (flags_sent_side t s))
| call_flags_set_sync sts i aflags dflags t s :
    engine_call s (flags_set_sync sts i aflags dflags t s)
| call_flags_set_sync_p2 i t s : engine_call s (flags_set_sync_p2 i t s)
| call_flags_set_del sts i t s : engine_call s (flags_set_del sts i t s)
| call_msgs_flags_set t s : engine_call s (fst (msgs_flags_set t s))
| call_copy_msg vars s : engine_call s (fst (copy_msg vars s))
| call_msg_copied sts uid' vars s :
    engine_call s (msg_copied sts uid' vars s)
| call_msg_rtrashed sts vars s : engine_call s (msg_rtrashed sts vars s)
| call_msgs_copied t s : engine_call s (msgs_copied t s)
| call_sync_close t s : engine_call s (sync_close t s)
| call_box_closed_p2 t s : engine_call s (box_closed_p2 t s)
| call_cancel_sync s : engine_call s (cancel_sync s)
| call_sync_bail s : engine_call s (sync_bail s).

(** A run of the engine on a channel with the files [fs], from the point
    where both mailboxes are selected: [box_selected] reads the state
    file and the journal and gets as far as opening the journal for
    appending (it does not fail), and then the functions of the engine
    are called, in any order and any number of times. *)
Inductive smaxx_run (fs : fs_view) (s0 : sync_vars) : sync_vars -> Prop :=
| smaxx_run_load nfmalloc drv_opts :
    In (EFile Open_journal_a)
       (events_since s0 (box_selected_load nfmalloc drv_opts fs s0)) ->
    smaxx_run fs s0 (box_selected_load nfmalloc drv_opts fs s0)
| smaxx_run_call s s' :
    smaxx_run fs s0 s -> engine_call s s' -> smaxx_run fs s0 s'.

(** The value of [smaxxuid] that a state file holds: the fourth number of
    its header, as [box_selected] reads it. *)
Definition stored_smaxxuid (f : fopen_r) : option Z :=
  match f with
  | Opened content =>
      match file_lines content with
      | [] => None
      | buf :: _ =>
          if incomplete buf then None
          else match parse_header (c_str buf) with
               | Some (_, _, _, sx, _) => Some sx
               | None => None
               end
      end
  | ENOENT | EOTHER => None
  end.

(** [rename( svars->nname, svars->dname )] *)
Definition is_rename (e : event) : bool :=
  match e with
  | EFile Rename_new_state => true
  | _ => false
  end.

(** The state file that a run leaves, where it found [f]: what it wrote
    to [state.new], if it renamed that file. *)
Definition state_file_after (f : fopen_r) (evs : list event) : fopen_r :=
  if existsb is_rename evs then Opened (nfp_content evs) else f.

(** A sequence of runs on the same channel, each of which reads the state
    file that the one before it left.  A run ends in [box_selected], or
    it goes on as [smaxx_run] tells.  The journal and the rest of the file
    system are whatever the run finds.  [smaxxuid] is an [int]. *)
Inductive smaxx_runs : fopen_r -> fopen_r -> Prop :=
| smaxx_runs_nil f : smaxx_runs f f
| smaxx_runs_load f fs nfmalloc drv_opts s0 :
    smaxx_runs f (fs_state fs) ->
    smaxx_runs f
      (state_file_after (fs_state fs)
         (events_since s0 (box_selected_load nfmalloc drv_opts fs s0)))
| smaxx_runs_next f fs s0 s :
    smaxx_runs f (fs_state fs) -> smaxx_run fs s0 s ->
    is_int (smaxxuid s) ->
    smaxx_runs f (state_file_after (fs_state fs) (events_since s0 s)).

(** Effects on the state files. *)
Definition is_state_write (e : event) : bool :=
  match e with
  | ENewState _ | EFile Rename_new_state => true
  | _ => false
  end.

(** Every effect but those on the state files. *)
Definition no_state_write (e : event) : bool := negb (is_state_write e).

(** The effects of [box_selected] before it opens the journal for
    appending. *)
Definition before_journal (e : event) : bool :=
  match e with
  | ENewState _ | EFile Rename_new_state | EFile Open_journal_a => false
  | _ => true
  end.

(** What a sequence of effects does to the state files: nothing, or what
    it writes to [state.new] begins with the header of a state whose
    [smaxxuid] lies between [lo] and [hi]. *)
Definition state_writes (lo hi : Z) (evs : list event) : Prop :=
  forallb no_state_write evs = true \/
  exists sc rest,
    nfp_content evs = state_header_line sc ++ rest /\
    lo <= smaxxuid sc <= hi.

(** What every function of the engine keeps: [smaxxuid] does not decrease,
    and a state file that is written holds a value of [smaxxuid] between
    the one before and the one after the call. *)
Definition smaxx_keeps (s s' : sync_vars) : Prop :=
  smaxxuid s <= smaxxuid s' /\
  exists evs,
    trace s' = trace s ++ evs /\
    state_writes (smaxxuid s) (smaxxuid s') evs.

(** The outcome of an operation on [smaxxuid]: it keeps its value, or it
    becomes the larger slave UID of a record of [s]. *)
Definition smaxx_outcome (s s' : sync_vars) : Prop :=
  smaxxuid s' = smaxxuid s \/
  (smaxxuid s < smaxxuid s' /\
   exists srec, In srec (srecs s) /\ smaxxuid s' = sel Side.S (uid srec)).

(** [no[t]] of the pass over the existing pairs: the record has no
    message on side [t] although the old messages of [t] were loaded. *)
Definition absent (t : side) (srec : sync_rec) (s : sync_vars) : bool :=
  match sel t (msg srec) with
  | None => has (opts (sel t (ctx s))) OPEN_OLD
  | Some _ => false
  end.

(** The records for which that pass computes flag changes: live, not done
    in this run, and not vanished from both sides. *)
Definition handled_old (srec : sync_rec) (s : sync_vars) : bool :=
  negb (has (status srec) (Z.lor S_DEAD S_DONE)) &&
  negb (absent Side.M srec s && absent Side.S srec s).

(** Requests to a driver among the effects. *)
Definition is_drv (e : event) : bool :=
  match e with
  | EDrv _ _ => true
  | _ => false
  end.

(** [s'] continues the trace of [s] with effects that all satisfy [P]. *)
Definition extends (P : event -> bool) (s s' : sync_vars) : Prop :=
  exists evs, trace s' = trace s ++ evs /\ forallb P evs = true.

(** Effects that change neither the journal, nor the state files, nor a
    mailbox: diagnostics, the completion callback, and the handling of
    the lock file. *)
Definition no_change (e : event) : bool :=
  match e with
  | EDiag _ | ECallback _ => true
  | EFile Open_lock | EFile Unlink_lock | EFile Close_lock => true
  | _ => false
  end.

(** Every effect but a request to cancel. *)
Definition not_cancel (e : event) : bool :=
  match e with
  | EDrv _ cancel => false
  | _ => true
  end.

(** What reading the state file and the journal leaves alone. *)
Definition same_world (s s' : sync_vars) : Prop :=
  trace s' = trace s /\ ctx s' = ctx s /\ chan s' = chan s /\
  ref_count s' = ref_count s /\ ret s' = ret s /\ lfd s' = lfd s /\
  state s' = state s /\ DFlags s' = DFlags s.

(** The channel goes on without failure: [ret] stays and nothing is
    cancelled. *)
Definition goes_on (s s' : sync_vars) : Prop :=
  ret s' = ret s /\ extends not_cancel s s'.

(** No bit of [svars->state] is taken back. *)
Definition state_bits_kept (s s' : sync_vars) : Prop :=
  forall t bit, has (sel t (state s)) bit = true ->
                has (sel t (state s')) bit = true.

(** What the functions that run after a completed request leave alone
    when they do not fail: they go on, the counters of finished copies and
    trash moves stay, and a record that was killed stays as it is. *)
Definition quiet (s s' : sync_vars) : Prop :=
  goes_on s s' /\ new_done s' = new_done s /\ trash_done s' = trash_done s /\
  state_bits_kept s s' /\
  forall i ri, srecs s !! i = Some ri -> status ri = S_DEAD ->
               srecs s' !! i = Some ri.

(** The state [s] with another trace. *)
Definition set_trace (v : list event) (s : sync_vars) : sync_vars :=
  mk_svars (srecs s) (chan s) (ctx s) (state s) (ref_count s) (ret s) (lfd s)
    (new_total s) (new_done s) (flags_total s) (flags_done s)
    (trash_total s) (trash_done s) (maxuid s) (uidval s) (newuid s)
    (smaxxuid s) (DFlags s) v.

(** What the purge leaves alone: everything but the records, with only
    journal entries added to the trace. *)
Definition purge_frame (s s' : sync_vars) : Prop :=
  goes_on s s' /\ new_done s' = new_done s /\ trash_done s' = trash_done s /\
  state s' = state s /\ maxuid s' = maxuid s /\ uidval s' = uidval s /\
  smaxxuid s' = smaxxuid s /\ length (srecs s') = length (srecs s) /\
  nfp_content (trace s') = nfp_content (trace s).

(** Side [t] is being cancelled or is cancelled. *)
Definition cancelling (t : side) (s : sync_vars) : bool :=
  has (sel t (state s)) (Z.lor ST_SENT_CANCEL ST_CANCELED).

(** A state on which a remote trash copy has just failed: one message of
    the master is to be copied into the trash of the slave. *)
Definition rtrash_state : sync_vars :=
  set_trash_total (1, 0)
    (sync_boxes_init
       (mk_channel_conf
          (mk_store_conf false INT_MAX false false,
           mk_store_conf true INT_MAX true false)
          (Z.lor OP_NEW OP_EXPUNGE, OP_NEW) 0)
       (mk_store (mk_store_conf false INT_MAX false false)
          [mk_msg None 100 7 F_DELETED M_FLAGS []] 1 8 0 1 0,
        mk_store (mk_store_conf true INT_MAX true false) [] 1 1 0 0 0)
       0).

Definition rtrash_vars : copy_vars :=
  mk_copy_vars Cb_msg_rtrashed Side.S None 0.

(** The header fields that journal entries assign: [maxuid], [newuid]
    and [uidval] of both sides. *)
Definition hdr : Type := (Z * Z * Z * Z * Z * Z)%type.

Definition hdr_of (s : sync_vars) : hdr :=
  (sel Side.M (maxuid s), sel Side.S (maxuid s),
   sel Side.M (newuid s), sel Side.S (newuid s),
   sel Side.M (uidval s), sel Side.S (uidval s)).

(** An assignment to some of these fields. *)
Definition patch : Type :=
  (option Z * option Z * option Z * option Z * option Z * option Z)%type.

(** [o] applied to the value [x] of a field. *)
Definition ov (o : option Z) (x : Z) : Z :=
  match o with Some v => v | None => x end.

(** [p], then [q]. *)
Definition oc (p q : option Z) : option Z :=
  match q with Some v => Some v | None => p end.

Definition apply_patch (p : patch) (h : hdr) : hdr :=
  let '(p1, p2, p3, p4, p5, p6) := p in
  let '(h1, h2, h3, h4, h5, h6) := h in
  (ov p1 h1, ov p2 h2, ov p3 h3, ov p4 h4, ov p5 h5, ov p6 h6).

Definition compose_patch (p q : patch) : patch :=
  let '(p1, p2, p3, p4, p5, p6) := p in
  let '(q1, q2, q3, q4, q5, q6) := q in
  (oc p1 q1, oc p2 q2, oc p3 q3, oc p4 q4, oc p5 q5, oc p6 q6).

Definition no_patch : patch := (None, None, None, None, None, None).

(** What a journal entry assigns in the header. *)
Definition patch_of (e : jline) : patch :=
  let op := j_op e in
  if Ascii.eqb op "("%char then (Some (j_t1 e), None, None, None, None, None)
  else if Ascii.eqb op ")"%char then
    (None, Some (j_t1 e), None, None, None, None)
  else if Ascii.eqb op "{"%char then
    (None, None, Some (j_t1 e), None, None, None)
  else if Ascii.eqb op "}"%char then
    (None, None, None, Some (j_t1 e), None, None)
  else if Ascii.eqb op "|"%char then
    (None, None, None, None, Some (j_t1 e), Some (j_t2 e))
  else no_patch.

(** What the lines of a journal assign in the header. *)
Fixpoint patch_of_lines (lines : list (list ascii)) : patch :=
  match lines with
  | [] => no_patch
  | buf :: lines' =>
      compose_patch
        (match parse_jline (c_str buf) with
         | Some e => patch_of e
         | None => no_patch
         end)
        (patch_of_lines lines')
  end.

(** A record in freshly allocated memory, for the examples. *)
Definition blank_srec : sync_rec :=
  mk_srec (0, 0) (None, None) 0 0 (0, 0) (0, 0) [].

(** A channel that propagates new messages to the slave, whose store
    takes messages of up to 100 bytes; the master holds one message of
    1000 bytes, UID 5; no state file yet. *)
Definition pull_state : sync_vars :=
  sync_boxes_init
    (mk_channel_conf
       (mk_store_conf false INT_MAX false false,
        mk_store_conf false 100 false false)
       (0, OP_NEW) 0)
    (mk_store (mk_store_conf false INT_MAX false false)
       [mk_msg None 1000 5 0 M_FLAGS []] 1 6 0 1 0,
     mk_store (mk_store_conf false 100 false false) [] 1 1 0 0 0)
    0.

(** A journal with the entry of one new record. *)
Definition journal_plus : list ascii :=
  ["2"; NL; "+"; " "; "5"; " "; "-"; "2"; NL]%char.

(** A journal that resolves the slave UID of the pair (5,-2). *)
Definition journal_resolve : list ascii :=
  ["2"; NL; ">"; " "; "5"; " "; "-"; "2"; " "; "9"; NL]%char.

(** A record with an actual UID on some side. *)
Definition has_a_uid (r : sync_rec) : Prop :=
  0 < sel Side.M (uid r) \/ 0 < sel Side.S (uid r).

(** The run of [pull_state] through the pass over the new messages of the
    master and the close of both sides. *)
Definition pull_run : sync_vars :=
  box_closed_p2 Side.S
    (state_or Side.M ST_CLOSED
       (fst (sync_new_msg (fun _ => blank_srec) (fun _ => 0) Side.S 0
               pull_state))).

(** What [match_tuids] reads of a message: its status and its TUID. *)
Definition msig (m : message) : Z * list ascii := (m_status m, m_tuid m).

(** The test of the search loops, on these. *)
Definition sig_match (srec : sync_rec) (g : Z * list ascii) : bool :=
  negb (has (fst g) M_DEAD) && tuid_set (snd g) &&
  memcmp_eq (snd g) (tuid srec) TUIDL.

(** The records that [match_tuids] loses on side [t]: live, [uid[t]] -2,
    a TUID, and no live message with that TUID among those with the
    signatures [sigs]. *)
Definition lostb (t : side) (sigs : list (Z * list ascii)) (srec : sync_rec)
  : bool :=
  negb (has (status srec) S_DEAD) && (sel t (uid srec) =? -2) &&
  tuid_set (tuid srec) && forallb (fun g => negb (sig_match srec g)) sigs.

Definition is_journal (e : event) : bool :=
  match e with
  | EJournal _ => true
  | _ => false
  end.

(** The record after its TUID is given up. *)
Definition tuid_lost (srec : sync_rec) : sync_rec :=
  set_tuid (tuid_clear (tuid srec)) (set_flags_ 0 srec).

(** *** Concrete states of the examples *)

(** Both sides about to be closed after the slave was expunged: a pair
    whose slave message was deleted and expunged, a slave message without
    master, a master message that was too big for the slave, and a record
    without any UID. *)
Definition purge_state : sync_vars :=
  set_state (0, Z.lor ST_CLOSED ST_DID_EXPUNGE)
    (set_srecs
       [mk_srec (5, 7) (None, None) (S_DEL Side.S) F_SEEN (0, 0) (0, 0) [];
        mk_srec (0, 9) (None, None) 0 0 (0, 0) (0, 0) [];
        mk_srec (3, -1) (None, None) S_EXPIRED F_FLAGGED (0, 0) (0, 0) [];
        mk_srec (0, -2) (None, None) 0 0 (0, 0) (0, 0) []]
       (set_uidval (1, 1) pull_state)).

(** A journal that only assigns header fields. *)
Definition journal_header : list ascii :=
  ["2"; NL; "("; " "; "7"; NL; "|"; " "; "3"; " "; "4"; NL]%char.

Definition replayed (content : list ascii) (s : sync_vars) : sync_vars :=
  match replay_journal (fun _ => blank_srec) content s with
  | inr (s', _) => s'
  | inl _ => s
  end.

(** A pair in expiration whose slave message is flagged deleted, on a
    channel that propagates flags both ways. *)
Definition expiring_state : sync_vars :=
  set_srecs
    [mk_srec (5, 7) (Some O, Some O) (Z.lor S_EXPIRE S_EXPIRED) F_SEEN
       (0, 0) (0, 0) []]
    (sync_boxes_init
       (mk_channel_conf
          (mk_store_conf false INT_MAX false false,
           mk_store_conf false INT_MAX false false)
          (OP_FLAGS, OP_FLAGS) 1)
       (mk_store (mk_store_conf false INT_MAX false false)
          [mk_msg (Some O) 10 5 F_SEEN M_FLAGS []] 1 6 OPEN_OLD 1 0,
        mk_store (mk_store_conf false INT_MAX false false)
          [mk_msg (Some O) 10 7 (Z.lor F_SEEN F_DELETED) M_FLAGS []]
          1 8 OPEN_OLD 1 0)
       0).

(** A record whose copy to the slave was interrupted, and a slave that
    holds one message with another TUID. *)
Definition lost_state : sync_vars :=
  set_srecs
    [mk_srec (5, -2) (None, None) 0 F_SEEN (0, 0) (0, 0)
       ["A"; "B"; "C"; "D"; "E"; "F"; "G"; "H"; "I"; "J"; "K"; "L"]%char]
    (sync_boxes_init
       (mk_channel_conf
          (mk_store_conf false INT_MAX false false,
           mk_store_conf false INT_MAX false false)
          (0, OP_NEW) 0)
       (mk_store (mk_store_conf false INT_MAX false false)
          [mk_msg None 10 5 F_SEEN M_FLAGS []] 1 6 0 1 0,
        mk_store (mk_store_conf false INT_MAX false false)
          [mk_msg None 10 9 0 M_FLAGS
             ["Z"; "B"; "C"; "D"; "E"; "F"; "G"; "H"; "I"; "J"; "K"; "L"]%char]
          1 10 0 1 0)
       0).

(** A state file that records UIDVALIDITY 1 for the master and 9 for the
    slave; the stores of [pull_state] report 1 and 1. *)
Definition state_file_9 : list ascii :=
  ["1"; ":"; "0"; " "; "9"; ":"; "0"; ":"; "0"; NL]%char.

Definition fs_9 : fs_view :=
  mk_fs_view true 3 true (Opened state_file_9) ENOENT false true true.

(** A journal left beside a committed state: no [state.new]. *)
Definition fs_stale_journal : fs_view :=
  mk_fs_view true 3 true ENOENT (Opened journal_plus) false true true.

(** A state file with one pair, of which nothing has expired, and the
    journal of an interrupted run that has expired the pair. *)
Definition state_file_57 : list ascii :=
  ["1"; ":"; "6"; " "; "1"; ":"; "0"; ":"; "8"; NL;
   "5"; " "; "7"; " "; "S"; NL]%char.

Definition journal_expired : list ascii :=
  ["2"; NL; "~"; " "; "5"; " "; "7"; " "; "1"; NL;
   "/"; " "; "5"; " "; "7"; NL]%char.

Definition fs_expired : fs_view :=
  mk_fs_view true 3 true (Opened state_file_57) (Opened journal_expired)
    true true true.

(** A run on these files that commits at once: both sides are closed. *)
Definition run_expired : sync_vars :=
  box_closed DRV_OK Side.S
    (box_closed DRV_OK Side.M
       (box_selected_load (fun _ => blank_srec) (fun _ o => o) fs_expired
          (set_srecs [] expiring_state))).

(** The pair of [expiring_state] newly chosen for expiration: EXPIRE and
    NEXPIRE set, EXPIRED not yet. *)
Definition expire_pending_state : sync_vars :=
  upd_srec O (set_status (Z.lor S_EXPIRE S_NEXPIRE)) expiring_state.

(** [pull_state] with the lock taken and the state file [state_file_9]
    read. *)
Definition loaded_9 : sync_vars :=
  match load_state (fun _ => blank_srec) (fs_state fs_9)
          (emit (EFile Open_lock) (set_lfd (fs_lock_fd fs_9) pull_state))
  with
  | inr s => s
  | inl _ => pull_state
  end.

(** A copy of the message of [lost_state] to its record, under way. *)
Definition lost_copy : copy_vars :=
  mk_copy_vars Cb_msg_copied Side.S (Some O) O.

(** The carriage returns and the line feeds of a stretch of bytes. *)
Fixpoint crs (l : list ascii) : Z :=
  match l with
  | [] => 0
  | c :: l' => (if Ascii.eqb c CR then 1 else 0) + crs l'
  end.

Fixpoint lfs (l : list ascii) : Z :=
  match l with
  | [] => 0
  | c :: l' => (if Ascii.eqb c NL then 1 else 0) + lfs l'
  end.

(** Line ends are CRLF throughout: every LF follows a CR and every CR is
    followed by a LF. *)
Fixpoint crlf_lines (l : list ascii) : bool :=
  match l with
  | [] => true
  | c :: l' =>
      if Ascii.eqb c CR then
        match l' with
        | c' :: l'' => Ascii.eqb c' NL && crlf_lines l''
        | [] => false
        end
      else negb (Ascii.eqb c NL) && crlf_lines l'
  end.

(** No carriage return at all. *)
Definition no_cr (l : list ascii) : bool :=
  forallb (fun c => negb (Ascii.eqb c CR)) l.

(** The twelve bytes of a TUID hold neither CR nor LF. *)
Definition tuid_plain (tu : list ascii) : bool :=
  forallb (fun c => negb (Ascii.eqb c CR) && negb (Ascii.eqb c NL))
    (map (char_at tu) (seq 0 TUIDL)).

(** The bytes stored for a message with a sync record, given the scan of
    its header. *)
Definition rewritten (tu : list ascii) (scr tcr : bool) (fmap : list ascii)
  (h : hscan) : list ascii :=
  copy_part scr tcr (firstn (sbreak h) fmap) ++
  X_TUID ++ map (char_at tu) (seq 0 TUIDL) ++
  (if tuid_cr scr tcr (h_hcrs h) then [CR] else []) ++ [NL] ++
  copy_part scr tcr (skipn (ebreak h) fmap).

(** A message of two header lines and a body, with LF line ends and a
    stray CR, and a TUID. *)
Definition sample_msg : list ascii :=
  ["T"; "o"; ":"; "a"; NL; "C"; "c"; ":"; "b"; CR; NL; NL; "h"; "i"; NL]%char.

Definition sample_tuid : list ascii :=
  ["A"; "B"; "C"; "D"; "E"; "F"; "G"; "H"; "I"; "J"; "K"; "L"]%char.

(** The alphabet of a TUID: letters, digits, [+] and [/]. *)
Definition tuid_alpha (c : ascii) : bool :=
  ((65 <=? code c) && (code c <=? 90)) || ((97 <=? code c) && (code c <=? 122)) ||
  isdigit c || Ascii.eqb c "+"%char || Ascii.eqb c "/"%char.

(** The check of [tuid_char] on all values of [arc4_getbyte() & 0x3f]. *)
Definition tuid_char_ok (b : Z) : bool :=
  tuid_alpha (tuid_char b) && plainb (tuid_char b) &&
  negb (Ascii.eqb (tuid_char b) CR).

(** A state file whose last entry was cut short, and the files of a
    channel that has it. *)
Definition truncated_state_file : list ascii :=
  ["1"; ":"; "2"; " "; "3"; ":"; "4"; ":"; "5"; NL; "7"; " "; "8"]%char.

Definition fs_truncated : fs_view :=
  mk_fs_view true 3 true (Opened truncated_state_file) ENOENT false true true.

(** What [msgs_flags_set] may ask of the drivers for side [t] in the
    state [s], and the other effects it may have: a local trash move or a
    copy into the remote trash, each of a message with F_DELETED under
    the conditions of the configuration; the close of the mailbox;
    journal, state files, diagnostics and the completion callback. *)
Definition trash_event (t : side) (s : sync_vars) (e : event) : Prop :=
  match e with
  | EDrv t' (trash_msg k) =>
      t' = t /\
      exists tmsg,
        msgs (sel t (ctx s)) !! k = Some tmsg /\
        has (m_flags tmsg) F_DELETED = true /\
        has (sel t (ops (chan s))) OP_EXPUNGE = true /\
        trash (conf (sel t (ctx s))) = true /\
        (trash_only_new (conf (sel t (ctx s))) = true ->
         not_propagated t tmsg s = true)
  | EDrv t' (fetch_msg vars) =>
      t' = t /\
      vars = mk_copy_vars Cb_msg_rtrashed (other t) None (cv_msg vars) /\
      exists tmsg,
        msgs (sel t (ctx s)) !! cv_msg vars = Some tmsg /\
        has (m_flags tmsg) F_DELETED = true /\
        has (sel t (ops (chan s))) OP_EXPUNGE = true /\
        trash (conf (sel t (ctx s))) = false /\
        trash (conf (sel (other t) (ctx s))) = true /\
        trash_remote_new (conf (sel (other t) (ctx s))) = true /\
        not_propagated t tmsg s = true /\
        m_size tmsg <= max_size (conf (sel (other t) (ctx s)))
  | EDrv t' close => t' = t
  | EDrv _ _ => False
  | _ => True
  end.

(** The requests that [trash_total] counts. *)
Definition is_trash_req (e : event) : bool :=
  match e with
  | EDrv _ (trash_msg _) | EDrv _ (fetch_msg _) => true
  | _ => false
  end.

(** Effects of closing: no request but [close] on side [t]. *)
Definition closing_event (t : side) (e : event) : bool :=
  match e with
  | EDrv t' close => side_eqb t' t
  | EDrv _ _ => false
  | _ => true
  end.

(** What one step of the loop of [msgs_flags_set] may ask for. *)
Definition trash_req_ok (t : side) (s : sync_vars) (e : event) : Prop :=
  match e with
  | EDrv t' (trash_msg k) =>
      t' = t /\
      exists tmsg,
        msgs (sel t (ctx s)) !! k = Some tmsg /\
        has (m_flags tmsg) F_DELETED = true /\
        trash (conf (sel t (ctx s))) = true /\
        (trash_only_new (conf (sel t (ctx s))) = true ->
         not_propagated t tmsg s = true)
  | EDrv t' (fetch_msg vars) =>
      t' = t /\
      vars = mk_copy_vars Cb_msg_rtrashed (other t) None (cv_msg vars) /\
      exists tmsg,
        msgs (sel t (ctx s)) !! cv_msg vars = Some tmsg /\
        has (m_flags tmsg) F_DELETED = true /\
        trash (conf (sel t (ctx s))) = false /\
        not_propagated t tmsg s = true /\
        m_size tmsg <= max_size (conf (sel (other t) (ctx s)))
  | ECallback _ => True
  | _ => False
  end.

(** What the loop of [msgs_flags_set] keeps and does. *)
Definition trash_step (t : side) (s s' : sync_vars) : Prop :=
  ctx s' = ctx s /\ srecs s' = srecs s /\ chan s' = chan s /\
  state s' = state s /\ trash_done s' = trash_done s /\
  sel (other t) (trash_total s') = sel (other t) (trash_total s) /\
  exists evs,
    trace s' = trace s ++ evs /\
    sel t (trash_total s')
    = sel t (trash_total s) +
      Z.of_nat (length (List.filter is_trash_req evs)) /\
    Forall (trash_req_ok t s) evs.

(** What allows the record [r] at index [i] to be chosen for expiration
    in the state [s]: a live message of the slave that belongs to it, is
    propagated, is not flagged, is not recent or is seen, and is not about
    to be deleted unless the record is in expiration already. *)
Definition may_expire (s : sync_vars) (i : nat) (r : sync_rec) : Prop :=
  exists k tmsg,
    msgs (sel Side.S (ctx s)) !! k = Some tmsg /\
    m_srec tmsg = Some i /\
    has (m_status tmsg) M_DEAD = false /\
    0 < sel Side.M (uid r) /\
    has (nflags_S tmsg r) F_FLAGGED = false /\
    (has (m_status tmsg) M_RECENT = false \/
     has (m_flags tmsg) F_SEEN = true) /\
    (has (nflags_S tmsg r) F_DELETED = false \/
     has (status r) (Z.lor S_EXPIRE S_EXPIRED) = true).

(** What the marking loop has done to the records of [s0] when it is at
    [s]. *)
Definition marked (s0 s : sync_vars) : Prop :=
  ctx s = ctx s0 /\
  forall i r,
    srecs s0 !! i = Some r ->
    exists r',
      srecs s !! i = Some r' /\
      uid r' = uid r /\ aflags r' = aflags r /\ dflags r' = dflags r /\
      (status r' = status r \/
       (status r' = Z.lor (status r) S_NEXPIRE /\ may_expire s0 i r)).

(** Two propagated pairs on a slave that may keep one message. *)
Definition excess_state : sync_vars :=
  set_srecs
    [mk_srec (5, 7) (Some O, Some O) 0 F_SEEN (0, 0) (0, 0) [];
     mk_srec (6, 8) (Some 1%nat, Some 1%nat) 0 F_SEEN (0, 0) (0, 0) []]
    (sync_boxes_init
       (mk_channel_conf
          (mk_store_conf false INT_MAX false false,
           mk_store_conf false INT_MAX false false)
          (OP_FLAGS, OP_FLAGS) 1)
       (mk_store (mk_store_conf false INT_MAX false false)
          [mk_msg (Some O) 10 5 F_SEEN M_FLAGS [];
           mk_msg (Some 1%nat) 10 6 F_SEEN M_FLAGS []] 1 7 OPEN_OLD 2 0,
        mk_store (mk_store_conf false INT_MAX false false)
          [mk_msg (Some O) 10 7 F_SEEN M_FLAGS [];
           mk_msg (Some 1%nat) 10 8 F_SEEN M_FLAGS []] 1 9 OPEN_OLD 2 0)
       0).

(** A request to change flags that changes something: it names a flag,
    and where the flags of the message are known ([M_FLAGS]) it adds none
    that the message has and removes none that it lacks.  The messages
    are those of the stores of [s]. *)
Definition flag_req_ok (s : sync_vars) (e : event) : Prop :=
  match e with
  | EDrv t (set_flags k _ add del _) =>
      Z.lor add del <> 0 /\
      forall j m,
        k = Some j -> msgs (sel t (ctx s)) !! j = Some m ->
        has (m_status m) M_FLAGS = true ->
        Z.land add (m_flags m) = 0 /\ Z.land del (m_flags m) = del
  | _ => True
  end.

(** The flag pass from [a] to [b]: the stores stay and every effect is a
    sound request or no request. *)
Definition flag_pass (a b : sync_vars) : Prop :=
  ctx b = ctx a /\
  exists evs, trace b = trace a ++ evs /\ Forall (flag_req_ok a) evs.

(** The UID [u] is in what a [load] request with the range [lo..hi] and
    the exceptions [excs] asks for. *)
Definition covered (lo hi : Z) (excs : list Z) (u : Z) : Prop :=
  lo <= u <= hi \/ In u excs.

(** Three pairs on a slave whose messages up to UID 8 have been subject
    to expiration: the second one is expired, the first one is not. *)
Definition selection_state : sync_vars :=
  set_smaxxuid 8
    (set_srecs
       [mk_srec (5, 7) (None, Some O) 0 F_SEEN (0, 0) (0, 0) [];
        mk_srec (6, 8) (None, Some 1%nat) S_EXPIRED F_SEEN (0, 0) (0, 0) [];
        mk_srec (9, 12) (None, Some 2%nat) 0 F_SEEN (0, 0) (0, 0) []]
       (sync_boxes_init
          (mk_channel_conf
             (mk_store_conf false INT_MAX false false,
              mk_store_conf false INT_MAX false false)
             (OP_FLAGS, OP_FLAGS) 2)
          (mk_store (mk_store_conf false INT_MAX false false)
             [] 1 10 OPEN_OLD 0 0,
           mk_store (mk_store_conf false INT_MAX false false)
             [mk_msg (Some O) 10 7 F_SEEN M_FLAGS [];
              mk_msg (Some 1%nat) 10 8 F_SEEN M_FLAGS [];
              mk_msg (Some 2%nat) 10 12 F_SEEN M_FLAGS []]
             1 13 OPEN_OLD 3 0)
          0)).

(** Every entry of the table that is in use names a live record of [rs]
    with that UID on side [t]. *)
Definition table_ok (t : side) (rs : list sync_rec) (m : srecmap) : Prop :=
  forall idx u o,
    m !! idx = Some (u, o) -> u <> 0 ->
    exists i r,
      o = Some i /\ rs !! i = Some r /\ live r = true /\ sel t (uid r) = u.

(** The record at [i] points to a message of side [t] that points back
    to it and has its UID. *)
Definition linked (t : side) (s : sync_vars) (i : nat) : Prop :=
  exists r k m,
    srecs s !! i = Some r /\ sel t (msg r) = Some k /\
    msgs (sel t (ctx s)) !! k = Some m /\
    m_srec m = Some i /\ m_uid m = sel t (uid r).

(** What the pairing loop has done when it is at [s], from [s0]: the
    records keep UIDs and status, and a message is as it was or was
    without record and is paired with a live record that has its UID. *)
Definition pairing (t : side) (s0 s : sync_vars) : Prop :=
  (forall i r0,
     srecs s0 !! i = Some r0 ->
     exists r, srecs s !! i = Some r /\ uid r = uid r0 /\
               status r = status r0) /\
  forall j m,
    msgs (sel t (ctx s)) !! j = Some m ->
    exists m0,
      msgs (sel t (ctx s0)) !! j = Some m0 /\ m_uid m = m_uid m0 /\
      (m = m0 \/
       (m_srec m0 = None /\
        exists i r0,
          m_srec m = Some i /\ srecs s0 !! i = Some r0 /\
          live r0 = true /\ sel t (uid r0) = m_uid m0 /\ m_uid m0 <> 0 /\
          linked t s i)).

(** The slot reached from [idx] after [j] steps of the probing loops. *)
Fixpoint probe (hashsz idx j : nat) : nat :=
  match j with
  | O => idx
  | Datatypes.S j' => probe hashsz (next_slot hashsz idx) j'
  end.

(** The slot [p] of the table is in use. *)
Definition used (m : srecmap) (p : nat) : Prop :=
  exists u o, m !! p = Some (u, o) /\ u <> 0.

(** Every entry in use is reached from the hash of its UID through slots
    in use. *)
Definition table_paths (m : srecmap) : Prop :=
  forall p u o,
    m !! p = Some (u, o) -> u <> 0 ->
    exists j,
      (j < length m)%nat /\
      probe (length m) (hash_uid (length m) u) j = p /\
      forall j', (j' < j)%nat ->
                 used m (probe (length m) (hash_uid (length m) u) j').

(** The number of slots in use. *)
Definition used_count (m : srecmap) : nat :=
  length (List.filter (fun e : Z * option nat => negb (fst e =? 0)) m).




(** The UIDs and the message pointers of the records. *)
Definition pairs (s : sync_vars) : list (arr2 Z * arr2 (option nat)) :=
  map (fun r => (uid r, msg r)) (srecs s).

(** A request of the pass over the existing pairs that is justified: it
    sets [F_DELETED] on the message of side [t] of a pair, on a channel
    that propagates deletions to [t], where the message of the other side
    was propagated ([uid[1-t] > 0]) and is gone from a mailbox whose old
    messages were loaded. *)
Definition del_req_ok (s : sync_vars) (e : event) : Prop :=
  match e with
  | EDrv t c =>
      exists i u m,
        pairs s !! i = Some (u, m) /\
        c = set_flags (sel t m) (sel t u) F_DELETED 0 (Cb_flags_set_del i) /\
        has (sel t (ops (chan s))) OP_DELETE = true /\
        sel t u <> 0 /\
        sel (other t) m = None /\
        has (opts (sel (other t) (ctx s))) OPEN_OLD = true /\
        0 < sel (other t) u
  | _ => True
  end.

(** The pass from [a] to [b]: stores, channel, UIDs and message pointers
    stay, and every effect is a justified request or no request. *)
Definition old_pass (a b : sync_vars) : Prop :=
  ctx b = ctx a /\ chan b = chan a /\ pairs b = pairs a /\
  exists evs, trace b = trace a ++ evs /\ Forall (del_req_ok a) evs.

(** A pair whose master message is gone, on a channel that propagates
    deletions to the slave. *)
Definition deleted_state : sync_vars :=
  set_srecs
    [mk_srec (5, 7) (None, Some O) 0 F_SEEN (0, 0) (0, 0) []]
    (sync_boxes_init
       (mk_channel_conf
          (mk_store_conf false INT_MAX false false,
           mk_store_conf false INT_MAX false false)
          (0, OP_DELETE) 0)
       (mk_store (mk_store_conf false INT_MAX false false)
          [] 1 6 OPEN_OLD 0 0,
        mk_store (mk_store_conf false INT_MAX false false)
          [mk_msg (Some O) 10 7 F_SEEN M_FLAGS []] 1 8 OPEN_OLD 1 0)
       0).

(** A header line without its line end: not empty, without CR or LF,
    and not beginning with ["X-TUID: "]. *)
Definition hdr_line (l : list ascii) : bool :=
  negb (match l with [] => true | _ => false end) &&
  forallb (fun c => negb (Ascii.eqb c CR) && negb (Ascii.eqb c NL)) l &&
  negb (memcmp_eq l X_TUID 8).

(** The text of header lines with LF line ends. *)
Definition hdr_text (ls : list (list ascii)) : list ascii :=
  concat (map (fun l => l ++ [NL]) ls).

(** The header line that carries the TUID [tu]. *)
Definition tuid_line (tu : list ascii) : list ascii :=
  X_TUID ++ map (char_at tu) (seq 0 TUIDL) ++ [NL].

(** The lines that a stretch of effects adds to the journal. *)
Fixpoint journal_lines (tr : list event) : list (list ascii) :=
  match tr with
  | [] => []
  | EJournal line :: tr' => line :: journal_lines tr'
  | _ :: tr' => journal_lines tr'
  end.

(** A channel that propagates new messages to the slave; the master holds
    one seen message of 10 bytes, UID 5, that has no sync record. *)
Definition new_mail_state : sync_vars :=
  sync_boxes_init
    (mk_channel_conf
       (mk_store_conf false INT_MAX false false,
        mk_store_conf false INT_MAX false false)
       (0, OP_NEW) 0)
    (mk_store (mk_store_conf false INT_MAX false false)
       [mk_msg None 10 5 F_SEEN M_FLAGS []] 1 6 0 1 0,
     mk_store (mk_store_conf false INT_MAX false false) [] 1 1 0 0 0)
    0.

(** What the purge may do to the record [r], which becomes [r']: it is
    killed only if its slave message is gone (never there, or deleted and
    expunged) and its master message is gone too or the pair was expired;
    a UID is given up (set to 0) only on a side where the message was
    deleted and expunged; and a pair with both UIDs whose messages were
    not expunged stays as it is. *)
Definition purge_outcome (s : sync_vars) (r r' : sync_rec) : Prop :=
  (live r = true -> live r' = false ->
   (sel Side.S (uid r) <= 0 \/ expunged Side.S r s = true) /\
   (sel Side.M (uid r) <= 0 \/ expunged Side.M r s = true \/
    has (status r) S_EXPIRED = true)) /\
  (forall t, sel t (uid r') <> sel t (uid r) ->
             sel t (uid r') = 0 /\ expunged t r s = true) /\
  (0 < sel Side.M (uid r) -> 0 < sel Side.S (uid r) ->
   expunged Side.M r s = false -> expunged Side.S r s = false -> r' = r).

(* ================================================================== *)
(** * Properties *)

(* ------------------------------------------------------------------ *)
(** ** Characters *)

Lemma digit_class_all c : digit_class_b c = true.
Proof.
  destruct c as [[] [] [] [] [] [] [] []]; reflexivity.
Qed.

Lemma isdigit_class c :
  isdigit c = true ->
  isspace c = false /\ Ascii.eqb c NUL = false /\ Ascii.eqb c NL = false /\
  Ascii.eqb c "-"%char = false /\ Ascii.eqb c "+"%char = false.
Proof.
  intros H. pose proof (digit_class_all c) as Hc. unfold digit_class_b in Hc.
  rewrite H in Hc. simpl in Hc.
  repeat (apply andb_prop in Hc; destruct Hc as [Hc ?]).
  repeat match goal with H : negb _ = true |- _ => apply negb_true_iff in H end.
  auto.
Qed.

Lemma digit_char_spec d :
  0 <= d < 10 -> isdigit (digit_char d) = true /\ code (digit_char d) - 48 = d.
Proof.
  intros H.
  assert (d = 0 \/ d = 1 \/ d = 2 \/ d = 3 \/ d = 4 \/ d = 5 \/ d = 6 \/
          d = 7 \/ d = 8 \/ d = 9) as Hd by lia.
  repeat (destruct Hd as [-> | Hd]; [vm_compute; split; reflexivity |]).
  subst d. vm_compute. split; reflexivity.
Qed.
Lemma plain_class_all c : plain_class_b c = true.
Proof.
  destruct c as [[] [] [] [] [] [] [] []]; reflexivity.
Qed.

Lemma isdigit_plain c : isdigit c = true -> plainb c = true.
Proof.
  intros H. pose proof (plain_class_all c) as Hc. unfold plain_class_b in Hc.
  rewrite H in Hc. apply andb_prop in Hc. apply Hc.
Qed.

Lemma plain_line c : plainb c = true -> lineb c = true.
Proof.
  intros H. pose proof (plain_class_all c) as Hc. unfold plain_class_b in Hc.
  rewrite H in Hc. apply andb_prop in Hc. apply Hc.
Qed.

Lemma plain_nonspace c : plainb c = true -> isspace c = false.
Proof.
  unfold plainb. intros H. apply andb_prop in H. destruct H as [H _].
  now apply negb_true_iff in H.
Qed.

Lemma plain_nonnul c : plainb c = true -> Ascii.eqb c NUL = false.
Proof.
  unfold plainb. intros H. apply andb_prop in H. destruct H as [_ H].
  now apply negb_true_iff in H.
Qed.

Lemma line_nonnul c : lineb c = true -> Ascii.eqb c NUL = false.
Proof.
  unfold lineb. intros H. apply andb_prop in H. destruct H as [H _].
  now apply negb_true_iff in H.
Qed.

Lemma line_nonnl c : lineb c = true -> Ascii.eqb c NL = false.
Proof.
  unfold lineb. intros H. apply andb_prop in H. destruct H as [_ H].
  now apply negb_true_iff in H.
Qed.

(** *** Printing and scanning decimal numbers *)

Lemma wrap_int_id z : is_int z -> wrap_int z = z.
Proof.
  unfold is_int, INT_MIN, INT_MAX, wrap_int. intros H.
  rewrite Z.mod_small; lia.
Qed.

Lemma sat_long_id z : is_int z -> sat_long z = z.
Proof.
  unfold is_int, INT_MIN, INT_MAX, sat_long, LONG_MIN, LONG_MAX. lia.
Qed.

Lemma int_succ_wrap z : is_int z -> int_succ z = wrap_int (z + 1).
Proof.
  unfold is_int, int_succ, wrap_int, INT_MIN, INT_MAX. intros H.
  destruct (Z.eqb_spec z 2147483647) as [->|Hne]; [reflexivity|].
  rewrite Z.mod_small; lia.
Qed.

Lemma scan_digits_stop a r : no_digit_head r -> scan_digits a r = (a, r).
Proof.
  destruct r as [|c r]; simpl; [reflexivity|]. now intros ->.
Qed.

Lemma scan_digits_dec f : forall n a r,
  0 <= n < 10 ^ Z.of_nat f ->
  scan_digits a (dec_digits f n ++ r) = scan_digits (a * dec_scale f n + n) r.
Proof.
  induction f as [|f IH]; intros n a r Hn.
  - simpl in *. replace n with 0 by lia. f_equal. lia.
  - assert (0 <= n mod 10 < 10) as Hm by (apply Z.mod_pos_bound; lia).
    destruct (digit_char_spec _ Hm) as [Hd Hv].
    cbn [dec_digits dec_scale]. destruct (n <? 10) eqn:Hlt.
    + apply Z.ltb_lt in Hlt. cbn [app scan_digits]. rewrite Hd, Hv.
      rewrite Z.mod_small by lia. f_equal. lia.
    + apply Z.ltb_ge in Hlt. rewrite <- app_assoc. cbn [app].
      rewrite IH.
      * cbn [scan_digits]. rewrite Hd, Hv. f_equal.
        pose proof (Z.div_mod n 10). lia.
      * rewrite Nat2Z.inj_succ, Z.pow_succ_r in Hn by lia.
        split; [apply Z.div_pos; lia | apply Z.div_lt_upper_bound; lia].
Qed.

Lemma dec_digits_digits f : forall n,
  0 <= n -> Forall (fun c => isdigit c = true) (dec_digits f n).
Proof.
  induction f as [|f IH]; intros n Hn; cbn [dec_digits]; [constructor|].
  apply Forall_app. split.
  - destruct (n <? 10); [constructor | apply IH, Z.div_pos; lia].
  - constructor; [|constructor].
    apply digit_char_spec, Z.mod_pos_bound. lia.
Qed.

Lemma dec_digits_length f : forall n, (length (dec_digits f n) <= f)%nat.
Proof.
  induction f as [|f IH]; intros n; cbn [dec_digits]; [simpl; lia|].
  rewrite length_app. cbn [length].
  destruct (n <? 10); [simpl; lia | specialize (IH (n / 10)); lia].
Qed.

Lemma dec_digits_head f n :
  0 <= n ->
  exists c l, dec_digits (Datatypes.S f) n = c :: l /\ isdigit c = true.
Proof.
  intros Hn. pose proof (dec_digits_digits (Datatypes.S f) n Hn) as Hall.
  destruct (dec_digits (Datatypes.S f) n) as [|c l] eqn:E.
  - cbn [dec_digits] in E. now destruct (if n <? 10 then _ else _).
  - exists c, l. split; [reflexivity|]. now inversion Hall.
Qed.

Lemma scan_d_digits ds r v (neg : bool) :
  (exists c l, ds = c :: l /\ isdigit c = true) ->
  scan_digits 0 (ds ++ r) = (v, r) ->
  scan_d ((if neg then ["-"%char] else []) ++ ds ++ r)
  = Some (wrap_int (sat_long (if neg then - v else v)), r).
Proof.
  intros (c & l & -> & Hc) Hs.
  destruct (isdigit_class c Hc) as (Hsp & _ & _ & Hm & Hp).
  unfold scan_d. destruct neg; cbn [app skip_space].
  - change (isspace "-"%char) with false. cbn iota.
    change (Ascii.eqb "-"%char "-"%char) with true. cbn iota.
    rewrite Hc. cbn [app] in Hs. rewrite Hs. reflexivity.
  - rewrite Hsp, Hm, Hp, Hc. cbn [app] in Hs. rewrite Hs. reflexivity.
Qed.

Lemma scan_d_fmt_d z r :
  is_int z -> no_digit_head r -> scan_d (fmt_d z ++ r) = Some (z, r).
Proof.
  intros Hz Hr. unfold fmt_d. destruct (z <? 0) eqn:Hneg.
  - apply Z.ltb_lt in Hneg.
    assert (0 <= - z < 10 ^ Z.of_nat 10) as Hb
      by (unfold is_int, INT_MIN, INT_MAX in Hz; simpl; lia).
    pose proof (scan_d_digits (dec_digits 10 (- z)) r (- z) true) as H.
    cbn [app] in H. cbn [app]. rewrite H.
    + rewrite Z.opp_involutive, sat_long_id, wrap_int_id; auto.
    + apply dec_digits_head. lia.
    + rewrite scan_digits_dec by exact Hb. apply scan_digits_stop, Hr.
  - apply Z.ltb_ge in Hneg.
    assert (0 <= z < 10 ^ Z.of_nat 10) as Hb
      by (unfold is_int, INT_MIN, INT_MAX in Hz; simpl; lia).
    pose proof (scan_d_digits (dec_digits 10 z) r z false) as H.
    cbn [app] in H. rewrite H.
    + rewrite sat_long_id, wrap_int_id; auto.
    + apply dec_digits_head. lia.
    + rewrite scan_digits_dec by exact Hb. apply scan_digits_stop, Hr.
Qed.

Lemma scan_d_space c s : isspace c = true -> scan_d (c :: s) = scan_d s.
Proof. intros H. unfold scan_d. cbn [skip_space]. now rewrite H. Qed.

Lemma fmt_d_plain z : is_int z -> Forall (fun c => plainb c = true) (fmt_d z).
Proof.
  intros Hz. unfold fmt_d. destruct (z <? 0) eqn:Hneg.
  - apply Z.ltb_lt in Hneg. constructor; [reflexivity|].
    eapply Forall_impl; [apply dec_digits_digits; lia |].
    intros c. apply isdigit_plain.
  - apply Z.ltb_ge in Hneg.
    eapply Forall_impl; [apply dec_digits_digits; lia |].
    intros c. apply isdigit_plain.
Qed.

Lemma fmt_d_length z : (length (fmt_d z) <= 11)%nat.
Proof.
  unfold fmt_d. destruct (z <? 0); cbn [length].
  - pose proof (dec_digits_length 10 (- z)). lia.
  - pose proof (dec_digits_length 10 z). lia.
Qed.

Lemma fmt_d_nonempty z : is_int z -> fmt_d z <> [].
Proof.
  intros Hz. unfold fmt_d. destruct (z <? 0) eqn:Hneg; [discriminate|].
  apply Z.ltb_ge in Hneg.
  destruct (dec_digits_head 9 z Hneg) as (c & l & -> & _). discriminate.
Qed.

(** *** Tokens and lines *)

Lemma skip_space_plain s : 
  match s with c :: _ => isspace c = false | [] => True end ->
  skip_space s = s.
Proof. destruct s as [|c s]; cbn [skip_space]; [reflexivity|]. now intros ->. Qed.

Lemma take_nonspace_tok tok : forall w r,
  Forall (fun c => plainb c = true) tok -> (length tok <= w)%nat ->
  space_head r -> take_nonspace w (tok ++ r) = (tok, r).
Proof.
  induction tok as [|c tok IH]; intros w r Hall Hlen Hr.
  - cbn [app]. destruct w, r as [|c r]; cbn [take_nonspace]; try reflexivity.
    cbn in Hr. now rewrite Hr.
  - inversion Hall as [|? ? Hc Htok]; subst. cbn [length] in Hlen.
    destruct w as [|w]; [lia|]. cbn [app take_nonspace].
    rewrite (plain_nonspace _ Hc), IH by (auto; lia). reflexivity.
Qed.

Lemma scan_s_tok w c tok r :
  Forall (fun c => plainb c = true) (c :: tok) ->
  (length (c :: tok) <= w)%nat -> space_head r ->
  scan_s w ((c :: tok) ++ r) = Some (c :: tok, r).
Proof.
  intros Hall Hlen Hr. unfold scan_s.
  rewrite skip_space_plain.
  - now rewrite take_nonspace_tok.
  - cbn [app]. inversion Hall; subst. now apply plain_nonspace.
Qed.

Lemma scan_s_space w c s : isspace c = true -> scan_s w (c :: s) = scan_s w s.
Proof. intros H. unfold scan_s. cbn [skip_space]. now rewrite H. Qed.

Lemma c_str_id l : Forall (fun c => Ascii.eqb c NUL = false) l -> c_str l = l.
Proof.
  induction 1 as [|c l Hc _ IH]; cbn [c_str]; [reflexivity|].
  now rewrite Hc, IH.
Qed.

Lemma wf_line_c_str l : wf_line l -> c_str l = l.
Proof.
  intros (body & -> & Hb & _). apply c_str_id, Forall_app. split.
  - eapply Forall_impl; [exact Hb|]. intros c. apply line_nonnul.
  - constructor; [reflexivity | constructor].
Qed.

Lemma wf_line_complete l : wf_line l -> incomplete l = false.
Proof.
  intros Hl. unfold incomplete. rewrite (wf_line_c_str l Hl).
  destruct Hl as (body & -> & _). now rewrite rev_app_distr.
Qed.

Lemma fgets_lines_line body : forall room cur rest,
  Forall (fun c => lineb c = true) body -> (length body < room)%nat ->
  fgets_lines room cur (body ++ NL :: rest)
  = (rev cur ++ body ++ [NL]) :: fgets_lines (BUFSZ - 1) [] rest.
Proof.
  induction body as [|c body IH]; intros room cur rest Hall Hlen.
  - cbn [app fgets_lines]. change (Ascii.eqb NL NL) with true.
    cbn [orb rev]. reflexivity.
  - inversion Hall as [|? ? Hc Hbody]; subst. cbn [length] in Hlen.
    cbn [app fgets_lines]. rewrite (line_nonnl _ Hc).
    replace (room =? 1)%nat with false by (symmetry; apply Nat.eqb_neq; lia).
    cbn [orb]. rewrite IH by (auto; lia). cbn [rev].
    now rewrite <- app_assoc.
Qed.

Lemma file_lines_concat ls :
  Forall wf_line ls -> file_lines (concat ls) = ls.
Proof.
  unfold file_lines. induction 1 as [|l ls (body & -> & Hb & Hlen) _ IH].
  - reflexivity.
  - cbn [concat]. rewrite <- app_assoc. cbn [app].
    rewrite fgets_lines_line by assumption. now rewrite IH.
Qed.

(** *** Flag sets *)

Lemma flags_ok_all : forallb flags_ok_b (map Z.of_nat (seq 0 32)) = true.
Proof. vm_compute. reflexivity. Qed.

Lemma flags_ok f : 0 <= f < 32 -> flags_ok_b f = true.
Proof.
  intros Hf. pose proof flags_ok_all as H.
  rewrite forallb_forall in H. apply H.
  apply in_map_iff. exists (Z.to_nat f). split; [lia|].
  apply in_seq. lia.
Qed.

Lemma make_flags_spec f :
  0 <= f < 32 ->
  Forall (fun c => plainb c = true) (make_flags f) /\
  (length (make_flags f) <= 5)%nat /\
  parse_flags (make_flags f) = f /\
  Ascii.eqb (char_at (make_flags f) 0) "X"%char = false.
Proof.
  intros Hf. pose proof (flags_ok f Hf) as H. unfold flags_ok_b in H.
  repeat (apply andb_prop in H; destruct H as [H ?]).
  repeat split.
  - apply Forall_forall. intros c Hc. rewrite forallb_forall in H.
    apply H. now apply list_elem_of_In.
  - now apply Nat.leb_le.
  - now apply Z.eqb_eq.
  - now apply negb_true_iff.
Qed.

(** *** Lines of the state file *)

Lemma fbuf_plain (x : bool) f :
  0 <= f < 32 ->
  Forall (fun c => plainb c = true)
    ((if x then ["X"%char] else []) ++ make_flags f) /\
  (length ((if x then ["X"%char] else []) ++ make_flags f) <= 6)%nat.
Proof.
  intros Hf. destruct (make_flags_spec f Hf) as (Hp & Hl & _).
  split.
  - apply Forall_app. split; [|exact Hp].
    destruct x; repeat constructor.
  - rewrite length_app. destruct x; cbn [length]; lia.
Qed.

Lemma parse_entry_line r :
  entry_ok r ->
  parse_entry (state_entry_line r)
  = Some (sel Side.M (uid r), sel Side.S (uid r),
          (if has (status r) S_EXPIRED then ["X"%char] else []) ++
          make_flags (flags r)).
Proof.
  intros (HM & HS & Hf). unfold parse_entry, state_entry_line.
  rewrite scan_d_fmt_d by (auto; reflexivity).
  cbn [mbind option_bind].
  rewrite scan_d_space by reflexivity.
  rewrite scan_d_fmt_d by (auto; reflexivity).
  cbn [mbind option_bind].
  rewrite scan_s_space by reflexivity.
  destruct (fbuf_plain (has (status r) S_EXPIRED) _ Hf) as [Hp Hl].
  rewrite app_assoc.
  destruct (_ ++ make_flags (flags r)) as [|c tok]; [reflexivity|].
  rewrite scan_s_tok; auto; [lia | reflexivity].
Qed.

Lemma plain_lines l :
  Forall (fun c => plainb c = true) l -> Forall (fun c => lineb c = true) l.
Proof. intros H. eapply Forall_impl; [exact H|]. intros c. apply plain_line. Qed.

Lemma state_entry_line_wf r : entry_ok r -> wf_line (state_entry_line r).
Proof.
  intros (HM & HS & Hf). unfold state_entry_line.
  destruct (fbuf_plain (has (status r) S_EXPIRED) _ Hf) as [Hp Hl].
  pose proof (fmt_d_length (sel Side.M (uid r))).
  pose proof (fmt_d_length (sel Side.S (uid r))).
  exists (fmt_d (sel Side.M (uid r)) ++ SP :: fmt_d (sel Side.S (uid r)) ++ SP ::
          (if has (status r) S_EXPIRED then ["X"%char] else []) ++
          make_flags (flags r)).
  split; [|split].
  - repeat (rewrite <- ?app_assoc; cbn [app]). reflexivity.
  - apply Forall_app. split; [apply plain_lines, fmt_d_plain, HM|].
    constructor; [reflexivity|].
    apply Forall_app. split; [apply plain_lines, fmt_d_plain, HS|].
    constructor; [reflexivity|]. apply plain_lines, Hp.
  - rewrite length_app. cbn [length]. rewrite length_app. cbn [length].
    unfold BUFSZ. lia.
Qed.

Lemma scan_d_fmt_d_end z : is_int z -> scan_d (fmt_d z) = Some (z, []).
Proof.
  intros Hz. rewrite <- (app_nil_r (fmt_d z)) at 1.
  now apply scan_d_fmt_d.
Qed.

Lemma sscanf_d_d_fmt a b :
  is_int a -> is_int b ->
  sscanf_d_d (fmt_d a ++ ":"%char :: fmt_d b) = Some (a, b).
Proof.
  intros Ha Hb. unfold sscanf_d_d.
  rewrite scan_d_fmt_d by (auto; reflexivity).
  cbn [mbind option_bind scan_lit]. change (Ascii.eqb ":" ":") with true.
  cbn iota. cbn [mbind option_bind]. rewrite scan_d_fmt_d_end by auto. reflexivity.
Qed.

Lemma sscanf_d_d_d_fmt a b c :
  is_int a -> is_int b -> is_int c ->
  sscanf_d_d_d (fmt_d a ++ ":"%char :: fmt_d b ++ ":"%char :: fmt_d c)
  = Some (a, b, c).
Proof.
  intros Ha Hb Hc. unfold sscanf_d_d_d.
  rewrite scan_d_fmt_d by (auto; reflexivity).
  cbn [mbind option_bind scan_lit]. change (Ascii.eqb ":" ":") with true.
  cbn iota. cbn [mbind option_bind]. rewrite scan_d_fmt_d by (auto; reflexivity).
  cbn [mbind option_bind scan_lit]. change (Ascii.eqb ":" ":") with true.
  cbn iota. cbn [mbind option_bind]. rewrite scan_d_fmt_d_end by auto. reflexivity.
Qed.

Lemma sscanf_s_s_tokens a b :
  a <> [] -> b <> [] ->
  Forall (fun c => plainb c = true) a -> Forall (fun c => plainb c = true) b ->
  (length a <= 63)%nat -> (length b <= 63)%nat ->
  sscanf_s_s (a ++ SP :: b ++ [NL]) = Some (a, b).
Proof.
  intros Hna Hnb Ha Hb Hla Hlb. unfold sscanf_s_s.
  destruct a as [|ca a]; [congruence|].
  destruct b as [|cb b]; [congruence|].
  rewrite scan_s_tok by (auto; reflexivity).
  cbn [mbind option_bind].
  rewrite scan_s_space by reflexivity.
  rewrite scan_s_tok by (auto; reflexivity).
  reflexivity.
Qed.

Lemma app_cons_nonempty {A} (l : list A) x r : l ++ x :: r <> [].
Proof. destruct l; discriminate. Qed.

Lemma parse_header_line s :
  header_ok s ->
  parse_header (state_header_line s)
  = Some (sel Side.M (uidval s), sel Side.M (maxuid s),
          sel Side.S (uidval s), smaxxuid s, sel Side.S (maxuid s)).
Proof.
  intros (H1 & H2 & H3 & H4 & H5). unfold parse_header, state_header_line.
  pose proof (fmt_d_length (sel Side.M (uidval s))).
  pose proof (fmt_d_length (sel Side.M (maxuid s))).
  pose proof (fmt_d_length (sel Side.S (uidval s))).
  pose proof (fmt_d_length (smaxxuid s)).
  pose proof (fmt_d_length (sel Side.S (maxuid s))).
  replace (fmt_d (sel Side.M (uidval s)) ++ ":"%char ::
           fmt_d (sel Side.M (maxuid s)) ++ SP ::
           fmt_d (sel Side.S (uidval s)) ++ ":"%char ::
           fmt_d (smaxxuid s) ++ ":"%char ::
           fmt_d (sel Side.S (maxuid s)) ++ [NL])
    with ((fmt_d (sel Side.M (uidval s)) ++ ":"%char ::
           fmt_d (sel Side.M (maxuid s))) ++ SP ::
          (fmt_d (sel Side.S (uidval s)) ++ ":"%char ::
           fmt_d (smaxxuid s) ++ ":"%char ::
           fmt_d (sel Side.S (maxuid s))) ++ [NL])
    by (repeat (rewrite <- ?app_assoc; cbn [app]); reflexivity).
  rewrite sscanf_s_s_tokens.
  - cbn [mbind option_bind].
    rewrite sscanf_d_d_fmt by assumption. cbn [mbind option_bind].
    rewrite sscanf_d_d_d_fmt by assumption. reflexivity.
  - apply app_cons_nonempty.
  - apply app_cons_nonempty.
  - apply Forall_app. split; [now apply fmt_d_plain|].
    constructor; [reflexivity | now apply fmt_d_plain].
  - apply Forall_app. split; [now apply fmt_d_plain|].
    constructor; [reflexivity |].
    apply Forall_app. split; [now apply fmt_d_plain|].
    constructor; [reflexivity | now apply fmt_d_plain].
  - rewrite length_app. cbn [length]. lia.
  - rewrite length_app. cbn [length]. rewrite length_app. cbn [length]. lia.
Qed.

Lemma state_header_line_wf s : header_ok s -> wf_line (state_header_line s).
Proof.
  intros (H1 & H2 & H3 & H4 & H5). unfold state_header_line.
  pose proof (fmt_d_length (sel Side.M (uidval s))).
  pose proof (fmt_d_length (sel Side.M (maxuid s))).
  pose proof (fmt_d_length (sel Side.S (uidval s))).
  pose proof (fmt_d_length (smaxxuid s)).
  pose proof (fmt_d_length (sel Side.S (maxuid s))).
  exists (fmt_d (sel Side.M (uidval s)) ++ ":"%char ::
          fmt_d (sel Side.M (maxuid s)) ++ SP ::
          fmt_d (sel Side.S (uidval s)) ++ ":"%char ::
          fmt_d (smaxxuid s) ++ ":"%char :: fmt_d (sel Side.S (maxuid s))).
  split; [|split].
  - repeat (rewrite <- ?app_assoc; cbn [app]). reflexivity.
  - repeat (apply Forall_app; split;
            [apply plain_lines, fmt_d_plain; assumption|];
            constructor; [reflexivity|]).
    apply plain_lines, fmt_d_plain; assumption.
  - repeat (rewrite length_app; cbn [length]). unfold BUFSZ. lia.
Qed.

(** *** Reading back what was written *)

Lemma arr2_eta {A} (a : arr2 A) : (sel Side.M a, sel Side.S a) = a.
Proof. now destruct a. Qed.

Lemma entry_srec_persisted new r :
  entry_ok r ->
  let r' := entry_srec new (sel Side.M (uid r)) (sel Side.S (uid r))
              ((if has (status r) S_EXPIRED then ["X"%char] else []) ++
               make_flags (flags r)) in
  persisted r' = persisted r /\
  (status r' = 0 \/ status r' = Z.lor S_EXPIRE S_EXPIRED) /\
  msg r' = (None, None) /\ tuid_set (tuid r') = false.
Proof.
  intros (HM & HS & Hf).
  destruct (make_flags_spec _ Hf) as (_ & _ & Hp & HX).
  assert (to_uchar (flags r) = flags r) as Hu
    by (unfold to_uchar; apply Z.mod_small; lia).
  assert (forall tu, tuid_set (tuid_clear tu) = false) as Htu
    by (intros [|? ?]; reflexivity).
  unfold entry_srec, persisted.
  destruct (has (status r) S_EXPIRED) eqn:Hx; cbn [app].
  - change (Ascii.eqb (char_at ("X"%char :: make_flags (flags r)) 0) "X"%char)
      with true.
    cbn [skipn uid flags status msg tuid].
    change (drop 0 (make_flags (flags r))) with (make_flags (flags r)).
    rewrite Hp, Hu, arr2_eta.
    repeat split; auto.
  - rewrite HX. cbn [uid flags status msg tuid]. rewrite Hp, Hu, arr2_eta.
    repeat split; auto.
Qed.

Lemma set_srecs_id s : set_srecs (srecs s) s = s.
Proof. now destruct s. Qed.

Lemma load_entries_written nfmalloc rs : forall line s,
  Forall entry_ok rs ->
  load_entries nfmalloc (map state_entry_line rs) line s
  = inr (set_srecs (srecs s ++ reload nfmalloc (length (srecs s)) rs) s).
Proof.
  induction rs as [|r rs IH]; intros line s Hok.
  - cbn [map load_entries reload]. now rewrite app_nil_r, set_srecs_id.
  - inversion Hok as [|? ? Hr Hrs]; subst.
    cbn [map load_entries reload].
    rewrite (wf_line_complete _ (state_entry_line_wf r Hr)).
    rewrite (wf_line_c_str _ (state_entry_line_wf r Hr)).
    rewrite (parse_entry_line r Hr).
    rewrite IH by assumption. unfold srec_add.
    cbn [srecs set_srecs]. rewrite length_app, <- app_assoc. cbn [length app].
    replace (length (srecs s) + 1)%nat with (Datatypes.S (length (srecs s)))
      by lia.
    reflexivity.
Qed.

Lemma reload_persisted nfmalloc rs : forall k,
  Forall entry_ok rs ->
  map persisted (reload nfmalloc k rs) = map persisted rs /\
  Forall (fun r => (status r = 0 \/ status r = Z.lor S_EXPIRE S_EXPIRED) /\
                   msg r = (None, None) /\ tuid_set (tuid r) = false)
    (reload nfmalloc k rs).
Proof.
  induction rs as [|r rs IH]; intros k Hok; cbn [reload map].
  - split; [reflexivity | constructor].
  - inversion Hok as [|? ? Hr Hrs]; subst.
    destruct (entry_srec_persisted (nfmalloc k) r Hr) as (Hp & Hrest).
    destruct (IH (Datatypes.S k) Hrs) as [IH1 IH2].
    split; [now rewrite Hp, IH1 | now constructor].
Qed.

Lemma nfp_content_app a b : nfp_content (a ++ b) = nfp_content a ++ nfp_content b.
Proof.
  induction a as [|e a IH]; [reflexivity|].
  destruct e; cbn [app nfp_content]; rewrite IH; auto using app_assoc.
Qed.

Lemma nfp_content_lines ls : nfp_content (map ENewState ls) = concat ls.
Proof. induction ls as [|l ls IH]; cbn; now rewrite ?IH. Qed.

Lemma write_entries_trace rs : forall s,
  trace (fold_left
           (fun (s' : sync_vars) (srec : sync_rec) =>
              if has (status srec) S_DEAD then s'
              else emit (ENewState (state_entry_line srec)) s') rs s)
  = trace s ++ map ENewState (map state_entry_line (List.filter live rs)).
Proof.
  induction rs as [|r rs IH]; intros s; cbn [fold_left List.filter map].
  - now rewrite app_nil_r.
  - rewrite IH. unfold live. destruct (has (status r) S_DEAD); cbn [negb].
    + reflexivity.
    + cbn [emit trace map]. now rewrite <- app_assoc.
Qed.

Lemma write_new_state_trace s :
  trace (write_new_state s)
  = trace s ++ map ENewState
      (state_header_line s :: map state_entry_line (List.filter live (srecs s))).
Proof.
  unfold write_new_state. rewrite write_entries_trace.
  cbn [emit trace map]. now rewrite <- app_assoc.
Qed.

Lemma load_state_written nfmalloc s s0 :
  header_ok s -> Forall entry_ok (List.filter live (srecs s)) ->
  nfp_content (trace s) = [] ->
  load_state nfmalloc (Opened (nfp_content (trace (write_new_state s)))) s0
  = inr (set_srecs
           (srecs s0 ++
            reload nfmalloc (length (srecs s0)) (List.filter live (srecs s)))
           (set_smaxxuid (smaxxuid s)
              (set_maxuid (sel Side.M (maxuid s), sel Side.S (maxuid s))
                 (set_uidval (sel Side.M (uidval s), sel Side.S (uidval s))
                    s0)))).
Proof.
  intros Hh He Hempty.
  rewrite write_new_state_trace, nfp_content_app, Hempty, nfp_content_lines.
  cbn [app]. unfold load_state. rewrite file_lines_concat.
  - rewrite (wf_line_complete _ (state_header_line_wf s Hh)).
    rewrite (wf_line_c_str _ (state_header_line_wf s Hh)).
    rewrite (parse_header_line s Hh).
    now rewrite load_entries_written.
  - constructor; [now apply state_header_line_wf|].
    apply Forall_map. eapply Forall_impl; [exact He|].
    intros r. apply state_entry_line_wf.
Qed.

(** What [write_new_state] writes, read back into a state without
    records. *)
Lemma write_new_state_round_trip nfmalloc s s0 :
  header_ok s -> Forall entry_ok (List.filter live (srecs s)) ->
  nfp_content (trace s) = [] -> srecs s0 = [] ->
  exists s',
    load_state nfmalloc (Opened (nfp_content (trace (write_new_state s)))) s0
    = inr s' /\
    uidval s' = uidval s /\ maxuid s' = maxuid s /\ smaxxuid s' = smaxxuid s /\
    map persisted (srecs s') = map persisted (List.filter live (srecs s)) /\
    Forall (fun r => (status r = 0 \/ status r = Z.lor S_EXPIRE S_EXPIRED) /\
                     msg r = (None, None) /\ tuid_set (tuid r) = false)
      (srecs s').
Proof.
  intros Hh He Hempty Hs0. eexists. split.
  - now apply load_state_written.
  - cbn [uidval maxuid smaxxuid srecs set_srecs set_smaxxuid set_maxuid
           set_uidval].
    rewrite !arr2_eta, Hs0. cbn [app length].
    destruct (reload_persisted nfmalloc _ O He) as [Hp Hst].
    repeat split; assumption.
Qed.

(* ------------------------------------------------------------------ *)
(** ** Bit tests *)

Lemma has_true x b : has x b = true <-> Z.land x b <> 0.
Proof.
  unfold has. rewrite negb_true_iff. split.
  - intros H. now apply Z.eqb_neq.
  - intros H. now apply Z.eqb_neq.
Qed.

Lemma has_false x b : has x b = false <-> Z.land x b = 0.
Proof.
  unfold has. rewrite negb_false_iff. apply Z.eqb_eq.
Qed.

Lemma has_lor_l x y b : has x b = true -> has (Z.lor x y) b = true.
Proof.
  rewrite !has_true, Z.land_lor_distr_l. intros H Hz.
  apply Z.lor_eq_0_iff in Hz. tauto.
Qed.

Lemma has_lor_r x y b : has y b = true -> has (Z.lor x y) b = true.
Proof. rewrite Z.lor_comm. apply has_lor_l. Qed.

Lemma has_mask_l x a b : has x a = true -> has x (Z.lor a b) = true.
Proof.
  rewrite !has_true, Z.land_lor_distr_r. intros H Hz.
  apply Z.lor_eq_0_iff in Hz. tauto.
Qed.

Lemma has_mask_r x a b : has x b = true -> has x (Z.lor a b) = true.
Proof. rewrite (Z.lor_comm a b). apply has_mask_l. Qed.

Lemma has_self b : b <> 0 -> has b b = true.
Proof. intros H. apply has_true. now rewrite Z.land_diag. Qed.

(* ------------------------------------------------------------------ *)
(** ** C8: the journal is replayed only if [state.new] exists *)

(** C8. When the journal can be opened but [state.new] does not exist,
    the journal is not replayed: reading it leaves the state as the state
    file gave it, with [line] 0, and [box_selected] goes on exactly as if
    there were no journal. *)
Theorem journal_ignored_without_new_state nfmalloc drv_opts fs content s :
  fs_journal fs = Opened content -> fs_new_exists fs = false ->
  (forall s1, load_journal nfmalloc (fs_journal fs) (fs_new_exists fs) s1
              = inr (s1, O)) /\
  box_selected_load nfmalloc drv_opts fs s
  = box_selected_load nfmalloc drv_opts (without_journal fs) s.
Proof.
  intros Hj Hn. split.
  - intros s1. now rewrite Hj, Hn.
  - unfold box_selected_load, without_journal.
    cbn [fs_dir_ok fs_lock_fd fs_lock_ok fs_state fs_journal fs_new_exists
         fs_new_w fs_journal_a].
    rewrite Hj, Hn. reflexivity.
Qed.

(* ------------------------------------------------------------------ *)
(** ** C6: [smaxxuid] only grows *)

Ltac sv :=
  cbn [srecs chan ctx state ref_count ret lfd new_total new_done flags_total
       flags_done trash_total trash_done maxuid uidval newuid smaxxuid DFlags
       trace set_srecs set_ctx set_state set_ref_count set_ret set_lfd
       set_new_total set_new_done set_flags_total set_flags_done
       set_trash_total set_trash_done set_maxuid set_uidval set_newuid
       set_smaxxuid emit journal upd_srec upd_msg state_or srec_add sync_ref].

Ltac sv_in H :=
  cbn [srecs chan ctx state ref_count ret lfd new_total new_done flags_total
       flags_done trash_total trash_done maxuid uidval newuid smaxxuid DFlags
       trace set_srecs set_ctx set_state set_ref_count set_ret set_lfd
       set_new_total set_new_done set_flags_total set_flags_done
       set_trash_total set_trash_done set_maxuid set_uidval set_newuid
       set_smaxxuid emit journal upd_srec upd_msg state_or srec_add sync_ref]
    in H.

Lemma lookup_In {A} (l : list A) i x : l !! i = Some x -> In x l.
Proof. intros H. apply list_elem_of_In, list_elem_of_lookup. eauto. Qed.

Lemma flags_set_sync_p2_smaxx i t s :
  smaxx_outcome s (flags_set_sync_p2 i t s).
Proof.
  unfold flags_set_sync_p2, smaxx_outcome.
  destruct (srecs s !! i) as [srec|] eqn:Hi; [|now left].
  destruct t.
  - destruct (negb _); now left.
  - set (s1 := if negb _ then _ else s).
    assert (smaxxuid s1 = smaxxuid s) as Hs1
      by (unfold s1; destruct (negb _); reflexivity).
    destruct (negb (_ =? Z.land (status srec / S_EXPIRED) 1)).
    + destruct (negb _ && (smaxxuid s1 <? _)) eqn:Hc; sv.
      * apply andb_prop in Hc. destruct Hc as [_ Hc].
        apply Z.ltb_lt in Hc. right. split; [lia|].
        exists srec. split; [eapply lookup_In; eauto | reflexivity].
      * left; assumption.
    + destruct (negb (_ =? Z.land (status srec / S_EXPIRE) 1)); sv;
        left; assumption.
Qed.

Lemma find_uid_In l : forall i t1 t2 k srec,
  find_uid l i t1 t2 = Some (k, srec) -> In srec l.
Proof.
  induction l as [|r l IH]; intros i t1 t2 k srec; cbn [find_uid].
  - discriminate.
  - destruct (uid_is t1 t2 r).
    + intros [= _ <-]. now left.
    + intros H. right. eapply IH; eauto.
Qed.

Lemma syncfnd_In l c t1 t2 k srec :
  syncfnd l c t1 t2 = Some (k, srec) -> In srec l.
Proof.
  unfold syncfnd. destruct c as [c|].
  - destruct (find_uid (drop c l) c t1 t2) as [[k' r']|] eqn:E.
    + intros [= -> ->]. apply find_uid_In in E.
      rewrite <- (take_drop c l). apply in_or_app. now right.
    + intros H. apply find_uid_In in H.
      rewrite <- (take_drop c l). apply in_or_app. now left.
  - apply find_uid_In.
Qed.

Lemma replay_srec_smaxx line e i srec s s' :
  In srec (srecs s) -> replay_srec line e i srec s = inr s' ->
  smaxx_outcome s s'.
Proof.
  intros Hin. unfold replay_srec, smaxx_outcome.
  repeat (destruct (Ascii.eqb (j_op e) _);
          [ try (intros [= <-]; now left) | ]).
  - destruct (has (status srec) S_EXPIRE).
    + destruct (smaxxuid s <? sel Side.S (uid srec)) eqn:Hc;
        intros [= <-]; sv; cbn [sel] in *.
      * apply Z.ltb_lt in Hc. right. split; [lia|]. now exists srec.
      * now left.
    + intros [= <-]. now left.
  - discriminate.
Qed.

Lemma replay_entry_smaxx nfmalloc line e s srec s' srec' :
  replay_entry nfmalloc line e (s, srec) = inr (s', srec') ->
  smaxx_outcome s s'.
Proof.
  unfold replay_entry.
  repeat (destruct (Ascii.eqb (j_op e) _);
          [ intros [= <- _]; now left | ]).
  destruct (syncfnd (srecs s) srec (j_t1 e) (j_t2 e)) as [[i r]|] eqn:Hf;
    [|discriminate].
  destruct (replay_srec line e i r s) as [d|s1] eqn:Hr; [discriminate|].
  intros [= <- _]. eapply replay_srec_smaxx; eauto.
  eapply syncfnd_In; eauto.
Qed.

Lemma smaxx_update_outcome s s' : smaxx_update s s' -> smaxx_outcome s s'.
Proof.
  destruct 1.
  - apply flags_set_sync_p2_smaxx.
  - eapply replay_entry_smaxx; eauto.
Qed.

(* ------------------------------------------------------------------ *)
(** ** Records behind pointers *)

Lemma upd_srec_lookup i f s r :
  srecs s !! i = Some r -> srecs (upd_srec i f s) !! i = Some (f r).
Proof. intros H. sv. now rewrite list_lookup_alter_eq, H. Qed.

Lemma upd_srec_lookup_ne i j f s :
  i <> j -> srecs (upd_srec i f s) !! j = srecs s !! j.
Proof. intros H. sv. now apply list_lookup_alter_ne. Qed.

Lemma sync_deref_frame s :
  let s' := fst (sync_deref s) in
  srecs s' = srecs s /\ ctx s' = ctx s /\ state s' = state s /\
  ret s' = ret s /\ smaxxuid s' = smaxxuid s /\ maxuid s' = maxuid s /\
  chan s' = chan s /\ new_total s' = new_total s /\
  new_done s' = new_done s /\ trash_done s' = trash_done s /\
  flags_total s' = flags_total s.
Proof.
  unfold sync_deref. cbn zeta. destruct (_ =? 0); cbn; repeat split.
Qed.

Lemma DRIVER_CALL_frame t c s :
  let s' := fst (DRIVER_CALL t c s) in
  srecs s' = srecs s /\ ctx s' = ctx s /\ state s' = state s /\
  ret s' = ret s /\ smaxxuid s' = smaxxuid s /\ maxuid s' = maxuid s /\
  chan s' = chan s /\ new_total s' = new_total s /\
  new_done s' = new_done s /\ trash_done s' = trash_done s /\
  flags_total s' = flags_total s.
Proof.
  unfold DRIVER_CALL, deref_check_cancel. cbn zeta.
  pose proof (sync_deref_frame (emit (EDrv t c) (sync_ref s))) as H.
  cbn zeta in H. destruct (sync_deref _) as [s1 freed].
  cbn [fst] in H. destruct freed; cbn [fst]; exact H.
Qed.

(* ------------------------------------------------------------------ *)
(** ** C4: no DELETED for the master from an expiring record *)

Lemma land_F_DELETED x :
  Z.testbit x 4 = false -> Z.land x F_DELETED = 0.
Proof.
  intros H. apply Z.bits_inj'. intros n Hn.
  rewrite Z.land_spec, Z.bits_0.
  destruct (Z.eq_dec n 4) as [->|Hne]; [now rewrite H|].
  replace (Z.testbit F_DELETED n) with false; [apply andb_false_r|].
  symmetry. change F_DELETED with (2 ^ 4). apply Z.pow2_bits_false. lia.
Qed.

Lemma flag_changes_master srec sflags :
  has (status srec) (Z.lor S_EXPIRE S_EXPIRED) = true ->
  Z.land (fst (flag_changes Side.M srec sflags)) F_DELETED = 0.
Proof.
  intros H. unfold flag_changes. rewrite H. cbn [side_eqb andb fst].
  apply land_F_DELETED. unfold to_uchar.
  change 256 with (2 ^ 8). rewrite Z.mod_pow2_bits_low by lia.
  unfold clear. rewrite !Z.land_spec, Z.lnot_spec by lia.
  change (Z.testbit F_DELETED 4) with true. cbn [negb].
  now rewrite andb_false_r.
Qed.

Lemma has_lor_disjoint x d m : Z.land d m = 0 -> has (Z.lor x d) m = has x m.
Proof.
  intros H. unfold has. now rewrite Z.land_lor_distr_l, H, Z.lor_0_r.
Qed.

Lemma S_DEL_not_expire t : Z.land (S_DEL t) (Z.lor S_EXPIRE S_EXPIRED) = 0.
Proof. now destruct t. Qed.

(** What one pass of the loop over the sides does to the record: the
    expiration bits and the flag changes of the other side stay, and the
    additions for side [t] are none or those of [flag_changes]. *)
Lemma sync_old_side_srec i del t s srec :
  srecs s !! i = Some srec ->
  exists srec',
    srecs (fst (sync_old_side i del t s)) !! i = Some srec' /\
    has (status srec') (Z.lor S_EXPIRE S_EXPIRED)
    = has (status srec) (Z.lor S_EXPIRE S_EXPIRED) /\
    sel (other t) (aflags srec') = sel (other t) (aflags srec) /\
    (sel t (aflags srec') = 0 \/
     exists r0 sflags,
       has (status r0) (Z.lor S_EXPIRE S_EXPIRED)
       = has (status srec) (Z.lor S_EXPIRE S_EXPIRED) /\
       sel t (aflags srec') = fst (flag_changes t r0 sflags)).
Proof.
  intros Hi. unfold sync_old_side.
  set (f1 := fun r => set_dflags (upd t 0 (dflags r))
                        (set_aflags (upd t 0 (aflags r)) r)).
  set (s1 := upd_srec i f1 s).
  set (f2 := fun r : sync_rec => match msg_of t r s1 with
                                 | Some m => _ | None => r end).
  set (s2 := upd_srec i f2 s1).
  assert (srecs s2 !! i = Some (f2 (f1 srec))) as H2
    by (apply upd_srec_lookup, upd_srec_lookup, Hi).
  set (r2 := f2 (f1 srec)) in *.
  assert (has (status r2) (Z.lor S_EXPIRE S_EXPIRED)
          = has (status srec) (Z.lor S_EXPIRE S_EXPIRED) /\
          aflags r2 = upd t 0 (aflags srec)) as [Hst Haf].
  { unfold r2, f2. destruct (msg_of t (f1 srec) s1) as [m|]; [|now split].
    destruct (has (m_flags m) F_DELETED); [|now split].
    split; [|reflexivity]. cbn [status set_status f1 set_dflags set_aflags].
    apply has_lor_disjoint, S_DEL_not_expire. }
  assert (sel t (aflags r2) = 0 /\
          sel (other t) (aflags r2) = sel (other t) (aflags srec))
    as [Ht Ho] by (rewrite Haf; destruct t; split; reflexivity).
  rewrite H2.
  assert (exists srec',
    srecs s2 !! i = Some srec' /\
    has (status srec') (Z.lor S_EXPIRE S_EXPIRED)
    = has (status srec) (Z.lor S_EXPIRE S_EXPIRED) /\
    sel (other t) (aflags srec') = sel (other t) (aflags srec) /\
    (sel t (aflags srec') = 0 \/
     exists r0 sflags,
       has (status r0) (Z.lor S_EXPIRE S_EXPIRED)
       = has (status srec) (Z.lor S_EXPIRE S_EXPIRED) /\
       sel t (aflags srec') = fst (flag_changes t r0 sflags))) as Hsame
    by (exists r2; auto).
  destruct (sel t (uid r2) =? 0); [exact Hsame|].
  destruct (sel (other t) del).
  - set (s3 := match msg_of t r2 s2 with Some m => _ | None => s2 end).
    assert (srecs s3 = srecs s2) as H3.
    { unfold s3. destruct (msg_of t r2 s2); [|reflexivity].
      destruct (_ && _); reflexivity. }
    destruct (has (sel t (ops (chan s3))) OP_DELETE).
    + destruct (DRIVER_CALL_frame t
                  (set_flags (sel t (msg r2)) (sel t (uid r2)) F_DELETED 0
                     (Cb_flags_set_del i))
                  (set_flags_total (incr t (flags_total s3)) s3)) as [-> _].
      sv. rewrite H3. exact Hsame.
    + cbn [fst]. rewrite H3. exact Hsame.
  - destruct (msg_of (other t) r2 s2) as [m|]; [|exact Hsame].
    destruct (sel t (uid r2) <? 0); [exact Hsame|].
    destruct (negb (sel t del)); [|exact Hsame].
    destruct (has (sel t (ops (chan s2))) OP_FLAGS); [|exact Hsame].
    destruct (flag_changes t r2 (m_flags m)) as [a d] eqn:Hfc.
    cbn [fst]. eexists. split; [apply upd_srec_lookup, H2|].
    cbn [status aflags set_dflags set_aflags]. split; [exact Hst|]. split.
    + rewrite <- Ho. destruct t; reflexivity.
    + right. exists r2, (m_flags m). split; [exact Hst|].
      rewrite Hfc. destruct t; reflexivity.
Qed.

(** C4. In the pass over the existing pairs, a record in expiration
    transition (EXPIRE or EXPIRED set) never gets [F_DELETED] into
    [aflags[M]]: where the pass computes flag changes for the record,
    [aflags[M]] ends free of [F_DELETED], and otherwise the pass does not
    assign it. *)
Theorem expiring_record_never_adds_deleted_to_master i s srec :
  srecs s !! i = Some srec ->
  has (status srec) (Z.lor S_EXPIRE S_EXPIRED) = true ->
  exists srec',
    srecs (fst (sync_old_entry i s)) !! i = Some srec' /\
    if handled_old srec s
    then Z.land (sel Side.M (aflags srec')) F_DELETED = 0
    else sel Side.M (aflags srec') = sel Side.M (aflags srec).
Proof.
  intros Hi Hexp. unfold sync_old_entry, handled_old. rewrite Hi.
  destruct (has (status srec) (Z.lor S_DEAD S_DONE)); cbn [negb andb fst].
  { exists srec. auto. }
  fold (absent Side.M srec s). fold (absent Side.S srec s).
  destruct (absent Side.M srec s && absent Side.S srec s); cbn [negb fst].
  { eexists. split; [sv; apply upd_srec_lookup, Hi | reflexivity]. }
  match goal with |- context [sync_old_side i ?d Side.M s] =>
    set (del := d) end.
  destruct (sync_old_side_srec i del Side.M s srec Hi)
    as (r1 & H1 & Hst1 & _ & Ha1).
  assert (Z.land (sel Side.M (aflags r1)) F_DELETED = 0) as Hclean.
  { destruct Ha1 as [-> | (r0 & sflags & Hr0 & ->)]; [reflexivity|].
    apply flag_changes_master. now rewrite Hr0. }
  destruct (sync_old_side i del Side.M s) as [s1 stop] eqn:HsM.
  cbn [fst] in H1. destruct stop.
  - exists r1. auto.
  - destruct (sync_old_side_srec i del Side.S s1 r1 H1)
      as (r2 & H2 & _ & Ho2 & _).
    exists r2. split; [exact H2|]. cbn [other] in Ho2. now rewrite Ho2.
Qed.

(* ------------------------------------------------------------------ *)
(** ** C5: what happens to an unpaired new message *)

Lemma sel_upd t {A} (v : A) a : sel t (upd t v a) = v.
Proof. now destruct t. Qed.

Lemma sel_upd_other t {A} (v : A) a : sel (other t) (upd t v a) = sel (other t) a.
Proof. now destruct t. Qed.

Lemma sel_other_upd t {A} (v : A) a : sel t (upd (other t) v a) = sel t a.
Proof. now destruct t. Qed.

Lemma DRIVER_CALL_trace t c s :
  exists evs, trace (fst (DRIVER_CALL t c s)) = trace s ++ EDrv t c :: evs.
Proof.
  unfold DRIVER_CALL, deref_check_cancel, sync_deref. cbn zeta.
  destruct (_ =? 0); cbn [fst]; sv.
  - exists [ECallback (ret s)]. now rewrite <- app_assoc.
  - now exists [].
Qed.

(** C5. A message of side [1-t] without sync record, with the channel
    propagating new messages to [t]: it is skipped without a trace if [t]
    is expunged and the message is deleted; otherwise a record for it is
    appended, and the message is scheduled for copy (counted in
    [new_total[t]], fetch requested, [uid[t]] still -2) if it is flagged
    or not larger than [max_size] of the target store; if not, no request
    is made and the record gets [uid[t]] -1. *)
Theorem unpaired_new_message nfmalloc rnd t k s tmsg :
  msgs (sel (other t) (ctx s)) !! k = Some tmsg ->
  m_srec tmsg = None ->
  has (sel t (ops (chan s))) OP_NEW = true ->
  let i := length (srecs s) in
  let s' := fst (sync_new_msg nfmalloc rnd t k s) in
  if has (sel t (ops (chan s))) OP_EXPUNGE && has (m_flags tmsg) F_DELETED
  then s' = s
  else
    exists evs srec,
      trace s' = trace s ++ evs /\
      srecs s' !! i = Some srec /\
      sel (other t) (uid srec) = m_uid tmsg /\
      if has (m_flags tmsg) F_FLAGGED ||
         (m_size tmsg <=? max_size (sel t (stores (chan s))))
      then
        new_total s' = incr t (new_total s) /\
        In (EDrv (other t)
              (fetch_msg (mk_copy_vars Cb_msg_copied t (Some i) k))) evs /\
        sel t (uid srec) = -2
      else
        new_total s' = new_total s /\
        forallb (fun e => negb (is_drv e)) evs = true /\
        sel t (uid srec) = -1.
Proof.
  intros Hk Hsrec Hnew i s'. subst s'. unfold sync_new_msg.
  rewrite Hk. unfold new_msg_cond. rewrite Hsrec, Hnew. cbn [negb].
  destruct (has (sel t (ops (chan s))) OP_EXPUNGE &&
            has (m_flags tmsg) F_DELETED); [reflexivity|].
  set (srec0 := new_srec (nfmalloc (length (srecs s))) t tmsg).
  set (s1 := journal "+"%char (fmt_uids srec0) (srec_add srec0 s)).
  assert (srecs s1 !! i = Some srec0) as Hi
    by (unfold s1, i; sv; rewrite lookup_app_r, Nat.sub_diag by lia;
        reflexivity).
  fold i. rewrite Hi.
  assert (sel (other t) (uid srec0) = m_uid tmsg /\ sel t (uid srec0) = -2)
    as [HuO HuT].
  { unfold srec0, new_srec. cbn [uid]. destruct t; split; reflexivity. }
  change (chan s1) with (chan s).
  destruct (has (m_flags tmsg) F_FLAGGED ||
            (m_size tmsg <=? max_size (sel t (stores (chan s))))).
  - (* copied *)
    set (s2 := if negb (m_flags tmsg =? 0) then _ else s1).
    set (tu := map (fun j => tuid_char (rnd j)) (seq 0 TUIDL)).
    set (s5 := journal "#"%char _ _).
    unfold copy_msg. cbn [cv_aux].
    destruct (DRIVER_CALL_frame (other t)
                (fetch_msg (mk_copy_vars Cb_msg_copied t (Some i) k)) s5)
      as (Hsr & _ & _ & _ & _ & _ & _ & Hnt & _).
    destruct (DRIVER_CALL_trace (other t)
                (fetch_msg (mk_copy_vars Cb_msg_copied t (Some i) k)) s5)
      as (evs & Htr).
    assert (exists f, srecs s2 = alter f i (srecs s1) /\
                      (forall r, uid (f r) = uid r) /\
                      trace s2 = trace s1 ++
                        (if negb (m_flags tmsg =? 0)
                         then [EJournal (jfmt "*"%char
                                 (fmt_uids srec0 ++ [fmt_u (m_flags tmsg)]))]
                         else []) /\
                      new_total s2 = new_total s) as (f & Hs2 & Hf & Ht2 & Hn2).
    { unfold s2. destruct (negb (m_flags tmsg =? 0)).
      - exists (set_flags_ (m_flags tmsg)). sv. auto.
      - exists (fun r => r). rewrite list_alter_id by auto.
        rewrite app_nil_r. auto. }
    eexists. exists (set_tuid tu (f srec0)).
    split; [|split; [|split; [|split; [|split]]]].
    + rewrite Htr. unfold s5. sv. rewrite Ht2. unfold s1. sv.
      rewrite <- !app_assoc. reflexivity.
    + rewrite Hsr. unfold s5. sv. rewrite Hs2.
      rewrite list_lookup_alter_eq, list_lookup_alter_eq, Hi. reflexivity.
    + cbn [uid set_tuid]. now rewrite Hf.
    + rewrite Hnt. unfold s5. sv. now rewrite Hn2.
    + apply in_or_app. right. destruct (negb (m_flags tmsg =? 0));
        cbn [app In]; auto.
    + cbn [uid set_tuid]. now rewrite Hf.
  - (* too big *)
    cbn [fst]. unfold msg_copied_p2. rewrite Hi.
    change (ctx s1) with (ctx s). rewrite Hk, HuT, Hsrec.
    change (negb (-2 =? -1)) with true. cbn iota.
    set (s2 := upd_srec i _ _).
    set (s3 := upd_msg (other t) k (set_m_srec (Some i)) s2).
    assert (srecs s3 !! i
            = Some (set_tuid (tuid_clear (tuid srec0))
                      (set_uid (upd t (-1) (uid srec0)) srec0))) as H3.
    { unfold s3, s2. sv. now rewrite list_lookup_alter_eq, Hi. }
    assert (trace s3 = trace s ++
              [EJournal (jfmt "+"%char (fmt_uids srec0));
               EJournal (jfmt (pick t "<"%char ">"%char)
                           (fmt_uids srec0 ++ [fmt_d (-1)]))]) as Ht3.
    { unfold s3, s2, s1. sv. now rewrite <- app_assoc. }
    assert (new_total s3 = new_total s) as Hn3 by reflexivity.
    destruct (sel (other t) (maxuid s3) <? m_uid tmsg).
    + eexists. eexists. sv.
      split; [rewrite Ht3, <- app_assoc; reflexivity|].
      split; [exact H3|].
      cbn [uid set_tuid set_uid]. rewrite sel_upd_other, sel_upd.
      repeat split; auto.
    + eexists. eexists. split; [exact Ht3|]. split; [exact H3|].
      cbn [uid set_tuid set_uid]. rewrite sel_upd_other, sel_upd.
      repeat split; auto.
Qed.

(** A message that has a record already, with [uid[t]] negative, and is
    still too big: the record is marked as done in this run and is
    otherwise left as it is, [uid[t]] included. *)
Lemma known_message_still_too_big nfmalloc rnd t k s tmsg i :
  msgs (sel (other t) (ctx s)) !! k = Some tmsg ->
  m_srec tmsg = Some i ->
  new_msg_cond t tmsg s = true ->
  has (sel t (ops (chan s))) OP_EXPUNGE && has (m_flags tmsg) F_DELETED
  = false ->
  has (m_flags tmsg) F_FLAGGED ||
  (m_size tmsg <=? max_size (sel t (stores (chan s)))) = false ->
  sync_new_msg nfmalloc rnd t k s
  = (upd_srec i (fun r => set_status (Z.lor (status r) S_DONE) r) s, false).
Proof.
  intros Hk Hsrec Hcond Hexp Hbig. unfold sync_new_msg.
  rewrite Hk, Hcond, Hexp, Hsrec. cbn [negb].
  unfold new_msg_cond in Hcond. rewrite Hsrec in Hcond.
  destruct (srecs s !! i) as [srec|] eqn:Hi; [|discriminate].
  rewrite (upd_srec_lookup _ _ _ _ Hi). sv. now rewrite Hbig.
Qed.

(* ------------------------------------------------------------------ *)
(** ** Traces *)

Lemma extends_refl P s : extends P s s.
Proof. exists []. now rewrite app_nil_r. Qed.

Lemma extends_trans P a b c : extends P a b -> extends P b c -> extends P a c.
Proof.
  intros (e1 & H1 & P1) (e2 & H2 & P2). exists (e1 ++ e2). split.
  - now rewrite H2, H1, app_assoc.
  - now rewrite forallb_app, P1, P2.
Qed.

Lemma extends_emit (P : event -> bool) e s : P e = true -> extends P s (emit e s).
Proof. intros H. exists [e]. split; [reflexivity | cbn; now rewrite H]. Qed.

Lemma extends_same P s s' : trace s' = trace s -> extends P s s'.
Proof. intros H. exists []. now rewrite app_nil_r. Qed.

Lemma extends_weaken (P Q : event -> bool) s s' :
  (forall e, P e = true -> Q e = true) -> extends P s s' -> extends Q s s'.
Proof.
  intros HPQ (evs & Ht & Hp). exists evs. split; [exact Ht|].
  rewrite forallb_forall in *. auto.
Qed.

Lemma sync_deref_extends s :
  extends no_change s (fst (sync_deref s)) /\
  (ref_count s = 1 -> In (ECallback (ret s)) (trace (fst (sync_deref s)))).
Proof.
  unfold sync_deref. cbn zeta. sv. destruct (ref_count s - 1 =? 0) eqn:E.
  - split.
    + exists [ECallback (ret s)]. split; reflexivity.
    + intros _. cbn [fst]. sv. apply in_or_app. right. now left.
  - apply Z.eqb_neq in E. split; [now apply extends_same | lia].
Qed.

Lemma sync_bail_extends s :
  extends no_change s (sync_bail s) /\ ret (sync_bail s) = ret s /\
  (ref_count s = 1 -> In (ECallback (ret s)) (trace (sync_bail s))).
Proof.
  unfold sync_bail, sync_bail1, sync_bail2, sync_bail3.
  set (s1 := emit (EFile Close_lock) (emit (EFile Unlink_lock) s)).
  destruct (sync_deref_extends s1) as [He Hc].
  destruct (sync_deref_frame s1) as (_ & _ & _ & Hr & _).
  split; [|split].
  - eapply extends_trans; [|exact He].
    eapply extends_trans; apply extends_emit; reflexivity.
  - exact Hr.
  - exact Hc.
Qed.

(* ------------------------------------------------------------------ *)
(** ** Loading touches neither the trace nor the stores *)

Lemma same_world_refl s : same_world s s.
Proof. repeat split. Qed.

Lemma same_world_trans a b c : same_world a b -> same_world b c -> same_world a c.
Proof.
  unfold same_world. intros (?&?&?&?&?&?&?&?) (?&?&?&?&?&?&?&?).
  repeat split; congruence.
Qed.

Lemma load_entries_world nfmalloc lines : forall line s s',
  load_entries nfmalloc lines line s = inr s' -> same_world s s'.
Proof.
  induction lines as [|buf lines IH]; intros line s s'; cbn [load_entries].
  - intros [= <-]. apply same_world_refl.
  - destruct (incomplete buf); [discriminate|].
    destruct (parse_entry (c_str buf)) as [[[t1 t2] fbuf]|]; [|discriminate].
    intros H. apply IH in H. eapply same_world_trans; [|exact H].
    repeat split.
Qed.

Lemma load_state_world nfmalloc f s s' :
  load_state nfmalloc f s = inr s' -> same_world s s'.
Proof.
  unfold load_state. destruct f as [content| |]; [| |discriminate].
  - destruct (file_lines content) as [|buf lines]; [discriminate|].
    destruct (incomplete buf); [discriminate|].
    destruct (parse_header (c_str buf)) as [[[[[uvM muM] uvS] sx] muS]|];
      [|discriminate].
    intros H. apply load_entries_world in H.
    eapply same_world_trans; [|exact H]. repeat split.
  - intros [= <-]. apply same_world_refl.
Qed.

Lemma replay_srec_world line e i srec s s' :
  replay_srec line e i srec s = inr s' -> same_world s s'.
Proof.
  unfold replay_srec.
  repeat (destruct (Ascii.eqb (j_op e) _);
          [ try (intros [= <-]; repeat split) | ]).
  - destruct (has (status srec) S_EXPIRE); [destruct (_ <? _)|];
      intros [= <-]; repeat split.
  - discriminate.
Qed.

Lemma replay_entry_world nfmalloc line e s srec s' srec' :
  replay_entry nfmalloc line e (s, srec) = inr (s', srec') -> same_world s s'.
Proof.
  unfold replay_entry.
  repeat (destruct (Ascii.eqb (j_op e) _);
          [ intros [= <- _]; repeat split | ]).
  destruct (syncfnd _ _ _ _) as [[i r]|]; [|discriminate].
  destruct (replay_srec line e i r s) as [d|s1] eqn:Hr; [discriminate|].
  intros [= <- _]. eapply replay_srec_world; eauto.
Qed.

Lemma replay_lines_world nfmalloc lines : forall line s srec s' srec',
  replay_lines nfmalloc lines line (s, srec) = inr (s', srec') ->
  same_world s s'.
Proof.
  induction lines as [|buf lines IH]; intros line s srec s' srec';
    cbn [replay_lines].
  - intros [= <- _]. apply same_world_refl.
  - destruct (incomplete buf); [discriminate|].
    destruct (parse_jline (c_str buf)) as [e|]; [|discriminate].
    destruct (replay_entry nfmalloc (Datatypes.S line) e (s, srec))
      as [d|[s1 srec1]] eqn:He; [discriminate|].
    intros H. apply IH in H. apply replay_entry_world in He.
    eapply same_world_trans; eauto.
Qed.

Lemma replay_journal_world nfmalloc content s s' line :
  replay_journal nfmalloc content s = inr (s', line) -> same_world s s'.
Proof.
  unfold replay_journal.
  destruct (file_lines content) as [|buf lines].
  - intros [= <- _]. apply same_world_refl.
  - destruct (incomplete buf); [discriminate|].
    destruct (negb _); [discriminate|].
    destruct (replay_lines nfmalloc lines 1 (s, None)) as [d|[s1 c]] eqn:Hr;
      [discriminate|].
    intros [= <- _]. eapply replay_lines_world; eauto.
Qed.

Lemma load_journal_world nfmalloc f new_exists s s' line :
  load_journal nfmalloc f new_exists s = inr (s', line) -> same_world s s'.
Proof.
  unfold load_journal. destruct f as [content| |]; [| |discriminate].
  - destruct new_exists; [apply replay_journal_world|].
    intros [= <- _]. apply same_world_refl.
  - intros [= <- _]. apply same_world_refl.
Qed.

(* ------------------------------------------------------------------ *)
(** ** C9: a changed UIDVALIDITY fails the channel at once *)

(** C9. If, after the state file and the journal are read, the recorded
    UIDVALIDITY of a side is set and differs from the one of the opened
    store, [box_selected] ends with [ret = SYNC_FAIL], reports the
    mismatch, and what it did consists of diagnostics, the lock file and
    the completion callback only: neither [state.new] nor the journal was
    opened for writing, nothing was written, no driver was called. *)
Theorem uidvalidity_mismatch_aborts nfmalloc drv_opts fs s s1 s2 line t :
  fs_dir_ok fs = true -> 0 <= fs_lock_fd fs -> fs_lock_ok fs = true ->
  load_state nfmalloc (fs_state fs)
    (emit (EFile Open_lock) (set_lfd (fs_lock_fd fs) s)) = inr s1 ->
  load_journal nfmalloc (fs_journal fs) (fs_new_exists fs) s1
  = inr (s2, line) ->
  0 <= sel t (uidval s2) ->
  sel t (uidval s2) <> uidvalidity (sel t (ctx s)) ->
  let s' := box_selected_load nfmalloc drv_opts fs s in
  ret s' = SYNC_FAIL /\
  extends no_change s s' /\
  In (EDiag (Err_uidvalidity t (uidvalidity (sel t (ctx s)))
               (sel t (uidval s2)))) (trace s') /\
  (ref_count s = 1 -> In (ECallback SYNC_FAIL) (trace s')).
Proof.
  intros Hdir Hfd Hlock Hst Hjn Hset Hne s'. subst s'.
  unfold box_selected_load. rewrite Hdir, Hlock. cbn [negb].
  cbn [lfd set_lfd].
  replace (fs_lock_fd fs <? 0) with false by (symmetry; apply Z.ltb_ge; lia).
  rewrite Hst, Hjn.
  pose proof (load_state_world _ _ _ _ Hst) as W1.
  pose proof (load_journal_world _ _ _ _ _ _ Hjn) as W2.
  destruct (same_world_trans _ _ _ W1 W2)
    as (Htr & Hctx & _ & Hrc & _ & _ & _ & _).
  sv_in Htr. sv_in Hctx. sv_in Hrc.
  assert (uidval_changed t s2 = true) as Hch.
  { unfold uidval_changed. rewrite Hctx.
    apply andb_true_intro. split; [now apply Z.leb_le|].
    apply negb_true_iff. now apply Z.eqb_neq. }
  assert (uidval_changed Side.M s2 || uidval_changed Side.S s2 = true) as ->
    by (destruct t; rewrite Hch; auto using orb_true_r).
  set (s3 := uidval_diag Side.S (uidval_diag Side.M s2)).
  assert (extends no_change s2 s3 /\ ref_count s3 = ref_count s2 /\
          In (EDiag (Err_uidvalidity t (uidvalidity (sel t (ctx s)))
                       (sel t (uidval s2)))) (trace s3)) as (He3 & Hrc3 & Hin3).
  { assert (forall e, uidval_changed Side.S (emit e s2)
                      = uidval_changed Side.S s2) as HemS by reflexivity.
    unfold s3, uidval_diag. rewrite <- Hctx.
    destruct (uidval_changed Side.M s2) eqn:HM; [rewrite HemS|];
      destruct (uidval_changed Side.S s2) eqn:HS;
      try (destruct t; congruence);
      (split; [|split; [reflexivity|]]);
      [ eexists; split; [sv; rewrite <- ?app_assoc; reflexivity|reflexivity]
      | sv; rewrite ?in_app_iff; cbn [In]; destruct t; auto; congruence
      | apply extends_emit; reflexivity
      | sv; rewrite ?in_app_iff; cbn [In]; destruct t; auto; congruence
      | apply extends_emit; reflexivity
      | sv; rewrite ?in_app_iff; cbn [In]; destruct t; auto; congruence ]. }
  destruct (sync_bail_extends (set_ret SYNC_FAIL s3)) as (Hb & Hret & Hcb).
  split; [exact Hret|]. split; [|split].
  - eapply extends_trans; [|exact Hb].
    eapply extends_trans with (b := s2).
    + exists [EFile Open_lock]. split; [exact Htr | reflexivity].
    + destruct He3 as (evs & He & Hp). exists evs. split; [exact He|exact Hp].
  - destruct Hb as (evs & -> & _). apply in_or_app. left. exact Hin3.
  - intros H1. apply Hcb. sv. rewrite Hrc3, Hrc. exact H1.
Qed.

(* ------------------------------------------------------------------ *)
(** ** What follows a completed request *)

Lemma goes_on_refl s : goes_on s s.
Proof. split; [reflexivity | apply extends_refl]. Qed.

Lemma goes_on_trans a b c : goes_on a b -> goes_on b c -> goes_on a c.
Proof.
  intros [R1 E1] [R2 E2]. split; [congruence | eapply extends_trans; eauto].
Qed.

Lemma quiet_refl s : quiet s s.
Proof.
  split; [apply goes_on_refl|]. repeat split; auto. intros t bit H. exact H.
Qed.

Lemma quiet_trans a b c : quiet a b -> quiet b c -> quiet a c.
Proof.
  intros (G1 & N1 & T1 & S1 & D1) (G2 & N2 & T2 & S2 & D2).
  split; [eapply goes_on_trans; eauto|].
  split; [congruence|]. split; [congruence|].
  split; [intros t bit H; apply S2, S1, H|]. eauto.
Qed.

(** A step that only appends effects other than a cancel request. *)
Lemma quiet_emits s s' evs :
  trace s' = trace s ++ evs -> forallb not_cancel evs = true ->
  ret s' = ret s -> new_done s' = new_done s -> trash_done s' = trash_done s ->
  state s' = state s -> srecs s' = srecs s -> quiet s s'.
Proof.
  intros Ht Hp Hr Hn Htd Hs Hsr.
  split; [split; [exact Hr | now exists evs]|].
  repeat split; auto.
  - intros t bit. now rewrite Hs.
  - intros i ri. now rewrite Hsr.
Qed.

Lemma quiet_emit e s : not_cancel e = true -> quiet s (emit e s).
Proof.
  intros H. apply (quiet_emits s (emit e s) [e]); try reflexivity.
  cbn. now rewrite H.
Qed.

Lemma quiet_state_or t bit s : quiet s (state_or t bit s).
Proof.
  split; [split; [reflexivity | now apply extends_same]|].
  repeat split; auto.
  intros t' b H. sv. destruct t, t'; cbn [sel upd fst snd] in *; auto;
    now apply has_lor_l.
Qed.

Lemma sync_bail_quiet s : quiet s (sync_bail s).
Proof.
  destruct (sync_bail_extends s) as ((evs & Ht & Hp) & Hr & _).
  unfold sync_bail, sync_bail1, sync_bail2, sync_bail3 in *.
  destruct (sync_deref_frame
              (emit (EFile Close_lock) (emit (EFile Unlink_lock) s)))
    as (Hsr & _ & Hs & _ & _ & _ & _ & _ & Hn & Htd & _).
  apply (quiet_emits _ _ evs); auto.
  rewrite forallb_forall in *. intros e He. specialize (Hp e He).
  destruct e as [| | |[]| |]; try discriminate; reflexivity.
Qed.

Lemma commit_files_quiet s : quiet s (commit_files s).
Proof.
  unfold commit_files. cbn zeta. destruct (negb _).
  - apply (quiet_emits _ _ [EFile Close_new; EFile Close_journal;
                            EFile Rename_new_state; EFile Unlink_journal]);
      try reflexivity.
    sv. now rewrite <- !app_assoc.
  - apply (quiet_emits _ _ [EFile Close_new; EFile Close_journal]);
      try reflexivity.
    sv. now rewrite <- !app_assoc.
Qed.

Lemma set_trace_id s : set_trace (trace s) s = s.
Proof. now destruct s. Qed.

Lemma write_entries_eq rs : forall s,
  let s' := fold_left
              (fun (s' : sync_vars) (srec : sync_rec) =>
                 if has (status srec) S_DEAD then s'
                 else emit (ENewState (state_entry_line srec)) s') rs s in
  s' = set_trace (trace s') s.
Proof.
  induction rs as [|r rs IH]; intros s; cbn [fold_left].
  - now rewrite set_trace_id.
  - cbn zeta in IH. rewrite IH at 1.
    destruct (has (status r) S_DEAD); reflexivity.
Qed.

(** Writing the new state only adds to the trace. *)
Lemma write_new_state_eq s :
  write_new_state s = set_trace (trace (write_new_state s)) s.
Proof.
  unfold write_new_state.
  pose proof (write_entries_eq (srecs s)
                (emit (ENewState (state_header_line s)) s)) as H.
  cbn zeta in H. rewrite H at 1. reflexivity.
Qed.

Lemma forallb_not_cancel_lines ls :
  forallb not_cancel (map ENewState ls) = true.
Proof. induction ls as [|l ls IH]; [reflexivity | exact IH]. Qed.

Lemma write_new_state_quiet s : quiet s (write_new_state s).
Proof.
  eapply quiet_emits.
  - apply write_new_state_trace.
  - apply forallb_not_cancel_lines.
  - now rewrite write_new_state_eq.
  - now rewrite write_new_state_eq.
  - now rewrite write_new_state_eq.
  - now rewrite write_new_state_eq.
  - now rewrite write_new_state_eq.
Qed.

(** *** The purge *)

Lemma for_srecs_rel (R : sync_vars -> sync_vars -> Prop) body :
  (forall s, R s s) -> (forall a b c, R a b -> R b c -> R a c) ->
  (forall i r s, R s (body i r s)) ->
  forall rs i s, R s (for_srecs body i rs s).
Proof.
  intros Hrefl Htrans Hbody. induction rs as [|r rs IH]; intros i s.
  - apply Hrefl.
  - cbn [for_srecs]. eapply Htrans; [apply Hbody | apply IH].
Qed.

Lemma purge_frame_refl s : purge_frame s s.
Proof. split; [apply goes_on_refl | repeat split]. Qed.

Lemma purge_frame_trans a b c :
  purge_frame a b -> purge_frame b c -> purge_frame a c.
Proof.
  intros (G1 & ? & ? & ? & ? & ? & ? & ? & ?) (G2 & ? & ? & ? & ? & ? & ? & ? & ?).
  split; [eapply goes_on_trans; eauto|]. repeat split; congruence.
Qed.

Lemma purge_srec_frame minwuid i srec s :
  purge_frame s (purge_srec minwuid i srec s).
Proof.
  unfold purge_srec.
  repeat match goal with
         | |- purge_frame _ (if ?c then _ else _) => destruct c
         end; try apply purge_frame_refl;
    (split; [split; [reflexivity
                    | eexists; split; [sv; reflexivity | reflexivity]]
            | sv; rewrite ?length_alter, ?nfp_content_app;
              cbn [nfp_content]; rewrite ?app_nil_r; repeat split]).
Qed.

Lemma purge_purge_frame s : purge_frame s (purge s).
Proof.
  unfold purge. destruct (has _ ST_DID_EXPUNGE); [|apply purge_frame_refl].
  apply for_srecs_rel.
  - apply purge_frame_refl.
  - apply purge_frame_trans.
  - apply purge_srec_frame.
Qed.

(** A record that is dead is not touched by the purge. *)
Lemma purge_loop_keeps_dead minwuid i ri : forall rs j s,
  srecs s !! i = Some ri ->
  (forall r, (j <= i)%nat -> rs !! (i - j)%nat = Some r ->
             has (status r) S_DEAD = true) ->
  srecs (for_srecs (purge_srec minwuid) j rs s) !! i = Some ri.
Proof.
  induction rs as [|r rs IH]; intros j s Hi Hdead; cbn [for_srecs].
  - exact Hi.
  - apply IH.
    + destruct (Nat.eq_dec j i) as [->|Hne].
      * unfold purge_srec. rewrite (Hdead r); [exact Hi | lia |].
        now rewrite Nat.sub_diag.
      * unfold purge_srec.
        repeat match goal with
               | |- srecs (if ?c then _ else _) !! _ = _ => destruct c
               end; sv; rewrite ?list_lookup_alter_ne by exact Hne;
          exact Hi.
    + intros r' Hle Hr'. apply (Hdead r'); [lia|].
      replace (i - j)%nat with (Datatypes.S (i - Datatypes.S j)) by lia.
      exact Hr'.
Qed.

Lemma purge_quiet s : quiet s (purge s).
Proof.
  destruct (purge_purge_frame s) as (G & N & T & S & _).
  split; [exact G|]. split; [exact N|]. split; [exact T|].
  split; [intros t bit; now rewrite S|].
  intros i ri Hi Hd. unfold purge.
  destruct (has _ ST_DID_EXPUNGE); [|exact Hi].
  apply purge_loop_keeps_dead; [exact Hi|].
  intros r _. rewrite Nat.sub_0_r, Hi. intros [= <-].
  rewrite Hd. reflexivity.
Qed.

Lemma box_closed_p2_quiet t s : quiet s (box_closed_p2 t s).
Proof.
  unfold box_closed_p2. cbn zeta.
  destruct (negb _); [apply quiet_state_or|].
  eapply quiet_trans; [apply quiet_state_or|].
  eapply quiet_trans; [apply purge_quiet|].
  eapply quiet_trans; [apply write_new_state_quiet|].
  eapply quiet_trans; [apply commit_files_quiet | apply sync_bail_quiet].
Qed.

Lemma sync_close_quiet t s : quiet s (sync_close t s).
Proof.
  unfold sync_close. destruct (_ || _); [apply quiet_refl|].
  destruct (has _ OP_EXPUNGE); [now apply quiet_emit|].
  apply box_closed_p2_quiet.
Qed.

Lemma msgs_new_done_quiet t s : quiet s (msgs_new_done t s).
Proof.
  unfold msgs_new_done.
  eapply quiet_trans; [apply quiet_state_or | apply sync_close_quiet].
Qed.

Lemma msgs_copied_quiet t s : quiet s (msgs_copied t s).
Proof.
  unfold msgs_copied. destruct (_ || _); [apply quiet_refl|].
  destruct (has _ S_FIND); [now apply quiet_emit|].
  apply msgs_new_done_quiet.
Qed.

(* ------------------------------------------------------------------ *)
(** ** C10: what becomes of DRV_MSG_BAD *)

Lemma sync_bail2_frame s :
  ret (sync_bail2 s) = ret s /\ state (sync_bail2 s) = state s.
Proof.
  unfold sync_bail2, sync_bail3.
  destruct (sync_deref_frame s) as (_ & _ & Hs & Hr & _). auto.
Qed.

Lemma sync_bail_frame s :
  ret (sync_bail s) = ret s /\ state (sync_bail s) = state s.
Proof.
  unfold sync_bail, sync_bail1.
  destruct (sync_bail2_frame
              (emit (EFile Close_lock) (emit (EFile Unlink_lock) s)))
    as [Hr Hs]. auto.
Qed.

Lemma has_canceled x :
  has (Z.lor x ST_CANCELED) (Z.lor ST_SENT_CANCEL ST_CANCELED) = true.
Proof. apply has_lor_r, has_mask_r. reflexivity. Qed.

Lemma has_sent_cancel x :
  has (Z.lor x ST_SENT_CANCEL) (Z.lor ST_SENT_CANCEL ST_CANCELED) = true.
Proof. apply has_lor_r, has_mask_l. reflexivity. Qed.

Lemma cancel_done_spec t s :
  let s' := cancel_done t s in
  ret s' = ret s /\ cancelling t s' = true /\
  sel (other t) (state s') = sel (other t) (state s).
Proof.
  unfold cancel_done, cancelling. cbn zeta.
  set (s1 := state_or t ST_CANCELED s).
  assert (ret s1 = ret s /\
          has (sel t (state s1)) (Z.lor ST_SENT_CANCEL ST_CANCELED) = true /\
          sel (other t) (state s1) = sel (other t) (state s)) as (R1 & C1 & O1).
  { unfold s1. sv. rewrite sel_upd, sel_upd_other.
    repeat split. apply has_canceled. }
  destruct (has (sel (other t) (state s1)) ST_CANCELED); [|auto].
  destruct (negb (lfd s1 =? 0)).
  - destruct (sync_bail_frame
                (emit (EFile Close_journal) (emit (EFile Close_new) s1)))
      as [-> ->]. auto.
  - destruct (sync_bail2_frame s1) as [-> ->]. auto.
Qed.

Lemma cancel_side_spec t s :
  let s' := cancel_side t s in
  ret s' = ret s /\ cancelling t s' = true /\
  sel (other t) (state s') = sel (other t) (state s) /\
  (has (ret s) (SYNC_BAD t) = false -> cancelling t s = false ->
   trace s' = trace s ++ [EDrv t cancel]).
Proof.
  unfold cancel_side. cbn zeta.
  destruct (has (ret s) (SYNC_BAD t)) eqn:Hbad.
  - destruct (cancel_done_spec t s) as (? & ? & ?). repeat split; auto.
    discriminate.
  - destruct (has (sel t (state s)) ST_SENT_CANCEL) eqn:Hsent; cbn [negb].
    + repeat split; auto.
      * unfold cancelling. now apply has_mask_l.
      * intros _. unfold cancelling. intros H.
        apply has_mask_l with (b := ST_CANCELED) in Hsent. congruence.
    + unfold cancelling. sv. rewrite sel_upd, sel_upd_other.
      repeat split. apply has_sent_cancel.
Qed.

Lemma cancel_side_trace t s :
  exists evs, trace (cancel_side t s) = trace s ++ evs.
Proof.
  unfold cancel_side, cancel_done. cbn zeta.
  destruct (has (ret s) (SYNC_BAD t)).
  - destruct (has (sel (other t) (state (state_or t ST_CANCELED s)))
                ST_CANCELED).
    + destruct (negb (lfd (state_or t ST_CANCELED s) =? 0)).
      * destruct (sync_bail_extends
                    (emit (EFile Close_journal)
                       (emit (EFile Close_new)
                          (state_or t ST_CANCELED s))))
          as ((evs & He & _) & _).
        rewrite He. sv. eexists. rewrite <- !app_assoc. reflexivity.
      * destruct (sync_deref_extends (state_or t ST_CANCELED s))
          as ((evs & He & _) & _).
        unfold sync_bail2, sync_bail3. rewrite He. now exists evs.
    + exists []. now rewrite app_nil_r.
  - destruct (negb (has (sel t (state s)) ST_SENT_CANCEL)); sv; eexists;
      [reflexivity|]. now rewrite app_nil_r.
Qed.

Lemma cancel_sync_spec s :
  let s' := cancel_sync s in
  ret s' = ret s /\
  (forall t, cancelling t s' = true) /\
  (forall t, has (ret s) (SYNC_BAD t) = false -> cancelling t s = false ->
             In (EDrv t cancel) (events_since s s')).
Proof.
  unfold cancel_sync. cbn zeta.
  destruct (cancel_side_spec Side.M s) as (RM & CM & OM & TM).
  cbn [other] in OM.
  destruct (has (sel Side.S (state s)) ST_CANCELED) eqn:HS.
  - split; [exact RM|]. split.
    + intros []; [exact CM|]. unfold cancelling. rewrite OM.
      now apply has_mask_r.
    + intros [] Hb Hc.
      * unfold events_since. rewrite (TM Hb Hc), drop_app_length. now left.
      * unfold cancelling in Hc.
        apply has_mask_r with (a := ST_SENT_CANCEL) in HS. congruence.
  - destruct (cancel_side_spec Side.S (cancel_side Side.M s))
      as (RS & CS & OS & TS).
    cbn [other] in OS. split; [congruence|]. split.
    + intros []; [|exact CS]. unfold cancelling. rewrite OS. exact CM.
    + destruct (cancel_side_trace Side.M s) as (evM & HevM).
      destruct (cancel_side_trace Side.S (cancel_side Side.M s))
        as (evS & HevS).
      intros [] Hb Hc; unfold events_since.
      * rewrite HevS, (TM Hb Hc), <- app_assoc, drop_app_length.
        now left.
      * rewrite TS.
        -- rewrite HevM, <- app_assoc, drop_app_length.
           apply in_or_app. right. now left.
        -- now rewrite RM.
        -- unfold cancelling. rewrite OM. exact Hc.
Qed.

Lemma events_since_app s s' evs :
  trace s' = trace s ++ evs -> events_since s s' = evs.
Proof. intros H. unfold events_since. now rewrite H, drop_app_length. Qed.

Lemma has_fail_bad r t : has (Z.lor r SYNC_FAIL) (SYNC_BAD t) = has r (SYNC_BAD t).
Proof. apply has_lor_disjoint. now destruct t. Qed.

(** C10 as specified fails for a remote trash copy: on the state [rtrash_state],
    a store refused with DRV_MSG_BAD leaves [ret] without SYNC_FAIL and
    cancels neither side; the message counts as trashed. *)
Lemma remote_trash_msg_bad_not_escalated :
  let s' := msg_stored DRV_MSG_BAD 0 rtrash_vars rtrash_state in
  has (ret s') SYNC_FAIL = false /\
  cancelling Side.M s' = false /\ cancelling Side.S s' = false /\
  forallb not_cancel (trace s') = true /\
  sel Side.M (trash_done s') = 1.
Proof. vm_compute. repeat split. Qed.

(** C10 (as the code has it). DRV_MSG_BAD from a fetch or a store reaches
    the callback of the copy as SYNC_NOGOOD.  For the copy of a message to
    its record ([msg_copied]) that kills the record, journals [-], counts
    the copy as done and goes on without failure.  For a local trash move
    ([msg_trashed]) DRV_MSG_BAD is DRV_BOX_BAD: SYNC_FAIL is set and both
    sides are cancelled.  For a copy into the remote trash
    ([msg_rtrashed]) SYNC_NOGOOD counts the message as trashed and goes on
    without failure. *)
Theorem drv_msg_bad_handling vars s :
  (forall header_ok,
     msg_fetched DRV_MSG_BAD header_ok vars s
     = copy_cb_call SYNC_NOGOOD 0 vars s) /\
  (forall uid', exists w,
     msg_stored DRV_MSG_BAD uid' vars s
     = copy_cb_call SYNC_NOGOOD 0 vars (emit (EDiag w) s)) /\
  (forall i srec,
     cv_cb vars = Cb_msg_copied -> cv_srec vars = Some i ->
     srecs s !! i = Some srec ->
     let s' := copy_cb_call SYNC_NOGOOD 0 vars s in
     goes_on s s' /\
     In (EJournal (jfmt "-"%char (fmt_uids srec))) (events_since s s') /\
     srecs s' !! i = Some (set_status S_DEAD srec) /\
     sel (cv_aux vars) (new_done s')
     = sel (cv_aux vars) (new_done s) + 1) /\
  (forall t,
     let s' := msg_trashed DRV_MSG_BAD t s in
     s' = msg_trashed DRV_BOX_BAD t s /\
     has (ret s') SYNC_FAIL = true /\
     (forall t', cancelling t' s' = true) /\
     (forall t', has (ret s) (SYNC_BAD t') = false ->
                 cancelling t' s = false ->
                 In (EDrv t' cancel) (events_since s s'))) /\
  (cv_cb vars = Cb_msg_rtrashed ->
   let s' := copy_cb_call SYNC_NOGOOD 0 vars s in
   goes_on s s' /\
   sel (other (cv_aux vars)) (trash_done s')
   = sel (other (cv_aux vars)) (trash_done s) + 1).
Proof.
  split; [|split; [|split; [|split]]].
  - reflexivity.
  - intros uid'. eexists. reflexivity.
  - intros i srec Hcb Hsrec Hi s'. subst s'.
    unfold copy_cb_call, msg_copied. rewrite Hcb, Hsrec, Hi.
    change (SYNC_NOGOOD =? SYNC_CANCELED) with false.
    change (SYNC_NOGOOD =? SYNC_OK) with false.
    change (SYNC_NOGOOD =? SYNC_NOGOOD) with true. cbn iota.
    set (t := cv_aux vars).
    set (sk := journal "-"%char (fmt_uids srec)
                 (upd_srec i (set_status S_DEAD) s)).
    set (sd := set_new_done _ sk).
    destruct (msgs_copied_quiet t sd) as ((Hr & evs & Ht & Hp) & Hn & _ & _ & Hd).
    assert (trace (msgs_copied t sd)
            = trace s ++ EJournal (jfmt "-"%char (fmt_uids srec)) :: evs)
      as Htr by (rewrite Ht; unfold sd, sk; sv; now rewrite <- app_assoc).
    split; [split|split; [|split]].
    + rewrite Hr. reflexivity.
    + eexists. split; [exact Htr|]. exact Hp.
    + rewrite (events_since_app _ _ _ Htr). now left.
    + apply Hd; [|reflexivity]. unfold sd, sk. sv.
      now rewrite list_lookup_alter_eq, Hi.
    + rewrite Hn. unfold sd. sv. now rewrite sel_upd.
  - intros t s'. subst s'. unfold msg_trashed.
    change (DRV_MSG_BAD =? DRV_MSG_BAD) with true.
    change (DRV_BOX_BAD =? DRV_MSG_BAD) with false. cbn iota.
    split; [reflexivity|]. unfold check_ret.
    change (DRV_BOX_BAD =? DRV_CANCELED) with false.
    change (DRV_BOX_BAD =? DRV_BOX_BAD) with true. cbn iota.
    destruct (cancel_sync_spec (set_ret (Z.lor (ret s) SYNC_FAIL) s))
      as (Hr & Hc & He). cbn zeta in *.
    split; [|split].
    + rewrite Hr. sv. apply has_lor_r. reflexivity.
    + exact Hc.
    + intros t' Hb Hcl. apply (He t'); [|exact Hcl].
      sv. now rewrite has_fail_bad.
  - intros Hcb s'. subst s'. unfold copy_cb_call, msg_rtrashed.
    rewrite Hcb.
    change (SYNC_NOGOOD =? SYNC_CANCELED) with false.
    change (SYNC_NOGOOD =? SYNC_OK) with false.
    change (SYNC_NOGOOD =? SYNC_NOGOOD) with true. cbn iota. cbn [orb].
    set (t := other (cv_aux vars)).
    set (sd := set_trash_done _ s).
    destruct (sync_close_quiet t sd) as ((Hr & evs & Ht & Hp) & _ & Htd & _).
    split; [split|].
    + rewrite Hr. reflexivity.
    + exists evs. split; [exact Ht | exact Hp].
    + rewrite Htd. unfold sd. sv. now rewrite sel_upd.
Qed.

(* ------------------------------------------------------------------ *)
(** ** C3: replaying a journal twice *)

(** C3 as specified fails: replayed on the state it has produced, a journal
    with a [+] entry adds the record again; and a journal that resolves
    a UID does not find its record any more. *)
Lemma replay_not_idempotent :
  (exists s1 s2 l1 l2,
     replay_journal (fun _ => blank_srec) journal_plus pull_state
     = inr (s1, l1) /\
     replay_journal (fun _ => blank_srec) journal_plus s1 = inr (s2, l2) /\
     map uid (srecs s1) = [(5, -2)] /\
     map uid (srecs s2) = [(5, -2); (5, -2)]) /\
  (exists s0 s1 l0 l1,
     replay_journal (fun _ => blank_srec) journal_plus pull_state
     = inr (s0, l0) /\
     replay_journal (fun _ => blank_srec) journal_resolve s0 = inr (s1, l1) /\
     map uid (srecs s1) = [(5, 9)] /\
     replay_journal (fun _ => blank_srec) journal_resolve s1
     = inl (Err_journal_entry_dangling 2)).
Proof.
  split.
  - do 4 eexists. split; [vm_compute; reflexivity|].
    split; [vm_compute; reflexivity|]. split; reflexivity.
  - do 4 eexists. split; [vm_compute; reflexivity|].
    split; [vm_compute; reflexivity|]. split; [reflexivity|].
    vm_compute. reflexivity.
Qed.

Lemma ov_oc p q x : ov (oc p q) x = ov q (ov p x).
Proof. now destruct q, p. Qed.

Lemma ov_idem p x : ov p (ov p x) = ov p x.
Proof. now destruct p. Qed.

Lemma apply_compose p q h :
  apply_patch (compose_patch p q) h = apply_patch q (apply_patch p h).
Proof.
  destruct p as [[[[[p1 p2] p3] p4] p5] p6].
  destruct q as [[[[[q1 q2] q3] q4] q5] q6].
  destruct h as [[[[[h1 h2] h3] h4] h5] h6].
  cbn [apply_patch compose_patch]. now rewrite !ov_oc.
Qed.

Lemma apply_idem p h : apply_patch p (apply_patch p h) = apply_patch p h.
Proof.
  destruct p as [[[[[p1 p2] p3] p4] p5] p6].
  destruct h as [[[[[h1 h2] h3] h4] h5] h6].
  cbn [apply_patch]. now rewrite !ov_idem.
Qed.

Lemma apply_no_patch h : apply_patch no_patch h = h.
Proof. now destruct h as [[[[[h1 h2] h3] h4] h5] h6]. Qed.

Lemma replay_srec_hdr line e i srec s s' :
  replay_srec line e i srec s = inr s' -> hdr_of s' = hdr_of s.
Proof.
  unfold replay_srec.
  repeat (destruct (Ascii.eqb (j_op e) _);
          [ try (intros [= <-]; reflexivity) | ]).
  - destruct (has (status srec) S_EXPIRE); [destruct (_ <? _)|];
      intros [= <-]; reflexivity.
  - discriminate.
Qed.

Lemma replay_entry_hdr nfmalloc line e s srec s' srec' :
  replay_entry nfmalloc line e (s, srec) = inr (s', srec') ->
  hdr_of s' = apply_patch (patch_of e) (hdr_of s).
Proof.
  unfold replay_entry, patch_of.
  repeat (destruct (Ascii.eqb (j_op e) _);
          [ intros [= <- _]; reflexivity | ]).
  rewrite apply_no_patch.
  destruct (syncfnd _ _ _ _) as [[i r]|]; [|discriminate].
  destruct (replay_srec line e i r s) as [d|s1] eqn:Hr; [discriminate|].
  intros [= <- _]. eapply replay_srec_hdr; eauto.
Qed.

Lemma replay_lines_hdr nfmalloc lines : forall line s srec s' srec',
  replay_lines nfmalloc lines line (s, srec) = inr (s', srec') ->
  hdr_of s' = apply_patch (patch_of_lines lines) (hdr_of s).
Proof.
  induction lines as [|buf lines IH]; intros line s srec s' srec';
    cbn [replay_lines patch_of_lines].
  - intros [= <- _]. now rewrite apply_no_patch.
  - destruct (incomplete buf); [discriminate|].
    destruct (parse_jline (c_str buf)) as [e|]; [|discriminate].
    destruct (replay_entry nfmalloc (Datatypes.S line) e (s, srec))
      as [d|[s1 srec1]] eqn:He; [discriminate|].
    intros H. apply IH in H. apply replay_entry_hdr in He.
    now rewrite apply_compose, <- He.
Qed.

Lemma replay_journal_hdr nfmalloc content s s' line :
  replay_journal nfmalloc content s = inr (s', line) ->
  exists p, hdr_of s' = apply_patch p (hdr_of s) /\
            forall s1 s2 l2,
              replay_journal nfmalloc content s1 = inr (s2, l2) ->
              hdr_of s2 = apply_patch p (hdr_of s1).
Proof.
  unfold replay_journal.
  destruct (file_lines content) as [|buf lines].
  - intros [= <- _]. exists no_patch. split; [now rewrite apply_no_patch|].
    intros s1 s2 l2 [= <- _]. now rewrite apply_no_patch.
  - destruct (incomplete buf); [discriminate|].
    destruct (negb _); [discriminate|].
    destruct (replay_lines nfmalloc lines 1 (s, None)) as [d|[sa c]] eqn:Hr;
      [discriminate|].
    intros [= <- _]. exists (patch_of_lines lines).
    split; [eapply replay_lines_hdr; eauto|].
    intros s1 s2 l2.
    destruct (replay_lines nfmalloc lines 1 (s1, None)) as [d|[sb c']] eqn:Hr';
      [discriminate|].
    intros [= <- _]. eapply replay_lines_hdr; eauto.
Qed.

Lemma hdr_of_eq s s' :
  hdr_of s' = hdr_of s ->
  maxuid s' = maxuid s /\ newuid s' = newuid s /\ uidval s' = uidval s.
Proof.
  unfold hdr_of. destruct (maxuid s'), (maxuid s), (newuid s'), (newuid s),
    (uidval s'), (uidval s). cbn [sel fst snd]. intros [= -> -> -> -> -> ->].
  auto.
Qed.

(** C3 (as the code has it). Replay is not idempotent.  What a second
    replay of the same journal preserves, when both replays succeed, are
    the fields that journal entries assign outright: [maxuid], [newuid]
    and [uidval] are after the second replay what they were after the
    first. *)
Theorem replay_twice_keeps_header nfmalloc content s s1 l1 s2 l2 :
  replay_journal nfmalloc content s = inr (s1, l1) ->
  replay_journal nfmalloc content s1 = inr (s2, l2) ->
  maxuid s2 = maxuid s1 /\ newuid s2 = newuid s1 /\ uidval s2 = uidval s1.
Proof.
  intros H1 H2. apply hdr_of_eq.
  destruct (replay_journal_hdr _ _ _ _ _ H1) as (p & Hp1 & Hp).
  rewrite (Hp _ _ _ H2), Hp1. apply apply_idem.
Qed.

(* ------------------------------------------------------------------ *)
(** ** C1: the UIDs of the committed records *)

(** C1 as specified fails: the message of [pull_state] is too big for the
    slave, its record gets [uid[S] = -1], stays live and is written to the
    new state with that placeholder. *)
Lemma placeholder_uid_is_committed :
  map (fun r => (uid r, live r)) (srecs pull_run) = [((5, -1), true)] /\
  nfp_content (trace pull_run)
  = (["-"; "1"; ":"; "5"; " "; "-"; "1"; ":"; "0"; ":"; "0"; NL] ++
     ["5"; " "; "-"; "1"; " "; NL])%char /\
  In (EFile Rename_new_state) (trace pull_run).
Proof.
  vm_compute. repeat split.
  repeat (first [left; reflexivity | right]).
Qed.

Lemma purge_srec_other minwuid j r s i :
  i <> j -> srecs (purge_srec minwuid j r s) !! i = srecs s !! i.
Proof.
  intros Hne. unfold purge_srec.
  repeat match goal with
         | |- srecs (if ?c then _ else _) !! _ = _ => destruct c
         end; sv; rewrite ?list_lookup_alter_ne by auto; reflexivity.
Qed.

Lemma purge_loop_before minwuid i : forall rs j s,
  (i < j)%nat ->
  srecs (for_srecs (purge_srec minwuid) j rs s) !! i = srecs s !! i.
Proof.
  induction rs as [|r rs IH]; intros j s Hlt; cbn [for_srecs].
  - reflexivity.
  - rewrite IH by lia. apply purge_srec_other. lia.
Qed.

(** The record that the body of the purge is at ends dead or with an
    actual UID. *)
Lemma purge_srec_self minwuid j r s r' :
  srecs s !! j = Some r ->
  srecs (purge_srec minwuid j r s) !! j = Some r' ->
  live r' = true -> has_a_uid r'.
Proof.
  intros Hj. unfold purge_srec, has_a_uid, live.
  destruct (has (status r) S_DEAD) eqn:Hd.
  { rewrite Hj. intros [= <-]. now rewrite Hd. }
  destruct ((sel Side.S (uid r) <=? 0) || expunged Side.S r s) eqn:HA.
  - destruct ((sel Side.M (uid r) <=? 0) || expunged Side.M r s ||
              (has (status r) S_EXPIRED &&
               (sel Side.M (uid r) <=? sel Side.M (maxuid s)) &&
               (sel Side.M (uid r) <? minwuid))) eqn:HB.
    + sv. rewrite list_lookup_alter_eq, Hj. intros [= <-]. discriminate.
    + apply orb_false_elim in HB. destruct HB as [HB _].
      apply orb_false_elim in HB. destruct HB as [HB _].
      apply Z.leb_gt in HB.
      destruct (0 <? sel Side.S (uid r)).
      * sv. rewrite list_lookup_alter_eq, Hj. intros [= <-] _. now left.
      * rewrite Hj. intros [= <-] _. now left.
  - apply orb_false_elim in HA. destruct HA as [HA _].
    apply Z.leb_gt in HA.
    destruct ((0 <? sel Side.M (uid r)) && expunged Side.M r s).
    + sv. rewrite list_lookup_alter_eq, Hj. intros [= <-] _. now right.
    + rewrite Hj. intros [= <-] _. now right.
Qed.

Lemma purge_loop_uids minwuid : forall rs j s,
  (forall k r, rs !! k = Some r -> srecs s !! (j + k)%nat = Some r) ->
  forall k r',
    (k < length rs)%nat ->
    srecs (for_srecs (purge_srec minwuid) j rs s) !! (j + k)%nat = Some r' ->
    live r' = true -> has_a_uid r'.
Proof.
  induction rs as [|r rs IH]; intros j s Hrs k r' Hk; cbn [for_srecs].
  - cbn in Hk. lia.
  - assert (srecs s !! j = Some r) as Hj
      by (rewrite <- (Nat.add_0_r j); now apply Hrs).
    destruct k as [|k].
    + rewrite Nat.add_0_r, purge_loop_before by lia.
      now apply purge_srec_self.
    + replace (j + Datatypes.S k)%nat with (Datatypes.S j + k)%nat by lia.
      apply IH; [|cbn in Hk; lia].
      intros k0 r0 Hk0. rewrite purge_srec_other by lia.
      replace (Datatypes.S j + k0)%nat with (j + Datatypes.S k0)%nat by lia.
      now apply Hrs.
Qed.

Lemma purge_uids s r :
  has (Z.lor (sel Side.M (state s)) (sel Side.S (state s))) ST_DID_EXPUNGE
  = true ->
  In r (List.filter live (srecs (purge s))) -> has_a_uid r.
Proof.
  intros Hex Hin. apply filter_In in Hin. destruct Hin as [Hin Hlive].
  apply list_elem_of_In, list_elem_of_lookup in Hin. destruct Hin as [k Hk].
  unfold purge in Hk. rewrite Hex in Hk.
  apply (purge_loop_uids (purge_minwuid s) (srecs s) 0 s) with (k := k);
    auto.
  apply lookup_lt_Some in Hk.
  pose proof (for_srecs_rel purge_frame (purge_srec (purge_minwuid s))
                purge_frame_refl purge_frame_trans
                (purge_srec_frame (purge_minwuid s)) (srecs s) 0 s) as F.
  destruct F as (_ & _ & _ & _ & _ & _ & _ & Hlen & _). lia.
Qed.

Lemma nfp_content_no_lines evs :
  forallb (fun e => match e with ENewState _ => false | _ => true end) evs
  = true -> nfp_content evs = [].
Proof.
  induction evs as [|e evs IH]; [reflexivity|].
  cbn [forallb]. intros H. apply andb_prop in H. destruct H as [He H].
  destruct e; try discriminate; cbn [nfp_content]; auto.
Qed.

Lemma has_lor_inv x y b :
  has (Z.lor x y) b = true -> has x b = true \/ has y b = true.
Proof.
  intros H. destruct (has x b) eqn:Hx; [now left|].
  destruct (has y b) eqn:Hy; [now right|]. exfalso.
  apply has_false in Hx, Hy. apply has_true in H. apply H.
  now rewrite Z.land_lor_distr_l, Hx, Hy.
Qed.

(** What [box_closed_p2] writes to [state.new] once both sides are
    closed: the header and the live records of the state after the purge. *)
Lemma box_closed_p2_written t s :
  has (sel (other t) (state s)) ST_CLOSED = true ->
  let sc := purge (state_or t ST_CLOSED s) in
  nfp_content (trace (box_closed_p2 t s))
  = nfp_content (trace s) ++ state_header_line sc ++
    concat (map state_entry_line (List.filter live (srecs sc))).
Proof.
  intros Hcl. unfold box_closed_p2. cbn zeta.
  set (s0 := state_or t ST_CLOSED s).
  assert (has (sel (other t) (state s0)) ST_CLOSED = true) as ->
    by (unfold s0; sv; now rewrite sel_upd_other).
  cbn [negb].
  destruct (sync_bail_extends
              (commit_files (write_new_state (purge s0))))
    as ((evs & -> & Hp) & _).
  rewrite nfp_content_app.
  rewrite (nfp_content_no_lines evs).
  - rewrite app_nil_r. unfold commit_files. cbn zeta.
    assert (forall x, nfp_content
              (trace (if negb (has (DFlags x) KEEPJOURNAL)
                      then emit (EFile Unlink_journal)
                             (emit (EFile Rename_new_state) x)
                      else x)) = nfp_content (trace x)) as Hk.
    { intros x. destruct (negb _); [|reflexivity]. sv.
      rewrite !nfp_content_app. cbn [nfp_content].
      now rewrite !app_nil_r. }
    rewrite Hk. sv. rewrite !nfp_content_app. cbn [nfp_content].
    rewrite !app_nil_r, write_new_state_trace, nfp_content_app,
      nfp_content_lines.
    destruct (purge_purge_frame s0) as (_ & _ & _ & _ & _ & _ & _ & _ & ->).
    reflexivity.
  - rewrite forallb_forall in *. intros e He. specialize (Hp e He).
    destruct e; try discriminate; reflexivity.
Qed.

(** C1 (as the code has it). Both sides closed, some side expunged: the
    entries that [box_closed_p2] writes to the new state are, after the
    header, those of the records that are live after the purge, and each
    of these has an actual (positive) UID on at least one side.  The UID
    of the other side is written as it is, placeholder or not. *)
Theorem committed_records_have_a_uid t s :
  has (sel (other t) (state s)) ST_CLOSED = true ->
  has (Z.lor (sel Side.M (state s)) (sel Side.S (state s))) ST_DID_EXPUNGE
  = true ->
  let sc := purge (state_or t ST_CLOSED s) in
  nfp_content (trace (box_closed_p2 t s))
  = nfp_content (trace s) ++ state_header_line sc ++
    concat (map state_entry_line (List.filter live (srecs sc))) /\
  Forall (fun r => live r = true /\ has_a_uid r)
    (List.filter live (srecs sc)).
Proof.
  intros Hcl Hex sc. split; [now apply box_closed_p2_written|].
  assert (has (Z.lor (sel Side.M (state (state_or t ST_CLOSED s)))
                 (sel Side.S (state (state_or t ST_CLOSED s))))
            ST_DID_EXPUNGE = true) as Hex0.
  { apply has_lor_inv in Hex. sv.
    destruct Hex as [H|H]; [apply has_lor_l | apply has_lor_r];
      destruct t; cbn [sel upd fst snd] in *; auto; now apply has_lor_l. }
  apply Forall_forall. intros r Hr. apply list_elem_of_In in Hr.
  split; [now apply filter_In in Hr | now apply (purge_uids _ r Hex0)].
Qed.

(* ------------------------------------------------------------------ *)
(** ** C2: the state file, written and read back *)

(** C2. Both sides closed: the state file that [box_closed_p2] writes,
    read by the load procedure of [box_selected] into a state without
    records, yields the header values ([uidval], [maxuid], [smaxxuid])
    of the committed state and, in the same order, its live records with
    their UIDs, flags and EXPIRED bit; a record read back has status 0 or
    EXPIRE|EXPIRED, no message and no TUID.  The values are those a state
    file can hold: [int]s, and flag sets of the five flags. *)
Theorem state_file_round_trip nfmalloc t s s0 :
  has (sel (other t) (state s)) ST_CLOSED = true ->
  nfp_content (trace s) = [] ->
  let sc := purge (state_or t ST_CLOSED s) in
  header_ok sc -> Forall entry_ok (List.filter live (srecs sc)) ->
  srecs s0 = [] ->
  exists s',
    load_state nfmalloc (Opened (nfp_content (trace (box_closed_p2 t s)))) s0
    = inr s' /\
    uidval s' = uidval sc /\ maxuid s' = maxuid sc /\
    smaxxuid s' = smaxxuid sc /\
    map persisted (srecs s') = map persisted (List.filter live (srecs sc)) /\
    Forall (fun r => (status r = 0 \/ status r = Z.lor S_EXPIRE S_EXPIRED) /\
                     msg r = (None, None) /\ tuid_set (tuid r) = false)
      (srecs s').
Proof.
  intros Hcl Hempty sc Hh He Hs0.
  rewrite (box_closed_p2_written t s Hcl), Hempty. cbn [app]. fold sc.
  change (state_header_line sc ++
          concat (map state_entry_line (List.filter live (srecs sc))))
    with (concat (state_header_line sc ::
                  map state_entry_line (List.filter live (srecs sc)))).
  unfold load_state. rewrite file_lines_concat.
  - rewrite (wf_line_complete _ (state_header_line_wf sc Hh)).
    rewrite (wf_line_c_str _ (state_header_line_wf sc Hh)).
    rewrite (parse_header_line sc Hh).
    rewrite load_entries_written by exact He.
    eexists. split; [reflexivity|]. sv. rewrite !arr2_eta, Hs0.
    cbn [app length].
    destruct (reload_persisted nfmalloc _ O He) as [Hp Hst].
    repeat split; assumption.
  - constructor; [now apply state_header_line_wf|].
    apply Forall_map. eapply Forall_impl; [exact He|].
    intros r. apply state_entry_line_wf.
Qed.

(* ------------------------------------------------------------------ *)
(** ** C7: a record whose TUID is not found *)

Lemma find_tuid_none srec ms : forall i,
  find_tuid srec ms i = None <->
  forallb (fun g => negb (sig_match srec g)) (map msig ms) = true.
Proof.
  induction ms as [|m ms IH]; intros i; cbn [find_tuid map forallb].
  - tauto.
  - change (sig_match srec (msig m)) with (tuid_match srec m).
    destruct (tuid_match srec m); cbn [negb andb].
    + split; discriminate.
    + apply IH.
Qed.

Lemma lookup_tuid_none srec ms ntmsg :
  lookup_tuid srec ms ntmsg = None <->
  forallb (fun g => negb (sig_match srec g)) (map msig ms) = true.
Proof.
  unfold lookup_tuid. destruct ntmsg as [c|]; [|apply find_tuid_none].
  replace (map msig ms) with (map msig (take c ms ++ drop c ms))
    by now rewrite take_drop.
  rewrite map_app, forallb_app.
  rewrite andb_true_iff, <- (find_tuid_none srec (take c ms) 0),
    <- (find_tuid_none srec (drop c ms) c).
  destruct (find_tuid srec (drop c ms) c) as [f|].
  - split; [discriminate | intros [_ H]; discriminate].
  - split; [intros H; split; [exact H | reflexivity] | intros [H _]; exact H].
Qed.

Lemma map_msig_alter k ms v :
  map msig (alter (set_m_srec v) k ms) = map msig ms.
Proof.
  revert k. induction ms as [|m ms IH]; intros [|k]; cbn; auto.
  now rewrite IH.
Qed.

(** The loop of [match_tuids]: the signatures of the messages stay, the
    lost records are counted, journaled with [&] and left without flags
    and TUID, and nothing but journal entries is added to the trace. *)
Lemma match_tuids_loop_spec t : forall rs i ntmsg n s out n' s',
  match_tuids_loop t i rs ntmsg n s = (out, n', s') ->
  let sigs := map msig (msgs (sel t (ctx s))) in
  map msig (msgs (sel t (ctx s'))) = sigs /\
  n' = n + Z.of_nat (length (List.filter (lostb t sigs) rs)) /\
  (exists evs,
     trace s' = trace s ++ evs /\ forallb is_journal evs = true /\
     forall srec, In srec rs -> lostb t sigs srec = true ->
                  In (EJournal (jfmt "&"%char (fmt_uids srec))) evs) /\
  forall k srec, rs !! k = Some srec -> lostb t sigs srec = true ->
                 out !! k = Some (tuid_lost srec).
Proof.
  induction rs as [|srec rs IH]; intros i ntmsg n s out n' s';
    cbn [match_tuids_loop].
  - intros [= <- <- <-]. cbn zeta. split; [reflexivity|].
    split; [cbn; lia|]. split.
    + exists []. rewrite app_nil_r. repeat split. intros ? [].
    + intros k r Hk. discriminate.
  - cbn zeta. set (sigs := map msig (msgs (sel t (ctx s)))).
    destruct (has (status srec) S_DEAD) eqn:Hdead.
    { (* dead: skipped *)
      destruct (match_tuids_loop t (Datatypes.S i) rs ntmsg n s)
        as [[out1 n1] s1] eqn:Hrec.
      intros [= <- <- <-]. apply IH in Hrec. cbn zeta in Hrec.
      fold sigs in Hrec. destruct Hrec as (HA & HB & (evs & HT & HJ & HI) & HD).
      assert (lostb t sigs srec = false) as Hl
        by (unfold lostb; now rewrite Hdead).
      split; [exact HA|]. split; [cbn [List.filter]; now rewrite Hl|].
      split.
      - exists evs. repeat split; auto.
        intros r [<-|Hr] Hlr; [congruence | auto].
      - intros [|k] r; cbn; [intros [= <-]; congruence | apply HD]. }
    destruct ((sel t (uid srec) =? -2) && tuid_set (tuid srec)) eqn:Hc.
    2:{ (* not looked up *)
      destruct (match_tuids_loop t (Datatypes.S i) rs ntmsg n s)
        as [[out1 n1] s1] eqn:Hrec.
      intros [= <- <- <-]. apply IH in Hrec. cbn zeta in Hrec.
      fold sigs in Hrec. destruct Hrec as (HA & HB & (evs & HT & HJ & HI) & HD).
      assert (lostb t sigs srec = false) as Hl.
      { unfold lostb. rewrite Hdead. cbn [negb andb].
        now rewrite Hc. }
      split; [exact HA|]. split; [cbn [List.filter]; now rewrite Hl|].
      split.
      - exists evs. repeat split; auto.
        intros r [<-|Hr] Hlr; [congruence | auto].
      - intros [|k] r; cbn; [intros [= <-]; congruence | apply HD]. }
    destruct (lookup_tuid srec (msgs (sel t (ctx s))) ntmsg)
      as [[k0 tmsg]|] eqn:Hlk.
    + (* found *)
      assert (lostb t sigs srec = false) as Hl.
      { unfold lostb. destruct (forallb _ sigs) eqn:Hf;
          [|now rewrite andb_false_r].
        apply (proj2 (lookup_tuid_none srec (msgs (sel t (ctx s))) ntmsg))
          in Hf. congruence. }
      set (s2 := upd_msg t k0 (set_m_srec (Some i)) _).
      destruct (match_tuids_loop t (Datatypes.S i) rs _ n s2)
        as [[out1 n1] s1] eqn:Hrec.
      intros [= <- <- <-]. apply IH in Hrec. cbn zeta in Hrec.
      assert (map msig (msgs (sel t (ctx s2))) = sigs) as Hs2.
      { unfold s2. sv. rewrite sel_upd. cbn [msgs set_msgs].
        apply map_msig_alter. }
      rewrite Hs2 in Hrec.
      destruct Hrec as (HA & HB & (evs & HT & HJ & HI) & HD).
      split; [exact HA|]. split; [cbn [List.filter]; now rewrite Hl|].
      split.
      * eexists. split; [rewrite HT; unfold s2; sv;
                         rewrite <- app_assoc; reflexivity|].
        split; [exact HJ|].
        intros r [<-|Hr] Hlr; [congruence|]. right. auto.
      * intros [|k] r; cbn; [intros [= <-]; congruence | apply HD].
    + (* lost *)
      assert (lostb t sigs srec = true) as Hl.
      { unfold lostb. rewrite Hdead. cbn [negb andb].
        apply andb_prop in Hc. destruct Hc as [-> ->]. cbn [andb].
        now apply (proj1 (lookup_tuid_none srec _ ntmsg)) in Hlk. }
      set (s1 := journal "&"%char (fmt_uids srec) s).
      destruct (match_tuids_loop t (Datatypes.S i) rs ntmsg (n + 1) s1)
        as [[out1 n1] s1'] eqn:Hrec.
      intros [= <- <- <-]. apply IH in Hrec. cbn zeta in Hrec.
      change (map msig (msgs (sel t (ctx s1)))) with sigs in Hrec.
      destruct Hrec as (HA & HB & (evs & HT & HJ & HI) & HD).
      split; [exact HA|].
      split; [cbn [List.filter]; rewrite Hl; cbn [length]; lia|].
      split.
      * eexists. split; [rewrite HT; unfold s1; sv;
                         rewrite <- app_assoc; reflexivity|].
        split; [exact HJ|].
        intros r [<-|Hr] Hlr; [now left | right; auto].
      * intros [|k] r; cbn; [intros [= <-]; reflexivity | apply HD].
Qed.

(** C7. A live record with [uid[t] == -2] and a TUID that no live message
    of side [t] carries: [match_tuids] journals [& uid[M] uid[S]], leaves
    the record with flags 0 and its TUID cleared (so: live, the UIDs as
    they were), and ends with one warning that counts the lost records,
    this one among them. *)
Theorem lost_tuid_is_journaled t s i srec :
  srecs s !! i = Some srec ->
  has (status srec) S_DEAD = false ->
  sel t (uid srec) = -2 ->
  tuid_set (tuid srec) = true ->
  (forall tmsg, In tmsg (msgs (sel t (ctx s))) ->
                tuid_match srec tmsg = false) ->
  let s' := match_tuids t s in
  let num_lost :=
    Z.of_nat (length (List.filter
                        (lostb t (map msig (msgs (sel t (ctx s)))))
                        (srecs s))) in
  srecs s' !! i = Some (set_tuid (tuid_clear (tuid srec)) (set_flags_ 0 srec)) /\
  0 < num_lost /\
  exists evs,
    events_since s s' = evs ++ [EDiag (Warn_lost t num_lost)] /\
    forallb is_journal evs = true /\
    In (EJournal (jfmt "&"%char (fmt_uids srec))) evs.
Proof.
  intros Hi Hlive Huid Htuid Hnone s' num_lost.
  set (sigs := map msig (msgs (sel t (ctx s)))) in *.
  assert (lostb t sigs srec = true) as Hlost.
  { unfold lostb. rewrite Hlive, Huid, Htuid. cbn [negb andb Z.eqb].
    apply forallb_forall. intros g Hg. unfold sigs in Hg.
    apply in_map_iff in Hg. destruct Hg as (m & <- & Hm).
    change (sig_match srec (msig m)) with (tuid_match srec m).
    now rewrite Hnone. }
  assert (In srec (List.filter (lostb t sigs) (srecs s))) as Hin.
  { apply filter_In. split; [|exact Hlost]. eapply lookup_In; eauto. }
  assert (0 < num_lost) as Hpos.
  { unfold num_lost. destruct (List.filter (lostb t sigs) (srecs s));
      [destruct Hin | cbn [length]; lia]. }
  subst s'. unfold match_tuids.
  destruct (match_tuids_loop t 0 (srecs s) None 0 s) as [[out n'] s1] eqn:Hl.
  apply match_tuids_loop_spec in Hl. cbn zeta in Hl. fold sigs in Hl.
  destruct Hl as (_ & Hn & (evs & HT & HJ & HI) & HD).
  assert (n' = num_lost) as -> by (rewrite Hn; unfold num_lost; lia).
  replace (negb (num_lost =? 0)) with true
    by (symmetry; apply negb_true_iff, Z.eqb_neq; lia).
  split; [sv; now apply HD|]. split; [exact Hpos|].
  exists evs. split; [|split; [exact HJ|]].
  - apply events_since_app. sv. rewrite HT. now rewrite <- app_assoc.
  - apply HI; [eapply lookup_In; eauto | exact Hlost].
Qed.

(* ------------------------------------------------------------------ *)
(** ** The theorems at concrete states *)

Lemma committed_records_have_a_uid_witness :
  has (sel (other Side.M) (state purge_state)) ST_CLOSED = true /\
  has (Z.lor (sel Side.M (state purge_state)) (sel Side.S (state purge_state)))
    ST_DID_EXPUNGE = true /\
  Forall (fun r => live r = true /\ has_a_uid r)
    (List.filter live (srecs (purge (state_or Side.M ST_CLOSED purge_state)))).
Proof.
  split; [reflexivity|]. split; [reflexivity|].
  apply (proj2 (committed_records_have_a_uid Side.M purge_state
                  eq_refl eq_refl)).
Defined.

Lemma state_file_round_trip_witness :
  has (sel (other Side.M) (state purge_state)) ST_CLOSED = true /\
  nfp_content (trace purge_state) = [] /\
  srecs pull_state = [] /\
  exists s',
    load_state (fun _ => blank_srec)
      (Opened (nfp_content (trace (box_closed_p2 Side.M purge_state))))
      pull_state = inr s' /\
    uidval s' = (1, 1) /\ maxuid s' = (0, 0) /\ smaxxuid s' = 0 /\
    map persisted (srecs s')
    = [((5, 0), F_SEEN, false); ((0, 9), 0, false);
       ((3, -1), F_FLAGGED, true)].
Proof.
  split; [reflexivity|]. split; [reflexivity|]. split; [reflexivity|].
  destruct (state_file_round_trip (fun _ => blank_srec) Side.M purge_state
              pull_state)
    as (s' & Hl & Hu & Hm & Hx & Hp & _).
  - reflexivity.
  - reflexivity.
  - unfold header_ok, is_int, INT_MIN, INT_MAX. vm_compute.
    repeat split; discriminate.
  - match goal with
    | |- Forall entry_ok ?l =>
        let l' := eval vm_compute in l in change (Forall entry_ok l')
    end.
    repeat (constructor;
            [unfold entry_ok, is_int, INT_MIN, INT_MAX;
             cbn [uid flags sel fst snd]; lia|]).
    constructor.
  - reflexivity.
  - exists s'. split; [exact Hl|]. rewrite Hu, Hm, Hx, Hp.
    repeat split.
Defined.

Lemma replay_twice_keeps_header_witness :
  replay_journal (fun _ => blank_srec) journal_header pull_state
  = inr (replayed journal_header pull_state, 3%nat) /\
  replay_journal (fun _ => blank_srec) journal_header
    (replayed journal_header pull_state)
  = inr (replayed journal_header (replayed journal_header pull_state),
         3%nat) /\
  maxuid (replayed journal_header (replayed journal_header pull_state))
  = maxuid (replayed journal_header pull_state) /\
  maxuid (replayed journal_header pull_state) = (7, 0) /\
  uidval (replayed journal_header pull_state) = (3, 4).
Proof.
  assert (replay_journal (fun _ => blank_srec) journal_header pull_state
          = inr (replayed journal_header pull_state, 3%nat)) as H1
    by (vm_compute; reflexivity).
  assert (replay_journal (fun _ => blank_srec) journal_header
            (replayed journal_header pull_state)
          = inr (replayed journal_header
                   (replayed journal_header pull_state), 3%nat)) as H2
    by (vm_compute; reflexivity).
  split; [exact H1|]. split; [exact H2|].
  split; [exact (proj1 (replay_twice_keeps_header _ _ _ _ _ _ _ H1 H2))|].
  split; vm_compute; reflexivity.
Defined.

Lemma expiring_record_never_adds_deleted_to_master_witness :
  srecs expiring_state !! O
  = Some (mk_srec (5, 7) (Some O, Some O) (Z.lor S_EXPIRE S_EXPIRED) F_SEEN
            (0, 0) (0, 0) []) /\
  handled_old
    (mk_srec (5, 7) (Some O, Some O) (Z.lor S_EXPIRE S_EXPIRED) F_SEEN
       (0, 0) (0, 0) []) expiring_state = true /\
  exists srec',
    srecs (fst (sync_old_entry O expiring_state)) !! O = Some srec' /\
    Z.land (sel Side.M (aflags srec')) F_DELETED = 0.
Proof.
  split; [reflexivity|]. split; [reflexivity|].
  destruct (expiring_record_never_adds_deleted_to_master O expiring_state
              (mk_srec (5, 7) (Some O, Some O) (Z.lor S_EXPIRE S_EXPIRED)
                 F_SEEN (0, 0) (0, 0) []) eq_refl eq_refl)
    as (srec' & Hl & Hc).
  exists srec'. split; [exact Hl | exact Hc].
Defined.

Lemma unpaired_new_message_witness :
  msgs (sel (other Side.S) (ctx pull_state)) !! O
  = Some (mk_msg None 1000 5 0 M_FLAGS []) /\
  has (sel Side.S (ops (chan pull_state))) OP_NEW = true /\
  exists evs srec,
    trace (fst (sync_new_msg (fun _ => blank_srec) (fun _ => 0) Side.S O
                  pull_state)) = trace pull_state ++ evs /\
    srecs (fst (sync_new_msg (fun _ => blank_srec) (fun _ => 0) Side.S O
                  pull_state)) !! O = Some srec /\
    forallb (fun e => negb (is_drv e)) evs = true /\
    sel Side.S (uid srec) = -1.
Proof.
  split; [reflexivity|]. split; [reflexivity|].
  destruct (unpaired_new_message (fun _ => blank_srec) (fun _ => 0) Side.S O
              pull_state (mk_msg None 1000 5 0 M_FLAGS [])
              eq_refl eq_refl eq_refl)
    as (evs & srec & Ht & Hs & _ & _ & Hd & Hu).
  exists evs, srec. repeat split; assumption.
Defined.

Lemma lost_tuid_is_journaled_witness :
  srecs lost_state !! O
  = Some (mk_srec (5, -2) (None, None) 0 F_SEEN (0, 0) (0, 0)
            ["A"; "B"; "C"; "D"; "E"; "F"; "G"; "H"; "I"; "J"; "K"; "L"]%char) /\
  srecs (match_tuids Side.S lost_state) !! O
  = Some (mk_srec (5, -2) (None, None) 0 0 (0, 0) (0, 0)
            [NUL; "B"; "C"; "D"; "E"; "F"; "G"; "H"; "I"; "J"; "K"; "L"]%char) /\
  events_since lost_state (match_tuids Side.S lost_state)
  = [EJournal ["&"; " "; "5"; " "; "-"; "2"; NL]%char;
     EDiag (Warn_lost Side.S 1)].
Proof.
  split; [reflexivity|].
  destruct (lost_tuid_is_journaled Side.S lost_state O
              (mk_srec (5, -2) (None, None) 0 F_SEEN (0, 0) (0, 0)
                 ["A"; "B"; "C"; "D"; "E"; "F"; "G"; "H"; "I"; "J"; "K";
                  "L"]%char))
    as (Hrec & _ & _).
  - reflexivity.
  - reflexivity.
  - reflexivity.
  - reflexivity.
  - intros tmsg [<-|[]]. reflexivity.
  - split; [exact Hrec | vm_compute; reflexivity].
Defined.

Lemma journal_ignored_without_new_state_witness :
  fs_journal fs_stale_journal = Opened journal_plus /\
  fs_new_exists fs_stale_journal = false /\
  box_selected_load (fun _ => blank_srec) (fun _ o => o) fs_stale_journal
    pull_state
  = box_selected_load (fun _ => blank_srec) (fun _ o => o)
      (without_journal fs_stale_journal) pull_state /\
  srecs (box_selected_load (fun _ => blank_srec) (fun _ o => o)
           fs_stale_journal pull_state) = [].
Proof.
  split; [reflexivity|]. split; [reflexivity|].
  split; [|vm_compute; reflexivity].
  exact (proj2 (journal_ignored_without_new_state (fun _ => blank_srec)
                  (fun _ o => o) fs_stale_journal journal_plus pull_state
                  eq_refl eq_refl)).
Defined.

Lemma uidvalidity_mismatch_aborts_witness :
  load_state (fun _ => blank_srec) (fs_state fs_9)
    (emit (EFile Open_lock) (set_lfd (fs_lock_fd fs_9) pull_state))
  = inr loaded_9 /\
  sel Side.S (uidval loaded_9) = 9 /\
  uidvalidity (sel Side.S (ctx pull_state)) = 1 /\
  ret (box_selected_load (fun _ => blank_srec) (fun _ o => o) fs_9 pull_state)
  = SYNC_FAIL /\
  extends no_change pull_state
    (box_selected_load (fun _ => blank_srec) (fun _ o => o) fs_9 pull_state).
Proof.
  assert (load_state (fun _ => blank_srec) (fs_state fs_9)
            (emit (EFile Open_lock) (set_lfd (fs_lock_fd fs_9) pull_state))
          = inr loaded_9) as Hl by (vm_compute; reflexivity).
  split; [exact Hl|]. split; [vm_compute; reflexivity|].
  split; [reflexivity|].
  destruct (uidvalidity_mismatch_aborts (fun _ => blank_srec) (fun _ o => o)
              fs_9 pull_state loaded_9 loaded_9 O Side.S)
    as (Hr & He & _).
  - reflexivity.
  - vm_compute. discriminate.
  - reflexivity.
  - exact Hl.
  - reflexivity.
  - vm_compute. discriminate.
  - vm_compute. discriminate.
  - split; [exact Hr | exact He].
Defined.

Lemma drv_msg_bad_handling_witness :
  srecs lost_state !! O
  = Some (mk_srec (5, -2) (None, None) 0 F_SEEN (0, 0) (0, 0)
            ["A"; "B"; "C"; "D"; "E"; "F"; "G"; "H"; "I"; "J"; "K"; "L"]%char) /\
  map status (srecs (msg_fetched DRV_MSG_BAD true lost_copy lost_state))
  = [S_DEAD] /\
  ret (msg_fetched DRV_MSG_BAD true lost_copy lost_state) = SYNC_OK /\
  goes_on lost_state (copy_cb_call SYNC_NOGOOD 0 lost_copy lost_state) /\
  has (ret (msg_trashed DRV_MSG_BAD Side.M lost_state)) SYNC_FAIL = true /\
  goes_on rtrash_state (copy_cb_call SYNC_NOGOOD 0 rtrash_vars rtrash_state).
Proof.
  destruct (drv_msg_bad_handling lost_copy lost_state)
    as (_ & _ & Hcopy & Htrash & _).
  destruct (drv_msg_bad_handling rtrash_vars rtrash_state)
    as (_ & _ & _ & _ & Hrt).
  split; [reflexivity|]. split; [vm_compute; reflexivity|].
  split; [vm_compute; reflexivity|].
  split; [exact (proj1 (Hcopy O _ eq_refl eq_refl eq_refl))|].
  split; [exact (proj1 (proj2 (Htrash Side.M)))|].
  exact (proj1 (Hrt eq_refl)).
Defined.

(* ------------------------------------------------------------------ *)
(** ** The rewriting of a fetched message *)

Lemma crs_app a b : crs (a ++ b) = crs a + crs b.
Proof. induction a as [|c a IH]; cbn [crs app]; [reflexivity | lia]. Qed.

Lemma lfs_app a b : lfs (a ++ b) = lfs a + lfs b.
Proof. induction a as [|c a IH]; cbn [lfs app]; [reflexivity | lia]. Qed.

Lemma CR_not_NL c : Ascii.eqb c CR = true -> Ascii.eqb c NL = false.
Proof. intros H. apply Ascii.eqb_eq in H. now subst c. Qed.

Lemma count_rest_spec rest : forall bcrs lines,
  count_rest rest bcrs lines = (bcrs + crs rest, lines + lfs rest).
Proof.
  induction rest as [|c rest IH]; intros bcrs lines; cbn [count_rest crs lfs].
  - f_equal; lia.
  - destruct (Ascii.eqb c CR) eqn:Hc.
    + rewrite (CR_not_NL c Hc), IH. f_equal; lia.
    + destruct (Ascii.eqb c NL); rewrite IH; f_equal; lia.
Qed.

Lemma length_copy_crlf src :
  Z.of_nat (length (copy_crlf src)) = Z.of_nat (length src) - crs src + lfs src.
Proof.
  induction src as [|c src IH]; cbn [copy_crlf crs lfs length]; [reflexivity|].
  destruct (Ascii.eqb c CR) eqn:Hc.
  - rewrite (CR_not_NL c Hc). lia.
  - destruct (Ascii.eqb c NL); cbn [length]; lia.
Qed.

Lemma length_copy_lf src :
  Z.of_nat (length (copy_lf src)) = Z.of_nat (length src) - crs src.
Proof.
  induction src as [|c src IH]; cbn [copy_lf crs length]; [reflexivity|].
  destruct (Ascii.eqb c CR); cbn [length]; lia.
Qed.

(** Stepping over the byte at [i]. *)
Lemma drop_step {A} (l : list A) i c rest :
  drop i l = c :: rest ->
  drop (Datatypes.S i) l = rest /\ take (Datatypes.S i) l = take i l ++ [c] /\
  (i < length l)%nat.
Proof.
  intros H.
  assert (l !! i = Some c) as Hi.
  { rewrite <- (Nat.add_0_r i), <- lookup_drop, H. reflexivity. }
  split; [|split].
  - rewrite (drop_S _ _ _ Hi) in H. congruence.
  - now apply take_S_r.
  - now apply lookup_lt_Some in Hi.
Qed.

(** What the scan of the header has found when it succeeds: the place of
    the break is within the data, and the counters hold the CRs and LFs
    of what lies before the place where the counting goes on. *)
Lemma header_scan_counts fmap : forall rest i start lcrs lines hcrs h,
  drop i fmap = rest -> (start <= i)%nat ->
  lfs (take i fmap) = lines -> crs (take i fmap) = hcrs + lcrs ->
  lfs (take start fmap) = lines -> crs (take start fmap) = hcrs ->
  header_scan fmap rest i start lcrs lines hcrs = Some h ->
  (sbreak h <= ebreak h <= h_i h)%nat /\ (h_i h <= length fmap)%nat /\
  ((ebreak h = h_i h /\
    h_extra h = Z.of_nat (sbreak h) - Z.of_nat (ebreak h) /\
    h_lines h = lfs (take (sbreak h) fmap) /\
    h_hcrs h = crs (take (sbreak h) fmap)) \/
   (ebreak h = sbreak h /\ h_extra h = 0 /\
    h_lines h = lfs (take (h_i h) fmap) /\
    h_hcrs h = crs (take (h_i h) fmap))).
Proof.
  induction rest as [|c rest IH];
    intros i start lcrs lines hcrs h Hd Hle Hl Hc Hls Hcs Hscan;
    cbn [header_scan] in Hscan; [discriminate|].
  destruct (drop_step _ _ _ _ Hd) as (Hd' & Ht & Hlt).
  destruct (Ascii.eqb c CR) eqn:HCR.
  { apply (IH _ _ _ _ _ _ Hd') in Hscan; auto.
    - rewrite Ht, lfs_app, Hl. cbn [lfs]. rewrite (CR_not_NL c HCR). lia.
    - rewrite Ht, crs_app, Hc. cbn [crs]. rewrite HCR. lia. }
  destruct (Ascii.eqb c NL) eqn:HNL.
  - destruct (memcmp_eq _ _ _).
    { injection Hscan as <-. cbn [sbreak ebreak h_i h_extra h_lines h_hcrs].
      split; [lia|]. split; [lia|]. left. auto. }
    destruct (_ =? Z.of_nat start).
    + injection Hscan as <-. cbn [sbreak ebreak h_i h_extra h_lines h_hcrs].
      split; [lia|]. split; [lia|]. right.
      rewrite Ht, lfs_app, crs_app, Hl, Hc. cbn [lfs crs].
      rewrite HNL, HCR. repeat split; lia.
    + apply (IH _ _ _ _ _ _ Hd') in Hscan; auto.
      * rewrite Ht, lfs_app, Hl. cbn [lfs]. rewrite HNL. lia.
      * rewrite Ht, crs_app, Hc. cbn [crs]. rewrite HCR. lia.
      * rewrite Ht, lfs_app, Hl. cbn [lfs]. rewrite HNL. lia.
      * rewrite Ht, crs_app, Hc. cbn [crs]. rewrite HCR. lia.
  - apply (IH _ _ _ _ _ _ Hd') in Hscan; auto.
    + rewrite Ht, lfs_app, Hl. cbn [lfs]. rewrite HNL. lia.
    + rewrite Ht, crs_app, Hc. cbn [crs]. rewrite HCR. lia.
Qed.

Lemma length_copy_part scr tcr src :
  Z.of_nat (length (copy_part scr tcr src))
  = Z.of_nat (length src) +
    (if xorb tcr scr then (if tcr then lfs src else 0) - crs src else 0).
Proof.
  unfold copy_part. destruct (xorb tcr scr); [|lia].
  destruct tcr; [rewrite length_copy_crlf | rewrite length_copy_lf]; lia.
Qed.

Lemma counts_split (l : list ascii) n :
  crs l = crs (take n l) + crs (drop n l) /\
  lfs l = lfs (take n l) + lfs (drop n l).
Proof. rewrite <- crs_app, <- lfs_app, take_drop. auto. Qed.

(** X1. The buffer that [msg_fetched] allocates for the rewritten message
    is filled exactly: the number of bytes that the copy loops store is
    the length [len + extra] that the counting loops have computed. *)
Theorem msg_rewrite_fills_buffer srec_tuid scr tcr fmap n out :
  msg_rewrite srec_tuid scr tcr fmap = Some (n, out) ->
  Z.of_nat (length out) = n.
Proof.
  unfold msg_rewrite. destruct srec_tuid as [tu|].
  - destruct (header_scan fmap fmap 0 0 0 0 0) as [h|] eqn:Hscan;
      [|discriminate].
    apply header_scan_counts in Hscan; try reflexivity; try lia.
    destruct Hscan as (Hle & Hlen & Hcase).
    rewrite (count_rest_spec (drop (h_i h) fmap)).
    intros [= <- <-].
    rewrite length_app. cbn [length]. rewrite length_app. cbn [length].
    repeat (rewrite Nat2Z.inj_add || rewrite Nat2Z.inj_succ).
    rewrite !length_copy_part, length_take, length_drop.
    assert (length (if tuid_cr scr tcr (h_hcrs h) then [CR] else [])
            = if tuid_cr scr tcr (h_hcrs h) then 1%nat else 0%nat) as ->
      by now destruct (tuid_cr _ _ _).
    change (Z.of_nat TUIDL) with 12.
    destruct (counts_split fmap (sbreak h)) as [Hc1 Hl1].
    destruct (counts_split fmap (h_i h)) as [Hc2 Hl2].
    destruct Hcase as [(He & Hx & Hli & Hcr)|(He & Hx & Hli & Hcr)].
    + rewrite He, Hx, Hli, Hcr, He.
      destruct (xorb tcr scr), tcr, (tuid_cr _ _ _); lia.
    + rewrite He, Hx, Hli, Hcr.
      destruct (xorb tcr scr), tcr, (tuid_cr _ _ _); lia.
  - destruct (xorb scr tcr) eqn:Hx; [|now intros [= <- <-]].
    rewrite count_rest_spec. intros [= <- <-].
    rewrite length_copy_part, xorb_comm, Hx. destruct tcr; lia.
Qed.

Lemma crlf_lines_app_len n : forall a b,
  (length a <= n)%nat -> crlf_lines a = true ->
  crlf_lines (a ++ b) = crlf_lines b.
Proof.
  induction n as [|n IH]; intros a b Hn Ha.
  { destruct a; [reflexivity | cbn in Hn; lia]. }
  destruct a as [|c a]; [reflexivity|].
  cbn [crlf_lines app] in *. destruct (Ascii.eqb c CR).
  - destruct a as [|c' a]; [discriminate|].
    apply andb_true_iff in Ha as [Hc' Ha]. cbn [app]. rewrite Hc'.
    apply IH; [cbn [length] in Hn; lia | exact Ha].
  - apply andb_true_iff in Ha as [Hc Ha]. rewrite Hc.
    apply IH; [cbn [length] in Hn; lia | exact Ha].
Qed.

Lemma crlf_lines_app a b :
  crlf_lines a = true -> crlf_lines (a ++ b) = crlf_lines b.
Proof. now apply (crlf_lines_app_len (length a)). Qed.

Lemma crlf_lines_copy_crlf src : crlf_lines (copy_crlf src) = true.
Proof.
  induction src as [|c src IH]; [reflexivity|]. cbn [copy_crlf].
  destruct (Ascii.eqb c CR) eqn:HCR; [exact IH|].
  destruct (Ascii.eqb c NL) eqn:HNL.
  - cbn [crlf_lines]. change (Ascii.eqb CR CR) with true. cbn iota.
    now rewrite HNL.
  - cbn [crlf_lines]. now rewrite HCR, HNL.
Qed.

Lemma crlf_lines_plain l k :
  forallb (fun c => negb (Ascii.eqb c CR) && negb (Ascii.eqb c NL)) l = true ->
  crlf_lines (l ++ k) = crlf_lines k.
Proof.
  induction l as [|c l IH]; intros H; [reflexivity|].
  cbn [forallb] in H. apply andb_true_iff in H as [Hc Hl].
  apply andb_true_iff in Hc as [H1 H2].
  apply negb_true_iff in H1. apply negb_true_iff in H2.
  cbn [app crlf_lines]. rewrite H1, H2. now apply IH.
Qed.

Lemma no_cr_copy_lf src : no_cr (copy_lf src) = true.
Proof.
  induction src as [|c src IH]; [reflexivity|]. cbn [copy_lf].
  destruct (Ascii.eqb c CR) eqn:HCR; [exact IH|].
  unfold no_cr. cbn [forallb]. now rewrite HCR.
Qed.

Lemma no_cr_app a b : no_cr (a ++ b) = no_cr a && no_cr b.
Proof. apply forallb_app. Qed.

Lemma msg_rewrite_srec tu scr tcr fmap n out :
  msg_rewrite (Some tu) scr tcr fmap = Some (n, out) ->
  exists h, header_scan fmap fmap 0 0 0 0 0 = Some h /\
            out = rewritten tu scr tcr fmap h.
Proof.
  unfold msg_rewrite.
  destruct (header_scan fmap fmap 0 0 0 0 0) as [h|]; [|discriminate].
  intros H. exists h. split; [reflexivity|].
  injection H as _ <-. reflexivity.
Qed.

Lemma msg_rewrite_plain scr tcr fmap n out :
  msg_rewrite None scr tcr fmap = Some (n, out) ->
  out = if xorb scr tcr then copy_part scr tcr fmap else fmap.
Proof.
  unfold msg_rewrite. destruct (xorb scr tcr).
  - destruct (count_rest _ _ _). now intros [= _ <-].
  - now intros [= _ <-].
Qed.

(** X2. Stored to a driver with CRLF line ends from one with LF line
    ends, with a TUID free of CR and LF, the rewritten message has CRLF
    line ends throughout: every LF follows a CR and every CR is followed
    by a LF, whatever stray CRs the fetched data held. *)
Theorem msg_rewrite_to_crlf srec_tuid fmap n out :
  (forall tu, srec_tuid = Some tu -> tuid_plain tu = true) ->
  msg_rewrite srec_tuid false true fmap = Some (n, out) ->
  crlf_lines out = true.
Proof.
  intros Htu H. destruct srec_tuid as [tu|].
  - apply msg_rewrite_srec in H as (h & _ & ->).
    unfold rewritten, copy_part, tuid_cr. cbn [xorb negb andb orb].
    rewrite (crlf_lines_app _ _ (crlf_lines_copy_crlf _)).
    rewrite (crlf_lines_plain X_TUID) by reflexivity.
    rewrite (crlf_lines_plain _ _ (Htu tu eq_refl)).
    cbn [app crlf_lines]. change (Ascii.eqb CR CR) with true.
    change (Ascii.eqb NL NL) with true. cbn iota. cbn [andb].
    apply crlf_lines_copy_crlf.
  - apply msg_rewrite_plain in H as ->. apply crlf_lines_copy_crlf.
Qed.

(** X3. Stored to a driver with LF line ends from one with CRLF line
    ends, with a TUID free of CR, the rewritten message holds no CR at
    all. *)
Theorem msg_rewrite_to_lf srec_tuid fmap n out :
  (forall tu, srec_tuid = Some tu -> tuid_plain tu = true) ->
  msg_rewrite srec_tuid true false fmap = Some (n, out) ->
  no_cr out = true.
Proof.
  intros Htu H. destruct srec_tuid as [tu|].
  - apply msg_rewrite_srec in H as (h & _ & ->).
    unfold rewritten, copy_part, tuid_cr. cbn [xorb negb andb orb].
    rewrite !no_cr_app, !no_cr_copy_lf.
    assert (no_cr (map (char_at tu) (seq 0 TUIDL)) = true) as ->.
    { specialize (Htu tu eq_refl). unfold tuid_plain in Htu. unfold no_cr.
      rewrite forallb_forall in *. intros c Hc.
      specialize (Htu c Hc). now apply andb_true_iff in Htu as [-> _]. }
    reflexivity.
  - apply msg_rewrite_plain in H as ->. apply no_cr_copy_lf.
Qed.

Lemma msg_rewrite_fills_buffer_witness :
  exists n out,
    msg_rewrite (Some sample_tuid) false true sample_msg = Some (n, out) /\
    n = 40 /\ Z.of_nat (length out) = n.
Proof.
  eexists. eexists. split; [vm_compute; reflexivity|].
  split; [reflexivity|].
  apply (msg_rewrite_fills_buffer (Some sample_tuid) false true sample_msg).
  vm_compute. reflexivity.
Defined.

Lemma msg_rewrite_to_crlf_witness :
  exists n out,
    msg_rewrite (Some sample_tuid) false true sample_msg = Some (n, out) /\
    crlf_lines sample_msg = false /\ crlf_lines out = true.
Proof.
  eexists. eexists. split; [vm_compute; reflexivity|].
  split; [reflexivity|].
  apply (msg_rewrite_to_crlf (Some sample_tuid) sample_msg 40).
  - intros tu [= <-]. reflexivity.
  - vm_compute. reflexivity.
Defined.

Lemma msg_rewrite_to_lf_witness :
  exists n out,
    msg_rewrite (Some sample_tuid) true false sample_msg = Some (n, out) /\
    no_cr sample_msg = false /\ no_cr out = true.
Proof.
  eexists. eexists. split; [vm_compute; reflexivity|].
  split; [reflexivity|].
  apply (msg_rewrite_to_lf (Some sample_tuid) sample_msg 35).
  - intros tu [= <-]. reflexivity.
  - vm_compute. reflexivity.
Defined.

(* ------------------------------------------------------------------ *)
(** ** The flag letters, for any argument *)

Lemma has_land_31 f i :
  (i < 5)%nat ->
  has (Z.land f 31) (Z.shiftl 1 (Z.of_nat i)) = has f (Z.shiftl 1 (Z.of_nat i)).
Proof.
  intros Hi. unfold has. rewrite <- Z.land_assoc.
  do 5 (destruct i as [|i]; [reflexivity|]). lia.
Qed.

Lemma make_flags_land_31 f : make_flags f = make_flags (Z.land f 31).
Proof.
  unfold make_flags. cbn [Flags length seq fold_left].
  now rewrite !has_land_31 by lia.
Qed.

Lemma land_31_range f : 0 <= Z.land f 31 < 32.
Proof.
  split; [apply Z.land_nonneg; lia|].
  change 31 with (Z.ones 5). rewrite Z.land_ones by lia.
  apply Z.mod_pos_bound. reflexivity.
Qed.

(** X4. Whatever [int] it is given, [make_flags] stores at most five
    letters (so [fbuf[16]] is never overrun) and looks at the five flag
    bits only: [parse_flags] reads from its result exactly those bits. *)
Theorem make_flags_any_int f :
  (length (make_flags f) <= 5)%nat /\
  make_flags f = make_flags (Z.land f 31) /\
  parse_flags (make_flags f) = Z.land f 31.
Proof.
  destruct (make_flags_spec _ (land_31_range f)) as (_ & Hl & Hp & _).
  rewrite <- make_flags_land_31 in Hl, Hp.
  auto using make_flags_land_31.
Qed.

Ltac flag_step buf :=
  match goal with
  | |- context [Ascii.eqb (char_at buf ?d) ?c] =>
      let E := fresh "E" in
      destruct (Ascii.eqb (char_at buf d) c) eqn:E;
      [apply Ascii.eqb_eq in E|clear E]; cbn iota
  end.

(** X5. [parse_flags] reads a prefix of its argument and nothing else:
    the letters of the flags it returns, in the order DFRST, are the
    first characters of the buffer, and the value is one of the 32 flag
    sets.  A letter out of this order, and all that follows it, is
    ignored. *)
Theorem parse_flags_reads_prefix buf :
  0 <= parse_flags buf < 32 /\
  exists rest, buf = make_flags (parse_flags buf) ++ rest.
Proof.
  unfold parse_flags. cbn [Flags length seq fold_left].
  change (char_at ["D"; "F"; "R"; "S"; "T"]%char 0) with "D"%char.
  change (char_at ["D"; "F"; "R"; "S"; "T"]%char 1) with "F"%char.
  change (char_at ["D"; "F"; "R"; "S"; "T"]%char 2) with "R"%char.
  change (char_at ["D"; "F"; "R"; "S"; "T"]%char 3) with "S"%char.
  change (char_at ["D"; "F"; "R"; "S"; "T"]%char 4) with "T"%char.
  do 5 flag_step buf; cbn [fst];
    match goal with
    | |- 0 <= ?x < 32 /\ _ =>
        let v := eval vm_compute in x in
        change x with v;
        let l := eval vm_compute in (make_flags v) in
        change (make_flags v) with l
    end;
    (split; [lia|]);
    unfold char_at in *;
    repeat match goal with
           | H : nth _ buf _ = _ |- _ => revert H
           end;
    do 5 (try (let c := fresh "c" in destruct buf as [|c buf]));
    cbn [nth]; intros; subst; try discriminate; eexists; reflexivity.
Qed.

(* ------------------------------------------------------------------ *)
(** ** The name of the sync state file *)

Lemma c_str_no_nul s : Forall (fun c => c <> NUL) (c_str s).
Proof.
  induction s as [|c s IH]; cbn [c_str]; [constructor|].
  destruct (Ascii.eqb c NUL) eqn:E; constructor; auto.
  now apply Ascii.eqb_neq.
Qed.

Lemma c_str_fixed s : Forall (fun c => c <> NUL) s -> c_str s = s.
Proof.
  induction 1 as [|c s Hc _ IH]; [reflexivity|]. cbn [c_str].
  apply Ascii.eqb_neq in Hc. now rewrite Hc, IH.
Qed.

Lemma clean_strdup_no_nul s : Forall (fun c => c <> NUL) (clean_strdup s).
Proof.
  unfold clean_strdup. apply Forall_map.
  eapply Forall_impl; [apply c_str_no_nul|].
  intros c Hc. cbn. now destruct (Ascii.eqb c "/").
Qed.

Lemma clean_strdup_no_slash s :
  Forall (fun c => Ascii.eqb c "/"%char = false) (clean_strdup s).
Proof.
  unfold clean_strdup. apply Forall_map, Forall_forall. intros c _. cbn.
  now destruct (Ascii.eqb c "/") eqn:E.
Qed.

Lemma strrchr_from_app c a b : forall i found,
  Forall (fun x => Ascii.eqb x c = false) b ->
  strrchr_from c (a ++ b) i found = strrchr_from c a i found.
Proof.
  induction a as [|x a IH]; intros i found Hb; cbn [app strrchr_from].
  - revert i. induction Hb as [|y b Hy _ IHb]; intros i; [reflexivity|].
    cbn [strrchr_from]. now rewrite Hy.
  - now apply IH.
Qed.

(** X6. With a [SyncState] setting of the channel other than ["*"], the
    name of the state file is the setting followed by the slave's mailbox
    name with every ['/'] replaced by ['!'], and the directory that is
    created is the setting up to its last ['/']: a mailbox name never
    adds a directory.  A setting without ['/'] is refused. *)
Theorem state_dname_of_channel ss gss path store_name box_name :
  strcmp_eq ss ["*"%char] = false ->
  state_dname (Some ss) gss path store_name box_name
  = match strrchr ss "/"%char with
    | None =>
        Invalid_location (c_str ss ++ clean_strdup (sel Side.S box_name))
    | Some k =>
        State_name (Some (firstn k (c_str ss)))
          (c_str ss ++ clean_strdup (sel Side.S box_name))
    end /\
  length (clean_strdup (sel Side.S box_name))
  = length (c_str (sel Side.S box_name)) /\
  Forall (fun c => Ascii.eqb c "/"%char = false)
    (clean_strdup (sel Side.S box_name)).
Proof.
  intros Hss. split; [|split].
  - unfold state_dname.
    rewrite Hss. cbn zeta.
    assert (strrchr (c_str ss ++ clean_strdup (sel Side.S box_name)) "/"
            = strrchr ss "/") as ->.
    { unfold strrchr. rewrite c_str_fixed.
      - apply strrchr_from_app, clean_strdup_no_slash.
      - apply Forall_app. split; [apply c_str_no_nul|].
        apply clean_strdup_no_nul. }
    destruct (strrchr ss "/") as [k|] eqn:Hk; [|reflexivity].
    f_equal. f_equal. apply take_app_le.
    unfold strrchr in Hk. clear -Hk.
    assert (forall s i found k,
              strrchr_from "/" s i found = Some k ->
              (forall j, found = Some j -> (j < i)%nat) ->
              (k < i + length s)%nat) as H.
    { induction s as [|x s IH]; intros i found k0 H Hf; cbn in H.
      - specialize (Hf _ H). cbn. lia.
      - apply IH in H.
        + cbn [length]. lia.
        + intros j Hj. destruct (Ascii.eqb x "/"); [injection Hj; lia|].
          specialize (Hf _ Hj). lia. }
    specialize (H _ _ _ _ Hk). cbn in H. apply Nat.lt_le_incl, H.
    intros j [=].
  - unfold clean_strdup. apply length_map.
  - apply clean_strdup_no_slash.
Qed.

Lemma state_dname_of_channel_witness :
  state_dname (Some ["/"; "s"; "/"; "x"; "_"]%char) [] None ([], [])
    ([], ["a"; "/"; "b"]%char)
  = State_name (Some ["/"; "s"]%char)
      ["/"; "s"; "/"; "x"; "_"; "a"; "!"; "b"]%char.
Proof.
  exact (proj1 (state_dname_of_channel ["/"; "s"; "/"; "x"; "_"]%char [] None
                  ([], []) ([], ["a"; "/"; "b"]%char) eq_refl)).
Defined.

(* ------------------------------------------------------------------ *)
(** ** Journal entries, written and read *)

Lemma sscanf_1_line t1 : is_int t1 -> sscanf_1 (fmt_d t1 ++ [NL]) = Some t1.
Proof.
  intros H1. unfold sscanf_1. now rewrite scan_d_fmt_d by (auto; reflexivity).
Qed.

Lemma scan_d_sp z r :
  is_int z -> no_digit_head r -> scan_d (SP :: fmt_d z ++ r) = Some (z, r).
Proof. intros Hz Hr. rewrite scan_d_space by reflexivity. now apply scan_d_fmt_d. Qed.

Lemma sscanf_2_line t1 t2 :
  is_int t1 -> is_int t2 ->
  sscanf_2 (fmt_d t1 ++ SP :: fmt_d t2 ++ [NL]) = Some (t1, t2).
Proof.
  intros H1 H2. unfold sscanf_2.
  rewrite scan_d_fmt_d by (auto; reflexivity). cbn [mbind option_bind].
  now rewrite scan_d_sp by (auto; reflexivity).
Qed.

Lemma sscanf_3_line t1 t2 t3 :
  is_int t1 -> is_int t2 -> is_int t3 ->
  sscanf_3 (fmt_d t1 ++ SP :: fmt_d t2 ++ SP :: fmt_d t3 ++ [NL])
  = Some (t1, t2, t3).
Proof.
  intros H1 H2 H3. unfold sscanf_3.
  rewrite scan_d_fmt_d by (auto; reflexivity). cbn [mbind option_bind].
  rewrite scan_d_sp by (auto; reflexivity). cbn [mbind option_bind].
  now rewrite scan_d_sp by (auto; reflexivity).
Qed.

Lemma jfmt_c_str op args :
  Ascii.eqb op NUL = false ->
  Forall (Forall (fun c => plainb c = true)) args ->
  c_str (jfmt op args) = jfmt op args.
Proof.
  intros Hop Hargs. apply c_str_id. unfold jfmt.
  constructor; [exact Hop|]. apply Forall_app. split; [|now repeat constructor].
  induction Hargs as [|a args Ha _ IH]; [constructor|].
  cbn [map concat]. constructor; [reflexivity|].
  apply Forall_app. split; [|exact IH].
  eapply Forall_impl; [exact Ha|]. intros c Hc. now apply plain_nonnul.
Qed.

Ltac eval_eqb :=
  repeat match goal with
  | |- context [Ascii.eqb ?a ?b] =>
      let v := eval vm_compute in (Ascii.eqb a b) in
      change (Ascii.eqb a b) with v
  | |- context [one_of ?a ?l] =>
      let v := eval vm_compute in (one_of a l) in
      change (one_of a l) with v
  end.

Ltac args_ok :=
  repeat (apply List.Forall_cons; [assumption|]); apply List.Forall_nil.

Ltac pick_op H :=
  unfold one_of in H; cbn [existsb] in H;
  repeat (apply orb_prop in H; destruct H as [H|H]);
  try discriminate H; apply Ascii.eqb_eq in H; subst.

Lemma jline_round_trip op t1 t2 t3 :
  is_int t1 -> is_int t2 -> is_int t3 ->
  (one_of op ["("; ")"; "{"; "}"]%char = true ->
   incomplete (jfmt op [fmt_d t1]) = false /\
   parse_jline (c_str (jfmt op [fmt_d t1])) = Some (mk_jline op t1 0 0 [])) /\
  (one_of op ["+"; "&"; "-"; "|"; "/"; "\"]%char = true ->
   incomplete (jfmt op [fmt_d t1; fmt_d t2]) = false /\
   parse_jline (c_str (jfmt op [fmt_d t1; fmt_d t2]))
   = Some (mk_jline op t1 t2 0 [])) /\
  (one_of op ["<"; ">"; "*"; "~"]%char = true ->
   incomplete (jfmt op [fmt_d t1; fmt_d t2; fmt_d t3]) = false /\
   parse_jline (c_str (jfmt op [fmt_d t1; fmt_d t2; fmt_d t3]))
   = Some (mk_jline op t1 t2 t3 [])).
Proof.
  intros H1 H2 H3.
  pose proof (fmt_d_plain _ H1) as P1. pose proof (fmt_d_plain _ H2) as P2.
  pose proof (fmt_d_plain _ H3) as P3.
  assert (forall op args,
            Ascii.eqb op NUL = false ->
            Forall (Forall (fun c => plainb c = true)) args ->
            incomplete (jfmt op args) = false) as Hinc.
  { intros o args Ho Ha. unfold incomplete. rewrite jfmt_c_str by assumption.
    unfold jfmt. change (o :: ?l ++ [NL]) with ((o :: l) ++ [NL]).
    now rewrite rev_app_distr. }
  split; [|split]; intros Hop; pick_op Hop;
    (split; [apply Hinc; [reflexivity | args_ok]|]);
    rewrite jfmt_c_str by (try reflexivity; args_ok);
    unfold parse_jline, jfmt; cbn [map concat app char_at nth skipn];
    rewrite ?drop_0, ?app_nil_r; repeat (rewrite <- app_assoc; cbn [app]);
    eval_eqb; cbn iota;
    rewrite ?sscanf_1_line, ?sscanf_2_line, ?sscanf_3_line by assumption;
    reflexivity.
Qed.

(** X7. A journal entry, as the engine writes it for numbers that are
    [int]s, is complete and is read back by the replay loop as the same
    opcode and the same numbers, for each of the three shapes of entries
    made of numbers. *)
Theorem journal_entry_round_trip op t1 t2 t3 :
  is_int t1 -> is_int t2 -> is_int t3 ->
  (one_of op ["("; ")"; "{"; "}"]%char = true ->
   incomplete (jfmt op [fmt_d t1]) = false /\
   parse_jline (c_str (jfmt op [fmt_d t1])) = Some (mk_jline op t1 0 0 [])) /\
  (one_of op ["+"; "&"; "-"; "|"; "/"; "\"]%char = true ->
   incomplete (jfmt op [fmt_d t1; fmt_d t2]) = false /\
   parse_jline (c_str (jfmt op [fmt_d t1; fmt_d t2]))
   = Some (mk_jline op t1 t2 0 [])) /\
  (one_of op ["<"; ">"; "*"; "~"]%char = true ->
   incomplete (jfmt op [fmt_d t1; fmt_d t2; fmt_d t3]) = false /\
   parse_jline (c_str (jfmt op [fmt_d t1; fmt_d t2; fmt_d t3]))
   = Some (mk_jline op t1 t2 t3 [])).
Proof. apply jline_round_trip. Qed.

Lemma journal_entry_round_trip_witness :
  parse_jline ["+"; " "; "5"; " "; "-"; "2"; NL]%char
  = Some (mk_jline "+"%char 5 (-2) 0 []).
Proof.
  assert (is_int 5 /\ is_int (-2) /\ is_int 0) as (H1 & H2 & H3)
    by (unfold is_int, INT_MIN, INT_MAX; lia).
  exact (proj2 (proj1 (proj2 (journal_entry_round_trip "+"%char 5 (-2) 0
                                H1 H2 H3)) eq_refl)).
Defined.

Lemma tuid_char_land b : tuid_char (Z.land b 63) = tuid_char b.
Proof. unfold tuid_char. now rewrite <- Z.land_assoc. Qed.

Lemma tuid_char_all b : tuid_char_ok b = true.
Proof.
  assert (forallb tuid_char_ok (map Z.of_nat (seq 0 64)) = true) as H
    by (vm_compute; reflexivity).
  rewrite forallb_forall in H.
  assert (tuid_char_ok b = tuid_char_ok (Z.land b 63)) as ->
    by (unfold tuid_char_ok; now rewrite tuid_char_land).
  apply H, in_map_iff. exists (Z.to_nat (Z.land b 63)).
  assert (0 <= Z.land b 63 < 64).
  { split; [apply Z.land_nonneg; lia|].
    change 63 with (Z.ones 6). rewrite Z.land_ones by lia.
    apply Z.mod_pos_bound. reflexivity. }
  split; [lia | apply in_seq; lia].
Qed.

Lemma generated_tuid_chars (rnd : nat -> Z) n :
  Forall (fun c => tuid_alpha c = true /\ plainb c = true /\
                   Ascii.eqb c CR = false)
    (map (fun j => tuid_char (rnd j)) (seq 0 n)).
Proof.
  apply Forall_map, Forall_forall. intros j _. cbn.
  pose proof (tuid_char_all (rnd j)) as H. unfold tuid_char_ok in H.
  apply andb_prop in H as [H H3]. apply andb_prop in H as [H1 H2].
  now apply negb_true_iff in H3.
Qed.

Lemma sscanf_2n_line t1 t2 c tu :
  is_int t1 -> is_int t2 -> isspace c = false ->
  sscanf_2n (fmt_d t1 ++ SP :: fmt_d t2 ++ SP :: (c :: tu) ++ [NL])
  = Some (t1, t2, (length (fmt_d t1) + length (fmt_d t2) + 2)%nat).
Proof.
  intros H1 H2 Hc. unfold sscanf_2n.
  rewrite scan_d_fmt_d by (auto; reflexivity). cbn [mbind option_bind].
  rewrite scan_d_sp by (auto; reflexivity). cbn [mbind option_bind].
  f_equal. f_equal. cbn [skip_space app].
  change (isspace SP) with true. cbn iota. rewrite Hc.
  rewrite !length_app. cbn [length app]. repeat (rewrite length_app; cbn [length]).
  lia.
Qed.

Lemma generated_tuid_spec (rnd : nat -> Z) t1 t2 :
  is_int t1 -> is_int t2 ->
  let tu := map (fun j => tuid_char (rnd j)) (seq 0 TUIDL) in
  forallb tuid_alpha tu = true /\ tuid_set tu = true /\
  tuid_plain tu = true /\ fmt_tuid tu = tu /\
  incomplete (jfmt "#"%char [fmt_d t1; fmt_d t2; fmt_tuid tu]) = false /\
  exists t3,
    parse_jline (c_str (jfmt "#"%char [fmt_d t1; fmt_d t2; fmt_tuid tu]))
    = Some (mk_jline "#"%char t1 t2 t3 tu).
Proof.
  intros H1 H2 tu.
  pose proof (generated_tuid_chars rnd TUIDL) as Hall. fold tu in Hall.
  assert (length tu = TUIDL) as Hlen
    by (unfold tu; now rewrite length_map, length_seq).
  assert (Forall (fun c => plainb c = true) tu) as Hplain
    by (eapply Forall_impl; [exact Hall|]; now intros c (_ & ? & _)).
  assert (fmt_tuid tu = tu) as Hfmt.
  { unfold fmt_tuid. rewrite c_str_id.
    - apply firstn_all2. lia.
    - eapply Forall_impl; [exact Hplain|]. intros c. apply plain_nonnul. }
  rewrite Hfmt.
  pose proof (fmt_d_plain _ H1) as P1. pose proof (fmt_d_plain _ H2) as P2.
  assert (c_str (jfmt "#" [fmt_d t1; fmt_d t2; tu])
          = jfmt "#" [fmt_d t1; fmt_d t2; tu]) as Hc
    by (apply jfmt_c_str; [reflexivity | args_ok]).
  split; [|split; [|split; [|split; [|split]]]].
  - apply forallb_forall. intros c Hc'. rewrite Forall_forall in Hall.
    apply Hall. now apply list_elem_of_In.
  - unfold tuid_set, char_at. destruct tu as [|c tu']; [discriminate|].
    cbn [nth]. apply Forall_inv in Hplain. now rewrite (plain_nonnul _ Hplain).
  - unfold tuid_plain. apply forallb_forall. intros c Hc'.
    apply in_map_iff in Hc' as (j & <- & Hj). apply in_seq in Hj.
    unfold char_at.
    assert (In (nth j tu NUL) tu) as Hin by (apply nth_In; lia).
    rewrite Forall_forall in Hall. apply list_elem_of_In, Hall in Hin.
    destruct Hin as (_ & Hp & HCR). rewrite HCR.
    apply plain_line in Hp. unfold lineb in Hp.
    apply andb_prop in Hp as [_ ->]. reflexivity.
  - reflexivity.
  - unfold incomplete. rewrite Hc. unfold jfmt.
    change ("#"%char :: ?l ++ [NL]) with (("#"%char :: l) ++ [NL]).
    now rewrite rev_app_distr.
  - eexists. rewrite Hc. unfold parse_jline, jfmt.
    cbn [map concat app char_at nth skipn].
    rewrite ?drop_0, ?app_nil_r; repeat (rewrite <- app_assoc; cbn [app]).
    eval_eqb. cbn iota.
    destruct tu as [|c tu'] eqn:Etu; [discriminate|].
    assert (isspace c = false) as Hsp
      by (apply Forall_inv in Hplain; now apply plain_nonspace).
    change (c :: tu' ++ [NL]) with ((c :: tu') ++ [NL]).
    rewrite sscanf_2n_line by assumption. cbn [mbind option_bind].
    set (n1 := length (fmt_d t1)). set (n2 := length (fmt_d t2)).
    assert (length ("#"%char :: SP :: fmt_d t1 ++ SP :: fmt_d t2 ++
                    SP :: (c :: tu') ++ [NL]) = (n1 + n2 + 17)%nat) as Hl.
    { cbn [length]. repeat (rewrite length_app; cbn [length]).
      cbn [length] in Hlen. unfold TUIDL in Hlen. subst n1 n2. lia. }
    rewrite Hl.
    replace (n1 + n2 + 2 =? 0)%nat with false by (symmetry; apply Nat.eqb_neq; lia).
    replace (n1 + n2 + 17 - (n1 + n2 + 2) =? TUIDL + 3)%nat with true
      by (symmetry; apply Nat.eqb_eq; unfold TUIDL; lia).
    cbn [orb negb]. f_equal. f_equal.
    change ("#"%char :: SP :: fmt_d t1 ++ SP :: fmt_d t2 ++
            SP :: (c :: tu') ++ [NL])
      with (("#"%char :: SP :: fmt_d t1) ++ SP :: fmt_d t2 ++
            SP :: (c :: tu') ++ [NL]).
    replace (n1 + n2 + 2 + 2)%nat
      with (length ((("#"%char :: SP :: fmt_d t1) ++ SP :: fmt_d t2) ++ [SP]))
      by (repeat (rewrite length_app; cbn [length]); subst n1 n2; lia).
    replace (("#"%char :: SP :: fmt_d t1) ++ SP :: fmt_d t2 ++
             SP :: (c :: tu') ++ [NL])
      with (((("#"%char :: SP :: fmt_d t1) ++ SP :: fmt_d t2) ++ [SP]) ++
            (c :: tu') ++ [NL])
      by (repeat (rewrite <- app_assoc; cbn [app]); reflexivity).
    rewrite drop_app_length.
    replace TUIDL with (length (c :: tu')) by exact Hlen.
    apply take_app_length.
Qed.

(** X8. A TUID made in the pass over new messages consists of twelve
    characters out of letters, digits, [+] and [/], so it is set
    ([tuid[0]] is not 0) and holds neither white space nor CR, LF or NUL;
    and the [#] entry that journals it is read back by the replay loop
    with the same UIDs and the same TUID. *)
Theorem generated_tuid_round_trip (rnd : nat -> Z) t1 t2 :
  is_int t1 -> is_int t2 ->
  let tu := map (fun j => tuid_char (rnd j)) (seq 0 TUIDL) in
  forallb tuid_alpha tu = true /\ tuid_set tu = true /\
  tuid_plain tu = true /\ fmt_tuid tu = tu /\
  incomplete (jfmt "#"%char [fmt_d t1; fmt_d t2; fmt_tuid tu]) = false /\
  exists t3,
    parse_jline (c_str (jfmt "#"%char [fmt_d t1; fmt_d t2; fmt_tuid tu]))
    = Some (mk_jline "#"%char t1 t2 t3 tu).
Proof. apply generated_tuid_spec. Qed.

Lemma generated_tuid_round_trip_witness :
  map (fun j => tuid_char (Z.of_nat j)) (seq 0 TUIDL) = sample_tuid /\
  exists t3,
    parse_jline (["#"; " "; "5"; " "; "-"; "2"; " "]%char ++ sample_tuid ++ [NL])
    = Some (mk_jline "#"%char 5 (-2) t3 sample_tuid).
Proof.
  assert (is_int 5 /\ is_int (-2)) as (H1 & H2)
    by (unfold is_int, INT_MIN, INT_MAX; lia).
  split; [reflexivity|].
  exact (proj2 (proj2 (proj2 (proj2 (proj2
           (generated_tuid_round_trip (fun j => Z.of_nat j) 5 (-2) H1 H2)))))).
Defined.

(* ------------------------------------------------------------------ *)
(** ** Files cut short *)










(** X10. When the state file or the journal cannot be read or is
    refused, [box_selected] fails the channel at once: [ret] is SYNC_FAIL,
    the error is reported, and what was done consists of diagnostics, the
    lock file and the completion callback only; nothing was opened for
    writing and no driver was called. *)
Theorem load_failure_fails_channel nfmalloc drv_opts fs s d :
  fs_dir_ok fs = true -> 0 <= fs_lock_fd fs -> fs_lock_ok fs = true ->
  let s0 := emit (EFile Open_lock) (set_lfd (fs_lock_fd fs) s) in
  load_state nfmalloc (fs_state fs) s0 = inl d \/
  (exists s1, load_state nfmalloc (fs_state fs) s0 = inr s1 /\
              load_journal nfmalloc (fs_journal fs) (fs_new_exists fs) s1
              = inl d) ->
  let s' := box_selected_load nfmalloc drv_opts fs s in
  ret s' = SYNC_FAIL /\ extends no_change s s' /\
  In (EDiag d) (trace s') /\
  (ref_count s = 1 -> In (ECallback SYNC_FAIL) (trace s')).
Proof.
  intros Hdir Hfd Hlock s0 Hfail s'. subst s'.
  unfold box_selected_load. rewrite Hdir, Hlock. cbn [negb].
  cbn [lfd set_lfd].
  replace (fs_lock_fd fs <? 0) with false by (symmetry; apply Z.ltb_ge; lia).
  fold s0.
  assert (forall sx, trace sx = trace s0 -> ref_count sx = ref_count s ->
            let s' := bail d sx in
            ret s' = SYNC_FAIL /\ extends no_change s s' /\
            In (EDiag d) (trace s') /\
            (ref_count s = 1 -> In (ECallback SYNC_FAIL) (trace s'))) as Hbail.
  { intros sx Htr Hrc. cbn zeta. unfold bail.
    destruct (sync_bail_extends (set_ret SYNC_FAIL (emit (EDiag d) sx)))
      as (Hb & Hret & Hcb).
    split; [exact Hret|]. split; [|split].
    - eapply extends_trans; [|exact Hb].
      exists [EFile Open_lock; EDiag d]. split; [|reflexivity].
      sv. rewrite Htr. unfold s0. sv. now rewrite <- app_assoc.
    - destruct Hb as (evs & -> & _). apply in_or_app. left. sv.
      apply in_or_app. right. now left.
    - intros H1. apply Hcb. sv. congruence. }
  destruct Hfail as [Hst|(s1 & Hst & Hjn)]; rewrite Hst.
  - apply Hbail; reflexivity.
  - rewrite Hjn.
    destruct (load_state_world _ _ _ _ Hst)
      as (Htr & _ & _ & Hrc & _).
    apply Hbail; [exact Htr | exact Hrc].
Qed.

Lemma load_failure_fails_channel_witness :
  let s' := box_selected_load (fun _ => blank_srec) (fun _ o => o)
              fs_truncated pull_state in
  ret s' = SYNC_FAIL /\
  trace s' = [EFile Open_lock; EDiag (Err_state_entry_incomplete 2);
              EFile Unlink_lock; EFile Close_lock; ECallback SYNC_FAIL].
Proof.
  split; [|reflexivity].
  apply (load_failure_fails_channel (fun _ => blank_srec) (fun _ o => o)
           fs_truncated pull_state (Err_state_entry_incomplete 2)).
  - reflexivity.
  - cbn. lia.
  - reflexivity.
  - left. vm_compute. reflexivity.
Defined.

(* ------------------------------------------------------------------ *)
(** ** The range that is loaded *)

Lemma maxwuid_bound t rs : forall m0,
  let m := fold_left
             (fun (maxwuid : Z) (srec : sync_rec) =>
                if negb (has (status srec) S_DEAD) &&
                   (maxwuid <? sel t (uid srec))
                then sel t (uid srec) else maxwuid) rs m0 in
  m0 <= m /\
  (forall r, In r rs -> live r = true -> sel t (uid r) <= m) /\
  (m = m0 \/ exists r, In r rs /\ live r = true /\ m = sel t (uid r)).
Proof.
  induction rs as [|r rs IH]; intros m0; cbn [fold_left].
  - split; [lia|]. split; [intros r []|]. now left.
  - match goal with |- context [fold_left ?f rs ?x] => set (m1 := x) end.
    destruct (IH m1) as (Hle & Hall & Hex). cbn zeta in *.
    assert (m0 <= m1 /\ (live r = true -> sel t (uid r) <= m1) /\
            (m1 = m0 \/ (live r = true /\ m1 = sel t (uid r))))
      as (H1 & H2 & H3).
    { unfold m1, live. destruct (negb (has (status r) S_DEAD)); cbn [andb].
      - destruct (m0 <? sel t (uid r)) eqn:E.
        + apply Z.ltb_lt in E. repeat split; auto; lia.
        + apply Z.ltb_ge in E. repeat split; auto; lia.
      - repeat split; auto; [lia | discriminate]. }
    split; [lia|]. split.
    + intros r' [<-|Hin] Hl; [specialize (H2 Hl); lia | now apply Hall].
    + destruct Hex as [->|(r' & Hin & Hl & ->)].
      * destruct H3 as [->|[Hl ->]]; [now left|].
        right. exists r. cbn [In]. auto.
      * right. exists r'. cbn [In]. auto.
Qed.

Lemma has_mask_inv x a b :
  has x (Z.lor a b) = true -> has x a = true \/ has x b = true.
Proof.
  unfold has. rewrite Z.land_lor_distr_r. intros H.
  apply negb_true_iff, Z.eqb_neq in H.
  destruct (Z.land x a =? 0) eqn:Ea; [|now left]. right.
  apply Z.eqb_eq in Ea. rewrite Ea, Z.lor_0_l in H.
  now apply negb_true_iff, Z.eqb_neq.
Qed.

(** X11. The range of UIDs that [load_box] asks the driver for.  If new
    messages are to be opened the range is open-ended ([INT_MAX]) and
    starts at the smaller of [minwuid] and [maxuid[t] + 1], an [int] that
    wraps around at [INT_MAX].  If only old ones are, the range starts at
    [minwuid] and ends at the greatest UID of a live sync record, or at 0
    if no live record has a positive UID.  Either way it leaves out no live
    record at or above [minwuid]. *)
Theorem load_box_range t minwuid mexcs s :
  has (opts (sel t (ctx s))) (Z.lor OPEN_NEW OPEN_OLD) = true ->
  exists lo hi evs,
    trace (fst (load_box t minwuid mexcs s))
    = trace s ++ EDrv t (load lo hi (sel t (newuid s)) mexcs) :: evs /\
    (has (opts (sel t (ctx s))) OPEN_NEW = true ->
     hi = INT_MAX /\
     lo = Z.min minwuid (int_succ (sel t (maxuid s)))) /\
    (has (opts (sel t (ctx s))) OPEN_NEW = false ->
     lo = minwuid /\ 0 <= hi /\
     (forall r, In r (srecs s) -> live r = true -> sel t (uid r) <= hi) /\
     (hi = 0 \/
      exists r, In r (srecs s) /\ live r = true /\ hi = sel t (uid r))) /\
    forall r, In r (srecs s) -> live r = true ->
              minwuid <= sel t (uid r) <= INT_MAX ->
              lo <= sel t (uid r) <= hi.
Proof.
  intros Hopts. unfold load_box. cbn zeta.
  match goal with |- context [DRIVER_CALL t (load ?lo ?hi ?nu ?ex) s] =>
    destruct (DRIVER_CALL_trace t (load lo hi nu ex) s) as (evs & Htr);
    exists lo, hi, evs
  end.
  split; [exact Htr|].
  destruct (has (opts (sel t (ctx s))) OPEN_NEW) eqn:Hnew; cbn [fst snd].
  - set (next := int_succ (sel t (maxuid s))).
    destruct (next <? minwuid) eqn:E;
      [apply Z.ltb_lt in E | apply Z.ltb_ge in E].
    + split; [intros _; split; [reflexivity|lia]|].
      split; [discriminate|]. intros r _ _ Hr. lia.
    + split; [intros _; split; [reflexivity|lia]|].
      split; [discriminate|]. intros r _ _ Hr. lia.
  - assert (has (opts (sel t (ctx s))) OPEN_OLD = true) as ->.
    { apply has_mask_inv in Hopts. destruct Hopts; congruence. }
    cbn [fst snd].
    destruct (maxwuid_bound t (srecs s) 0) as (H0 & Hall & Hex).
    cbn zeta in *.
    split; [discriminate|]. split.
    + intros _. split; [reflexivity|]. split; [exact H0|].
      split; [exact Hall|]. destruct Hex as [->|Hex]; auto.
    + intros r Hin Hl Hr. specialize (Hall r Hin Hl). lia.
Qed.

Lemma load_box_range_witness :
  has (opts (sel Side.S (ctx expiring_state))) OPEN_NEW = false /\
  exists hi evs,
    trace (fst (load_box Side.S 1 [] expiring_state))
    = trace expiring_state ++ EDrv Side.S (load 1 hi 0 []) :: evs /\
    7 <= hi /\
    (hi = 0 \/
     exists r, In r (srecs expiring_state) /\ live r = true /\
               hi = sel Side.S (uid r)).
Proof.
  split; [reflexivity|].
  destruct (load_box_range Side.S 1 [] expiring_state eq_refl)
    as (lo & hi & evs & Htr & _ & Hold & _).
  destruct (Hold eq_refl) as (-> & _ & Hall & Hex).
  exists hi, evs. split; [exact Htr|]. split; [|exact Hex].
  apply (Hall (mk_srec (5, 7) (Some O, Some O) (Z.lor S_EXPIRE S_EXPIRED)
                 F_SEEN (0, 0) (0, 0) [])).
  - now left.
  - reflexivity.
Defined.

(* ------------------------------------------------------------------ *)
(** ** The order of the commit *)

Lemma purge_journals s :
  exists jl,
    trace (purge s) = trace s ++ map EJournal jl /\
    DFlags (purge s) = DFlags s /\ ref_count (purge s) = ref_count s /\
    ret (purge s) = ret s.
Proof.
  unfold purge. destruct (has _ ST_DID_EXPUNGE).
  - apply (for_srecs_rel
             (fun a b => exists jl,
                trace b = trace a ++ map EJournal jl /\
                DFlags b = DFlags a /\ ref_count b = ref_count a /\
                ret b = ret a)).
    + intros a. exists []. now rewrite app_nil_r.
    + intros a b c (j1 & T1 & D1 & R1 & E1) (j2 & T2 & D2 & R2 & E2).
      exists (j1 ++ j2). rewrite T2, T1, map_app, app_assoc.
      repeat split; congruence.
    + intros i r a. unfold purge_srec.
      repeat match goal with
             | |- context [if ?b then _ else _] => destruct b
             end;
        first [ exists []; sv; rewrite app_nil_r; now repeat split
              | eexists [_]; sv; now repeat split ].
  - exists []. now rewrite app_nil_r.
Qed.

(** X12. When the second side is closed, [box_closed_p2] does things in
    an order that a crash cannot turn into a loss: the journal entries of
    the purge come first; then the new state is written in full and
    closed; only then is it renamed over the old state, and only after
    that is the journal removed; the lock is given up last, and then the
    completion callback is called if this was the last reference.  With
    KEEPJOURNAL nothing is renamed or removed. *)
Theorem commit_order t s :
  has (sel (other t) (state s)) ST_CLOSED = true ->
  let sc := purge (state_or t ST_CLOSED s) in
  exists jl,
    events_since s (box_closed_p2 t s)
    = map EJournal jl ++
      map ENewState
        (state_header_line sc ::
         map state_entry_line (List.filter live (srecs sc))) ++
      [EFile Close_new; EFile Close_journal] ++
      (if has (DFlags s) KEEPJOURNAL then []
       else [EFile Rename_new_state; EFile Unlink_journal]) ++
      [EFile Unlink_lock; EFile Close_lock] ++
      (if ref_count s =? 1 then [ECallback (ret s)] else []).
Proof.
  intros Hcl sc. unfold box_closed_p2. cbn zeta.
  assert (sel (other t) (state (state_or t ST_CLOSED s))
          = sel (other t) (state s)) as ->
    by (sv; apply sel_upd_other).
  rewrite Hcl. cbn [negb]. fold sc.
  destruct (purge_journals (state_or t ST_CLOSED s))
    as (jl & Htr & HD & Hrc & Hret).
  fold sc in Htr, HD, Hrc, Hret. sv_in Htr. sv_in HD. sv_in Hrc. sv_in Hret.
  exists jl. apply events_since_app.
  pose proof (write_new_state_trace sc) as Hw.
  pose proof (write_new_state_eq sc) as He.
  set (w := write_new_state sc) in *.
  assert (DFlags w = DFlags s /\ ref_count w = ref_count s /\ ret w = ret s)
    as (HDw & Hrw & Hretw) by (rewrite He; cbn; auto).
  unfold commit_files. cbn zeta. sv. rewrite HDw.
  unfold sync_bail, sync_bail1, sync_bail2, sync_bail3, sync_deref. cbn zeta.
  destruct (has (DFlags s) KEEPJOURNAL); cbn [negb]; sv; rewrite Hrw, Hretw;
    replace (ref_count s - 1 =? 0) with (ref_count s =? 1)
      by (destruct (ref_count s =? 1) eqn:E;
          [apply Z.eqb_eq in E | apply Z.eqb_neq in E];
          symmetry; [apply Z.eqb_eq | apply Z.eqb_neq]; lia);
    destruct (ref_count s =? 1); cbn [fst]; sv; rewrite Hw, Htr;
    repeat (rewrite <- app_assoc; cbn [app]); reflexivity.
Qed.

Lemma commit_order_witness :
  exists jl,
    events_since (state_or Side.M ST_CLOSED purge_state)
      (box_closed_p2 Side.M (state_or Side.M ST_CLOSED purge_state))
    = map EJournal jl ++
      [ENewState ["1"; ":"; "0"; " "; "1"; ":"; "0"; ":"; "0"; NL]%char;
       ENewState ["5"; " "; "0"; " "; "S"; NL]%char;
       ENewState ["0"; " "; "9"; " "; NL]%char;
       ENewState ["3"; " "; "-"; "1"; " "; "X"; "F"; NL]%char;
       EFile Close_new; EFile Close_journal; EFile Rename_new_state;
       EFile Unlink_journal; EFile Unlink_lock; EFile Close_lock;
       ECallback 0].
Proof.
  destruct (commit_order Side.M (state_or Side.M ST_CLOSED purge_state)
              eq_refl) as (jl & H).
  exists jl. rewrite H. reflexivity.
Defined.

(* ------------------------------------------------------------------ *)
(** ** Trashing *)

Lemma for_range_rel (R : sync_vars -> sync_vars -> Prop) body :
  (forall s, R s s) -> (forall a b c, R a b -> R b c -> R a c) ->
  (forall k s, R s (fst (body k s))) ->
  forall n k s, R s (fst (for_range body k n s)).
Proof.
  intros Hrefl Htrans Hbody. induction n as [|n IH]; intros k s.
  - apply Hrefl.
  - cbn [for_range]. specialize (Hbody k s).
    destruct (body k s) as [s1 stop]. cbn [fst] in Hbody.
    destruct stop; [exact Hbody|]. eapply Htrans; [exact Hbody | apply IH].
Qed.

(** What a driver request leaves alone, and what it adds to the trace. *)
Lemma DRIVER_CALL_rest t c s :
  let s' := fst (DRIVER_CALL t c s) in
  trash_total s' = trash_total s /\ flags_done s' = flags_done s /\
  DFlags s' = DFlags s /\ uidval s' = uidval s /\ newuid s' = newuid s /\
  exists cb, trace s' = trace s ++ EDrv t c :: cb /\
             Forall (fun e => exists r, e = ECallback r) cb.
Proof.
  unfold DRIVER_CALL, deref_check_cancel, sync_deref. cbn zeta.
  destruct (_ =? 0); cbn [fst]; sv; repeat split.
  - exists [ECallback (ret s)]. rewrite <- app_assoc. split; [reflexivity|].
    repeat constructor. eauto.
  - exists []. split; [reflexivity | constructor].
Qed.

Lemma trash_req_ok_ext t a b e :
  ctx b = ctx a -> srecs b = srecs a ->
  trash_req_ok t a e -> trash_req_ok t b e.
Proof.
  intros Hc Hs. unfold trash_req_ok, not_propagated. now rewrite Hc, Hs.
Qed.

Lemma trash_step_refl t s : trash_step t s s.
Proof.
  repeat split. exists []. rewrite app_nil_r. cbn. repeat split; [lia|constructor].
Qed.

Lemma trash_step_trans t a b c :
  trash_step t a b -> trash_step t b c -> trash_step t a c.
Proof.
  intros (C1 & S1 & H1 & St1 & D1 & O1 & e1 & T1 & N1 & F1)
         (C2 & S2 & H2 & St2 & D2 & O2 & e2 & T2 & N2 & F2).
  repeat split; try congruence.
  exists (e1 ++ e2). split; [now rewrite T2, T1, app_assoc|]. split.
  - rewrite N2, N1, List.filter_app, length_app. lia.
  - apply Forall_app. split; [exact F1|].
    eapply Forall_impl; [exact F2|]. intros e He.
    eapply trash_req_ok_ext; [| |exact He]; congruence.
Qed.

Lemma trash_one_step t k s : trash_step t s (fst (trash_one t k s)).
Proof.
  unfold trash_one.
  destruct (msgs (sel t (ctx s)) !! k) as [tmsg|] eqn:Hk;
    [|apply trash_step_refl].
  destruct (has (m_flags tmsg) F_DELETED) eqn:Hdel; cbn [negb];
    [|apply trash_step_refl].
  assert (forall c,
            trash_req_ok t s (EDrv t c) ->
            is_trash_req (EDrv t c) = true ->
            trash_step t s
              (fst (DRIVER_CALL t c
                      (set_trash_total (incr t (trash_total s)) s)))) as Hcall.
  { intros c Hok Hreq.
    destruct (DRIVER_CALL_frame t c
                (set_trash_total (incr t (trash_total s)) s))
      as (Hsr & Hcx & Hst & _ & _ & _ & Hch & _ & _ & Htd & _).
    destruct (DRIVER_CALL_rest t c
                (set_trash_total (incr t (trash_total s)) s))
      as (Htt & _ & _ & _ & _ & cb & Htr & Hcb).
    cbn zeta in *. sv_in Hsr. sv_in Hcx. sv_in Hst. sv_in Hch. sv_in Htd.
    sv_in Htt. sv_in Htr.
    repeat split; auto.
    - rewrite Htt. unfold incr. apply sel_upd_other.
    - exists (EDrv t c :: cb). split; [exact Htr|]. split.
      + rewrite Htt. unfold incr. rewrite sel_upd. cbn [List.filter].
        rewrite Hreq. cbn [length].
        assert (List.filter is_trash_req cb = []) as ->.
        { clear -Hcb. induction Hcb as [|e cb (r & ->) _ IH]; [reflexivity|].
          exact IH. }
        cbn [length]. lia.
      + constructor; [exact Hok|].
        eapply Forall_impl; [exact Hcb|]. now intros e (r & ->). }
  destruct (trash (conf (sel t (ctx s)))) eqn:Htrash.
  - destruct (negb (trash_only_new (conf (sel t (ctx s)))) ||
              not_propagated t tmsg s) eqn:Hc; [|apply trash_step_refl].
    apply Hcall; [|reflexivity].
    split; [reflexivity|]. exists tmsg. repeat split; auto.
    intros Hon. rewrite Hon in Hc. exact Hc.
  - destruct (not_propagated t tmsg s) eqn:Hnp; [|apply trash_step_refl].
    destruct (m_size tmsg <=? max_size (conf (sel (other t) (ctx s)))) eqn:Hsz;
      [|apply trash_step_refl].
    unfold copy_msg. cbn [cv_aux].
    assert (other (other t) = t) as -> by now destruct t.
    apply Hcall; [|reflexivity].
    split; [reflexivity|]. split; [reflexivity|].
    exists tmsg. cbn [cv_msg]. repeat split; auto. now apply Z.leb_le.
Qed.

Lemma purge_trash_total s : trash_total (purge s) = trash_total s.
Proof.
  unfold purge. destruct (has _ ST_DID_EXPUNGE); [|reflexivity].
  apply (for_srecs_rel (fun a b => trash_total b = trash_total a));
    [reflexivity | congruence |].
  intros i r a. unfold purge_srec.
  repeat match goal with
         | |- context [if ?b then _ else _] => destruct b
         end; reflexivity.
Qed.

Lemma sync_bail_trash_total s : trash_total (sync_bail s) = trash_total s.
Proof.
  unfold sync_bail, sync_bail1, sync_bail2, sync_bail3, sync_deref. cbn zeta.
  now destruct (_ =? 0).
Qed.

Lemma box_closed_p2_trash_total t s :
  trash_total (box_closed_p2 t s) = trash_total s.
Proof.
  unfold box_closed_p2. cbn zeta. destruct (negb _); [reflexivity|].
  rewrite sync_bail_trash_total. unfold commit_files. cbn zeta.
  assert (forall x, trash_total (write_new_state x) = trash_total x) as Hw
    by (intros x; now rewrite write_new_state_eq).
  destruct (negb _); sv; now rewrite Hw, purge_trash_total.
Qed.

Lemma closing_no_change t e : no_change e = true -> closing_event t e = true.
Proof. destruct e as [| | |f| |]; try reflexivity; try discriminate. Qed.

Lemma box_closed_p2_closing t s :
  extends (closing_event t) s (box_closed_p2 t s).
Proof.
  unfold box_closed_p2. cbn zeta.
  destruct (negb _); [now apply extends_same|].
  destruct (purge_journals (state_or t ST_CLOSED s)) as (jl & Htr & _).
  sv_in Htr. set (sc := purge _) in *.
  eapply extends_trans;
    [|eapply extends_weaken; [apply closing_no_change | apply sync_bail_extends]].
  pose proof (write_new_state_trace sc) as Hw.
  unfold commit_files. cbn zeta.
  assert (forall l : list (list ascii),
            forallb (closing_event t) (map EJournal l) = true /\
            forallb (closing_event t) (map ENewState l) = true) as Hl.
  { induction l as [|x l [IH1 IH2]]; split; auto. }
  destruct (negb _);
    (eexists; split;
     [ sv; rewrite Hw, Htr; repeat (rewrite <- app_assoc; cbn [app]);
       reflexivity
     | rewrite !forallb_app, (proj1 (Hl _)), (proj2 (Hl _)); reflexivity ]).
Qed.

Lemma sync_close_closing t s :
  extends (closing_event t) s (sync_close t s) /\
  trash_total (sync_close t s) = trash_total s.
Proof.
  unfold sync_close. destruct (_ || _).
  { split; [now apply extends_same | reflexivity]. }
  destruct (has _ OP_EXPUNGE).
  - split; [|reflexivity]. apply extends_emit. cbn. now destruct t.
  - split; [apply box_closed_p2_closing | apply box_closed_p2_trash_total].
Qed.

Lemma closing_not_trash t e :
  closing_event t e = true -> is_trash_req e = false /\
  forall s, trash_event t s e.
Proof.
  destruct e as [| |t' c| | |]; cbn; auto.
  destruct c; try discriminate. intros H. split; [reflexivity|].
  intros _. destruct t', t; try reflexivity; discriminate.
Qed.

(** The whole of [msgs_flags_set]: the events it adds, with the count of
    the trash requests among them. *)
Lemma msgs_flags_set_spec t s :
  let s' := fst (msgs_flags_set t s) in
  exists evs,
    trace s' = trace s ++ evs /\
    Forall (trash_event t s) evs /\
    sel t (trash_total s')
    = sel t (trash_total s) +
      Z.of_nat (length (List.filter is_trash_req evs)) /\
    sel (other t) (trash_total s') = sel (other t) (trash_total s).
Proof.
  cbn zeta. unfold msgs_flags_set.
  destruct (negb _ || _).
  { exists []. rewrite app_nil_r. cbn. repeat split; [constructor | lia]. }
  set (en := has (sel t (ops (chan s))) OP_EXPUNGE &&
             (trash (conf (sel t (ctx s))) ||
              (trash (conf (sel (other t) (ctx s))) &&
               trash_remote_new (conf (sel (other t) (ctx s)))))).
  assert (exists s1 stop,
            (if en then for_range (trash_one t) 0
                          (length (msgs (sel t (ctx s)))) s
             else (s, false)) = (s1, stop) /\
            trash_step t s s1 /\
            (en = false -> s1 = s)) as (s1 & stop & -> & Hstep & Hoff).
  { destruct en.
    - pose proof (for_range_rel (trash_step t) (trash_one t)
                    (trash_step_refl t) (trash_step_trans t)
                    (trash_one_step t)
                    (length (msgs (sel t (ctx s)))) O s) as H.
      destruct (for_range _ _ _ _) as [s1 stop]. exists s1, stop.
      split; [reflexivity|]. split; [exact H | discriminate].
    - exists s, false. split; [reflexivity|].
      split; [apply trash_step_refl | reflexivity]. }
  destruct Hstep as (Hc & Hs & Hch & Hst & Hd & Ho & evs & Htr & Hn & Hok).
  assert (Forall (trash_event t s) evs /\
          (en = false -> evs = [])) as [Hev Hnil].
  { split.
    - destruct en eqn:Hen.
      + apply andb_prop in Hen as [Hexp Hcfg].
        eapply Forall_impl; [exact Hok|].
        intros [| |t' c| | |]; cbn; try tauto.
        destruct c; try tauto.
        * intros (-> & Hv & tmsg & Hk & Hdel & Htr0 & Hnp & Hsz).
          split; [reflexivity|]. split; [exact Hv|]. exists tmsg.
          rewrite Htr0 in Hcfg. cbn [orb] in Hcfg.
          apply andb_prop in Hcfg as [H1 H2]. repeat split; auto.
        * intros (-> & tmsg & Hk & Hdel & Htr0 & Hon).
          split; [reflexivity|]. exists tmsg. repeat split; auto.
      + specialize (Hoff eq_refl). subst s1.
        apply (f_equal (@length _)) in Htr. rewrite length_app in Htr.
        destruct evs; [constructor | cbn in Htr; lia].
    - intros Hen. specialize (Hoff Hen). subst s1.
      apply (f_equal (@length _)) in Htr. rewrite length_app in Htr.
      destruct evs; [reflexivity | cbn in Htr; lia]. }
  destruct stop; cbn [fst].
  - exists evs. auto.
  - destruct (sync_close_closing t (state_or t ST_SENT_TRASH s1))
      as ((ev2 & Ht2 & Hp2) & Htt).
    sv_in Ht2. sv_in Htt.
    exists (evs ++ ev2). split; [now rewrite Ht2, Htr, app_assoc|].
    assert (Forall (fun e => is_trash_req e = false /\
                             forall s, trash_event t s e) ev2) as Hcl.
    { apply Forall_forall. intros e He. apply closing_not_trash.
      rewrite forallb_forall in Hp2. apply Hp2. now apply list_elem_of_In. }
    split; [|split].
    + apply Forall_app. split; [exact Hev|].
      eapply Forall_impl; [exact Hcl|]. now intros e [_ H].
    + rewrite Htt, Hn, List.filter_app, length_app.
      assert (List.filter is_trash_req ev2 = []) as ->.
      { clear -Hcl. induction Hcl as [|e l [He _] _ IH]; [reflexivity|].
        cbn [List.filter]. now rewrite He. }
      cbn [length]. lia.
    + now rewrite Htt.
Qed.

(** X13. [msgs_flags_set] never trashes a message that is not deleted:
    every request it makes is a local trash move or a copy into the
    remote trash of a message of its side that has F_DELETED, made only
    if the side is to be expunged and under the conditions of the
    configuration ([Trash], [TrashNewOnly], [TrashRemoteNew], [MaxSize]
    of the store that takes the copy), or the close of the mailbox. *)
Theorem trash_requests_are_for_deleted t s e :
  In e (events_since s (fst (msgs_flags_set t s))) -> trash_event t s e.
Proof.
  destruct (msgs_flags_set_spec t s) as (evs & Htr & Hev & _).
  rewrite (events_since_app _ _ _ Htr). intros He.
  rewrite Forall_forall in Hev. apply Hev. now apply list_elem_of_In.
Qed.

(** X14. [msgs_flags_set] counts what it asks for: [trash_total[t]] grows
    by the number of trash requests that were made, also when the pass is
    cut short by a cancellation, and the counter of the other side
    stays. *)
Theorem trash_total_counts_requests t s :
  let s' := fst (msgs_flags_set t s) in
  sel t (trash_total s')
  = sel t (trash_total s) +
    Z.of_nat (length (List.filter is_trash_req (events_since s s'))) /\
  sel (other t) (trash_total s') = sel (other t) (trash_total s).
Proof.
  destruct (msgs_flags_set_spec t s) as (evs & Htr & _ & Hn & Ho).
  cbn zeta. now rewrite (events_since_app _ _ _ Htr).
Qed.

Lemma trash_requests_are_for_deleted_witness :
  let s := state_or Side.M ST_SENT_FLAGS rtrash_state in
  In (EDrv Side.M (fetch_msg rtrash_vars))
    (events_since s (fst (msgs_flags_set Side.M s))) /\
  trash_event Side.M s (EDrv Side.M (fetch_msg rtrash_vars)).
Proof.
  intros s.
  assert (In (EDrv Side.M (fetch_msg rtrash_vars))
            (events_since s (fst (msgs_flags_set Side.M s)))) as Hin
    by (vm_compute; left; reflexivity).
  split; [exact Hin|].
  exact (trash_requests_are_for_deleted Side.M s _ Hin).
Defined.

(* ------------------------------------------------------------------ *)
(** ** Expiration *)

Lemma land_pow2 x k :
  0 <= k -> Z.land x (2 ^ k) = if Z.testbit x k then 2 ^ k else 0.
Proof.
  intros Hk. apply Z.bits_inj'. intros n Hn.
  rewrite Z.land_spec, Z.pow2_bits_eqb by lia.
  destruct (Z.eqb_spec k n) as [->|Hne].
  - destruct (Z.testbit x n) eqn:E; cbn [andb].
    + rewrite Z.pow2_bits_eqb by lia. symmetry. apply Z.eqb_refl.
    + now rewrite Z.bits_0.
  - destruct (Z.testbit x n); cbn [andb];
      destruct (Z.testbit x k); rewrite ?Z.bits_0; try reflexivity;
      rewrite Z.pow2_bits_eqb by lia; symmetry; now apply Z.eqb_neq.
Qed.

Lemma has_pow2 x k : 0 <= k -> has x (2 ^ k) = Z.testbit x k.
Proof.
  intros Hk. unfold has. rewrite land_pow2 by lia.
  destruct (Z.testbit x k); [|reflexivity].
  apply negb_true_iff, Z.eqb_neq. apply Z.pow_nonzero; lia.
Qed.

Lemma has_lor_other x a b : Z.land a b = 0 -> has (Z.lor x a) b = has x b.
Proof.
  intros H. unfold has. now rewrite Z.land_lor_distr_l, H, Z.lor_0_r.
Qed.

Lemma marked_refl s : marked s s.
Proof. split; [reflexivity|]. intros i r Hi. exists r. auto 10. Qed.

Lemma expire_mark_marked s0 k s todel :
  marked s0 s -> marked s0 (fst (expire_mark k (s, todel))).
Proof.
  intros [Hctx Hrec]. unfold expire_mark.
  destruct (msgs (sel Side.S (ctx s)) !! k) as [tmsg|] eqn:Hk;
    [|now split].
  destruct (has (m_status tmsg) M_DEAD) eqn:Hdead; [now split|].
  unfold srec_of.
  destruct (m_srec tmsg) as [i|] eqn:Hsr; [|now split].
  destruct (srecs s !! i) as [srec|] eqn:Hi; [|now split].
  destruct (sel Side.M (uid srec) <=? 0) eqn:Hu; [now split|].
  cbn zeta.
  destruct (negb (has (nflags_S tmsg srec) F_DELETED) ||
            has (status srec) (Z.lor S_EXPIRE S_EXPIRED)) eqn:Hd;
    [|now split].
  destruct (has (nflags_S tmsg srec) F_FLAGGED) eqn:Hf; [now split|].
  destruct ((negb (has (m_status tmsg) M_RECENT) ||
             has (m_flags tmsg) F_SEEN) && _) eqn:Hc; [|now split].
  cbn [fst]. split; [exact Hctx|].
  intros j r Hj. destruct (Hrec j r Hj) as (r' & Hj' & Hu' & Ha & Hdf & Hst).
  destruct (Nat.eq_dec j i) as [->|Hne].
  - assert (r' = srec) by congruence. subst r'.
    eexists. split; [apply upd_srec_lookup; exact Hi|].
    cbn [uid aflags dflags status set_status]. repeat split; auto.
    right.
    assert (nflags_S tmsg srec = nflags_S tmsg r) as Hn
      by (unfold nflags_S; now rewrite Ha, Hdf).
    assert (has (status srec) (Z.lor S_EXPIRE S_EXPIRED)
            = has (status r) (Z.lor S_EXPIRE S_EXPIRED)) as Hx.
    { destruct Hst as [->|[-> _]]; [reflexivity|].
      now apply has_lor_other. }
    split.
    + destruct Hst as [->|[-> _]]; [reflexivity|].
      now rewrite <- Z.lor_assoc, Z.lor_diag.
    + exists k, tmsg. rewrite <- Hctx, <- Hu', <- Hn, <- Hx.
      apply Z.leb_gt in Hu. apply andb_prop in Hc as [Hc _].
      repeat split; auto.
      * apply orb_prop in Hc as [Hc|Hc]; [left | now right].
        now apply negb_true_iff.
      * apply orb_prop in Hd as [Hd|Hd]; [left | now right].
        now apply negb_true_iff.
  - exists r'. split; [|auto].
    rewrite upd_srec_lookup_ne by congruence. exact Hj'.
Qed.

Lemma expire_marks_marked s0 : forall n k st,
  marked s0 (fst st) -> marked s0 (fst (expire_marks n k st)).
Proof.
  induction n as [|n IH]; intros k [s todel] H; [exact H|].
  cbn [expire_marks]. apply IH. now apply expire_mark_marked.
Qed.

Lemma nex_bit st : Z.land (st / S_NEXPIRE) 1 = 0 \/ Z.land (st / S_NEXPIRE) 1 = 1.
Proof.
  pose proof (Z.land_ones (st / S_NEXPIRE) 1 ltac:(lia)) as H.
  change (Z.ones 1) with 1 in H. change (2 ^ 1) with 2 in H. rewrite H.
  pose proof (Z.mod_pos_bound (st / S_NEXPIRE) 2 eq_refl). lia.
Qed.

Lemma expire_bit_keeps st nex :
  nex = 0 \/ nex = 1 ->
  has (Z.lor (clear st S_EXPIRE) (nex * S_EXPIRE)) S_NEXPIRE
  = has st S_NEXPIRE.
Proof.
  intros Hn. unfold clear.
  change S_NEXPIRE with (2 ^ 6). rewrite !has_pow2 by lia.
  rewrite Z.lor_spec, Z.land_spec, Z.lnot_spec by lia.
  change (Z.testbit S_EXPIRE 6) with false.
  destruct Hn as [-> | ->];
    [change (Z.testbit (0 * S_EXPIRE) 6) with false
    |change (Z.testbit (1 * S_EXPIRE) 6) with false];
    cbn [negb]; destruct (Z.testbit st 6); reflexivity.
Qed.

Lemma expire_pre_keeps i srec s j r :
  srecs s !! j = Some r ->
  exists r',
    srecs (expire_pre i srec s) !! j = Some r' /\
    has (status r') S_NEXPIRE = has (status r) S_NEXPIRE.
Proof.
  intros Hj. unfold expire_pre.
  destruct (_ || _); [eauto|].
  pose proof (nex_bit (status srec)) as Hn.
  destruct (_ && _); [|eauto].
  destruct (Nat.eq_dec j i) as [->|Hne].
  - eexists. split; [apply upd_srec_lookup; sv; exact Hj|].
    cbn [status set_status]. now apply expire_bit_keeps.
  - exists r. split; [|reflexivity].
    rewrite upd_srec_lookup_ne by congruence. sv. exact Hj.
Qed.

Lemma expire_pre_loop rs : forall i s j r,
  srecs s !! j = Some r ->
  exists r',
    srecs (for_srecs expire_pre i rs s) !! j = Some r' /\
    has (status r') S_NEXPIRE = has (status r) S_NEXPIRE.
Proof.
  induction rs as [|srec rs IH]; intros i s j r Hj; cbn [for_srecs]; [eauto|].
  destruct (expire_pre_keeps i srec s j r Hj) as (r1 & H1 & E1).
  destruct (IH (Datatypes.S i) _ j r1 H1) as (r2 & H2 & E2).
  exists r2. split; [exact H2 | congruence].
Qed.

(** X15. The expiration pass spares what must stay: a record gets
    [S_NEXPIRE] only for a live message of the slave that belongs to it
    and that is propagated to the master ([uid[M] > 0]), is not flagged,
    and is not both recent and unseen; and a message that is about to be
    deleted is chosen only if its record is in expiration already. *)
Theorem expire_spares i r r' s :
  srecs s !! i = Some r ->
  srecs (expire s) !! i = Some r' ->
  has (status r) S_NEXPIRE = false ->
  has (status r') S_NEXPIRE = true ->
  may_expire s i r.
Proof.
  intros Hi Hi' Hbefore Hafter. unfold expire in Hi'.
  destruct (_ && _); [|congruence]. cbn zeta in Hi'.
  match type of Hi' with
  | context [expire_marks ?n ?k ?st] =>
      pose proof (expire_marks_marked s n k st (marked_refl s)) as [_ Hm];
      destruct (expire_marks n k st) as [s1 td]
  end.
  cbn [fst] in Hm.
  destruct (Hm i r Hi) as (r1 & H1 & _ & _ & _ & Hst).
  destruct (expire_pre_loop (srecs s1) O s1 i r1 H1) as (r2 & H2 & E2).
  rewrite H2 in Hi'. injection Hi' as <-.
  destruct Hst as [Hst|[_ Hok]]; [|exact Hok].
  rewrite Hst in E2. congruence.
Qed.

Lemma expire_spares_witness :
  let r := mk_srec (5, 7) (Some O, Some O) 0 F_SEEN (0, 0) (0, 0) [] in
  srecs excess_state !! O = Some r /\
  srecs (expire excess_state) !! O
  = Some (set_status (Z.lor S_EXPIRE S_NEXPIRE) r) /\
  srecs (expire excess_state) !! 1%nat = srecs excess_state !! 1%nat /\
  may_expire excess_state O r.
Proof.
  intros r.
  split; [reflexivity|]. split; [reflexivity|]. split; [reflexivity|].
  apply (expire_spares O r (set_status (Z.lor S_EXPIRE S_NEXPIRE) r)
           excess_state); reflexivity.
Defined.

(* ------------------------------------------------------------------ *)
(** ** Flag requests *)

Lemma flag_req_ok_ext a b e :
  ctx b = ctx a -> flag_req_ok a e -> flag_req_ok b e.
Proof.
  intros Hc. destruct e as [| |t c| | |]; try exact id.
  destruct c; try exact id. cbn [flag_req_ok]. now rewrite Hc.
Qed.

Lemma flag_pass_refl s : flag_pass s s.
Proof.
  split; [reflexivity|]. exists []. split; [now rewrite app_nil_r|constructor].
Qed.

Lemma flag_pass_trans a b c : flag_pass a b -> flag_pass b c -> flag_pass a c.
Proof.
  intros (Hc1 & e1 & Ht1 & Hf1) (Hc2 & e2 & Ht2 & Hf2).
  split; [congruence|]. exists (e1 ++ e2).
  split; [now rewrite Ht2, Ht1, app_assoc|].
  apply Forall_app. split; [exact Hf1|].
  eapply Forall_impl; [exact Hf2|]. intros e. now apply flag_req_ok_ext.
Qed.

Lemma flag_pass_journal a evs b :
  ctx b = ctx a -> trace b = trace a ++ evs ->
  Forall (fun e => exists l, e = EJournal l) evs ->
  flag_pass a b.
Proof.
  intros Hc Ht Hj. split; [exact Hc|]. exists evs. split; [exact Ht|].
  eapply Forall_impl; [exact Hj|]. now intros e [l ->].
Qed.

Lemma flags_set_sync_p2_pass i t s : flag_pass s (flags_set_sync_p2 i t s).
Proof.
  unfold flags_set_sync_p2.
  destruct (srecs s !! i) as [srec|]; [|apply flag_pass_refl].
  cbn zeta.
  match goal with
  | |- context [if negb (flags srec =? ?n) then ?x else _] =>
      assert (flag_pass s (if negb (flags srec =? n) then x else s)) as H1;
      [|generalize dependent (if negb (flags srec =? n) then x else s)]
  end.
  { destruct (negb _); [|apply flag_pass_refl].
    eapply flag_pass_journal with (evs := [_]); sv; try reflexivity.
    repeat constructor. eauto. }
  intros s1 H1. destruct t; [exact H1|].
  eapply flag_pass_trans; [exact H1|].
  destruct (negb (_ =? _)).
  - destruct (_ && _);
      eapply flag_pass_journal with (evs := [_]); sv; try reflexivity;
      repeat constructor; eauto.
  - destruct (negb (_ =? _)); [|apply flag_pass_refl].
    eapply flag_pass_journal with (evs := [_]); sv; try reflexivity.
    repeat constructor. eauto.
Qed.

Lemma land_lnot_diag a f : Z.land (Z.land a (Z.lnot f)) f = 0.
Proof.
  rewrite <- Z.land_assoc, (Z.land_comm (Z.lnot f)), Z.land_lnot_diag.
  apply Z.land_0_r.
Qed.

Lemma land_land_same d f : Z.land (Z.land d f) f = Z.land d f.
Proof. now rewrite <- Z.land_assoc, Z.land_diag. Qed.

Lemma sync_flags_side_pass i t s : flag_pass s (fst (sync_flags_side i t s)).
Proof.
  unfold sync_flags_side.
  destruct (srecs s !! i) as [srec|] eqn:Hi; [|apply flag_pass_refl].
  cbn zeta.
  destruct (if side_eqb t Side.S && _ then _ else _) as [a1 d1].
  set (expunge := _ && _ && _).
  set (s1 := if expunge then _ else s).
  assert (ctx s1 = ctx s /\ trace s1 = trace s) as [Hc1 Ht1]
    by (subst s1; destruct expunge; sv; auto).
  destruct (if expunge then (Z.land a1 F_DELETED, 0) else (a1, d1))
    as [a2 d2].
  assert (exists a3 d3,
            (match msg_of t srec s with
             | Some m =>
                 if has (m_status m) M_FLAGS
                 then (Z.land a2 (Z.lnot (m_flags m)), Z.land d2 (m_flags m))
                 else (a2, d2)
             | None => (a2, d2)
             end) = (a3, d3) /\
            forall j m, sel t (msg srec) = Some j ->
              msgs (sel t (ctx s)) !! j = Some m ->
              has (m_status m) M_FLAGS = true ->
              Z.land a3 (m_flags m) = 0 /\ Z.land d3 (m_flags m) = d3)
    as (a3 & d3 & -> & H3).
  { unfold msg_of. destruct (sel t (msg srec)) as [j|]; cbn.
    - destruct (msgs (sel t (ctx s)) !! j) as [m|] eqn:Hm.
      + destruct (has (m_status m) M_FLAGS) eqn:Hfl.
        * do 2 eexists. split; [reflexivity|].
          intros j' m' Hj Hm' _.
          assert (j' = j) by congruence. subst j'.
          assert (m' = m) by congruence. subst m'.
          split; [apply land_lnot_diag | apply land_land_same].
        * do 2 eexists. split; [reflexivity|].
          intros j' m' Hj Hm' Hfl'.
          assert (j' = j) by congruence. subst j'.
          assert (m' = m) by congruence. subst m'. congruence.
      + do 2 eexists. split; [reflexivity|].
        intros j' m' Hj Hm'. assert (j' = j) by congruence. subst j'.
        congruence.
    - do 2 eexists. split; [reflexivity|]. congruence. }
  destruct (negb (Z.lor a3 d3 =? 0)) eqn:Hne.
  - pose proof (DRIVER_CALL_frame t
                  (set_flags (sel t (msg srec)) (sel t (uid srec)) a3 d3
                     (Cb_flags_set_sync i a3 d3))
                  (set_flags_total (incr t (flags_total s1)) s1)) as Hf.
    pose proof (DRIVER_CALL_rest t
                  (set_flags (sel t (msg srec)) (sel t (uid srec)) a3 d3
                     (Cb_flags_set_sync i a3 d3))
                  (set_flags_total (incr t (flags_total s1)) s1)) as Hr.
    cbn zeta in Hf, Hr.
    destruct Hf as (_ & Hctx & _).
    destruct Hr as (_ & _ & _ & _ & _ & cb & Htr & Hcb).
    sv_in Hctx. sv_in Htr.
    split; [congruence|].
    eexists. split; [rewrite Htr, Ht1; reflexivity|].
    constructor.
    + cbn [flag_req_ok]. split.
      * apply negb_true_iff, Z.eqb_neq in Hne. exact Hne.
      * exact H3.
    + eapply Forall_impl; [exact Hcb|]. now intros e [r ->].
  - cbn [fst]. eapply flag_pass_trans; [|apply flags_set_sync_p2_pass].
    split; [exact Hc1|]. exists []. rewrite app_nil_r.
    split; [exact Ht1 | constructor].
Qed.

Lemma sync_flags_entry_pass i s : flag_pass s (fst (sync_flags_entry i s)).
Proof.
  unfold sync_flags_entry.
  destruct (srecs s !! i) as [srec|]; [|apply flag_pass_refl].
  destruct (has _ _); [apply flag_pass_refl|].
  pose proof (sync_flags_side_pass i Side.M s) as HM.
  destruct (sync_flags_side i Side.M s) as [s1 stop]. cbn [fst] in HM.
  destruct stop; [exact HM|].
  eapply flag_pass_trans; [exact HM | apply sync_flags_side_pass].
Qed.

(** X16. The flag pass of [box_loaded] sends no needless request: every
    [set_flags] it issues names at least one flag, and when the flags of
    the message are known it adds only flags that the message lacks and
    removes only flags that it has. *)
Theorem flag_requests_change_something n s e :
  In e (events_since s (fst (sync_flags n s))) -> flag_req_ok s e.
Proof.
  intros Hin.
  assert (flag_pass s (fst (sync_flags n s))) as (_ & evs & Htr & Hall).
  { unfold sync_flags.
    apply (for_range_rel flag_pass sync_flags_entry flag_pass_refl
             flag_pass_trans sync_flags_entry_pass). }
  rewrite (events_since_app _ _ _ Htr) in Hin.
  rewrite List.Forall_forall in Hall. now apply Hall.
Qed.

Lemma flag_requests_change_something_witness :
  let s := expire excess_state in
  let e := EDrv Side.S (set_flags (Some O) 7 F_DELETED 0
                          (Cb_flags_set_sync O F_DELETED 0)) in
  In e (events_since s (fst (sync_flags 2 s))) /\ flag_req_ok s e.
Proof.
  intros s e.
  assert (In e (events_since s (fst (sync_flags 2 s)))) as Hin
    by (vm_compute; auto).
  split; [exact Hin|].
  exact (flag_requests_change_something 2 s e Hin).
Defined.

(* ------------------------------------------------------------------ *)
(** ** Master selection *)

Lemma sel_min_loop : forall rs k s m,
  let st := for_srecs_acc sel_min_srec k rs (s, m) in
  ctx (fst st) = ctx s /\ maxuid (fst st) = maxuid s /\
  newuid (fst st) = newuid s /\ trace (fst st) = trace s.
Proof.
  induction rs as [|srec rs IH]; intros k s m; cbn [for_srecs_acc];
    [cbn; auto|].
  assert (let st1 := sel_min_srec k srec (s, m) in
          ctx (fst st1) = ctx s /\ maxuid (fst st1) = maxuid s /\
          newuid (fst st1) = newuid s /\ trace (fst st1) = trace s) as H1.
  { unfold sel_min_srec. cbn zeta.
    destruct (has (status srec) S_DEAD); [cbn; auto|].
    destruct (has (status srec) S_EXPIRED).
    - destruct (_ || _); cbn [fst]; sv; auto.
    - destruct (_ <=? _); cbn [fst]; auto. }
  cbn zeta in H1. destruct (sel_min_srec k srec (s, m)) as [s1 m1].
  cbn [fst] in H1. destruct H1 as (H1 & H2 & H3 & H4).
  specialize (IH (Datatypes.S k) s1 m1). cbn zeta in IH.
  destruct IH as (I1 & I2 & I3 & I4). repeat split; congruence.
Qed.

(** What one step of the second loop does to the record it is at. *)
Lemma sel_excs_srec_spec mw k srec s ex :
  srecs s !! k = Some srec ->
  let st := sel_excs_srec mw k srec (s, ex) in
  ctx (fst st) = ctx s /\ maxuid (fst st) = maxuid s /\
  newuid (fst st) = newuid s /\
  (exists evs, trace (fst st) = trace s ++ evs) /\
  (exists more, snd st = ex ++ more) /\
  (srecs (fst st) = srecs s \/
   exists f, srecs (fst st) = alter f k (srecs s)) /\
  exists r',
    srecs (fst st) !! k = Some r' /\
    (live r' = true ->
     0 < sel Side.M (uid r') -> 0 < sel Side.S (uid r') ->
     has (opts (sel Side.M (ctx s))) OPEN_OLD = true ->
     mw <= sel Side.M (uid r') \/ In (sel Side.M (uid r')) (snd st) \/
     (has (opts (sel Side.M (ctx s))) OPEN_NEW = true /\
      sel Side.M (maxuid s) < sel Side.M (uid r'))).
Proof.
  intros Hk. unfold sel_excs_srec. cbn zeta.
  assert (forall ex', exists more : list Z, ex' ++ [] = ex' ++ more) as Hnil
    by (intros ex'; now exists []).
  assert (exists more : list Z, ex = ex ++ more) as Hsame
    by (exists []; now rewrite app_nil_r).
  assert (exists evs : list event, trace s = trace s ++ evs) as Htr
    by (exists []; now rewrite app_nil_r).
  assert (forall l, exists evs : list event,
            trace s ++ [EJournal l] = trace s ++ evs) as Htr1
    by (intros l; now exists [EJournal l]).
  assert (forall (f : sync_rec -> sync_rec),
            alter f k (srecs s) !! k = Some (f srec)) as Halt
    by (intros f; now rewrite list_lookup_alter_eq, Hk).
  destruct (has (status srec) S_DEAD) eqn:Hdead.
  { cbn [fst snd]. repeat split; auto. exists srec. split; [exact Hk|].
    unfold live. rewrite Hdead. discriminate. }
  destruct (has (status srec) S_EXP_S) eqn:Hexp.
  { destruct (_ && _).
    - cbn [fst snd]. sv. repeat split; auto; [right; eauto|].
      eexists. split; [apply Halt|]. cbn. discriminate.
    - destruct (negb (sel Side.S (uid srec) =? 0)) eqn:Hs.
      + cbn [fst snd]. sv. repeat split; auto; [right; eauto|].
        eexists. split; [apply Halt|]. cbn. lia.
      + cbn [fst snd]. repeat split; auto. exists srec. split; [exact Hk|].
        apply negb_false_iff, Z.eqb_eq in Hs. lia. }
  destruct (sel Side.M (uid srec) <? mw) eqn:Hlow.
  2:{ cbn [fst snd]. repeat split; auto. exists srec. split; [exact Hk|].
      apply Z.ltb_ge in Hlow. auto. }
  destruct (sel Side.S (uid srec) <? 0) eqn:Hneg.
  { apply Z.ltb_lt in Hneg. destruct (_ <=? _).
    - cbn [fst snd]. sv. repeat split; auto; [right; eauto|].
      eexists. split; [apply Halt|]. cbn. discriminate.
    - cbn [fst snd]. repeat split; auto. exists srec. split; [exact Hk|].
      lia. }
  destruct (_ && _ && _ && _) eqn:Hc.
  - cbn [fst snd]. repeat split; eauto. exists srec. split; [exact Hk|].
    intros _ _ _ _. right. left. apply in_or_app. right. now left.
  - cbn [fst snd]. repeat split; auto. exists srec. split; [exact Hk|].
    intros _ HM HS Hold. right. right.
    assert ((0 <? sel Side.M (uid srec)) = true) as E1
      by now apply Z.ltb_lt.
    assert (negb (sel Side.S (uid srec) =? 0) = true) as E2
      by (apply negb_true_iff, Z.eqb_neq; lia).
    rewrite E1, E2, Hold in Hc. cbn [andb] in Hc.
    apply orb_false_iff in Hc as [Hn Hm].
    apply negb_false_iff in Hn. apply Z.leb_gt in Hm. auto.
Qed.

Lemma sel_excs_loop mw : forall rs k s ex,
  drop k (srecs s) = rs ->
  let st := for_srecs_acc (sel_excs_srec mw) k rs (s, ex) in
  ctx (fst st) = ctx s /\ maxuid (fst st) = maxuid s /\
  newuid (fst st) = newuid s /\
  (exists evs, trace (fst st) = trace s ++ evs) /\
  (exists more, snd st = ex ++ more) /\
  (forall j, (j < k)%nat -> srecs (fst st) !! j = srecs s !! j) /\
  forall j r,
    (k <= j)%nat -> srecs (fst st) !! j = Some r ->
    live r = true ->
    0 < sel Side.M (uid r) -> 0 < sel Side.S (uid r) ->
    has (opts (sel Side.M (ctx s))) OPEN_OLD = true ->
    mw <= sel Side.M (uid r) \/ In (sel Side.M (uid r)) (snd st) \/
    (has (opts (sel Side.M (ctx s))) OPEN_NEW = true /\
     sel Side.M (maxuid s) < sel Side.M (uid r)).
Proof.
  induction rs as [|srec rs IH]; intros k s ex Hdrop; cbn [for_srecs_acc].
  - cbn [fst snd]. repeat split; auto.
    + exists []. now rewrite app_nil_r.
    + exists []. now rewrite app_nil_r.
    + intros j r Hj Hr.
      assert (drop k (srecs s) !! (j - k)%nat = Some r) as H
        by (rewrite lookup_drop; replace (k + (j - k))%nat with j by lia;
            exact Hr).
      rewrite Hdrop in H. discriminate.
  - assert (srecs s !! k = Some srec) as Hk.
    { pose proof (lookup_drop (srecs s) k 0) as H.
      rewrite Hdrop, Nat.add_0_r in H. now symmetry. }
    pose proof (sel_excs_srec_spec mw k srec s ex Hk) as Hb.
    cbn zeta in Hb.
    destruct (sel_excs_srec mw k srec (s, ex)) as [s1 ex1].
    cbn [fst snd] in Hb.
    destruct Hb as (B1 & B2 & B3 & (ev1 & B4) & (m1 & B5) & B6 & r1 & B7 & B8).
    assert (drop (Datatypes.S k) (srecs s1) = rs) as Hdrop1.
    { assert (drop (Datatypes.S k) (srecs s) = rs) as H0.
      { pose proof (drop_S _ _ _ Hk) as H. rewrite Hdrop in H.
        now injection H. }
      destruct B6 as [->|[f ->]]; [exact H0|].
      rewrite drop_alter_lt by lia. exact H0. }
    assert (forall j, j <> k -> srecs s1 !! j = srecs s !! j) as Hother.
    { intros j Hj. destruct B6 as [->|[f ->]]; [reflexivity|].
      apply list_lookup_alter_ne. congruence. }
    specialize (IH (Datatypes.S k) s1 ex1 Hdrop1). cbn zeta in IH.
    destruct (for_srecs_acc (sel_excs_srec mw) (Datatypes.S k) rs (s1, ex1))
      as [s2 ex2].
    cbn [fst snd] in IH |- *.
    destruct IH as (I1 & I2 & I3 & (ev2 & I4) & (m2 & I5) & I6 & I7).
    split; [congruence|]. split; [congruence|]. split; [congruence|].
    split; [exists (ev1 ++ ev2); now rewrite I4, B4, app_assoc|].
    split; [exists (m1 ++ m2); now rewrite I5, B5, app_assoc|].
    split.
    + intros j Hj. rewrite I6 by lia. apply Hother. lia.
    + intros j r Hj Hr Hl HM HS Hold.
      destruct (Nat.eq_dec j k) as [->|Hne].
      * rewrite I6 in Hr by lia. rewrite B7 in Hr. injection Hr as <-.
        destruct (B8 Hl HM HS Hold) as [H|[H|H]]; auto.
        right. left. rewrite I5. apply in_or_app. now left.
      * rewrite B1, B2 in I7. apply (I7 j r); auto. lia.
Qed.

(** X17. When the old messages of the master are opened, the master
    selection loses no pair: every live record that still has a UID on
    both sides when the selection is done has its master UID within the
    range or among the exceptions of the [load] request that is sent. *)
Theorem master_selection_covers s i r :
  has (opts (sel Side.M (ctx s))) OPEN_OLD = true ->
  srecs (fst (select_master s)) !! i = Some r ->
  live r = true ->
  0 < sel Side.M (uid r) <= INT_MAX ->
  0 < sel Side.S (uid r) ->
  exists lo hi nu excs,
    In (EDrv Side.M (load lo hi nu excs))
       (events_since s (fst (select_master s))) /\
    covered lo hi excs (sel Side.M (uid r)).
Proof.
  intros Hold Hi Hl HM HS. unfold select_master in *.
  pose proof (sel_min_loop (srecs s) 0 s INT_MAX) as H1. cbn zeta in H1.
  destruct (for_srecs_acc sel_min_srec 0 (srecs s) (s, INT_MAX)) as [s1 mw].
  cbn [fst] in H1. destruct H1 as (A1 & A2 & A3 & A4).
  pose proof (sel_excs_loop mw (srecs s1) 0 s1 [] (drop_0 _)) as H2.
  cbn zeta in H2.
  destruct (for_srecs_acc (sel_excs_srec mw) 0 (srecs s1) (s1, []))
    as [s2 ex].
  cbn [fst snd] in H2.
  destruct H2 as (B1 & B2 & B3 & (ev & B4) & _ & _ & B7).
  unfold load_box in *. cbn zeta in *.
  match goal with
  | |- context [DRIVER_CALL Side.M (load ?lo ?hi ?nu ?e) s2] =>
      destruct (DRIVER_CALL_trace Side.M (load lo hi nu e) s2) as (cb & Htr);
      destruct (DRIVER_CALL_frame Side.M (load lo hi nu e) s2) as (Hs & _);
      exists lo, hi, nu, e
  end.
  split.
  { unfold events_since. rewrite Htr, B4, A4, <- app_assoc.
    rewrite drop_app_length. apply in_or_app. right. now left. }
  rewrite Hs in Hi.
  rewrite B1, A1 in *. rewrite B2, A2 in *.
  specialize (B7 i r (Nat.le_0_l i) Hi Hl (proj1 HM) HS Hold).
  unfold covered.
  destruct (has (opts (sel Side.M (ctx s))) OPEN_NEW) eqn:Hnew; cbn [fst snd].
  - assert (sel Side.M (maxuid s) < sel Side.M (uid r) ->
            int_succ (sel Side.M (maxuid s)) <= sel Side.M (uid r)) as Hnext.
    { unfold int_succ. destruct (Z.eqb_spec (sel Side.M (maxuid s)) INT_MAX);
        lia. }
    destruct B7 as [H|[H|[_ H]]]; [|now right|];
      left; destruct (_ <? mw) eqn:E;
      [apply Z.ltb_lt in E | apply Z.ltb_ge in E | |]; lia.
  - rewrite Hold. cbn [fst snd].
    destruct B7 as [H|[H|[H _]]]; [|now right|discriminate].
    left. split; [exact H|].
    destruct (maxwuid_bound Side.M (srecs s2) 0) as (_ & Hall & _).
    cbn zeta in Hall. apply Hall; [|exact Hl].
    eapply lookup_In. exact Hi.
Qed.

Lemma master_selection_covers_witness :
  let r := mk_srec (5, 7) (None, Some O) 0 F_SEEN (0, 0) (0, 0) [] in
  srecs (fst (select_master selection_state)) !! O = Some r /\
  events_since selection_state (fst (select_master selection_state))
  = [EDrv Side.M (load 6 9 0 [5])] /\
  exists lo hi nu excs,
    In (EDrv Side.M (load lo hi nu excs))
       (events_since selection_state (fst (select_master selection_state))) /\
    covered lo hi excs 5.
Proof.
  intros r. split; [reflexivity|]. split; [reflexivity|].
  apply (master_selection_covers selection_state O r);
    [reflexivity | reflexivity | reflexivity
    | subst r; cbn; unfold INT_MAX; lia | subst r; cbn; lia].
Defined.

(* ------------------------------------------------------------------ *)
(** ** Pairing messages with sync records *)

Lemma free_slot_free m : forall fuel idx q,
  free_slot fuel m idx = Some q -> exists o, m !! q = Some (0, o).
Proof.
  induction fuel as [|fuel IH]; intros idx q; cbn [free_slot]; [discriminate|].
  destruct (m !! idx) as [[u o]|] eqn:E; [|discriminate].
  destruct (Z.eqb_spec u 0) as [->|_].
  - intros [= <-]. eauto.
  - apply IH.
Qed.

Lemma srecmap_add_ok t rs m u i r m' :
  table_ok t rs m ->
  rs !! i = Some r -> live r = true -> sel t (uid r) = u ->
  srecmap_add m u i = Some m' -> table_ok t rs m'.
Proof.
  intros Hok Hi Hl Hu. unfold srecmap_add.
  destruct (free_slot _ _ _) as [q|] eqn:Hq; [|discriminate].
  intros [= <-]. destruct (free_slot_free _ _ _ _ Hq) as (o0 & Hq0).
  intros idx u' o Hidx Hne. unfold srecmap in *.
  destruct (Nat.eq_dec q idx) as [->|Hd].
  - rewrite list_lookup_insert_eq in Hidx
      by (eapply lookup_lt_Some; exact Hq0).
    injection Hidx as <- <-. eauto 10.
  - rewrite list_lookup_insert_ne in Hidx by exact Hd. eapply Hok; eauto.
Qed.

Lemma srecmap_fill_ok t rs0 : forall rs i m m',
  drop i rs0 = rs -> table_ok t rs0 m ->
  srecmap_fill t rs i m = Some m' -> table_ok t rs0 m'.
Proof.
  induction rs as [|srec rs IH]; intros i m m' Hdrop Hok; cbn [srecmap_fill].
  - now intros [= <-].
  - assert (rs0 !! i = Some srec) as Hi.
    { pose proof (lookup_drop rs0 i 0) as H.
      rewrite Hdrop, Nat.add_0_r in H. now symmetry. }
    assert (drop (Datatypes.S i) rs0 = rs) as Hdrop'.
    { pose proof (drop_S _ _ _ Hi) as H. rewrite Hdrop in H.
      now injection H. }
    destruct (has (status srec) S_DEAD) eqn:Hdead; [now apply IH|].
    destruct (srecmap_add m (sel t (uid srec)) i) as [m1|] eqn:Ha;
      [|discriminate].
    apply IH; [exact Hdrop'|].
    eapply srecmap_add_ok; eauto. unfold live. now rewrite Hdead.
Qed.

Lemma table_ok_empty t rs n : table_ok t rs (repeat (0, None) n).
Proof.
  intros idx u o H Hne. apply lookup_In, repeat_spec in H.
  injection H as -> _. congruence.
Qed.

Lemma srecmap_find_ok t rs m u : forall fuel idx i,
  table_ok t rs m ->
  srecmap_find fuel m u idx = Some (Some i) ->
  exists r, rs !! i = Some r /\ live r = true /\ sel t (uid r) = u /\ u <> 0.
Proof.
  induction fuel as [|fuel IH]; intros idx i Hok; cbn [srecmap_find];
    [discriminate|].
  destruct (m !! idx) as [[u' o]|] eqn:E; [|discriminate].
  destruct (Z.eqb_spec u' 0) as [->|Hne]; [discriminate|].
  destruct (Z.eqb_spec u' u) as [->|_]; [|now apply IH].
  intros [= ->]. destruct (Hok idx u (Some i) E Hne) as (i' & r & Ho & H).
  injection Ho as <-. exists r. tauto.
Qed.

Lemma pairing_refl t s : pairing t s s.
Proof. split; [eauto|]. intros j m Hj. exists m. auto. Qed.

(** One message paired. *)
Lemma pairing_step t s0 s k tmsg i r0 :
  pairing t s0 s ->
  msgs (sel t (ctx s)) !! k = Some tmsg -> m_srec tmsg = None ->
  srecs s0 !! i = Some r0 -> live r0 = true ->
  sel t (uid r0) = m_uid tmsg -> m_uid tmsg <> 0 ->
  pairing t s0
    (upd_srec i (fun r => set_msg (upd t (Some k) (msg r)) r)
       (upd_msg t k (set_m_srec (Some i)) s)).
Proof.
  intros [Q1 Q2] Hk Hnone Hi Hl Hu Hne.
  destruct (Q1 i r0 Hi) as (ri & Hri & Huid & Hst).
  assert (msgs (sel t (ctx (upd_srec i
             (fun r => set_msg (upd t (Some k) (msg r)) r)
             (upd_msg t k (set_m_srec (Some i)) s))))
          = alter (set_m_srec (Some i)) k (msgs (sel t (ctx s)))) as Hmsgs
    by (sv; now rewrite sel_upd).
  assert (srecs (upd_srec i
             (fun r => set_msg (upd t (Some k) (msg r)) r)
             (upd_msg t k (set_m_srec (Some i)) s))
          = alter (fun r => set_msg (upd t (Some k) (msg r)) r) i (srecs s))
    as Hsrecs by (sv; reflexivity).
  assert (linked t
            (upd_srec i (fun r => set_msg (upd t (Some k) (msg r)) r)
               (upd_msg t k (set_m_srec (Some i)) s)) i) as Hnew.
  { exists (set_msg (upd t (Some k) (msg ri)) ri), k,
      (set_m_srec (Some i) tmsg).
    rewrite Hmsgs, Hsrecs, !list_lookup_alter_eq, Hri, Hk.
    cbn [fmap option_fmap option_map msg set_msg uid m_srec m_uid
         set_m_srec].
    rewrite sel_upd. repeat split; congruence. }
  assert (forall i', linked t s i' ->
            linked t
              (upd_srec i (fun r => set_msg (upd t (Some k) (msg r)) r)
                 (upd_msg t k (set_m_srec (Some i)) s)) i') as Hkeep.
  { intros i' (r & k' & m' & H1 & H2 & H3 & H4 & H5).
    destruct (Nat.eq_dec i' i) as [->|Hd]; [exact Hnew|].
    assert (k' <> k) as Hk' by (intros ->; congruence).
    exists r, k', m'. rewrite Hmsgs, Hsrecs.
    rewrite !list_lookup_alter_ne by congruence. auto. }
  split.
  - intros j rj0 Hj. destruct (Q1 j rj0 Hj) as (rj & Hrj & Hu' & Hs').
    rewrite Hsrecs. destruct (Nat.eq_dec j i) as [->|Hd].
    + rewrite list_lookup_alter_eq, Hrj. eexists. split; [reflexivity|].
      cbn. auto.
    + rewrite list_lookup_alter_ne by congruence. eauto.
  - intros j m Hj. rewrite Hmsgs in Hj.
    destruct (Nat.eq_dec j k) as [->|Hd].
    + rewrite list_lookup_alter_eq, Hk in Hj. injection Hj as <-.
      destruct (Q2 k tmsg Hk) as (m0 & Hm0 & Hu0 & [->|(_ & i' & r' & E & _)]);
        [|congruence].
      exists m0. split; [exact Hm0|]. split; [reflexivity|]. right.
      split; [exact Hnone|]. exists i, r0. repeat split; auto.
    + rewrite list_lookup_alter_ne in Hj by congruence.
      destruct (Q2 j m Hj) as (m0 & Hm0 & Hu0 & Hor).
      exists m0. split; [exact Hm0|]. split; [exact Hu0|].
      destruct Hor as [->|(Hn0 & i' & r' & E1 & E2 & E3 & E4 & E5 & E6)];
        [now left|].
      right. split; [exact Hn0|]. exists i', r'. repeat split; auto.
Qed.

Lemma pair_msgs_pairing t s0 m :
  table_ok t (srecs s0) m ->
  forall n k s s',
    pairing t s0 s -> pair_msgs t m n k s = Some s' -> pairing t s0 s'.
Proof.
  intros Hok. induction n as [|n IH]; intros k s s' Hp; cbn [pair_msgs].
  - now intros [= <-].
  - destruct (msgs (sel t (ctx s)) !! k) as [tmsg|] eqn:Hk;
      [|now intros [= <-]].
    destruct (m_srec tmsg) eqn:Hsr; [now apply IH|].
    destruct (srecmap_find _ _ _ _) as [[i|]|] eqn:Hf;
      [| now apply IH | discriminate].
    apply IH.
    destruct (srecmap_find_ok t _ _ _ _ _ _ Hok Hf) as (r0 & H1 & H2 & H3 & H4).
    eapply pairing_step; eauto.
Qed.

(** X18. The pairing by UID is sound: a message that had no sync record
    gets one only if that record is live and has the UID of the message
    on this side, which is not 0; the record then points to a message
    with that UID that points back to it. *)
Theorem match_uids_sound hashsz t s s' k tmsg tmsg' i :
  match_uids hashsz t s = Some s' ->
  msgs (sel t (ctx s)) !! k = Some tmsg -> m_srec tmsg = None ->
  msgs (sel t (ctx s')) !! k = Some tmsg' -> m_srec tmsg' = Some i ->
  exists r,
    srecs s !! i = Some r /\ live r = true /\
    sel t (uid r) = m_uid tmsg /\ m_uid tmsg <> 0 /\
    m_uid tmsg' = m_uid tmsg /\ linked t s' i.
Proof.
  unfold match_uids. intros Hm Hk Hnone Hk' Hsome.
  destruct (srecmap_fill t (srecs s) 0 _) as [m|] eqn:Hfill; [|discriminate].
  assert (table_ok t (srecs s) m) as Hok.
  { eapply srecmap_fill_ok; [apply drop_0 | apply table_ok_empty | exact Hfill]. }
  destruct (pair_msgs_pairing t s m Hok _ _ _ _ (pairing_refl t s) Hm)
    as [_ Q2].
  destruct (Q2 k tmsg' Hk') as (m0 & Hm0 & Hu0 & Hor).
  assert (m0 = tmsg) by congruence. subst m0.
  destruct Hor as [->|(_ & i' & r & E1 & E2 & E3 & E4 & E5 & E6)];
    [congruence|].
  assert (i' = i) by congruence. subst i'.
  exists r. auto 10.
Qed.

Lemma match_uids_sound_witness :
  let s' := match match_uids 7 Side.M lost_state with
            | Some s' => s'
            | None => lost_state
            end in
  let tmsg := mk_msg None 10 5 F_SEEN M_FLAGS [] in
  let tmsg' := mk_msg (Some O) 10 5 F_SEEN M_FLAGS [] in
  match_uids 7 Side.M lost_state = Some s' /\
  msgs (sel Side.M (ctx lost_state)) !! O = Some tmsg /\
  msgs (sel Side.M (ctx s')) !! O = Some tmsg' /\
  exists r,
    srecs lost_state !! O = Some r /\ live r = true /\
    sel Side.M (uid r) = m_uid tmsg /\ m_uid tmsg <> 0 /\
    m_uid tmsg' = m_uid tmsg /\ linked Side.M s' O.
Proof.
  intros s' tmsg tmsg'.
  split; [reflexivity|]. split; [reflexivity|]. split; [reflexivity|].
  apply (match_uids_sound 7 Side.M lost_state s' O tmsg tmsg' O);
    reflexivity.
Defined.

Lemma free_slot_path m : forall fuel idx q,
  free_slot fuel m idx = Some q ->
  exists j, (j < fuel)%nat /\ probe (length m) idx j = q /\
            forall j', (j' < j)%nat -> used m (probe (length m) idx j').
Proof.
  induction fuel as [|fuel IH]; intros idx q; cbn [free_slot]; [discriminate|].
  destruct (m !! idx) as [[u o]|] eqn:E; [|discriminate].
  destruct (Z.eqb_spec u 0) as [->|Hne].
  - intros [= <-]. exists O. split; [lia|]. split; [reflexivity|]. lia.
  - intros H. destruct (IH _ _ H) as (j & Hlt & Hj & Hused).
    exists (Datatypes.S j). split; [lia|]. split; [exact Hj|].
    intros [|j'] Hj'; cbn [probe]; [exists u, o; auto|].
    apply Hused. lia.
Qed.

Lemma srecmap_add_paths m u i m' :
  table_paths m -> srecmap_add m u i = Some m' ->
  length m' = length m /\ table_paths m' /\
  (forall p u' o, m !! p = Some (u', o) -> u' <> 0 ->
                  m' !! p = Some (u', o)) /\
  (u <> 0 -> exists p o, m' !! p = Some (u, o)).
Proof.
  intros Hp. unfold srecmap_add.
  destruct (free_slot _ _ _) as [q|] eqn:Hq; [|discriminate].
  intros [= <-]. destruct (free_slot_free _ _ _ _ Hq) as (o0 & Hq0).
  unfold srecmap in *.
  assert (q < length m)%nat as Hlt by (eapply lookup_lt_Some; exact Hq0).
  assert (forall p u' o, m !! p = Some (u', o) -> u' <> 0 ->
            <[q:=(u, Some i)]> m !! p = Some (u', o)) as Hold.
  { intros p u' o H Hne. rewrite list_lookup_insert_ne; [exact H|].
    intros ->. rewrite Hq0 in H. congruence. }
  assert (forall p, used m p -> used (<[q:=(u, Some i)]> m) p) as Hused.
  { intros p (u' & o & H & Hne). exists u', o. split; [|exact Hne].
    now apply Hold. }
  split; [apply length_insert|]. split; [|split; [exact Hold|]].
  - intros p u' o H Hne. unfold srecmap in *. rewrite length_insert.
    destruct (Nat.eq_dec q p) as [->|Hd].
    + rewrite list_lookup_insert_eq in H by exact Hlt.
      injection H as <- <-.
      destruct (free_slot_path _ _ _ _ Hq) as (j & Hjl & Hj & Hu).
      exists j. split; [exact Hjl|]. split; [exact Hj|].
      intros j' Hj'. apply Hused, Hu, Hj'.
    + rewrite list_lookup_insert_ne in H by exact Hd.
      destruct (Hp p u' o H Hne) as (j & Hjl & Hj & Hu).
      exists j. split; [exact Hjl|]. split; [exact Hj|].
      intros j' Hj'. apply Hused, Hu, Hj'.
  - intros _. exists q, (Some i). now apply list_lookup_insert_eq.
Qed.

Lemma srecmap_fill_paths t : forall rs i m m',
  table_paths m -> srecmap_fill t rs i m = Some m' ->
  length m' = length m /\ table_paths m' /\
  (forall p u o, m !! p = Some (u, o) -> u <> 0 -> m' !! p = Some (u, o)) /\
  forall r, In r rs -> live r = true -> sel t (uid r) <> 0 ->
            exists p o, m' !! p = Some (sel t (uid r), o).
Proof.
  induction rs as [|srec rs IH]; intros i m m' Hp; cbn [srecmap_fill].
  - intros [= <-]. repeat split; auto. intros r [].
  - destruct (has (status srec) S_DEAD) eqn:Hdead.
    + intros H. destruct (IH _ _ _ Hp H) as (I1 & I2 & I3 & I4).
      repeat split; auto. intros r [<-|Hin] Hl Hne; [|now apply I4].
      unfold live in Hl. rewrite Hdead in Hl. discriminate.
    + destruct (srecmap_add m (sel t (uid srec)) i) as [m1|] eqn:Ha;
        [|discriminate].
      destruct (srecmap_add_paths _ _ _ _ Hp Ha) as (A1 & A2 & A3 & A4).
      intros H. destruct (IH _ _ _ A2 H) as (I1 & I2 & I3 & I4).
      split; [congruence|]. split; [exact I2|]. split; [now auto|].
      intros r [<-|Hin] Hl Hne; [|now apply I4].
      destruct (A4 Hne) as (p & o & E). exists p, o. now apply I3.
Qed.

Lemma table_paths_empty n : table_paths (repeat (0, None) n).
Proof.
  intros p u o H Hne. apply lookup_In, repeat_spec in H.
  injection H as -> _. congruence.
Qed.

(** A UID that is reached through slots in use is found. *)
Lemma srecmap_find_path m u : forall j fuel idx o,
  (j < fuel)%nat ->
  m !! probe (length m) idx j = Some (u, o) -> u <> 0 ->
  (forall j', (j' < j)%nat -> used m (probe (length m) idx j')) ->
  exists o' p, srecmap_find fuel m u idx = Some o' /\
               m !! p = Some (u, o').
Proof.
  induction j as [|j IH]; intros fuel idx o Hlt Hj Hne Hused;
    (destruct fuel as [|fuel]; [lia|]); cbn [srecmap_find probe] in *;
    unfold srecmap in *.
  - rewrite Hj. destruct (Z.eqb_spec u 0); [contradiction|].
    rewrite Z.eqb_refl. eauto.
  - destruct (Hused O ltac:(lia)) as (u' & o' & E & Hne').
    cbn [probe] in E. unfold srecmap in *. rewrite E.
    destruct (Z.eqb_spec u' 0); [contradiction|].
    destruct (Z.eqb_spec u' u) as [->|_]; [eauto|].
    apply (IH fuel _ o); [lia | exact Hj | exact Hne |].
    intros j' Hj'. apply (Hused (Datatypes.S j')). lia.
Qed.

Lemma pair_msgs_before t m : forall n k s s',
  pair_msgs t m n k s = Some s' ->
  forall j, (j < k)%nat ->
            msgs (sel t (ctx s')) !! j = msgs (sel t (ctx s)) !! j.
Proof.
  induction n as [|n IH]; intros k s s'; cbn [pair_msgs].
  - now intros [= <-].
  - destruct (msgs (sel t (ctx s)) !! k) as [tmsg|] eqn:Hk;
      [|now intros [= <-]].
    destruct (m_srec tmsg); [intros H j Hj; apply (IH _ _ _ H); lia|].
    destruct (srecmap_find _ _ _ _) as [[i|]|];
      [| intros H j Hj; apply (IH _ _ _ H); lia | discriminate].
    intros H j Hj. rewrite (IH _ _ _ H) by lia. sv. rewrite sel_upd.
    cbn [msgs set_msgs]. apply list_lookup_alter_ne. lia.
Qed.

(** A message without record whose UID is found in the table is paired
    with the record that is found. *)
Lemma pair_msgs_found t m : forall n k s s' j tmsg i,
  pair_msgs t m n k s = Some s' ->
  (k <= j < k + n)%nat ->
  msgs (sel t (ctx s)) !! j = Some tmsg -> m_srec tmsg = None ->
  srecmap_find (length m) m (m_uid tmsg) (hash_uid (length m) (m_uid tmsg))
  = Some (Some i) ->
  msgs (sel t (ctx s')) !! j = Some (set_m_srec (Some i) tmsg).
Proof.
  induction n as [|n IH]; intros k s s' j tmsg i; cbn [pair_msgs]; [lia|].
  intros H Hj Hm Hnone Hf.
  destruct (Nat.eq_dec j k) as [->|Hd].
  - rewrite Hm, Hnone, Hf in H.
    rewrite (pair_msgs_before _ _ _ _ _ _ H) by lia.
    sv. rewrite sel_upd. cbn [msgs set_msgs].
    now rewrite list_lookup_alter_eq, Hm.
  - destruct (msgs (sel t (ctx s)) !! k) as [tk|] eqn:Hk.
    2:{ apply lookup_lt_Some in Hm. apply lookup_ge_None in Hk. lia. }
    destruct (m_srec tk); [apply (IH _ _ _ _ _ _ H); auto; lia|].
    destruct (srecmap_find _ _ (m_uid tk) _) as [[i'|]|];
      [| apply (IH _ _ _ _ _ _ H); auto; lia | discriminate].
    apply (IH _ _ _ _ _ _ H); auto; [lia|].
    sv. rewrite sel_upd. cbn [msgs set_msgs].
    rewrite list_lookup_alter_ne by congruence. exact Hm.
Qed.

(** X19. The pairing by UID is complete: when the loops end, a message
    without sync record whose UID is that of a live record on this side,
    and not 0, is paired with a live record that has this UID. *)
Theorem match_uids_complete hashsz t s s' k tmsg i r :
  match_uids hashsz t s = Some s' ->
  msgs (sel t (ctx s)) !! k = Some tmsg -> m_srec tmsg = None ->
  srecs s !! i = Some r -> live r = true ->
  sel t (uid r) = m_uid tmsg -> m_uid tmsg <> 0 ->
  exists i' r',
    msgs (sel t (ctx s')) !! k = Some (set_m_srec (Some i') tmsg) /\
    srecs s !! i' = Some r' /\ live r' = true /\
    sel t (uid r') = m_uid tmsg.
Proof.
  unfold match_uids. intros Hm Hk Hnone Hi Hl Hu Hne.
  destruct (srecmap_fill t (srecs s) 0 _) as [m|] eqn:Hfill; [|discriminate].
  assert (table_ok t (srecs s) m) as Hok.
  { eapply srecmap_fill_ok; [apply drop_0 | apply table_ok_empty | exact Hfill]. }
  destruct (srecmap_fill_paths _ _ _ _ _ (table_paths_empty hashsz) Hfill)
    as (_ & Hpaths & _ & Hall).
  destruct (Hall r (lookup_In _ _ _ Hi) Hl ltac:(congruence)) as (p & o & Hp).
  rewrite Hu in Hp.
  destruct (Hpaths p _ o Hp Hne) as (j & Hjl & Hj & Hused).
  rewrite <- Hj in Hp.
  destruct (srecmap_find_path m (m_uid tmsg) j (length m) _ o Hjl Hp Hne Hused)
    as (o' & p' & Hf & Hp').
  destruct (Hok p' _ o' Hp' Hne) as (i' & r' & -> & Hi' & Hl' & Hu').
  exists i', r'. split; [|auto].
  apply (pair_msgs_found t m _ O s s' k tmsg i' Hm); auto.
  apply lookup_lt_Some in Hk. lia.
Qed.

Lemma match_uids_complete_witness :
  let s' := match match_uids 7 Side.M lost_state with
            | Some s' => s'
            | None => lost_state
            end in
  let tmsg := mk_msg None 10 5 F_SEEN M_FLAGS [] in
  exists i' r',
    msgs (sel Side.M (ctx s')) !! O = Some (set_m_srec (Some i') tmsg) /\
    srecs lost_state !! i' = Some r' /\ live r' = true /\
    sel Side.M (uid r') = m_uid tmsg.
Proof.
  intros s' tmsg.
  apply (match_uids_complete 7 Side.M lost_state s' O tmsg O
           (mk_srec (5, -2) (None, None) 0 F_SEEN (0, 0) (0, 0)
              ["A"; "B"; "C"; "D"; "E"; "F"; "G"; "H"; "I"; "J"; "K"; "L"]%char));
    try reflexivity.
  cbn. lia.
Defined.

Lemma next_slot_mod n idx :
  (idx < n)%nat -> next_slot n idx = ((idx + 1) mod n)%nat.
Proof.
  intros H. unfold next_slot. replace (idx + 1)%nat with (Datatypes.S idx) by lia.
  destruct (Nat.eqb_spec (Datatypes.S idx) n) as [<-|Hne].
  - symmetry. apply Nat.Div0.mod_same.
  - symmetry. apply Nat.mod_small. lia.
Qed.

Lemma probe_mod n : forall j idx,
  (idx < n)%nat -> probe n idx j = ((idx + j) mod n)%nat.
Proof.
  induction j as [|j IH]; intros idx H; cbn [probe].
  - rewrite Nat.add_0_r. symmetry. now apply Nat.mod_small.
  - rewrite IH by (rewrite next_slot_mod by exact H;
                   apply Nat.mod_upper_bound; lia).
    rewrite next_slot_mod by exact H.
    rewrite Nat.Div0.add_mod_idemp_l. f_equal. lia.
Qed.

Lemma probe_covers n idx p :
  (idx < n)%nat -> (p < n)%nat -> exists j, (j < n)%nat /\ probe n idx j = p.
Proof.
  intros Hi Hp. destruct (le_lt_dec idx p) as [Hle|Hgt].
  - exists (p - idx)%nat. split; [lia|]. rewrite probe_mod by exact Hi.
    replace (idx + (p - idx))%nat with p by lia. now apply Nat.mod_small.
  - exists (p + n - idx)%nat. split; [lia|]. rewrite probe_mod by exact Hi.
    replace (idx + (p + n - idx))%nat with (p + 1 * n)%nat by lia.
    rewrite Nat.Div0.mod_add. now apply Nat.mod_small.
Qed.

Lemma free_slot_some m : forall fuel idx j o,
  (idx < length m)%nat -> (j < fuel)%nat ->
  m !! probe (length m) idx j = Some (0, o) ->
  exists q, free_slot fuel m idx = Some q.
Proof.
  induction fuel as [|fuel IH]; intros idx j o Hi Hj Hz; [lia|].
  cbn [free_slot]. unfold srecmap in *.
  destruct (lookup_lt_is_Some_2 m idx Hi) as ([u o'] & E). rewrite E.
  destruct (Z.eqb_spec u 0) as [->|Hne]; [eauto|].
  destruct j as [|j]; cbn [probe] in Hz; [congruence|].
  apply (IH _ j o); [|lia|exact Hz].
  rewrite next_slot_mod by exact Hi. apply Nat.mod_upper_bound. lia.
Qed.

Lemma srecmap_find_some m u : forall fuel idx j o,
  (idx < length m)%nat -> (j < fuel)%nat ->
  m !! probe (length m) idx j = Some (0, o) ->
  exists r, srecmap_find fuel m u idx = Some r.
Proof.
  induction fuel as [|fuel IH]; intros idx j o Hi Hj Hz; [lia|].
  cbn [srecmap_find]. unfold srecmap in *.
  destruct (lookup_lt_is_Some_2 m idx Hi) as ([u' o'] & E). rewrite E.
  destruct (Z.eqb_spec u' 0) as [->|Hne]; [eauto|].
  destruct (u' =? u); [eauto|].
  destruct j as [|j]; cbn [probe] in Hz; [congruence|].
  apply (IH _ j o); [|lia|exact Hz].
  rewrite next_slot_mod by exact Hi. apply Nat.mod_upper_bound. lia.
Qed.

Lemma used_count_le (m : srecmap) : (used_count m <= length m)%nat.
Proof. unfold used_count. apply List.filter_length_le. Qed.

Lemma zero_slot (m : srecmap) :
  (used_count m < length m)%nat -> exists p o, m !! p = Some (0, o).
Proof.
  unfold used_count. induction m as [|[u o] m IH]; cbn [List.filter length fst].
  - lia.
  - destruct (Z.eqb_spec u 0) as [->|Hne]; cbn [negb length].
    + intros _. now exists O, o.
    + intros H. destruct IH as (p & o' & E); [lia|].
      now exists (Datatypes.S p), o'.
Qed.

Lemma used_count_insert (m : srecmap) q o0 e :
  m !! q = Some (0, o0) ->
  (used_count (<[q:=e]> m) <= Datatypes.S (used_count m))%nat.
Proof.
  intros Hq. unfold used_count, srecmap in *.
  rewrite insert_take_drop by (eapply lookup_lt_Some; exact Hq).
  rewrite <- (take_drop_middle m q _ Hq) at 3.
  rewrite !List.filter_app, !length_app. cbn [List.filter fst].
  change (0 =? 0) with true. cbn [negb].
  destruct (negb (fst e =? 0)); cbn [length]; lia.
Qed.

Lemma hash_uid_lt n u : (0 < n)%nat -> (hash_uid n u < n)%nat.
Proof.
  intros H. unfold hash_uid.
  pose proof (Z.mod_pos_bound ((u mod 2 ^ 32 * 1103515245) mod 2 ^ 32)
                (Z.of_nat n) ltac:(lia)).
  lia.
Qed.

Lemma srecmap_add_some (m : srecmap) u i :
  (used_count m < length m)%nat ->
  exists m', srecmap_add m u i = Some m' /\ length m' = length m /\
             (used_count m' <= Datatypes.S (used_count m))%nat.
Proof.
  intros H. unfold srecmap_add.
  destruct (zero_slot m H) as (p & o & Hp).
  assert (0 < length m)%nat as Hn by lia.
  destruct (probe_covers (length m) (hash_uid (length m) u) p
              (hash_uid_lt _ u Hn) (lookup_lt_Some _ _ _ Hp))
    as (j & Hj & Hpr).
  rewrite <- Hpr in Hp.
  destruct (free_slot_some m (length m) _ j o (hash_uid_lt _ u Hn) Hj Hp)
    as (q & Hq).
  rewrite Hq. eexists. split; [reflexivity|].
  destruct (free_slot_free _ _ _ _ Hq) as (o0 & Hq0).
  split; [apply length_insert|]. eapply used_count_insert. exact Hq0.
Qed.

Lemma srecmap_fill_some t : forall rs i (m : srecmap),
  (used_count m + length rs < length m)%nat ->
  exists m', srecmap_fill t rs i m = Some m' /\ length m' = length m /\
             (used_count m' <= used_count m + length rs)%nat.
Proof.
  induction rs as [|srec rs IH]; intros i m H; cbn [srecmap_fill length] in *.
  - exists m. split; [reflexivity|]. split; [reflexivity|]. lia.
  - destruct (has (status srec) S_DEAD).
    + destruct (IH (Datatypes.S i) m ltac:(lia)) as (m' & E & Hl & Hc).
      exists m'. split; [exact E|]. split; [exact Hl|]. lia.
    + destruct (srecmap_add_some m (sel t (uid srec)) i ltac:(lia))
        as (m1 & -> & Hl1 & Hc1).
      destruct (IH (Datatypes.S i) m1 ltac:(lia)) as (m' & E & Hl & Hc).
      exists m'. split; [exact E|]. split; [congruence|]. lia.
Qed.

Lemma pair_msgs_some t (m : srecmap) :
  (used_count m < length m)%nat ->
  forall n k s, exists s', pair_msgs t m n k s = Some s'.
Proof.
  intros H.
  assert (forall u, exists r,
            srecmap_find (length m) m u (hash_uid (length m) u) = Some r)
    as Hfind.
  { intros u. destruct (zero_slot m H) as (p & o & Hp).
    assert (0 < length m)%nat as Hn by lia.
    destruct (probe_covers (length m) (hash_uid (length m) u) p
                (hash_uid_lt _ u Hn) (lookup_lt_Some _ _ _ Hp))
      as (j & Hj & Hpr).
    rewrite <- Hpr in Hp.
    exact (srecmap_find_some m u (length m) _ j o (hash_uid_lt _ u Hn) Hj Hp). }
  induction n as [|n IH]; intros k s; cbn [pair_msgs]; [eauto|].
  destruct (msgs (sel t (ctx s)) !! k) as [tmsg|]; [|eauto].
  destruct (m_srec tmsg); [apply IH|].
  destruct (Hfind (m_uid tmsg)) as ([i|] & ->); apply IH.
Qed.

(** X20. The probing loops of the pairing end when the table has more
    slots than there are sync records: [match_uids] then returns. *)
Theorem match_uids_ends hashsz t s :
  (length (srecs s) < hashsz)%nat ->
  exists s', match_uids hashsz t s = Some s'.
Proof.
  intros H. unfold match_uids.
  assert (forall n, used_count (repeat (0, None) n) = O) as H0.
  { unfold used_count. induction n as [|n IH]; [reflexivity|exact IH]. }
  specialize (H0 hashsz).
  destruct (srecmap_fill_some t (srecs s) 0 (repeat (0, None) hashsz))
    as (m & -> & Hl & Hc).
  { rewrite H0, repeat_length. lia. }
  apply pair_msgs_some. rewrite Hl, repeat_length in *. lia.
Qed.

Lemma match_uids_ends_witness :
  (length (srecs lost_state) < 7)%nat /\
  exists s', match_uids 7 Side.M lost_state = Some s'.
Proof.
  assert (length (srecs lost_state) < 7)%nat as H by (cbn; lia).
  split; [exact H|]. exact (match_uids_ends 7 Side.M lost_state H).
Defined.

(* ------------------------------------------------------------------ *)
(** ** What the journal says about a committed flag change *)

Lemma bit_div st k :
  0 <= k -> Z.land (st / 2 ^ k) 1 = Z.b2z (has st (2 ^ k)).
Proof.
  intros Hk. rewrite has_pow2 by exact Hk.
  pose proof (Z.land_ones (st / 2 ^ k) 1 ltac:(lia)) as H.
  change (Z.ones 1) with 1 in H. change (2 ^ 1) with 2 in H.
  rewrite H. symmetry. now apply Z.testbit_spec'.
Qed.

Lemma clear_lor st x : Z.lor (clear st x) x = Z.lor st x.
Proof.
  unfold clear. apply Z.bits_inj'. intros n Hn.
  rewrite !Z.lor_spec, Z.land_spec, Z.lnot_spec by exact Hn.
  destruct (Z.testbit st n), (Z.testbit x n); reflexivity.
Qed.

Lemma syncfnd_at l i r t1 t2 :
  l !! i = Some r -> uid_is t1 t2 r = true ->
  syncfnd l (Some i) t1 t2 = Some (i, r).
Proof.
  intros Hi Hu. unfold syncfnd. rewrite (drop_S _ _ _ Hi).
  cbn [find_uid]. now rewrite Hu.
Qed.

Lemma uid_is_refl r : uid_is (sel Side.M (uid r)) (sel Side.S (uid r)) r = true.
Proof. unfold uid_is. now rewrite !Z.eqb_refl. Qed.

(** The replay of one entry that is about a record. *)
Lemma replay_rec_line nfmalloc buf e rest line s c i r s1 :
  incomplete buf = false ->
  parse_jline (c_str buf) = Some e ->
  one_of (j_op e) ["("; ")"; "{"; "}"; "|"; "+"]%char = false ->
  syncfnd (srecs s) c (j_t1 e) (j_t2 e) = Some (i, r) ->
  replay_srec (Datatypes.S line) e i r s = inr s1 ->
  replay_lines nfmalloc (buf :: rest) line (s, c)
  = replay_lines nfmalloc rest (Datatypes.S line) (s1, Some i).
Proof.
  intros Hinc Hparse Hop Hf Hr. cbn [replay_lines].
  rewrite Hinc, Hparse. unfold replay_entry.
  cbn [one_of existsb] in Hop.
  repeat (destruct (Ascii.eqb (j_op e) _);
          [cbn in Hop; rewrite ?orb_true_r in Hop; discriminate|]).
  now rewrite Hf, Hr.
Qed.

Lemma land_byte a b : 0 <= a < 256 -> 0 <= Z.land a b < 256.
Proof.
  intros H. split; [apply Z.land_nonneg; lia|].
  assert (Z.land a b <= a); [|lia].
  destruct (Z.eq_dec a 0) as [->|Hne]; [now rewrite Z.land_0_l|].
  rewrite <- (Z.lor_ldiff_and a b) at 2.
  rewrite <- Z.add_nocarry_lor
    by (rewrite Z.land_comm, <- Z.land_assoc, (Z.land_comm b),
        Z.land_ldiff; apply Z.land_0_r).
  pose proof (Z.ldiff_nonneg a b). lia.
Qed.

Lemma lor_byte a b : 0 <= a < 256 -> 0 <= b < 256 -> 0 <= Z.lor a b < 256.
Proof.
  intros Ha Hb. split; [apply Z.lor_nonneg; lia|].
  destruct (Z.eq_dec (Z.lor a b) 0) as [->|Hne]; [lia|].
  assert (0 < Z.lor a b) as Hpos
    by (pose proof (proj2 (Z.lor_nonneg a b) ltac:(lia)); lia).
  change 256 with (2 ^ 8). apply Z.log2_lt_pow2; [exact Hpos|].
  rewrite Z.log2_lor by lia.
  assert (forall x, 0 <= x < 256 -> Z.log2 x < 8) as Hlog.
  { intros x Hx. destruct (Z.eq_dec x 0) as [->|Hx0]; [reflexivity|].
    apply Z.log2_lt_pow2; [lia|]. change (2 ^ 8) with 256. lia. }
  pose proof (Hlog a Ha). pose proof (Hlog b Hb). lia.
Qed.

(** The [*] entry of a flag commit and its replay. *)
Lemma star_replays nfmalloc line c i s srec nflags :
  srecs s !! i = Some srec ->
  syncfnd (srecs s) c (sel Side.M (uid srec)) (sel Side.S (uid srec))
  = Some (i, srec) ->
  is_int (sel Side.M (uid srec)) -> is_int (sel Side.S (uid srec)) ->
  0 <= nflags < 256 ->
  let s1 :=
    if negb (flags srec =? nflags) then
      journal "*"%char (fmt_uids srec ++ [fmt_u nflags])
        (upd_srec i (set_flags_ nflags) s)
    else s in
  exists jl1 sr c1 r1 line1,
    trace s1 = trace s ++ map EJournal jl1 /\
    (forall rest,
       replay_lines nfmalloc (jl1 ++ rest) line (s, c)
       = replay_lines nfmalloc rest line1 (sr, c1)) /\
    srecs sr = srecs s1 /\ smaxxuid sr = smaxxuid s /\
    smaxxuid s1 = smaxxuid s /\
    srecs s1 !! i = Some r1 /\ status r1 = status srec /\
    uid r1 = uid srec /\
    syncfnd (srecs sr) c1 (sel Side.M (uid srec)) (sel Side.S (uid srec))
    = Some (i, r1).
Proof.
  intros Hi Hf HM HS Hn. cbn zeta.
  destruct (negb (flags srec =? nflags)).
  - exists [jfmt "*"%char (fmt_uids srec ++ [fmt_u nflags])],
      (upd_srec i (set_flags_ nflags) s), (Some i), (set_flags_ nflags srec),
      (Datatypes.S line).
    assert (is_int nflags) as Hint by (unfold is_int, INT_MIN, INT_MAX; lia).
    assert (fmt_u nflags = fmt_d nflags) as Hu.
    { unfold fmt_u, fmt_d. destruct (Z.ltb_spec nflags 0); [lia|reflexivity]. }
    assert (srecs (upd_srec i (set_flags_ nflags) s) !! i
            = Some (set_flags_ nflags srec)) as Hi'
      by (now apply upd_srec_lookup).
    split; [sv; reflexivity|]. split; [|sv; repeat split; auto].
    + intros rest. cbn [app].
      destruct (jline_round_trip "*"%char _ _ _ HM HS Hint) as (_ & _ & H3).
      destruct (H3 eq_refl) as [Hinc Hparse].
      apply replay_rec_line
        with (e := mk_jline "*"%char (sel Side.M (uid srec))
                     (sel Side.S (uid srec)) nflags []) (r := srec).
      * unfold fmt_uids. cbn [app]. rewrite Hu. exact Hinc.
      * unfold fmt_uids. cbn [app]. rewrite Hu. exact Hparse.
      * reflexivity.
      * exact Hf.
      * unfold replay_srec. cbn [j_op j_t3]. eval_eqb. cbn iota.
        unfold to_uchar. now rewrite Z.mod_small by lia.
    + apply syncfnd_at; [exact Hi'|]. apply (uid_is_refl (set_flags_ nflags srec)).
  - exists [], s, c, srec, line. cbn [map]. rewrite app_nil_r. auto 10.
Qed.

Lemma map_status_alter (f : sync_rec -> sync_rec) i l :
  (forall r, set_status 0 (f r) = set_status 0 r) ->
  map (set_status 0) (alter f i l) = map (set_status 0) l.
Proof.
  intros Hf. revert i. induction l as [|r l IH]; intros [|i]; cbn;
    rewrite ?Hf, ?IH; reflexivity.
Qed.

Lemma has_clear_self x b : has (clear x b) b = false.
Proof.
  apply has_false. unfold clear. apply Z.bits_inj'. intros n Hn.
  rewrite !Z.land_spec, Z.lnot_spec, Z.bits_0 by exact Hn.
  destruct (Z.testbit x n), (Z.testbit b n); reflexivity.
Qed.

(** X21. What [flags_set_sync_p2] changes, against the journal it writes.
    For a record with [int] UIDs and byte-sized flags, the entries that
    the commit of a flag change writes replay without error on the state
    before it, and give back every field of every record but the status.
    The records (status included) come back as the commit left them in
    memory exactly when the commit was for the master, or [S_NEXPIRE]
    agrees with [S_EXPIRED] (nothing about the expiration is committed,
    or it is cancelled), or [S_EXPIRE] agrees with [S_NEXPIRE]; in these
    cases [smaxxuid] comes back as well.  Otherwise the commit has set
    [S_EXPIRED] from [S_NEXPIRE] where the replay of the entry sets it from
    [S_EXPIRE], and the replayed record differs from the one in memory. *)
Theorem flag_commit_replays nfmalloc line c i t s srec :
  srecs s !! i = Some srec ->
  syncfnd (srecs s) c (sel Side.M (uid srec)) (sel Side.S (uid srec))
  = Some (i, srec) ->
  is_int (sel Side.M (uid srec)) -> is_int (sel Side.S (uid srec)) ->
  0 <= flags srec < 256 -> 0 <= sel t (aflags srec) < 256 ->
  exists jl s' c',
    events_since s (flags_set_sync_p2 i t s) = map EJournal jl /\
    replay_lines nfmalloc jl line (s, c) = inr (s', c') /\
    map (set_status 0) (srecs s')
    = map (set_status 0) (srecs (flags_set_sync_p2 i t s)) /\
    let agree :=
      t = Side.M \/
      has (status srec) S_NEXPIRE = has (status srec) S_EXPIRED \/
      has (status srec) S_EXPIRE = has (status srec) S_NEXPIRE in
    (srecs s' = srecs (flags_set_sync_p2 i t s) <-> agree) /\
    (agree -> smaxxuid s' = smaxxuid (flags_set_sync_p2 i t s)).
Proof.
  intros Hi Hf HM HS Hfl Haf.
  unfold flags_set_sync_p2. rewrite Hi. cbn zeta.
  set (nflags := Z.land (Z.lor (flags srec) (sel t (aflags srec)))
                   (Z.lnot (sel t (dflags srec)))).
  assert (0 <= nflags < 256) as Hn by (apply land_byte, lor_byte; auto).
  destruct (star_replays nfmalloc line c i s srec nflags Hi Hf HM HS Hn)
    as (jl1 & sr & c1 & r1 & line1 & Htr & Hrep & Hsr & Hxr & Hx1 & Hi1 &
        Hst & Huid & Hf1).
  cbn zeta in Htr, Hsr, Hx1, Hi1.
  set (s1 := if negb (flags srec =? nflags) then _ else s) in *.
  assert (forall (P : Prop), P -> (srecs sr = srecs s1 <-> P) /\
                                  (P -> smaxxuid sr = smaxxuid s1))
    as Hsame by (intros P HP; split; [tauto | congruence]).
  destruct t.
  { exists jl1, sr, c1. split; [now apply events_since_app|].
    split; [rewrite <- (app_nil_r jl1); apply Hrep|].
    split; [now rewrite Hsr|]. apply Hsame. now left. }
  change S_NEXPIRE with (2 ^ 6) in *. change S_EXPIRED with (2 ^ 4) in *.
  change S_EXPIRE with (2 ^ 5) in *.
  rewrite !bit_div by lia.
  assert (nat -> is_int 0) as Hz
    by (intros _; unfold is_int, INT_MIN, INT_MAX; lia).
  destruct (has (status srec) (2 ^ 6)) eqn:HN,
           (has (status srec) (2 ^ 4)) eqn:HX,
           (has (status srec) (2 ^ 5)) eqn:HE;
    cbn [Z.b2z Z.eqb negb andb Pos.eqb].
  all: try (exists jl1, sr, c1; split; [now apply events_since_app|];
            split; [rewrite <- (app_nil_r jl1); apply Hrep|];
            split; [now rewrite Hsr|]; apply Hsame; auto; fail).
  all: try (destruct (jline_round_trip "/"%char _ _ 0 HM HS (Hz O))
              as (_ & H2 & _); destruct (H2 eq_refl) as [Hinc Hparse];
            eexists (jl1 ++ [jfmt "/"%char [fmt_d (sel Side.M (uid srec));
                                             fmt_d (sel Side.S (uid srec))]]),
              _, (Some i);
            split; [apply events_since_app; sv;
                    try destruct (smaxxuid s1 <? _); sv; rewrite Htr, map_app;
                    now rewrite <- app_assoc|];
            split;
            [rewrite Hrep;
             erewrite (replay_rec_line nfmalloc _ _ [] line1 sr c1 i r1 _
                         Hinc Hparse eq_refl Hf1); [reflexivity|];
             unfold replay_srec; cbn [j_op]; eval_eqb; cbn iota;
             change S_EXPIRE with (2 ^ 5); rewrite Hst, HE; reflexivity|]).
  all: try (destruct (jline_round_trip "\"%char _ _ 0 HM HS (Hz O))
              as (_ & H2 & _); destruct (H2 eq_refl) as [Hinc Hparse];
            eexists (jl1 ++ [jfmt "\"%char [fmt_d (sel Side.M (uid srec));
                                             fmt_d (sel Side.S (uid srec))]]),
              _, (Some i);
            split; [apply events_since_app; sv; rewrite Htr, map_app;
                    now rewrite <- app_assoc|];
            split;
            [rewrite Hrep;
             erewrite (replay_rec_line nfmalloc _ _ [] line1 sr c1 i r1 _
                         Hinc Hparse eq_refl Hf1); [reflexivity|];
             unfold replay_srec; cbn [j_op]; eval_eqb; cbn iota;
             reflexivity|]).
  - (* NEXPIRE and EXPIRED, not EXPIRE: the end of the expiration is
       cancelled *)
    sv. rewrite !map_status_alter by reflexivity.
    split; [now rewrite Hsr|]. split; [|congruence].
    split; [intros _; auto|intros _]. rewrite Hsr.
    apply list_alter_ext; auto. intros x Hx.
    assert (x = r1) as -> by congruence.
    change S_EXPIRED with (2 ^ 4). change S_EXPIRE with (2 ^ 5).
    now rewrite Hst, HX, Z.mul_1_l, clear_lor.
  - (* NEXPIRE and EXPIRE, not EXPIRED: the expiration is committed *)
    rewrite Huid, Hxr, Hx1.
    destruct (smaxxuid s <? sel Side.S (uid srec)); sv;
      rewrite !map_status_alter by reflexivity;
      (split; [now rewrite Hsr|]); (split; [|congruence]);
      (split; [intros _; auto|intros _]); rewrite Hsr;
      apply list_alter_ext; auto; intros x _;
      change S_EXPIRED with (2 ^ 4); now rewrite Z.mul_1_l, clear_lor.
  - (* NEXPIRE alone: the commit sets EXPIRED, the replay clears it *)
    rewrite Hx1.
    destruct (smaxxuid s <? sel Side.S (uid srec)); sv;
      rewrite !map_status_alter by reflexivity;
      (split; [now rewrite Hsr|]);
      (split; [|intros [H|[H|H]]; discriminate]);
      (split; [|intros [H|[H|H]]; discriminate]);
      intros Heq; exfalso; rewrite Hsr in Heq;
      apply (f_equal (fun l => l !! i)) in Heq;
      rewrite !list_lookup_alter_eq, Hi1 in Heq; cbn in Heq;
      injection Heq as Heq; apply (f_equal (fun x => has x (2 ^ 4))) in Heq;
      change S_EXPIRED with (2 ^ 4) in Heq;
      rewrite has_clear_self, Z.mul_1_l, has_lor_r in Heq
        by (now apply has_self);
      discriminate.
  - (* EXPIRE and EXPIRED, not NEXPIRE: the commit clears EXPIRED, the
       replay sets it *)
    rewrite Huid, Hxr.
    destruct (smaxxuid s <? sel Side.S (uid srec)); sv;
      rewrite !map_status_alter by reflexivity;
      (split; [now rewrite Hsr|]);
      (split; [|intros [H|[H|H]]; discriminate]);
      (split; [|intros [H|[H|H]]; discriminate]);
      intros Heq; exfalso; rewrite Hsr in Heq;
      apply (f_equal (fun l => l !! i)) in Heq;
      rewrite !list_lookup_alter_eq, Hi1 in Heq; cbn in Heq;
      injection Heq as Heq; apply (f_equal (fun x => has x (2 ^ 4))) in Heq;
      change S_EXPIRED with (2 ^ 4) in Heq;
      rewrite Z.mul_0_l, Z.lor_0_r, has_clear_self, has_lor_r in Heq
        by (now apply has_self);
      discriminate.
  - (* EXPIRED alone: the end of the expiration is committed *)
    sv. rewrite !map_status_alter by reflexivity.
    split; [now rewrite Hsr|]. split; [|congruence].
    split; [intros _; auto|intros _]. rewrite Hsr.
    apply list_alter_ext; auto. intros x _.
    change S_EXPIRED with (2 ^ 4). now rewrite Z.mul_0_l, Z.lor_0_r.
  - (* EXPIRE alone: the expiration is cancelled *)
    sv. rewrite !map_status_alter by reflexivity.
    split; [now rewrite Hsr|]. split; [|congruence].
    split; [intros _; auto|intros _]. rewrite Hsr.
    apply list_alter_ext; auto. intros x Hx.
    assert (x = r1) as -> by congruence.
    change S_EXPIRED with (2 ^ 4). change S_EXPIRE with (2 ^ 5).
    now rewrite Hst, HX, Z.mul_0_l, Z.lor_0_r.
Qed.

Lemma flag_commit_replays_witness :
  (exists jl s' c',
     events_since expire_pending_state
       (flags_set_sync_p2 O Side.S expire_pending_state) = map EJournal jl /\
     replay_lines (fun _ => blank_srec) jl 1 (expire_pending_state, None)
     = inr (s', c') /\
     srecs s' = srecs (flags_set_sync_p2 O Side.S expire_pending_state) /\
     smaxxuid s' = 7 /\
     smaxxuid (flags_set_sync_p2 O Side.S expire_pending_state) = 7) /\
  (exists jl s' c',
     events_since expiring_state
       (flags_set_sync_p2 O Side.S expiring_state) = map EJournal jl /\
     replay_lines (fun _ => blank_srec) jl 1 (expiring_state, None)
     = inr (s', c') /\
     srecs s' <> srecs (flags_set_sync_p2 O Side.S expiring_state)).
Proof.
  assert (forall x, 5 <= x <= 7 -> is_int x) as Hint
    by (unfold is_int, INT_MIN, INT_MAX; lia).
  split.
  - destruct (flag_commit_replays (fun _ => blank_srec) 1 None O Side.S
                expire_pending_state
                (mk_srec (5, 7) (Some O, Some O) (Z.lor S_EXPIRE S_NEXPIRE)
                   F_SEEN (0, 0) (0, 0) []))
      as (jl & s' & c' & Hev & Hrep & _ & Hiff);
      try reflexivity; try (apply Hint; cbn; lia);
      try (cbn; unfold F_SEEN; lia).
    exists jl, s', c'.
    assert (Side.S = Side.M \/
            has (Z.lor S_EXPIRE S_NEXPIRE) S_NEXPIRE
            = has (Z.lor S_EXPIRE S_NEXPIRE) S_EXPIRED \/
            has (Z.lor S_EXPIRE S_NEXPIRE) S_EXPIRE
            = has (Z.lor S_EXPIRE S_NEXPIRE) S_NEXPIRE) as Hag
      by (right; right; reflexivity).
    split; [exact Hev|]. split; [exact Hrep|].
    split; [exact (proj2 (proj1 Hiff) Hag)|].
    split; [|reflexivity]. exact (proj2 Hiff Hag).
  - destruct (flag_commit_replays (fun _ => blank_srec) 1 None O Side.S
                expiring_state
                (mk_srec (5, 7) (Some O, Some O) (Z.lor S_EXPIRE S_EXPIRED)
                   F_SEEN (0, 0) (0, 0) []))
      as (jl & s' & c' & Hev & Hrep & _ & Hiff);
      try reflexivity; try (apply Hint; cbn; lia);
      try (cbn; unfold F_SEEN; lia).
    exists jl, s', c'. split; [exact Hev|]. split; [exact Hrep|].
    intros Heq. destruct (proj1 (proj1 Hiff) Heq) as [H|[H|H]];
      vm_compute in H; discriminate.
Defined.

(* ------------------------------------------------------------------ *)
(** ** The synchronization of flags converges *)










(* ------------------------------------------------------------------ *)
(** ** The propagation of deletions *)

Lemma pairs_upd i f s :
  (forall r, uid (f r) = uid r /\ msg (f r) = msg r) ->
  pairs (upd_srec i f s) = pairs s.
Proof.
  intros Hf. unfold pairs. sv. generalize i.
  induction (srecs s) as [|r l IH]; intros [|j]; cbn; try reflexivity.
  - destruct (Hf r) as [-> ->]. reflexivity.
  - f_equal. apply IH.
Qed.

Lemma pairs_lookup s i u m :
  pairs s !! i = Some (u, m) <->
  exists r, srecs s !! i = Some r /\ uid r = u /\ msg r = m.
Proof.
  unfold pairs. rewrite list_lookup_fmap. split.
  - destruct (srecs s !! i) as [r|]; [|discriminate].
    intros [= <- <-]. eauto.
  - intros (r & -> & <- & <-). reflexivity.
Qed.

Lemma del_req_ok_ext a b e :
  ctx b = ctx a -> chan b = chan a -> pairs b = pairs a ->
  del_req_ok b e -> del_req_ok a e.
Proof.
  intros Hc Hch Hp. destruct e as [| |t c| | |]; try exact id.
  cbn [del_req_ok]. now rewrite Hc, Hch, Hp.
Qed.

Lemma old_pass_refl s : old_pass s s.
Proof.
  repeat split. exists []. split; [now rewrite app_nil_r | constructor].
Qed.

Lemma old_pass_trans a b c : old_pass a b -> old_pass b c -> old_pass a c.
Proof.
  intros (C1 & Ch1 & P1 & e1 & T1 & F1) (C2 & Ch2 & P2 & e2 & T2 & F2).
  split; [congruence|]. split; [congruence|]. split; [congruence|].
  exists (e1 ++ e2). split; [now rewrite T2, T1, app_assoc|].
  apply Forall_app. split; [exact F1|].
  eapply Forall_impl; [exact F2|]. intros e. now apply del_req_ok_ext.
Qed.

(** A step that changes no store, no UID and no message pointer, and
    makes no request. *)
Lemma old_pass_quiet a b evs :
  ctx b = ctx a -> chan b = chan a -> pairs b = pairs a ->
  trace b = trace a ++ evs ->
  Forall (fun e => is_drv e = false) evs ->
  old_pass a b.
Proof.
  intros Hc Hch Hp Ht Hq. repeat split; auto. exists evs.
  split; [exact Ht|]. eapply Forall_impl; [exact Hq|].
  intros [] H; try exact I. discriminate.
Qed.

Lemma sync_old_side_pass i del t s u m :
  pairs s !! i = Some (u, m) ->
  (sel (other t) del = true ->
   sel (other t) m = None /\
   has (opts (sel (other t) (ctx s))) OPEN_OLD = true /\
   0 < sel (other t) u) ->
  old_pass s (fst (sync_old_side i del t s)).
Proof.
  intros Hp Hdel. unfold sync_old_side.
  set (f1 := fun r => set_dflags (upd t 0 (dflags r))
                        (set_aflags (upd t 0 (aflags r)) r)).
  set (s1 := upd_srec i f1 s).
  set (f2 := fun r : sync_rec => match msg_of t r s1 with
                                 | Some m => _ | None => r end).
  set (s2 := upd_srec i f2 s1).
  assert (forall r, uid (f2 r) = uid r /\ msg (f2 r) = msg r) as Hf2.
  { intros r. unfold f2. destruct (msg_of t r s1) as [m'|]; [|now split].
    destruct (has (m_flags m') F_DELETED); now split. }
  assert (pairs s2 = pairs s) as Hp2.
  { unfold s2, s1. rewrite pairs_upd by exact Hf2.
    apply pairs_upd. intros r. now split. }
  assert (old_pass s s2) as H2.
  { apply old_pass_quiet with (evs := []);
      [reflexivity | reflexivity | exact Hp2
      | sv; now rewrite app_nil_r | constructor]. }
  destruct (srecs s2 !! i) as [srec|] eqn:Hi; [|exact H2].
  assert (uid srec = u /\ msg srec = m) as [Hu Hm].
  { assert (pairs s2 !! i = Some (uid srec, msg srec)) as H
      by (apply pairs_lookup; eauto).
    rewrite Hp2, Hp in H. injection H as <- <-. now split. }
  subst u m.
  destruct (Z.eqb_spec (sel t (uid srec)) 0) as [_|Hne]; [exact H2|].
  destruct (sel (other t) del) eqn:Hd.
  - destruct (Hdel eq_refl) as (D1 & D2 & D3).
    set (s3 := match msg_of t srec s2 with Some m => _ | None => s2 end).
    assert (old_pass s2 s3) as H3.
    { unfold s3. destruct (msg_of t srec s2) as [m'|];
        [|apply old_pass_refl].
      destruct (_ && _); [|apply old_pass_refl].
      eapply old_pass_quiet with (evs := [_]);
        [reflexivity | reflexivity | reflexivity | reflexivity
        | repeat constructor]. }
    destruct (has (sel t (ops (chan s3))) OP_DELETE) eqn:Hop;
      [|cbn [fst]; eapply old_pass_trans; eauto].
    eapply old_pass_trans; [exact H2|].
    eapply old_pass_trans; [exact H3|].
    match goal with
    | |- context [DRIVER_CALL t ?c ?x] =>
        destruct (DRIVER_CALL_frame t c x) as (Fs & Fc & _ & _ & _ & _ & Fch & _);
        destruct (DRIVER_CALL_rest t c x) as (_ & _ & _ & _ & _ & cb & Ftr & Fcb)
    end.
    sv_in Fs. sv_in Fc. sv_in Fch. sv_in Ftr.
    split; [exact Fc|]. split; [exact Fch|].
    split; [unfold pairs; now rewrite Fs|].
    eexists. split; [exact Ftr|]. constructor.
    + cbn [del_req_ok]. exists i, (uid srec), (msg srec).
      destruct H2 as (C2 & Ch2 & _), H3 as (C3 & Ch3 & P3 & _).
      rewrite C3, C2, P3, Hp2, Hp. repeat split; auto.
    + eapply Forall_impl; [exact Fcb|]. now intros e [r ->].
  - destruct (msg_of (other t) srec s2) as [m'|]; [|exact H2].
    destruct (sel t (uid srec) <? 0); [exact H2|].
    destruct (negb (sel t del)); [|exact H2].
    destruct (has (sel t (ops (chan s2))) OP_FLAGS); [|exact H2].
    destruct (flag_changes t srec (m_flags m')) as [a d].
    cbn [fst]. eapply old_pass_trans; [exact H2|].
    apply old_pass_quiet with (evs := []);
      [reflexivity | reflexivity | | sv; now rewrite app_nil_r
      | constructor].
    apply pairs_upd. intros r. now split.
Qed.

Lemma sync_old_entry_pass i s : old_pass s (fst (sync_old_entry i s)).
Proof.
  unfold sync_old_entry.
  destruct (srecs s !! i) as [srec|] eqn:Hi; [|apply old_pass_refl].
  destruct (has (status srec) (Z.lor S_DEAD S_DONE)); [apply old_pass_refl|].
  assert (pairs s !! i = Some (uid srec, msg srec)) as Hp
    by (apply pairs_lookup; eauto).
  match goal with
  | |- context [if ?a && ?b then _ else _] => destruct (a && b) eqn:Hno
  end.
  - cbn [fst]. eapply old_pass_quiet with (evs := [_]);
      [reflexivity | reflexivity | | reflexivity | repeat constructor].
    change (pairs (journal "-"%char (fmt_uids srec)
                     (upd_srec i (set_status S_DEAD) s)))
      with (pairs (upd_srec i (set_status S_DEAD) s)).
    apply pairs_upd. intros r. now split.
  - match goal with
    | |- context [sync_old_side i ?d Side.M s] => set (del := d)
    end.
    assert (forall t, sel t del = true ->
              sel t (msg srec) = None /\
              has (opts (sel t (ctx s))) OPEN_OLD = true /\
              0 < sel t (uid srec)) as Hdel.
    { intros t Ht. unfold del in Ht.
      destruct t; cbn [sel fst snd] in Ht |- *;
        apply andb_prop in Ht as [Hn Hu]; apply Z.ltb_lt in Hu;
        [destruct (fst (msg srec)) | destruct (snd (msg srec))];
        try discriminate; auto. }
    pose proof (sync_old_side_pass i del Side.M s _ _ Hp (Hdel Side.S)) as HM.
    destruct (sync_old_side i del Side.M s) as [s1 stop]. cbn [fst] in HM.
    destruct stop; [exact HM|].
    eapply old_pass_trans; [exact HM|].
    destruct HM as (C1 & Ch1 & P1 & _).
    apply (sync_old_side_pass i del Side.S s1 (uid srec) (msg srec)).
    + now rewrite P1.
    + rewrite C1. exact (Hdel Side.M).
Qed.

(** X23. The pass over the existing pairs makes no request but to
    propagate a deletion, and only a justified one: on a channel that
    propagates deletions to side [t], for a pair whose message of the
    other side was propagated and is gone from a mailbox whose old
    messages were loaded, it sets [F_DELETED] on the message of side [t],
    whose UID is not 0. *)
Theorem deletions_are_justified n s t c :
  In (EDrv t c) (events_since s (fst (sync_old n s))) ->
  exists i srec,
    srecs s !! i = Some srec /\
    c = set_flags (sel t (msg srec)) (sel t (uid srec)) F_DELETED 0
          (Cb_flags_set_del i) /\
    has (sel t (ops (chan s))) OP_DELETE = true /\
    sel t (uid srec) <> 0 /\
    sel (other t) (msg srec) = None /\
    has (opts (sel (other t) (ctx s))) OPEN_OLD = true /\
    0 < sel (other t) (uid srec).
Proof.
  intros Hin.
  assert (old_pass s (fst (sync_old n s))) as (_ & _ & _ & evs & Htr & Hall).
  { unfold sync_old.
    apply (for_range_rel old_pass sync_old_entry old_pass_refl
             old_pass_trans sync_old_entry_pass). }
  rewrite (events_since_app _ _ _ Htr) in Hin.
  rewrite List.Forall_forall in Hall. specialize (Hall _ Hin).
  cbn [del_req_ok] in Hall.
  destruct Hall as (i & u & m & Hp & Hc & H1 & H2 & H3 & H4 & H5).
  apply pairs_lookup in Hp as (r & Hr & <- & <-).
  exists i, r. auto 10.
Qed.

Lemma deletions_are_justified_witness :
  let c := set_flags (Some O) 7 F_DELETED 0 (Cb_flags_set_del O) in
  In (EDrv Side.S c)
     (events_since deleted_state (fst (sync_old 1 deleted_state))) /\
  exists i srec,
    srecs deleted_state !! i = Some srec /\
    c = set_flags (sel Side.S (msg srec)) (sel Side.S (uid srec)) F_DELETED 0
          (Cb_flags_set_del i) /\
    has (sel Side.S (ops (chan deleted_state))) OP_DELETE = true /\
    sel Side.S (uid srec) <> 0 /\
    sel Side.M (msg srec) = None /\
    has (opts (sel Side.M (ctx deleted_state))) OPEN_OLD = true /\
    0 < sel Side.M (uid srec).
Proof.
  intros c.
  assert (In (EDrv Side.S c)
            (events_since deleted_state (fst (sync_old 1 deleted_state))))
    as Hin by (vm_compute; auto).
  split; [exact Hin|].
  exact (deletions_are_justified 1 deleted_state Side.S c Hin).
Defined.

(* ------------------------------------------------------------------ *)
(** ** Where the TUID header goes *)

Lemma header_scan_line F more start lines hcrs : forall l i,
  forallb (fun c => negb (Ascii.eqb c CR) && negb (Ascii.eqb c NL)) l = true ->
  header_scan F (l ++ more) i start 0 lines hcrs
  = header_scan F more (i + length l) start 0 lines hcrs.
Proof.
  induction l as [|c l IH]; intros i Hl; cbn [app length].
  - now rewrite Nat.add_0_r.
  - cbn [forallb] in Hl. apply andb_prop in Hl as [Hc Hl].
    apply andb_prop in Hc as [H1 H2].
    apply negb_true_iff in H1, H2.
    cbn [header_scan]. rewrite H1, H2, IH by exact Hl.
    f_equal. lia.
Qed.

Lemma memcmp_not_tuid l more :
  hdr_line l = true -> memcmp_eq (l ++ NL :: more) X_TUID 8 = false.
Proof.
  unfold hdr_line. intros H.
  apply andb_prop in H as [H Hm]. apply andb_prop in H as [_ Hl].
  apply negb_true_iff in Hm.
  destruct l as [|c0 [|c1 [|c2 [|c3 [|c4 [|c5 [|c6 [|c7 l]]]]]]]];
    cbn in Hl |- *;
    repeat match goal with
           | |- context [Ascii.eqb ?c ?d] =>
               is_var c; destruct (Ascii.eqb c d) eqn:?
           end;
    try reflexivity;
    cbn in Hm;
    repeat match goal with
           | E : Ascii.eqb ?c ?d = _ |- _ => rewrite E in Hm; clear E
           end;
    cbn in Hm; congruence.
Qed.

Lemma header_scan_hdr F rest hcrs : forall ls pre lines,
  forallb hdr_line ls = true ->
  F = pre ++ hdr_text ls ++ rest ->
  header_scan F (hdr_text ls ++ rest) (length pre) (length pre) 0 lines hcrs
  = header_scan F rest (length pre + length (hdr_text ls))
      (length pre + length (hdr_text ls)) 0
      (lines + Z.of_nat (length ls)) hcrs.
Proof.
  induction ls as [|l ls IH]; intros pre lines Hls HF.
  - cbn [hdr_text map concat app length]. now rewrite Nat.add_0_r, Z.add_0_r.
  - cbn [forallb] in Hls. apply andb_prop in Hls as [Hl Hls].
    assert (Hl' := Hl). unfold hdr_line in Hl'.
    apply andb_prop in Hl' as [Hl' _]. apply andb_prop in Hl' as [Hne Hpl].
    change (hdr_text (l :: ls)) with ((l ++ [NL]) ++ hdr_text ls) in *.
    rewrite <- !app_assoc. cbn [app].
    rewrite header_scan_line by exact Hpl.
    cbn [header_scan].
    change (Ascii.eqb NL CR) with false. change (Ascii.eqb NL NL) with true.
    cbn iota.
    assert (skipn (length pre) F = l ++ NL :: hdr_text ls ++ rest) as ->.
    { rewrite HF, <- !app_assoc. cbn [app]. apply drop_app_length. }
    rewrite memcmp_not_tuid by exact Hl.
    assert ((Z.of_nat (Datatypes.S (length pre + length l)) - 0 - 1
             =? Z.of_nat (length pre)) = false) as ->.
    { apply Z.eqb_neq. destruct l; [discriminate|]. cbn [length]. lia. }
    rewrite Z.add_0_r.
    specialize (IH (pre ++ l ++ [NL]) (lines + 1) Hls).
    rewrite !length_app in IH. cbn [length] in IH.
    replace (length pre + (length l + 1))%nat
      with (Datatypes.S (length pre + length l)) in IH by lia.
    rewrite IH by (rewrite HF, <- !app_assoc; reflexivity).
    rewrite !length_app. cbn [length].
    f_equal; lia.
Qed.

(** X24. Between two drivers with LF line ends, a message whose header
    lines are plain gets the TUID of its record as one header line: if
    the header has none, the line is added as the last line of the header,
    before the empty line; if it has one, that line is replaced.  All
    other bytes stay, so that a message copied twice carries one TUID
    header, the last one. *)
Theorem tuid_header_placed tu ls old body rest :
  forallb hdr_line ls = true ->
  forallb (fun c => negb (Ascii.eqb c CR) && negb (Ascii.eqb c NL)) old
  = true ->
  let added := hdr_text ls ++ tuid_line tu ++ NL :: body in
  let replaced := hdr_text ls ++ tuid_line tu ++ rest in
  msg_rewrite (Some tu) false false (hdr_text ls ++ NL :: body)
  = Some (Z.of_nat (length added), added) /\
  msg_rewrite (Some tu) false false
    (hdr_text ls ++ (X_TUID ++ old ++ [NL]) ++ rest)
  = Some (Z.of_nat (length replaced), replaced).
Proof.
  intros Hls Hold. cbn zeta. split.
  - unfold msg_rewrite.
    pose proof (header_scan_hdr (hdr_text ls ++ NL :: body) (NL :: body) 0
                  ls [] 0 Hls eq_refl) as H.
    cbn [length app Nat.add] in H. rewrite H. clear H.
    cbn [header_scan].
    change (Ascii.eqb NL CR) with false. change (Ascii.eqb NL NL) with true.
    cbn iota.
    rewrite drop_app_length.
    change (memcmp_eq (NL :: body) X_TUID 8) with false. cbn iota.
    assert ((Z.of_nat (Datatypes.S (length (hdr_text ls))) - 0 - 1
             =? Z.of_nat (length (hdr_text ls))) = true) as ->
      by (apply Z.eqb_eq; lia).
    cbn [sbreak ebreak h_extra h_hcrs h_i h_lines xorb tuid_cr andb copy_part].
    rewrite take_app_length, drop_app_length.
    unfold tuid_line. rewrite <- ?app_assoc. cbn [app].
    f_equal. f_equal.
    repeat (rewrite length_app || rewrite length_map || rewrite length_seq
            || cbn [length]).
    change (length X_TUID) with 8%nat. change TUIDL with 12%nat. lia.
  - unfold msg_rewrite.
    pose proof (header_scan_hdr
                  (hdr_text ls ++ (X_TUID ++ old ++ [NL]) ++ rest)
                  ((X_TUID ++ old ++ [NL]) ++ rest) 0
                  ls [] 0 Hls eq_refl) as H.
    cbn [length app Nat.add] in H. rewrite H. clear H.
    rewrite <- !app_assoc.
    change (X_TUID ++ old ++ [NL] ++ rest)
      with (X_TUID ++ (old ++ NL :: rest)).
    rewrite header_scan_line by reflexivity.
    rewrite header_scan_line by exact Hold.
    cbn [header_scan].
    change (Ascii.eqb NL CR) with false. change (Ascii.eqb NL NL) with true.
    cbn iota.
    rewrite drop_app_length.
    change (memcmp_eq (X_TUID ++ old ++ NL :: rest) X_TUID 8) with true.
    cbn iota.
    cbn [sbreak ebreak h_extra h_hcrs h_i h_lines xorb tuid_cr andb copy_part].
    rewrite take_app_length.
    assert (skipn (Datatypes.S (length (hdr_text ls) + length X_TUID
                                + length old))
              (hdr_text ls ++ X_TUID ++ old ++ NL :: rest) = rest) as ->.
    { replace (Datatypes.S (length (hdr_text ls) + length X_TUID
                            + length old))
        with (length (hdr_text ls ++ X_TUID ++ old ++ [NL]))
        by (rewrite !length_app; cbn [length]; lia).
      replace (hdr_text ls ++ X_TUID ++ old ++ NL :: rest)
        with ((hdr_text ls ++ X_TUID ++ old ++ [NL]) ++ rest)
        by (now rewrite <- !app_assoc).
      apply drop_app_length. }
    unfold tuid_line. rewrite <- ?app_assoc. cbn [app].
    f_equal. f_equal.
    repeat (rewrite length_app || rewrite length_map || rewrite length_seq
            || cbn [length]).
    change (length X_TUID) with 8%nat. change TUIDL with 12%nat. lia.
Qed.

Lemma tuid_header_placed_witness :
  let ls := [["T"; "o"; ":"; "a"]; ["C"; "c"; ":"; "b"]]%char in
  let old := ["z"; "z"]%char in
  let body := ["h"; "i"; NL]%char in
  let added := hdr_text ls ++ tuid_line sample_tuid ++ NL :: body in
  msg_rewrite (Some sample_tuid) false false (hdr_text ls ++ NL :: body)
  = Some (Z.of_nat (length added), added) /\
  msg_rewrite (Some sample_tuid) false false
    (hdr_text ls ++ (X_TUID ++ old ++ [NL]) ++ NL :: body)
  = Some (Z.of_nat (length added), added).
Proof.
  intros ls old body added.
  apply (tuid_header_placed sample_tuid ls old body (NL :: body));
    reflexivity.
Defined.

(* ------------------------------------------------------------------ *)
(** ** What the journal says about a new message *)

Lemma journal_lines_app a b :
  journal_lines (a ++ b) = journal_lines a ++ journal_lines b.
Proof.
  induction a as [|e a IH]; [reflexivity|].
  destruct e; cbn [app journal_lines]; now rewrite IH.
Qed.

Lemma journal_lines_callbacks cb :
  Forall (fun e => exists r, e = ECallback r) cb -> journal_lines cb = [].
Proof.
  induction 1 as [|e cb [r ->] _ IH]; [reflexivity|exact IH].
Qed.

(** The replay of a [+] entry. *)
Lemma replay_plus_line nfmalloc buf t1 t2 rest line s c :
  incomplete buf = false ->
  parse_jline (c_str buf) = Some (mk_jline "+"%char t1 t2 0 []) ->
  replay_lines nfmalloc (buf :: rest) line (s, c)
  = replay_lines nfmalloc rest (Datatypes.S line)
      (srec_add (plus_srec (nfmalloc (length (srecs s))) t1 t2) s,
       Some (length (srecs s))).
Proof.
  intros Hinc Hparse. cbn [replay_lines]. rewrite Hinc, Hparse.
  unfold replay_entry. cbn [j_op j_t1 j_t2]. eval_eqb. cbn iota.
  reflexivity.
Qed.

Lemma lookup_last_added {A} (l : list A) x : (l ++ [x]) !! length l = Some x.
Proof.
  rewrite lookup_app_r by lia. now rewrite Nat.sub_diag.
Qed.

Lemma alter_last_added {A} (f : A -> A) (l : list A) x :
  alter f (length l) (l ++ [x]) = l ++ [f x].
Proof.
  induction l as [|y l IH]; [reflexivity|]. cbn. now rewrite IH.
Qed.

(** X25. A new message that is about to be copied is in the journal
    first.  For a message without sync record that the pass over new
    messages decides to copy, replaying the journal entries written for it
    onto the state before adds one record, as the pass did in memory, with
    the same UIDs (the UID of the message and -2), the flags of the
    message and the TUID that was generated, and not marked as done: what
    a later run needs to find the copy or to make it again. *)
Theorem new_message_is_journaled nfmalloc nfmalloc' rnd t k s tmsg line c :
  msgs (sel (other t) (ctx s)) !! k = Some tmsg ->
  m_srec tmsg = None ->
  has (sel t (ops (chan s))) OP_NEW = true ->
  has (sel t (ops (chan s))) OP_EXPUNGE && has (m_flags tmsg) F_DELETED
  = false ->
  has (m_flags tmsg) F_FLAGGED ||
  (m_size tmsg <=? max_size (sel t (stores (chan s)))) = true ->
  is_int (m_uid tmsg) -> 0 <= m_flags tmsg < 256 ->
  let s' := fst (sync_new_msg nfmalloc rnd t k s) in
  let tu := map (fun j => tuid_char (rnd j)) (seq 0 TUIDL) in
  exists r' s'' c' r'',
    srecs s' = srecs s ++ [r'] /\
    replay_lines nfmalloc' (journal_lines (events_since s s')) line (s, c)
    = inr (s'', c') /\
    srecs s'' = srecs s ++ [r''] /\
    uid r'' = uid r' /\
    sel t (uid r') = -2 /\ sel (other t) (uid r') = m_uid tmsg /\
    flags r'' = flags r' /\ flags r' = m_flags tmsg /\
    firstn TUIDL (tuid r'') = tu /\ tuid r' = tu /\
    status r'' = 0.
Proof.
  intros Hk Hnone Hnew Hexp Hsize Hint Hfl. cbn zeta.
  unfold sync_new_msg. rewrite Hk.
  unfold new_msg_cond. rewrite Hnone, Hnew. cbn [negb]. rewrite Hexp.
  set (n := length (srecs s)).
  set (srec := new_srec (nfmalloc n) t tmsg).
  assert (srecs (journal "+"%char (fmt_uids srec) (srec_add srec s)) !! n
          = Some srec) as Hn by (sv; apply lookup_last_added).
  rewrite Hn. change (chan (journal "+"%char (fmt_uids srec) (srec_add srec s)))
    with (chan s). rewrite Hsize.
  set (tu := map (fun j => tuid_char (rnd j)) (seq 0 TUIDL)).
  assert (sel t (uid srec) = -2 /\ sel (other t) (uid srec) = m_uid tmsg)
    as [Ut Uo] by (unfold srec, new_srec; destruct t; now cbn).
  assert (is_int (sel Side.M (uid srec)) /\ is_int (sel Side.S (uid srec)))
    as [IM IS].
  { destruct t; cbn [other] in Uo; rewrite ?Ut, ?Uo; split; auto;
      unfold is_int, INT_MIN, INT_MAX; lia. }
  (* the entries and their replay *)
  destruct (jline_round_trip "+"%char _ _ 0 IM IS
              ltac:(unfold is_int, INT_MIN, INT_MAX; lia)) as (_ & Hp & _).
  destruct (Hp eq_refl) as [Pinc Ppar].
  destruct (jline_round_trip "*"%char _ _ (m_flags tmsg) IM IS
              ltac:(unfold is_int, INT_MIN, INT_MAX; lia)) as (_ & _ & Hs).
  destruct (Hs eq_refl) as [Sinc Spar].
  destruct (generated_tuid_spec rnd _ _ IM IS) as (_ & _ & _ & Hft & Tinc & t3 & Tpar).
  fold tu in Hft, Tinc, Tpar.
  assert (fmt_u (m_flags tmsg) = fmt_d (m_flags tmsg)) as Hu.
  { unfold fmt_u, fmt_d. destruct (Z.ltb_spec (m_flags tmsg) 0); [lia|reflexivity]. }
  assert (length tu = TUIDL) as Htl
    by (unfold tu; now rewrite length_map, length_seq).
  set (p := plus_srec (nfmalloc' n) (sel Side.M (uid srec))
              (sel Side.S (uid srec))).
  assert (uid p = uid srec) as Up
    by (unfold p, plus_srec; cbn [uid]; now destruct (uid srec)).
  match goal with
  | |- context [copy_msg ?v ?x] =>
      destruct (DRIVER_CALL_frame (other t) (fetch_msg v) x) as (Fs & _);
      destruct (DRIVER_CALL_rest (other t) (fetch_msg v) x)
        as (_ & _ & _ & _ & _ & cb & Ftr & Fcb)
  end.
  unfold copy_msg. cbn [cv_aux].
  destruct (Z.eqb_spec (m_flags tmsg) 0) as [E0|E0]; cbn [negb] in *.
  - (* no flags: [+] and [#] *)
    exists (set_tuid tu srec),
      (upd_srec n (fun r => set_tuid (tuid_copy tu (tuid r)) r)
         (srec_add p s)),
      (Some n), (set_tuid (tuid_copy tu (tuid p)) p).
    split; [rewrite Fs; sv; unfold n; now rewrite alter_last_added|].
    split.
    { rewrite (events_since_app _ _ _
                 ltac:(rewrite Ftr; sv; rewrite <- !app_assoc; reflexivity)).
      cbn [app journal_lines].
      rewrite (journal_lines_callbacks _ Fcb).
      unfold fmt_uids. cbn [app].
      rewrite (replay_plus_line nfmalloc' _ _ _ _ line s c Pinc Ppar).
      fold n. fold p.
      erewrite (replay_rec_line nfmalloc' _ _ [] _ (srec_add p s) (Some n) n p _
                 Tinc Tpar eq_refl); [reflexivity| |].
      - cbn [j_t1 j_t2]. apply syncfnd_at; [sv; apply lookup_last_added|].
        rewrite <- Up. apply uid_is_refl.
      - unfold replay_srec. cbn [j_op j_tuid]. eval_eqb. cbn iota.
        reflexivity. }
    split; [sv; unfold n; now rewrite alter_last_added|].
    cbn [uid flags tuid status set_tuid].
    repeat split; auto;
      try (unfold srec, new_srec; cbn [flags]; congruence);
      try (unfold tuid_copy; rewrite firstn_all2 by lia;
           rewrite take_app_length'; [reflexivity | exact Htl]).
  - (* flags: [+], [*] and [#] *)
    exists (set_tuid tu (set_flags_ (m_flags tmsg) srec)),
      (upd_srec n (fun r => set_tuid (tuid_copy tu (tuid r)) r)
         (upd_srec n (set_flags_ (to_uchar (m_flags tmsg)))
            (srec_add p s))),
      (Some n),
      (set_tuid (tuid_copy tu (tuid p))
         (set_flags_ (to_uchar (m_flags tmsg)) p)).
    split; [rewrite Fs; sv; unfold n;
            now rewrite list_alter_alter_eq, alter_last_added|].
    split.
    { rewrite (events_since_app _ _ _
                 ltac:(rewrite Ftr; sv; rewrite <- !app_assoc; reflexivity)).
      cbn [app journal_lines].
      rewrite (journal_lines_callbacks _ Fcb).
      unfold fmt_uids. cbn [app]. rewrite Hu.
      rewrite (replay_plus_line nfmalloc' _ _ _ _ line s c Pinc Ppar).
      fold n. fold p.
      erewrite (replay_rec_line nfmalloc' _ _ _ _ (srec_add p s) (Some n) n p _
                 Sinc Spar eq_refl); cycle 1.
      { cbn [j_t1 j_t2]. apply syncfnd_at; [sv; apply lookup_last_added|].
        rewrite <- Up. apply uid_is_refl. }
      { unfold replay_srec. cbn [j_op j_t3]. eval_eqb. cbn iota.
        reflexivity. }
      erewrite (replay_rec_line nfmalloc' _ _ [] _ _ (Some n) n
                  (set_flags_ (to_uchar (m_flags tmsg)) p) _
                  Tinc Tpar eq_refl); cycle 1.
      { cbn [j_t1 j_t2].
        apply syncfnd_at;
          [sv; unfold n; rewrite alter_last_added;
           apply lookup_last_added|].
        rewrite <- Up.
        exact (uid_is_refl (set_flags_ (to_uchar (m_flags tmsg)) p)). }
      { unfold replay_srec. cbn [j_op j_tuid]. eval_eqb. cbn iota.
        reflexivity. }
      reflexivity. }
    split; [sv; unfold n;
            now rewrite list_alter_alter_eq, alter_last_added|].
    cbn [uid flags tuid status set_tuid set_flags_].
    repeat split; auto;
      try (unfold to_uchar; apply Z.mod_small; lia);
      try (unfold tuid_copy; rewrite firstn_all2 by lia;
           rewrite take_app_length'; [reflexivity | exact Htl]).
Qed.

Lemma new_message_is_journaled_witness :
  let s' := fst (sync_new_msg (fun _ => blank_srec) (fun _ => 0) Side.S O
                   new_mail_state) in
  let tu := map (fun j : nat => tuid_char 0) (seq 0 TUIDL) in
  journal_lines (events_since new_mail_state s')
  = [jfmt "+"%char [fmt_d 5; fmt_d (-2)];
     jfmt "*"%char [fmt_d 5; fmt_d (-2); fmt_u F_SEEN];
     jfmt "#"%char [fmt_d 5; fmt_d (-2); tu]] /\
  exists r' s'' c' r'',
    srecs s' = srecs new_mail_state ++ [r'] /\
    replay_lines (fun _ => blank_srec)
      (journal_lines (events_since new_mail_state s')) 1
      (new_mail_state, None) = inr (s'', c') /\
    srecs s'' = srecs new_mail_state ++ [r''] /\
    uid r'' = uid r' /\
    sel Side.S (uid r') = -2 /\ sel (other Side.S) (uid r') = 5 /\
    flags r'' = flags r' /\ flags r' = F_SEEN /\
    firstn TUIDL (tuid r'') = tu /\ tuid r' = tu /\
    status r'' = 0.
Proof.
  intros s' tu. split; [reflexivity|].
  apply (new_message_is_journaled (fun _ => blank_srec) (fun _ => blank_srec)
           (fun _ => 0) Side.S O new_mail_state
           (mk_msg None 10 5 F_SEEN M_FLAGS []) 1 None);
    try reflexivity; vm_compute; split; (discriminate || reflexivity).
Defined.

(* ------------------------------------------------------------------ *)
(** ** What the purge removes *)

Lemma purge_srec_outcome mw i r a s r' :
  state a = state s ->
  srecs a !! i = Some r ->
  srecs (purge_srec mw i r a) !! i = Some r' ->
  purge_outcome s r r'.
Proof.
  intros Hst Hi. unfold purge_srec, purge_outcome.
  assert (forall t, expunged t r a = expunged t r s) as He
    by (intros t; unfold expunged; now rewrite Hst).
  rewrite !He.
  assert (forall x, Some r = Some x ->
            (live r = true -> live x = false ->
             (sel Side.S (uid r) <= 0 \/ expunged Side.S r s = true) /\
             (sel Side.M (uid r) <= 0 \/ expunged Side.M r s = true \/
              has (status r) S_EXPIRED = true)) /\
            (forall t, sel t (uid x) <> sel t (uid r) ->
                       sel t (uid x) = 0 /\ expunged t r s = true) /\
            (0 < sel Side.M (uid r) -> 0 < sel Side.S (uid r) ->
             expunged Side.M r s = false -> expunged Side.S r s = false ->
             x = r)) as Hsame.
  { intros x [= <-]. split; [congruence|]. split; [congruence|]. auto. }
  destruct (has (status r) S_DEAD) eqn:Hd; [rewrite Hi; apply Hsame|].
  destruct ((sel Side.S (uid r) <=? 0) || expunged Side.S r s) eqn:HA.
  - assert (sel Side.S (uid r) <= 0 \/ expunged Side.S r s = true) as HA'
      by (apply orb_prop in HA as [HA|HA];
          [left; now apply Z.leb_le | now right]).
    destruct ((sel Side.M (uid r) <=? 0) || expunged Side.M r s || _) eqn:HB.
    + (* killed *)
      sv. rewrite list_lookup_alter_eq, Hi. intros [= <-].
      split; [|split].
      * intros _ _. split; [exact HA'|].
        apply orb_prop in HB as [HB|HB].
        -- apply orb_prop in HB as [HB|HB];
             [left; now apply Z.leb_le | right; now left].
        -- right. right. apply andb_prop in HB as [HB _].
           now apply andb_prop in HB as [HB _].
      * intros t Hne. cbn [uid set_status] in Hne. congruence.
      * intros HM HS EM ES. destruct HA'; [lia | congruence].
    + destruct (0 <? sel Side.S (uid r)) eqn:HC; [|rewrite Hi; apply Hsame].
      (* the slave UID is given up *)
      apply Z.ltb_lt in HC.
      sv. rewrite list_lookup_alter_eq, Hi. intros [= <-].
      split; [|split].
      * unfold live. cbn [status set_uid]. congruence.
      * intros t Hne.
        destruct t; cbn [uid set_uid sel upd fst snd] in *; [congruence|].
        split; [reflexivity|]. destruct HA'; [lia | assumption].
      * intros HM HS EM ES. destruct HA'; [lia | congruence].
  - apply orb_false_elim in HA as [HA1 HA2].
    destruct ((0 <? sel Side.M (uid r)) && expunged Side.M r s) eqn:HB;
      [|rewrite Hi; apply Hsame].
    (* the master UID is given up *)
    apply andb_prop in HB as [HB1 HB2].
    sv. rewrite list_lookup_alter_eq, Hi. intros [= <-].
    split; [|split].
    + unfold live. cbn [status set_uid]. congruence.
    + intros t Hne.
      destruct t; cbn [uid set_uid sel upd fst snd] in *; [|congruence].
      split; [reflexivity | assumption].
    + intros HM HS EM ES. congruence.
Qed.

Lemma purge_loop_outcome mw s0 : forall rs j s,
  state s = state s0 ->
  (forall k r, rs !! k = Some r -> srecs s !! (j + k)%nat = Some r) ->
  forall k r r',
    rs !! k = Some r ->
    srecs (for_srecs (purge_srec mw) j rs s) !! (j + k)%nat = Some r' ->
    purge_outcome s0 r r'.
Proof.
  induction rs as [|r0 rs IH]; intros j s Hst Hrs k r r' Hk;
    cbn [for_srecs]; [discriminate|].
  assert (srecs s !! j = Some r0) as Hj
    by (rewrite <- (Nat.add_0_r j); now apply Hrs).
  destruct k as [|k].
  - injection Hk as ->. rewrite Nat.add_0_r, purge_loop_before by lia.
    now apply purge_srec_outcome.
  - replace (j + Datatypes.S k)%nat with (Datatypes.S j + k)%nat by lia.
    apply IH; [| |exact Hk].
    + destruct (purge_srec_frame mw j r0 s) as (_ & _ & _ & E & _).
      congruence.
    + intros k0 r1 Hk0. rewrite purge_srec_other by lia.
      replace (Datatypes.S j + k0)%nat with (j + Datatypes.S k0)%nat by lia.
      now apply Hrs.
Qed.

(** X26. The purge before the commit removes only what is gone.  A
    record is killed only if its slave message is gone (it has no slave
    UID, or the message was deleted and the slave expunged) and its
    master message is gone in the same way or the pair was expired; a
    UID is set to 0 only on a side whose message was deleted and
    expunged; and a pair that has both UIDs and none of whose messages
    was expunged is not touched. *)
Theorem purge_removes_only_gone s i r r' :
  srecs s !! i = Some r ->
  srecs (purge s) !! i = Some r' ->
  purge_outcome s r r'.
Proof.
  intros Hi Hi'. unfold purge in Hi'.
  destruct (has _ ST_DID_EXPUNGE).
  - apply (purge_loop_outcome (purge_minwuid s) s (srecs s) 0 s eq_refl)
      with (k := i); auto.
  - assert (r' = r) by congruence. subst r'.
    split; [congruence|]. split; [congruence|]. auto.
Qed.

Lemma purge_removes_only_gone_witness :
  let r := mk_srec (5, 7) (None, None) (S_DEL Side.S) F_SEEN (0, 0) (0, 0) [] in
  let r' := set_uid (5, 0) r in
  srecs purge_state !! O = Some r /\
  srecs (purge purge_state) !! O = Some r' /\
  expunged Side.S r purge_state = true /\
  purge_outcome purge_state r r'.
Proof.
  intros r r'. split; [reflexivity|]. split; [reflexivity|].
  split; [reflexivity|].
  apply (purge_removes_only_gone purge_state O r r'); reflexivity.
Defined.

(* ------------------------------------------------------------------ *)
(** ** C6: [smaxxuid] over the functions of the engine *)

Lemma quiet_nfp evs :
  forallb no_state_write evs = true ->
  nfp_content evs = [].
Proof.
  induction evs as [|e evs IH]; [reflexivity|].
  cbn [forallb]. intros H. apply andb_prop in H. destruct H as [He H].
  destruct e; try discriminate; cbn [nfp_content]; auto.
Qed.

Lemma quiet_no_rename evs :
  forallb no_state_write evs = true ->
  existsb is_rename evs = false.
Proof.
  induction evs as [|e evs IH]; [reflexivity|].
  cbn [forallb existsb]. intros H. apply andb_prop in H.
  destruct H as [He H]. rewrite (IH H), orb_false_r.
  destruct e as [| | |f| |]; try reflexivity. now destruct f.
Qed.

Lemma state_writes_weaken lo hi lo' hi' evs :
  lo' <= lo -> hi <= hi' -> state_writes lo hi evs -> state_writes lo' hi' evs.
Proof.
  intros Hlo Hhi [Hq|(sc & rest & Hn & Hb)]; [now left|].
  right. exists sc, rest. split; [exact Hn | lia].
Qed.

Lemma state_writes_app lo mid hi evs1 evs2 :
  lo <= mid <= hi ->
  state_writes lo mid evs1 -> state_writes mid hi evs2 ->
  state_writes lo hi (evs1 ++ evs2).
Proof.
  intros Hm [Hq1|(sc & rest & Hn & Hb)] H2.
  - destruct H2 as [Hq2|(sc & rest & Hn & Hb)].
    + left. now rewrite forallb_app, Hq1, Hq2.
    + right. exists sc, rest. rewrite nfp_content_app, (quiet_nfp _ Hq1).
      split; [exact Hn | lia].
  - right. exists sc, (rest ++ nfp_content evs2).
    rewrite nfp_content_app, Hn, <- app_assoc. split; [reflexivity | lia].
Qed.

Lemma kp_refl s : smaxx_keeps s s.
Proof.
  split; [lia|]. exists []. split; [now rewrite app_nil_r | now left].
Qed.

Lemma kp_trans a b c : smaxx_keeps a b -> smaxx_keeps b c -> smaxx_keeps a c.
Proof.
  intros (H1 & e1 & T1 & W1) (H2 & e2 & T2 & W2). split; [lia|].
  exists (e1 ++ e2). split; [now rewrite T2, T1, app_assoc|].
  apply (state_writes_app _ (smaxxuid b)); auto.
Qed.

Lemma kp_same s s' :
  smaxxuid s' = smaxxuid s -> trace s' = trace s -> smaxx_keeps s s'.
Proof.
  intros Hx Ht. split; [lia|]. exists [].
  split; [now rewrite app_nil_r | now left].
Qed.

Lemma kp_event e s s' :
  smaxxuid s' = smaxxuid s -> trace s' = trace s ++ [e] ->
  is_state_write e = false -> smaxx_keeps s s'.
Proof.
  intros Hx Ht He. split; [lia|]. exists [e]. split; [exact Ht|].
  left. cbn. unfold no_state_write. now rewrite He.
Qed.

Lemma kp_raise e s s' :
  smaxxuid s <= smaxxuid s' -> trace s' = trace s ++ [e] ->
  is_state_write e = false -> smaxx_keeps s s'.
Proof.
  intros Hx Ht He. split; [lia|]. exists [e]. split; [exact Ht|].
  left. cbn. unfold no_state_write. now rewrite He.
Qed.

Lemma kp_raise0 s s' :
  smaxxuid s <= smaxxuid s' -> trace s' = trace s -> smaxx_keeps s s'.
Proof.
  intros Hx Ht. split; [lia|]. exists [].
  split; [now rewrite app_nil_r | now left].
Qed.

Lemma kp_extends (P : event -> bool) s s' :
  (forall e, P e = true -> is_state_write e = false) ->
  smaxxuid s' = smaxxuid s -> extends P s s' -> smaxx_keeps s s'.
Proof.
  intros HP Hx (evs & Ht & Hall). split; [lia|]. exists evs.
  split; [exact Ht|]. left. rewrite forallb_forall in *.
  intros e He. unfold no_state_write. now rewrite (HP e (Hall e He)).
Qed.

Create HintDb kpdb.

(** One step of a proof that a function keeps [smaxxuid]: the outermost
    call is split off. *)
Ltac kp_peel :=
  lazymatch goal with
  | |- smaxx_keeps ?s ?s => apply kp_refl
  | H : smaxx_keeps ?s ?x |- smaxx_keeps ?s ?x => exact H
  | |- smaxx_keeps ?s (fst (?f ?x)) =>
      apply (kp_trans s x); [| solve [auto 3 with kpdb]]
  | |- smaxx_keeps ?s (snd (?f ?x)) =>
      apply (kp_trans s x); [| solve [auto 3 with kpdb]]
  | |- smaxx_keeps ?s (?f ?x) =>
      apply (kp_trans s x);
      [| first [ solve [auto 3 with kpdb]
               | apply kp_same; reflexivity
               | eapply kp_event; reflexivity ] ]
  end.

Ltac kp := repeat kp_peel.

(** The case analysis of the body of a function. *)
Ltac kp_case :=
  match goal with
  | |- smaxx_keeps _ ?rhs =>
      match rhs with
      | context [if ?b then _ else _] => destruct b eqn:?
      | context [match ?x with Some _ => _ | None => _ end] =>
          destruct x eqn:?
      | context [match ?x with Side.M => _ | Side.S => _ end] => destruct x
      | context [match ?x with (_, _) => _ end] =>
          match goal with
          | |- smaxx_keeps ?s _ =>
              first [ assert (smaxx_keeps s (fst x)) by kp
                    | assert (smaxx_keeps s (snd x)) by kp
                    | idtac ];
              destruct x as [? ?] eqn:?; cbn [fst snd] in *
          end
      end
  end.

Ltac kp_auto := cbn zeta; repeat kp_case; cbn [fst snd]; kp.

Lemma kp_sync_deref s : smaxx_keeps s (fst (sync_deref s)).
Proof.
  apply (kp_extends no_change); [now intros [| | |[]| |]|
    apply (sync_deref_frame s) | apply sync_deref_extends].
Qed.
#[local] Hint Resolve kp_sync_deref : kpdb.

Lemma kp_sync_bail3 s : smaxx_keeps s (sync_bail3 s).
Proof. apply kp_sync_deref. Qed.
#[local] Hint Resolve kp_sync_bail3 : kpdb.

Lemma kp_sync_bail2 s : smaxx_keeps s (sync_bail2 s).
Proof. apply kp_sync_deref. Qed.
#[local] Hint Resolve kp_sync_bail2 : kpdb.

Lemma kp_sync_bail1 s : smaxx_keeps s (sync_bail1 s).
Proof. unfold sync_bail1. kp_auto. Qed.
#[local] Hint Resolve kp_sync_bail1 : kpdb.

Lemma kp_sync_bail s : smaxx_keeps s (sync_bail s).
Proof. unfold sync_bail. kp_auto. Qed.
#[local] Hint Resolve kp_sync_bail : kpdb.

Lemma kp_deref_check_cancel s : smaxx_keeps s (fst (deref_check_cancel s)).
Proof. unfold deref_check_cancel. kp_auto. Qed.
#[local] Hint Resolve kp_deref_check_cancel : kpdb.

Lemma kp_DRIVER_CALL t c s : smaxx_keeps s (fst (DRIVER_CALL t c s)).
Proof. unfold DRIVER_CALL. kp_auto. Qed.
#[local] Hint Resolve kp_DRIVER_CALL : kpdb.

Lemma kp_cancel_done t s : smaxx_keeps s (cancel_done t s).
Proof. unfold cancel_done. kp_auto. Qed.
#[local] Hint Resolve kp_cancel_done : kpdb.

Lemma kp_cancel_side t s : smaxx_keeps s (cancel_side t s).
Proof. unfold cancel_side. kp_auto. Qed.
#[local] Hint Resolve kp_cancel_side : kpdb.

Lemma kp_cancel_sync s : smaxx_keeps s (cancel_sync s).
Proof. unfold cancel_sync. kp_auto. Qed.
#[local] Hint Resolve kp_cancel_sync : kpdb.

Lemma kp_store_bad t s : smaxx_keeps s (store_bad t s).
Proof. unfold store_bad. kp_auto. Qed.
#[local] Hint Resolve kp_store_bad : kpdb.

Lemma kp_check_ret sts s : smaxx_keeps s (fst (check_ret sts s)).
Proof. unfold check_ret. kp_auto. Qed.
#[local] Hint Resolve kp_check_ret : kpdb.

Lemma kp_purge s : smaxx_keeps s (purge s).
Proof.
  destruct (purge_journals s) as (jl & Ht & _).
  split; [rewrite (proj1 (proj2 (proj2 (proj2 (proj2 (proj2 (proj2
            (purge_purge_frame s)))))))); lia|].
  exists (map EJournal jl). split; [exact Ht|]. left.
  clear Ht. induction jl as [|l jl IH]; [reflexivity | exact IH].
Qed.
#[local] Hint Resolve kp_purge : kpdb.

(** The commit: the header that is written is the one of the state after
    the purge, whose [smaxxuid] is that of the state before. *)
Lemma kp_box_closed_p2 t s : smaxx_keeps s (box_closed_p2 t s).
Proof.
  unfold box_closed_p2. cbn zeta.
  set (s1 := state_or t ST_CLOSED s).
  destruct (negb _); [unfold s1; kp|].
  assert (smaxx_keeps s (purge s1)) as Hp by (unfold s1; kp).
  destruct Hp as (Hx0 & ev0 & Ht0 & Hq0).
  assert (smaxxuid (purge s1) = smaxxuid s) as Hsc
    by apply (purge_purge_frame s1).
  set (sc := purge s1) in *.
  set (ws := write_new_state sc).
  assert (smaxxuid ws = smaxxuid sc) as Hws
    by (unfold ws; now rewrite write_new_state_eq).
  assert (smaxxuid (commit_files ws) = smaxxuid ws /\
          exists ev, trace (commit_files ws) = trace ws ++ ev)
    as (Hcf & ev1 & Ht1).
  { unfold commit_files. cbn zeta. destruct (negb _); sv.
    - split; [reflexivity|]. eexists. rewrite <- !app_assoc. reflexivity.
    - split; [reflexivity|]. eexists. rewrite <- !app_assoc. reflexivity. }
  destruct (kp_sync_bail (commit_files ws)) as (Hx2 & ev2 & Ht2 & _).
  split; [lia|].
  exists (ev0 ++
          map ENewState
            (state_header_line sc ::
             map state_entry_line (List.filter live (srecs sc))) ++
          ev1 ++ ev2).
  split.
  { rewrite Ht2, Ht1. unfold ws. rewrite write_new_state_trace, Ht0.
    now rewrite <- !app_assoc. }
  apply (state_writes_app _ (smaxxuid s)); [lia | |].
  { destruct Hq0 as [Hq|(sc' & rest & Hn & Hb)]; [now left|].
    right. exists sc', rest. split; [exact Hn | lia]. }
  right. exists sc. eexists.
  rewrite nfp_content_app, nfp_content_lines. cbn [concat].
  rewrite <- app_assoc. split; [reflexivity | lia].
Qed.
#[local] Hint Resolve kp_box_closed_p2 : kpdb.

Lemma kp_box_closed sts t s : smaxx_keeps s (box_closed sts t s).
Proof. unfold box_closed. kp_auto. Qed.
#[local] Hint Resolve kp_box_closed : kpdb.

Lemma kp_sync_close t s : smaxx_keeps s (sync_close t s).
Proof. unfold sync_close. kp_auto. Qed.
#[local] Hint Resolve kp_sync_close : kpdb.

Lemma kp_match_tuids_loop t : forall rs i ntmsg n s,
  smaxx_keeps s (snd (match_tuids_loop t i rs ntmsg n s)).
Proof.
  induction rs as [|srec rs IH]; intros i ntmsg n s; [apply kp_refl|].
  cbn [match_tuids_loop].
  destruct (has (status srec) S_DEAD).
  { specialize (IH (Datatypes.S i) ntmsg n s).
    destruct (match_tuids_loop _ _ rs _ _ _) as [[out n'] s']. exact IH. }
  destruct (_ && _).
  - destruct (lookup_tuid _ _ _) as [[k tmsg]|]; cbn zeta.
    + match goal with |- context [match_tuids_loop t ?a rs ?b ?c ?d] =>
        specialize (IH a b c d);
        destruct (match_tuids_loop t a rs b c d) as [[out n'] s'] end.
      cbn [snd] in *. refine (kp_trans _ _ _ _ IH). kp.
    + match goal with |- context [match_tuids_loop t ?a rs ?b ?c ?d] =>
        specialize (IH a b c d);
        destruct (match_tuids_loop t a rs b c d) as [[out n'] s'] end.
      cbn [snd] in *. refine (kp_trans _ _ _ _ IH). kp.
  - specialize (IH (Datatypes.S i) ntmsg n s).
    destruct (match_tuids_loop _ _ rs _ _ _) as [[out n'] s']. exact IH.
Qed.

Lemma kp_match_tuids t s : smaxx_keeps s (match_tuids t s).
Proof.
  unfold match_tuids.
  pose proof (kp_match_tuids_loop t (srecs s) O None 0 s) as H.
  destruct (match_tuids_loop _ _ _ _ _ _) as [[rs n] s1]. cbn [snd] in H.
  destruct (negb _); kp.
Qed.
#[local] Hint Resolve kp_match_tuids : kpdb.

Lemma kp_msg_copied_p2 i t k uid' s :
  smaxx_keeps s (msg_copied_p2 i t k uid' s).
Proof. unfold msg_copied_p2. kp_auto. Qed.
#[local] Hint Resolve kp_msg_copied_p2 : kpdb.

Lemma kp_msgs_new_done t s : smaxx_keeps s (msgs_new_done t s).
Proof. unfold msgs_new_done. kp_auto. Qed.
#[local] Hint Resolve kp_msgs_new_done : kpdb.

Lemma kp_msgs_copied t s : smaxx_keeps s (msgs_copied t s).
Proof. unfold msgs_copied. kp_auto. Qed.
#[local] Hint Resolve kp_msgs_copied : kpdb.

Lemma kp_msgs_found_new sts t s : smaxx_keeps s (msgs_found_new sts t s).
Proof. unfold msgs_found_new. kp_auto. Qed.
#[local] Hint Resolve kp_msgs_found_new : kpdb.

Lemma kp_msg_copied sts uid' vars s :
  smaxx_keeps s (msg_copied sts uid' vars s).
Proof. unfold msg_copied. kp_auto. Qed.
#[local] Hint Resolve kp_msg_copied : kpdb.

Lemma kp_msg_rtrashed sts vars s : smaxx_keeps s (msg_rtrashed sts vars s).
Proof. unfold msg_rtrashed. kp_auto. Qed.
#[local] Hint Resolve kp_msg_rtrashed : kpdb.

Lemma kp_copy_cb_call sts uid' vars s :
  smaxx_keeps s (copy_cb_call sts uid' vars s).
Proof. unfold copy_cb_call. destruct (cv_cb vars); kp. Qed.
#[local] Hint Resolve kp_copy_cb_call : kpdb.

Lemma kp_copy_msg vars s : smaxx_keeps s (fst (copy_msg vars s)).
Proof. unfold copy_msg. kp_auto. Qed.
#[local] Hint Resolve kp_copy_msg : kpdb.

Lemma kp_msg_fetched sts h vars s :
  smaxx_keeps s (msg_fetched sts h vars s).
Proof. unfold msg_fetched. kp_auto. Qed.
#[local] Hint Resolve kp_msg_fetched : kpdb.

Lemma kp_msg_stored sts uid' vars s :
  smaxx_keeps s (msg_stored sts uid' vars s).
Proof. unfold msg_stored. kp_auto. Qed.
#[local] Hint Resolve kp_msg_stored : kpdb.

Lemma kp_msg_trashed sts t s : smaxx_keeps s (msg_trashed sts t s).
Proof. unfold msg_trashed. kp_auto. Qed.
#[local] Hint Resolve kp_msg_trashed : kpdb.

Lemma kp_load_box t minwuid mexcs s :
  smaxx_keeps s (fst (load_box t minwuid mexcs s)).
Proof. unfold load_box. kp_auto. Qed.
#[local] Hint Resolve kp_load_box : kpdb.

Lemma kp_set_smaxxuid v s :
  smaxxuid s <= v -> smaxx_keeps s (set_smaxxuid v s).
Proof. intros H. apply kp_raise0; [exact H | reflexivity]. Qed.

(** The commit of a flag change: the one function of the engine that
    assigns [smaxxuid], and only a larger value. *)
Lemma kp_flags_set_sync_p2 i t s : smaxx_keeps s (flags_set_sync_p2 i t s).
Proof.
  unfold flags_set_sync_p2.
  destruct (srecs s !! i) as [srec|]; [|apply kp_refl]. cbn zeta.
  match goal with |- context [if ?b then journal "*"%char ?a ?x else s] =>
    assert (smaxx_keeps s (if b then journal "*"%char a x else s)) as H1
      by (destruct b; kp);
    set (s1 := if b then journal "*"%char a x else s) in *
  end.
  clearbody s1. destruct t; [exact H1|].
  destruct (negb (_ =? _)).
  - assert (smaxx_keeps s
              (if negb (Z.land (status srec / S_NEXPIRE) 1 =? 0) &&
                  (smaxxuid s1 <? sel Side.S (uid srec))
               then set_smaxxuid (sel Side.S (uid srec)) s1 else s1)) as H2.
    { destruct (negb _ && _) eqn:E; [|exact H1].
      apply andb_prop in E. destruct E as [_ E]. apply Z.ltb_lt in E.
      apply (kp_trans _ _ _ H1), kp_set_smaxxuid. lia. }
    kp.
  - destruct (negb (_ =? _)); kp.
Qed.
#[local] Hint Resolve kp_flags_set_sync_p2 : kpdb.

Lemma kp_for_range body :
  (forall k s, smaxx_keeps s (fst (body k s))) ->
  forall n k s, smaxx_keeps s (fst (for_range body k n s)).
Proof. apply for_range_rel; [apply kp_refl | apply kp_trans]. Qed.

Lemma kp_for_srecs body :
  (forall i r s, smaxx_keeps s (body i r s)) ->
  forall rs i s, smaxx_keeps s (for_srecs body i rs s).
Proof. apply for_srecs_rel; [apply kp_refl | apply kp_trans]. Qed.

Lemma kp_for_srecs_acc {A} (body : nat -> sync_rec -> sync_vars * A ->
                                   sync_vars * A) :
  (forall i r s a, smaxx_keeps s (fst (body i r (s, a)))) ->
  forall rs i s a, smaxx_keeps s (fst (for_srecs_acc body i rs (s, a))).
Proof.
  intros Hbody. induction rs as [|r rs IH]; intros i s a; [apply kp_refl|].
  cbn [for_srecs_acc]. specialize (Hbody i r s a).
  destruct (body i r (s, a)) as [s1 a1]. cbn [fst] in Hbody.
  exact (kp_trans _ _ _ Hbody (IH _ _ _)).
Qed.

Lemma kp_sync_new_msg nfmalloc rnd t k s :
  smaxx_keeps s (fst (sync_new_msg nfmalloc rnd t k s)).
Proof. unfold sync_new_msg. kp_auto. Qed.

Lemma kp_sync_new_side nfmalloc rnd t s :
  smaxx_keeps s (fst (sync_new_side nfmalloc rnd t s)).
Proof.
  unfold sync_new_side. cbn zeta.
  match goal with |- context [for_range ?b ?k0 ?n0 ?x] =>
    pose proof (kp_for_range b
                  (fun j s0 => kp_sync_new_msg nfmalloc (rnd t j) t j s0)
                  n0 k0 x) as H;
    destruct (for_range b k0 n0 x) as [s1 stop] end.
  cbn [fst] in H.
  assert (smaxx_keeps s s1) as H' by (refine (kp_trans _ _ _ _ H); kp).
  destruct stop; cbn [fst]; kp.
Qed.
#[local] Hint Resolve kp_sync_new_side : kpdb.

Lemma kp_sync_new nfmalloc rnd s :
  smaxx_keeps s (fst (sync_new nfmalloc rnd s)).
Proof. unfold sync_new. kp_auto. Qed.
#[local] Hint Resolve kp_sync_new : kpdb.

Lemma kp_sync_old_side i del t s :
  smaxx_keeps s (fst (sync_old_side i del t s)).
Proof. unfold sync_old_side. kp_auto. Qed.
#[local] Hint Resolve kp_sync_old_side : kpdb.

Lemma kp_sync_old_entry i s : smaxx_keeps s (fst (sync_old_entry i s)).
Proof. unfold sync_old_entry. kp_auto. Qed.

Lemma kp_sync_old n s : smaxx_keeps s (fst (sync_old n s)).
Proof. apply kp_for_range, kp_sync_old_entry. Qed.
#[local] Hint Resolve kp_sync_old : kpdb.

Lemma kp_trash_one t k s : smaxx_keeps s (fst (trash_one t k s)).
Proof. unfold trash_one. kp_auto. Qed.

Lemma kp_msgs_flags_set t s : smaxx_keeps s (fst (msgs_flags_set t s)).
Proof.
  unfold msgs_flags_set. destruct (_ || _); [apply kp_refl|].
  match goal with |- context [if ?b then for_range ?f ?k ?n s else _] =>
    assert (smaxx_keeps s (fst (if b then for_range f k n s else (s, false))))
      as H by (destruct b; [apply kp_for_range, kp_trash_one | apply kp_refl]);
    destruct (if b then for_range f k n s else (s, false)) as [s1 stop]
  end.
  cbn [fst] in H. destruct stop; cbn [fst]; kp.
Qed.
#[local] Hint Resolve kp_msgs_flags_set : kpdb.

Lemma kp_flags_set_del sts i t s : smaxx_keeps s (flags_set_del sts i t s).
Proof. unfold flags_set_del. kp_auto. Qed.
#[local] Hint Resolve kp_flags_set_del : kpdb.

Lemma kp_flags_set_sync sts i aflags dflags t s :
  smaxx_keeps s (flags_set_sync sts i aflags dflags t s).
Proof. unfold flags_set_sync. kp_auto. Qed.
#[local] Hint Resolve kp_flags_set_sync : kpdb.

Lemma kp_flag_cb_call sts cb t s : smaxx_keeps s (flag_cb_call sts cb t s).
Proof. unfold flag_cb_call. destruct cb; kp. Qed.
#[local] Hint Resolve kp_flag_cb_call : kpdb.

Lemma kp_pair_msgs t m : forall n k s s',
  pair_msgs t m n k s = Some s' -> smaxx_keeps s s'.
Proof.
  induction n as [|n IH]; intros k s s'; cbn [pair_msgs].
  - intros [= <-]. apply kp_refl.
  - destruct (_ !! k) as [tmsg|]; [|intros [= <-]; apply kp_refl].
    destruct (m_srec tmsg); [apply IH|].
    destruct (srecmap_find _ _ _ _) as [[i|]|]; [| apply IH | discriminate].
    intros H. apply IH in H. refine (kp_trans _ _ _ _ H). kp.
Qed.

Lemma kp_match_uids hashsz t s s' :
  match_uids hashsz t s = Some s' -> smaxx_keeps s s'.
Proof.
  unfold match_uids. destruct (srecmap_fill _ _ _ _); [|discriminate].
  apply kp_pair_msgs.
Qed.

Lemma kp_sel_min_srec i r s a : smaxx_keeps s (fst (sel_min_srec i r (s, a))).
Proof. unfold sel_min_srec. kp_auto. Qed.

Lemma kp_sel_excs_srec mw i r s a :
  smaxx_keeps s (fst (sel_excs_srec mw i r (s, a))).
Proof. unfold sel_excs_srec. kp_auto. Qed.

Lemma kp_select_master s : smaxx_keeps s (fst (select_master s)).
Proof.
  unfold select_master.
  pose proof (kp_for_srecs_acc sel_min_srec kp_sel_min_srec (srecs s) O s
                INT_MAX) as H1.
  destruct (for_srecs_acc sel_min_srec _ _ _) as [s1 mw]. cbn [fst] in H1.
  pose proof (kp_for_srecs_acc (sel_excs_srec mw) (kp_sel_excs_srec mw)
                (srecs s1) O s1 []) as H2.
  destruct (for_srecs_acc (sel_excs_srec mw) _ _ _) as [s2 ex].
  cbn [fst] in H2. pose proof (kp_trans _ _ _ H1 H2). kp.
Qed.
#[local] Hint Resolve kp_select_master : kpdb.

Lemma kp_expire_mark k s a : smaxx_keeps s (fst (expire_mark k (s, a))).
Proof. unfold expire_mark. kp_auto. Qed.

Lemma kp_expire_marks : forall n k s a,
  smaxx_keeps s (fst (expire_marks n k (s, a))).
Proof.
  induction n as [|n IH]; intros k s a; [apply kp_refl|].
  cbn [expire_marks]. pose proof (kp_expire_mark k s a) as H.
  destruct (expire_mark k (s, a)) as [s1 a1]. cbn [fst] in H.
  exact (kp_trans _ _ _ H (IH _ _ _)).
Qed.

Lemma kp_expire_pre i r s : smaxx_keeps s (expire_pre i r s).
Proof. unfold expire_pre. kp_auto. Qed.

Lemma kp_expire s : smaxx_keeps s (expire s).
Proof.
  unfold expire. destruct (_ && _); [|apply kp_refl]. cbn zeta.
  match goal with |- context [expire_marks ?n ?k (s, ?a)] =>
    pose proof (kp_expire_marks n k s a) as H;
    destruct (expire_marks n k (s, a)) as [s1 a1] end.
  cbn [fst] in H. refine (kp_trans _ _ _ H _).
  apply kp_for_srecs, kp_expire_pre.
Qed.
#[local] Hint Resolve kp_expire : kpdb.

Lemma kp_sync_flags_side i t s : smaxx_keeps s (fst (sync_flags_side i t s)).
Proof. unfold sync_flags_side. kp_auto. Qed.
#[local] Hint Resolve kp_sync_flags_side : kpdb.

Lemma kp_sync_flags_entry i s : smaxx_keeps s (fst (sync_flags_entry i s)).
Proof. unfold sync_flags_entry. kp_auto. Qed.

Lemma kp_sync_flags n s : smaxx_keeps s (fst (sync_flags n s)).
Proof. apply kp_for_range, kp_sync_flags_entry. Qed.
#[local] Hint Resolve kp_sync_flags : kpdb.

Lemma kp_flags_sent_side t s : smaxx_keeps s (fst (flags_sent_side t s)).
Proof. unfold flags_sent_side. kp_auto. Qed.
#[local] Hint Resolve kp_flags_sent_side : kpdb.

Lemma kp_box_loaded nfmalloc rnd hashsz sts t s s' :
  box_loaded nfmalloc rnd hashsz sts t s = Some s' -> smaxx_keeps s s'.
Proof.
  unfold box_loaded.
  pose proof (kp_check_ret sts s) as H0.
  destruct (check_ret sts s) as [s0 stop]. cbn [fst] in H0.
  destruct stop; [now intros [= <-]|]. cbn zeta.
  match goal with |- context [match_uids hashsz t ?x] =>
    assert (smaxx_keeps s x) as H2 by (destruct (has _ S_FIND); kp);
    set (s2 := x) in *; clearbody s2
  end.
  destruct (match_uids hashsz t s2) as [s3|] eqn:E3; [|discriminate].
  apply kp_match_uids in E3. pose proof (kp_trans _ _ _ H2 E3) as H3.
  destruct (_ && _); [intros [= <-]; kp|].
  destruct (negb _); [now intros [= <-]|].
  match goal with |- context [sync_new nfmalloc rnd ?x] =>
    assert (smaxx_keeps s x) as H4 by (destruct (_ || _); kp);
    set (s4 := x) in *; clearbody s4
  end.
  pose proof (kp_sync_new nfmalloc rnd s4) as H5.
  destruct (sync_new nfmalloc rnd s4) as [s5 st5]. cbn [fst] in H5.
  pose proof (kp_trans _ _ _ H4 H5) as H5'.
  destruct st5; [now intros [= <-]|].
  match goal with |- context [sync_old ?n s5] =>
    pose proof (kp_sync_old n s5) as H6;
    destruct (sync_old n s5) as [s6 st6] end.
  cbn [fst] in H6. pose proof (kp_trans _ _ _ H5' H6) as H6'.
  destruct st6; [now intros [= <-]|].
  match goal with |- context [sync_flags ?n (expire s6)] =>
    pose proof (kp_sync_flags n (expire s6)) as H7;
    destruct (sync_flags n (expire s6)) as [s7 st7] end.
  cbn [fst] in H7.
  pose proof (kp_trans _ _ _ H6' (kp_trans _ _ _ (kp_expire s6) H7)) as H7'.
  destruct st7; [now intros [= <-]|].
  pose proof (kp_flags_sent_side Side.M s7) as H8.
  destruct (flags_sent_side Side.M s7) as [s8 st8]. cbn [fst] in H8.
  pose proof (kp_trans _ _ _ H7' H8) as H8'.
  destruct st8; intros [= <-]; kp.
Qed.

Lemma engine_call_keeps s s' : engine_call s s' -> smaxx_keeps s s'.
Proof.
  destruct 1;
    eauto using kp_box_loaded, kp_match_uids with kpdb.
Qed.

(** *** Reading the state file and the journal *)

Lemma smaxx_outcome_le s s' : smaxx_outcome s s' -> smaxxuid s <= smaxxuid s'.
Proof. intros [->|[H _]]; lia. Qed.

Lemma replay_lines_smaxx nfmalloc lines : forall line s c s' c',
  replay_lines nfmalloc lines line (s, c) = inr (s', c') ->
  smaxxuid s <= smaxxuid s'.
Proof.
  induction lines as [|buf lines IH]; intros line s c s' c';
    cbn [replay_lines].
  - intros [= <- _]. lia.
  - destruct (incomplete buf); [discriminate|].
    destruct (parse_jline (c_str buf)) as [e|]; [|discriminate].
    destruct (replay_entry nfmalloc (Datatypes.S line) e (s, c))
      as [d|[s1 c1]] eqn:He; [discriminate|].
    intros H. apply IH in H.
    apply replay_entry_smaxx, smaxx_outcome_le in He. lia.
Qed.

Lemma load_journal_smaxx nfmalloc f new_exists s s' line :
  load_journal nfmalloc f new_exists s = inr (s', line) ->
  smaxxuid s <= smaxxuid s'.
Proof.
  unfold load_journal, replay_journal.
  destruct f as [content| |]; [| intros [= <- _]; lia | discriminate].
  destruct new_exists; [|intros [= <- _]; lia].
  destruct (file_lines content) as [|buf lines]; [intros [= <- _]; lia|].
  destruct (incomplete buf); [discriminate|].
  destruct (negb _); [discriminate|].
  destruct (replay_lines nfmalloc lines 1 (s, None)) as [d|[s1 c]] eqn:Hr;
    [discriminate|].
  intros [= <- _]. eapply replay_lines_smaxx; eauto.
Qed.

Lemma load_entries_smaxx nfmalloc lines : forall line s s',
  load_entries nfmalloc lines line s = inr s' -> smaxxuid s' = smaxxuid s.
Proof.
  induction lines as [|buf lines IH]; intros line s s'; cbn [load_entries].
  - now intros [= <-].
  - destruct (incomplete buf); [discriminate|].
    destruct (parse_entry (c_str buf)) as [[[t1 t2] fbuf]|]; [|discriminate].
    intros H. apply IH in H. exact H.
Qed.

(** The header read: [smaxxuid] is the value that the state file holds. *)
Lemma load_state_smaxx nfmalloc f s s' x :
  load_state nfmalloc f s = inr s' -> stored_smaxxuid f = Some x ->
  smaxxuid s' = x.
Proof.
  unfold load_state, stored_smaxxuid.
  destruct f as [content| |]; [| discriminate | discriminate].
  destruct (file_lines content) as [|buf lines]; [discriminate|].
  destruct (incomplete buf); [discriminate|].
  destruct (parse_header (c_str buf)) as [[[[[uvM muM] uvS] sx] muS]|];
    [|discriminate].
  intros H [= <-]. apply load_entries_smaxx in H. exact H.
Qed.

Lemma no_change_before_journal e :
  no_change e = true -> before_journal e = true.
Proof. now destruct e as [| | |[]| |]. Qed.

Lemma before_journal_no_write e :
  before_journal e = true -> no_state_write e = true.
Proof. now destruct e as [| | |[]| |]. Qed.

Lemma bj_sync_bail2 s : extends before_journal s (sync_bail2 s).
Proof.
  apply (extends_weaken no_change); [apply no_change_before_journal|].
  apply sync_deref_extends.
Qed.

Lemma bj_sync_bail1 s : extends before_journal s (sync_bail1 s).
Proof.
  unfold sync_bail1.
  eapply extends_trans; [apply extends_emit|apply bj_sync_bail2]. reflexivity.
Qed.

Lemma bj_sync_bail s : extends before_journal s (sync_bail s).
Proof.
  apply (extends_weaken no_change); [apply no_change_before_journal|].
  apply sync_bail_extends.
Qed.

Lemma nsw_load_box t minwuid mexcs s :
  extends no_state_write s (fst (load_box t minwuid mexcs s)).
Proof.
  unfold load_box. cbn zeta.
  match goal with |- context [DRIVER_CALL t ?c s] =>
    destruct (DRIVER_CALL_rest t c s) as (_ & _ & _ & _ & _ & cb & Ht & Hcb)
  end.
  eexists. split; [exact Ht|]. cbn [forallb]. apply andb_true_intro.
  split; [reflexivity|]. apply forallb_forall. intros e He.
  rewrite Forall_forall in Hcb. apply list_elem_of_In in He.
  destruct (Hcb e He) as (r & ->). reflexivity.
Qed.

Create HintDb bjdb.
#[local] Hint Resolve bj_sync_bail2 bj_sync_bail1 bj_sync_bail nsw_load_box
  : bjdb.

(** One step of a proof that a function adds certain effects only. *)
Ltac ext_peel :=
  lazymatch goal with
  | |- extends _ ?s ?s => apply extends_refl
  | H : extends ?P ?s ?x |- extends ?P ?s ?x => exact H
  | |- extends _ ?s (fst (?f ?x)) =>
      apply (extends_trans _ s x); [| solve [auto 2 with bjdb]]
  | |- extends _ ?s (?f ?x) =>
      apply (extends_trans _ s x);
      [| first [ solve [auto 2 with bjdb]
               | apply extends_same; reflexivity
               | apply extends_emit; reflexivity ] ]
  end.

Ltac ext := repeat ext_peel.

(** A run of [box_selected] that fails ends before the journal is opened
    for appending. *)
Lemma load_failed s s' (Q : Prop) :
  extends before_journal s s' ->
  extends no_state_write s s' /\
  (In (EFile Open_journal_a) (events_since s s') -> Q).
Proof.
  intros H. split; [exact (extends_weaken _ _ _ _ before_journal_no_write H)|].
  destruct H as (evs & Ht & Hall). rewrite (events_since_app _ _ _ Ht).
  intros Hin. rewrite forallb_forall in Hall. apply Hall in Hin.
  discriminate.
Qed.

(** [box_selected] writes nothing to the state files, and when it gets
    as far as opening the journal for appending, it leaves in [smaxxuid]
    the value of the state file or a larger one that the journal holds. *)
Lemma box_selected_load_smaxx nfmalloc drv_opts fs s :
  let s' := box_selected_load nfmalloc drv_opts fs s in
  extends no_state_write s s' /\
  (In (EFile Open_journal_a) (events_since s s') ->
   forall x, stored_smaxxuid (fs_state fs) = Some x -> x <= smaxxuid s').
Proof.
  cbn zeta. unfold box_selected_load.
  destruct (negb (fs_dir_ok fs)); [apply load_failed; ext|].
  cbn [lfd set_lfd].
  destruct (fs_lock_fd fs <? 0); [apply load_failed; ext|].
  set (sl := emit (EFile Open_lock) (set_lfd (fs_lock_fd fs) s)).
  assert (extends before_journal s sl) as Hl by (unfold sl; ext).
  clearbody sl.
  destruct (negb (fs_lock_ok fs)); [apply load_failed; ext|].
  destruct (load_state nfmalloc (fs_state fs) sl) as [d|s1] eqn:Hst;
    [apply load_failed; unfold bail; ext|].
  pose proof (load_state_world _ _ _ _ Hst) as W1.
  assert (extends before_journal s s1) as H1.
  { eapply extends_trans; [exact Hl|]. apply extends_same, W1. }
  destruct (load_journal nfmalloc (fs_journal fs) (fs_new_exists fs) s1)
    as [d|[s2 line]] eqn:Hjn; [apply load_failed; unfold bail; ext|].
  pose proof (load_journal_world _ _ _ _ _ _ Hjn) as W2.
  assert (extends before_journal s s2) as H2.
  { eapply extends_trans; [exact H1|]. apply extends_same, W2. }
  assert (forall x, stored_smaxxuid (fs_state fs) = Some x ->
                    x <= smaxxuid s2) as Hx2.
  { intros x Hx. rewrite <- (load_state_smaxx _ _ _ _ _ Hst Hx).
    eapply load_journal_smaxx; eauto. }
  clear Hst Hjn W1 W2 H1 Hl.
  destruct (_ || _).
  { apply load_failed. unfold uidval_diag.
    destruct (uidval_changed Side.M s2);
      match goal with |- context [uidval_changed Side.S ?y] =>
        destruct (uidval_changed Side.S y) end; ext. }
  destruct (negb (fs_new_w fs)); [apply load_failed; unfold bail; ext|].
  destruct (negb (fs_journal_a fs)); [apply load_failed; ext|].
  apply (extends_weaken _ _ _ _ before_journal_no_write) in H2.
  cbn zeta.
  match goal with
  | |- context [match ?p with (o, sta) => _ end] => destruct p as [o sta]
  end.
  match goal with
  | |- context [load_box Side.S _ [] ?y] => set (s7 := y)
  end.
  assert (extends no_state_write s s7 /\ smaxxuid s7 = smaxxuid s2)
    as (H7 & Hx7).
  { unfold s7. split; [destruct (line =? 0)%nat; ext|].
    now destruct (line =? 0)%nat. }
  clearbody s7.
  destruct (smaxxuid s7 =? 0).
  - match goal with |- context [load_box Side.M ?mw [] s7] =>
      pose proof (nsw_load_box Side.M mw [] s7) as H8;
      pose proof (kp_load_box Side.M mw [] s7) as K8;
      destruct (load_box Side.M mw [] s7) as [s8 stop]
    end.
    cbn [fst] in H8, K8. destruct K8 as [K8 _].
    pose proof (extends_trans _ _ _ _ H7 H8) as H8'.
    destruct stop.
    + split; [exact H8'|].
      intros _ x Hx. specialize (Hx2 x Hx). lia.
    + match goal with |- context [load_box Side.S ?mw [] s8] =>
        destruct (kp_load_box Side.S mw [] s8) as [K9 _]
      end.
      split; [ext|].
      intros _ x Hx. specialize (Hx2 x Hx). lia.
  - match goal with |- context [load_box Side.S ?mw [] s7] =>
      destruct (kp_load_box Side.S mw [] s7) as [K9 _]
    end.
    split; [ext|].
    intros _ x Hx. specialize (Hx2 x Hx). lia.
Qed.

(** *** The header of the state file, for any values *)

Lemma fmt_d_plain_any z : Forall (fun c => plainb c = true) (fmt_d z).
Proof.
  unfold fmt_d. destruct (z <? 0) eqn:Hneg.
  - apply Z.ltb_lt in Hneg. constructor; [reflexivity|].
    eapply Forall_impl; [apply dec_digits_digits; lia |].
    intros c. apply isdigit_plain.
  - apply Z.ltb_ge in Hneg.
    eapply Forall_impl; [apply dec_digits_digits; lia |].
    intros c. apply isdigit_plain.
Qed.

Lemma scan_digits_all ds : forall a r,
  Forall (fun c => isdigit c = true) ds -> no_digit_head r ->
  exists v, scan_digits a (ds ++ r) = (v, r).
Proof.
  induction ds as [|c ds IH]; intros a r Hall Hr.
  - exists a. now apply scan_digits_stop.
  - inversion Hall as [|? ? Hc Hds]; subst. cbn [app scan_digits].
    rewrite Hc. now apply IH.
Qed.

Lemma scan_d_fmt_d_any z r :
  no_digit_head r -> exists v, scan_d (fmt_d z ++ r) = Some (v, r).
Proof.
  intros Hr. unfold fmt_d. destruct (z <? 0) eqn:Hneg.
  - apply Z.ltb_lt in Hneg.
    destruct (scan_digits_all (dec_digits 10 (- z)) 0 r) as (v & Hv);
      [apply dec_digits_digits; lia | exact Hr|].
    pose proof (scan_d_digits (dec_digits 10 (- z)) r v true) as H.
    cbn [app] in H. cbn [app]. rewrite H; eauto.
    apply dec_digits_head. lia.
  - apply Z.ltb_ge in Hneg.
    destruct (scan_digits_all (dec_digits 10 z) 0 r) as (v & Hv);
      [apply dec_digits_digits; lia | exact Hr|].
    pose proof (scan_d_digits (dec_digits 10 z) r v false) as H.
    cbn [app] in H. rewrite H; eauto.
    apply dec_digits_head. lia.
Qed.

Lemma fmt_d_nonempty_any z : fmt_d z <> [].
Proof.
  unfold fmt_d. destruct (z <? 0) eqn:Hneg; [discriminate|].
  apply Z.ltb_ge in Hneg.
  destruct (dec_digits_head 9 z Hneg) as (c & l & -> & _). discriminate.
Qed.

Lemma state_header_line_wf_any s : wf_line (state_header_line s).
Proof.
  unfold state_header_line.
  pose proof (fmt_d_length (sel Side.M (uidval s))).
  pose proof (fmt_d_length (sel Side.M (maxuid s))).
  pose proof (fmt_d_length (sel Side.S (uidval s))).
  pose proof (fmt_d_length (smaxxuid s)).
  pose proof (fmt_d_length (sel Side.S (maxuid s))).
  exists (fmt_d (sel Side.M (uidval s)) ++ ":"%char ::
          fmt_d (sel Side.M (maxuid s)) ++ SP ::
          fmt_d (sel Side.S (uidval s)) ++ ":"%char ::
          fmt_d (smaxxuid s) ++ ":"%char :: fmt_d (sel Side.S (maxuid s))).
  split; [|split].
  - repeat (rewrite <- ?app_assoc; cbn [app]). reflexivity.
  - repeat (apply Forall_app; split;
            [apply plain_lines, fmt_d_plain_any|];
            constructor; [reflexivity|]).
    apply plain_lines, fmt_d_plain_any.
  - repeat (rewrite length_app; cbn [length]). unfold BUFSZ. lia.
Qed.

(** The fourth number of a header line is read back as it was written,
    whatever the others are. *)
Lemma parse_header_smaxx s :
  is_int (smaxxuid s) ->
  exists uvM muM uvS muS,
    parse_header (state_header_line s)
    = Some (uvM, muM, uvS, smaxxuid s, muS).
Proof.
  intros H4. unfold parse_header, state_header_line.
  pose proof (fmt_d_length (sel Side.M (uidval s))).
  pose proof (fmt_d_length (sel Side.M (maxuid s))).
  pose proof (fmt_d_length (sel Side.S (uidval s))).
  pose proof (fmt_d_length (smaxxuid s)).
  pose proof (fmt_d_length (sel Side.S (maxuid s))).
  replace (fmt_d (sel Side.M (uidval s)) ++ ":"%char ::
           fmt_d (sel Side.M (maxuid s)) ++ SP ::
           fmt_d (sel Side.S (uidval s)) ++ ":"%char ::
           fmt_d (smaxxuid s) ++ ":"%char ::
           fmt_d (sel Side.S (maxuid s)) ++ [NL])
    with ((fmt_d (sel Side.M (uidval s)) ++ ":"%char ::
           fmt_d (sel Side.M (maxuid s))) ++ SP ::
          (fmt_d (sel Side.S (uidval s)) ++ ":"%char ::
           fmt_d (smaxxuid s) ++ ":"%char ::
           fmt_d (sel Side.S (maxuid s))) ++ [NL])
    by (repeat (rewrite <- ?app_assoc; cbn [app]); reflexivity).
  rewrite sscanf_s_s_tokens.
  - cbn [mbind option_bind]. unfold sscanf_d_d, sscanf_d_d_d.
    destruct (scan_d_fmt_d_any (sel Side.M (uidval s))
                (":"%char :: fmt_d (sel Side.M (maxuid s))) eq_refl)
      as (uvM & ->).
    cbn [mbind option_bind scan_lit]. change (Ascii.eqb ":" ":") with true.
    cbn iota. cbn [mbind option_bind].
    destruct (scan_d_fmt_d_any (sel Side.M (maxuid s)) [] I) as (muM & E).
    rewrite app_nil_r in E. rewrite E. cbn [mbind option_bind].
    destruct (scan_d_fmt_d_any (sel Side.S (uidval s))
                (":"%char :: fmt_d (smaxxuid s) ++ ":"%char ::
                 fmt_d (sel Side.S (maxuid s))) eq_refl)
      as (uvS & ->).
    cbn [mbind option_bind scan_lit]. change (Ascii.eqb ":" ":") with true.
    cbn iota. cbn [mbind option_bind].
    rewrite scan_d_fmt_d by (auto; reflexivity).
    cbn [mbind option_bind scan_lit]. change (Ascii.eqb ":" ":") with true.
    cbn iota. cbn [mbind option_bind].
    destruct (scan_d_fmt_d_any (sel Side.S (maxuid s)) [] I) as (muS & E').
    rewrite app_nil_r in E'. rewrite E'. cbn [mbind option_bind].
    eauto 10.
  - apply app_cons_nonempty.
  - apply app_cons_nonempty.
  - apply Forall_app. split; [apply fmt_d_plain_any|].
    constructor; [reflexivity | apply fmt_d_plain_any].
  - apply Forall_app. split; [apply fmt_d_plain_any|].
    constructor; [reflexivity |].
    apply Forall_app. split; [apply fmt_d_plain_any|].
    constructor; [reflexivity | apply fmt_d_plain_any].
  - rewrite length_app. cbn [length]. lia.
  - rewrite length_app. cbn [length]. rewrite length_app. cbn [length]. lia.
Qed.

(** A state file that begins with the header of [s] holds [smaxxuid s]. *)
Lemma stored_header s rest :
  is_int (smaxxuid s) ->
  stored_smaxxuid (Opened (state_header_line s ++ rest)) = Some (smaxxuid s).
Proof.
  intros Hx. unfold stored_smaxxuid, file_lines.
  pose proof (state_header_line_wf_any s) as Hwf.
  destruct (Hwf) as (body & E & Hb & Hlen).
  rewrite E at 1. rewrite <- app_assoc. cbn [app].
  rewrite fgets_lines_line by assumption. cbn [rev app].
  rewrite <- E, (wf_line_complete _ Hwf), (wf_line_c_str _ Hwf).
  destruct (parse_header_smaxx s Hx) as (a & b & c & d & ->). reflexivity.
Qed.

(** The numbers that are read from a file are [int]s. *)
Lemma scan_d_int s v r : scan_d s = Some (v, r) -> is_int v.
Proof.
  unfold scan_d.
  destruct (match skip_space s with
            | [] => (false, skip_space s)
            | c :: r0 => _ end) as [neg s1].
  destruct s1 as [|c s1]; [discriminate|].
  destruct (isdigit c); [|discriminate].
  destruct (scan_digits 0 (c :: s1)) as [v0 r0]. intros [= <- _].
  unfold is_int, wrap_int, INT_MIN, INT_MAX.
  match goal with |- context [?a mod ?b] =>
    pose proof (Z.mod_pos_bound a b ltac:(lia)) end.
  lia.
Qed.

Lemma stored_smaxxuid_int f x : stored_smaxxuid f = Some x -> is_int x.
Proof.
  unfold stored_smaxxuid. destruct f as [content| |]; try discriminate.
  destruct (file_lines content) as [|buf lines]; [discriminate|].
  destruct (incomplete buf); [discriminate|].
  unfold parse_header, sscanf_d_d, sscanf_d_d_d.
  destruct (sscanf_s_s (c_str buf)) as [[b1 b2]|]; [|discriminate].
  cbn [mbind option_bind].
  destruct (scan_d b1) as [[a r1]|]; [|discriminate]. cbn [mbind option_bind].
  destruct (scan_lit ":" r1) as [r2|]; [|discriminate].
  cbn [mbind option_bind].
  destruct (scan_d r2) as [[b r3]|]; [|discriminate]. cbn [mbind option_bind].
  destruct (scan_d b2) as [[c r4]|]; [|discriminate]. cbn [mbind option_bind].
  destruct (scan_lit ":" r4) as [r5|]; [|discriminate].
  cbn [mbind option_bind].
  destruct (scan_d r5) as [[d r6]|] eqn:Hd; [|discriminate].
  cbn [mbind option_bind].
  destruct (scan_lit ":" r6) as [r7|]; [|discriminate].
  cbn [mbind option_bind].
  destruct (scan_d r7) as [[e r8]|]; [|discriminate]. cbn [mbind option_bind].
  intros [= <-]. eapply scan_d_int; eauto.
Qed.

(** *** Runs *)

(** What holds after the load and any number of calls: [smaxxuid] is at
    least the value [x] of the state file, and if the run has written to
    [state.new], it began with a header that holds a value between [x]
    and the present one. *)
Lemma smaxx_run_keeps fs s0 s x :
  smaxx_run fs s0 s -> stored_smaxxuid (fs_state fs) = Some x ->
  x <= smaxxuid s /\
  exists evs, trace s = trace s0 ++ evs /\ state_writes x (smaxxuid s) evs.
Proof.
  intros Hrun Hx. induction Hrun as [nfmalloc drv_opts H0|s s' _ IH Hc].
  - destruct (box_selected_load_smaxx nfmalloc drv_opts fs s0)
      as ((evs & Ht & Hq) & Hle).
    split; [now apply Hle|]. exists evs. split; [exact Ht | now left].
  - destruct IH as (Hle & evs & Ht & Hw).
    destruct (engine_call_keeps _ _ Hc) as (Hle' & evs' & Ht' & Hw').
    split; [lia|]. exists (evs ++ evs').
    split; [now rewrite Ht', Ht, app_assoc|].
    apply (state_writes_app _ (smaxxuid s)); [lia | exact Hw | exact Hw'].
Qed.

Lemma is_int_between a b c : is_int a -> is_int c -> a <= b <= c -> is_int b.
Proof. unfold is_int. lia. Qed.

(** The state file that a run leaves holds a value of [smaxxuid] that is
    not below the one it found. *)
Lemma smaxx_run_file fs s0 s x :
  smaxx_run fs s0 s -> is_int (smaxxuid s) ->
  stored_smaxxuid (fs_state fs) = Some x ->
  exists y,
    stored_smaxxuid (state_file_after (fs_state fs) (events_since s0 s))
    = Some y /\ x <= y <= smaxxuid s.
Proof.
  intros Hrun Hint Hx.
  destruct (smaxx_run_keeps _ _ _ _ Hrun Hx) as (Hle & evs & Ht & Hw).
  rewrite (events_since_app _ _ _ Ht). unfold state_file_after.
  destruct Hw as [Hq|(sc & rest & Hn & Hb)].
  - rewrite (quiet_no_rename _ Hq). exists x. split; [exact Hx | lia].
  - destruct (existsb is_rename evs); [|exists x; split; [exact Hx | lia]].
    exists (smaxxuid sc). split; [|exact Hb]. rewrite Hn.
    apply stored_header.
    exact (is_int_between _ _ _ (stored_smaxxuid_int _ _ Hx) Hint Hb).
Qed.

(** C6. [smaxxuid] never decreases.  (1) Each of the two operations that
    assign it after the state file is read -- the commit of an expiration
    in [flags_set_sync_p2] and the replay of a journal entry -- leaves it
    as it is or replaces it with the slave UID of a sync record, strictly
    larger than the value it found.  (2) No function of the engine
    decreases it.  (3) In a run -- [box_selected] reads the state file
    and, if there is one, the journal, then the functions of the engine
    are called in any order -- it is never below the value that the state
    file holds.  (4) Over any sequence of runs, each reading the state
    file that the one before it left (the one it found, or the one that
    [box_closed_p2] has written and renamed), the value that the state
    file holds never decreases. *)
Theorem smaxxuid_monotone :
  (forall s s', smaxx_update s s' -> smaxx_outcome s s') /\
  (forall s s', engine_call s s' -> smaxxuid s <= smaxxuid s') /\
  (forall fs s0 s x,
     smaxx_run fs s0 s -> stored_smaxxuid (fs_state fs) = Some x ->
     x <= smaxxuid s) /\
  (forall f f' x,
     smaxx_runs f f' -> stored_smaxxuid f = Some x ->
     exists y, stored_smaxxuid f' = Some y /\ x <= y).
Proof.
  split; [exact smaxx_update_outcome|].
  split; [intros s s' H; apply (engine_call_keeps _ _ H)|].
  split; [intros fs s0 s x H Hx; apply (smaxx_run_keeps _ _ _ _ H Hx)|].
  intros f f' x Hruns Hx.
  induction Hruns as [f|f fs nfmalloc drv_opts s0 _ IH|f fs s0 s _ IH Hrun Hint].
  - exists x. split; [exact Hx | lia].
  - destruct (IH Hx) as (x' & Hx' & Hle). exists x'. split; [|exact Hle].
    destruct (box_selected_load_smaxx nfmalloc drv_opts fs s0)
      as ((evs & Ht & Hq) & _).
    rewrite (events_since_app _ _ _ Ht). unfold state_file_after.
    now rewrite (quiet_no_rename _ Hq).
  - destruct (IH Hx) as (x' & Hx' & Hle).
    destruct (smaxx_run_file _ _ _ _ Hrun Hint Hx') as (y & Hy & Hb).
    exists y. split; [exact Hy | lia].
Qed.

Lemma smaxxuid_monotone_witness :
  stored_smaxxuid (Opened state_file_57) = Some 0 /\
  smaxx_run fs_expired (set_srecs [] expiring_state) run_expired /\
  0 <= smaxxuid run_expired /\
  smaxx_runs (Opened state_file_57)
    (state_file_after (Opened state_file_57)
       (events_since (set_srecs [] expiring_state) run_expired)) /\
  exists y,
    stored_smaxxuid
      (state_file_after (Opened state_file_57)
         (events_since (set_srecs [] expiring_state) run_expired))
    = Some y /\ 0 <= y /\ y = 7.
Proof.
  assert (stored_smaxxuid (Opened state_file_57) = Some 0) as Hx
    by (vm_compute; reflexivity).
  assert (smaxx_run fs_expired (set_srecs [] expiring_state) run_expired)
    as Hrun.
  { unfold run_expired.
    eapply smaxx_run_call; [|apply call_box_closed].
    eapply smaxx_run_call; [|apply call_box_closed].
    apply smaxx_run_load. vm_compute. tauto. }
  assert (smaxx_runs (Opened state_file_57)
            (state_file_after (Opened state_file_57)
               (events_since (set_srecs [] expiring_state) run_expired)))
    as Hruns.
  { assert (is_int (smaxxuid run_expired)) as Hint
      by (vm_compute; split; discriminate).
    exact (smaxx_runs_next _ fs_expired _ _ (smaxx_runs_nil _) Hrun Hint). }
  destruct smaxxuid_monotone as (_ & _ & H3 & H4).
  split; [exact Hx|]. split; [exact Hrun|].
  split; [exact (H3 _ _ _ _ Hrun Hx)|]. split; [exact Hruns|].
  destruct (H4 _ _ _ Hruns Hx) as (y & Hy & Hle).
  exists y. split; [exact Hy|]. split; [exact Hle|].
  assert (stored_smaxxuid
            (state_file_after (Opened state_file_57)
               (events_since (set_srecs [] expiring_state) run_expired))
          = Some 7) as E by (vm_compute; reflexivity).
  congruence.
Defined.

